(* ===== verification/_CoqProject ===== *)
-Q . S2P
Prelude.v
Errors.v
Platform.v
FlatPlatform.v
Host.v
VirtioMmio.v
Chains.v
Console.v
Block.v
Net.v
Fs.v
Kvm.v
Memory.v
Vcpu.v
KernelLoader.v
Bootloader.v
Serde.v
Snapshot.v
Vm.v
RunLoop.v
Main.v
FlatKvm.v
Witnesses.v
MachineWitnesses.v
