(* ===== verification/Prelude.v ===== *)
(** * MO-VM: a verification library for the rust-hypervisor crate

    The repository is a KVM-based hypervisor (src/rust-hypervisor/src).  The
    program parses its options (main.rs), creates a virtual machine (vm.rs) from
    guest memory (memory.rs) and vCPUs (vcpu.rs), attaches virtio devices
    (virtio/), loads a kernel (kernel_loader.rs) or a boot sector
    (bootloader.rs), runs one thread per vCPU, and saves or restores snapshots
    (snapshot.rs).  This library models those files and proves what they do.

    ** Outcomes and state

    A Rust call returns Ok, returns Err or panics: [res], with a fourth value
    for a loop of the model whose fuel ran out.  Code that mutates is a program
    [prog S E A := S -> S * res E A] over the state it can reach, in a state and
    error monad; an error keeps the changes made before it.  Machine integers
    are Z with their width in the operations ([add_u64], [as_u32], ...), whose
    overflow panics or wraps with the build profile ([BuildProfile]).

    ** Files

    - Prelude: outcomes, the monad, machine integers, formatting, automation.
    - Errors: [HypervisorError] of error.rs, its texts and conversions.
    - Platform, Host, Kvm: what the crate calls and the repository does not
      contain.  vm-memory, virtio-queue and vmm-sys-util ([MemoryApi],
      [QueueApi], [EventApi]) and KVM ([KvmApi]) are classes of operations with
      classes of laws; files, stdout and UDP sockets are states with operations.
      KVM's laws say which registers two ioctls share (EFER is an MSR and a
      special register) and that any setter may refuse.  Where a queue's rings
      are is the driver's choice; that they are apart ([rings_apart]) is a
      hypothesis of the theorems that need it.
    - FlatPlatform, FlatKvm: instances of all those classes on which the models
      compute.  They show that the laws can hold together.
    - VirtioMmio: virtio/mod.rs and virtio/mmio.rs.  The trait [VirtioDevice] is
      a class; the transport is proved against it.
    - Chains: the walk over a descriptor chain and the drain of a queue, shared
      by the devices.  [payload_of] specifies the bytes a chain carries and
      [drained] a transmit queue.
    - Console, Block, Net, Fs: virtio/console.rs, block.rs, net.rs and fs.rs, the
      instances of [VirtioDevice].
    - Memory, Vcpu: memory.rs and vcpu.rs.
    - KernelLoader: kernel_loader.rs, specified by the processor's page walk and
      by the image of the segments.
    - Bootloader: bootloader.rs, specified by an interpreter for the
      instructions of its BIOS.
    - Serde, Snapshot: snapshot.rs, the format and the manager.  serde's own
      deserializers and the format are parameters ([SerdeApi], [SelfDescribing]).
    - Vm: vm.rs but for [run]; RunLoop: [run], its threads a step relation with
      an executable scheduler that is sound for it; Main: main.rs.
    - Witnesses, MachineWitnesses: the theorems at concrete inputs.

    ** What the theorems show

    - Loading.  The page tables translate exactly the first 4 GB to themselves;
      the boot parameters and the command line are where the kernel looks for
      them; outside them memory is the segments' image; which kernels load, and
      when the loader panics.  The boot sector and the interrupt handlers work
      as intended, vCPUs start in the right mode with the right registers.
    - Memory and machine.  The layout, the KVM slots cover exactly the RAM, what
      a new machine is, which devices a boot attaches and where.
    - Devices.  Console and network transmit queues are refinements of the
      drain of a queue; a read-only disk never changes; the two request loops of
      the block device agree; ACL checks are sound; the shared window reads back
      what was written.  The transmit queues of console and network and the
      event handler of the share terminate on queues whose rings are apart, and
      so does the walk over one block request on any queue; nothing is claimed of
      the block device's loop over its queue, since the data it stores may
      rewrite the rings, or of the network's receive loop.
    - Snapshots.  Restoring what was saved gives the machine back, unless the
      kernel refuses its registers; which states a format can read back; regions
      that do not fit are refused.
    - Runs.  A shutdown terminates under every schedule, [run] returns only after
      a vCPU error; when a run does not end, and what the exit code says.
    - Limits of the program as written: device windows lie in RAM, the transport
      cannot set a queue up, block requests ignore their sector, received packets
      are dropped, snapshot files cannot be loaded.

    ** Fuel

    Loops over a virtqueue take fuel.  The theorems on them ask for more fuel
    than chains available ([q_pending]); the laws of [QueueApi] make every pop
    decrease that number, and completing a chain keeps it when the rings are
    apart.  Walks over one chain are bounded by the chain's own
    budget, as in virtio-queue.  [chunks_fuel] gets the length of the list and
    [isr] the length of the longest handler.  Every other function is
    structural.

    ** Not modelled

    Logging (except where it evaluates an argument that can overflow), clap's
    parsing, goblin, serde's derive output beyond the fields, the bytes of bincode
    and of other formats, the unused stubs for 9P messages, poisoning of the locks
    inside the share's state, what the guest executes, atomicity finer than one
    access to shared state (all accesses are sequentially consistent in the
    source; serving an exit holds the devices' lock), the crate's tests.

    ** Plan

    The core of every source file is modelled.  Next: an abstract machine that
    [VirtualMachine] and [run] refine together; fairness, so that a guest that
    exits makes [run] return; the descriptor layout in guest memory of
    virtio-queue as a second instance of [QueueApi]; a bincode encoder with its
    own round trip. *)

From Stdlib Require Import HexadecimalString.
From coqutil Require Z.bitblast.
From coqutil Require Export Byte Word.LittleEndianList.
From stdpp Require Export base tactics list gmap strings pretty numbers.

#[global] Open Scope Z_scope.

(** ** Outcomes of Rust code

    A Rust call returns [Ok], returns [Err] or panics.  [OutOfFuel] is the
    fourth outcome of the model only: a loop whose fuel was too small. *)

Inductive res (E A : Type) : Type :=
| Ok (a : A)
| Err (e : E)
| Panic
| OutOfFuel.

Arguments Ok {E A} a.
Arguments Err {E A} e.
Arguments Panic {E A}.
Arguments OutOfFuel {E A}.

#[global] Instance res_eq_dec {E A} `{EqDecision E, EqDecision A} : EqDecision (res E A).
Proof. solve_decision. Defined.

(** Stateful, fallible code: the state survives an error, as the effects done
    before a [?] returns survive in Rust. *)
Definition prog (S E A : Type) : Type := S → S * res E A.

#[global] Instance prog_ret {S E} : MRet (prog S E) := λ A a s, (s, Ok a).

#[global] Instance prog_bind {S E} : MBind (prog S E) := λ A B f m s,
  match m s with
  | (s', Ok a) => f a s'
  | (s', Err e) => (s', Err e)
  | (s', Panic) => (s', Panic)
  | (s', OutOfFuel) => (s', OutOfFuel)
  end.

Definition perr {S E A} (e : E) : prog S E A := λ s, (s, Err e).
Definition ppanic {S E A} : prog S E A := λ s, (s, Panic).
Definition pget {S E} : prog S E S := λ s, (s, Ok s).
Definition pput {S E} (s : S) : prog S E unit := λ _, (s, Ok tt).
Definition plift {S E A} (r : res E A) : prog S E A := λ s, (s, r).

(** [m.map_err(f)] *)
Definition pmap_err {S E E' A} (f : E → E') (m : prog S E A) : prog S E' A := λ s,
  match m s with
  | (s', Ok a) => (s', Ok a)
  | (s', Err e) => (s', Err (f e))
  | (s', Panic) => (s', Panic)
  | (s', OutOfFuel) => (s', OutOfFuel)
  end.

(** [let _ = m;]: the result is dropped, the effects (and a panic) are not. *)
Definition pignore {S E E' A} (m : prog S E A) : prog S E' unit := λ s,
  match m s with
  | (s', Ok _) => (s', Ok tt)
  | (s', Err _) => (s', Ok tt)
  | (s', Panic) => (s', Panic)
  | (s', OutOfFuel) => (s', OutOfFuel)
  end.

(** Running a program on a component of a larger state. *)
Definition zoom {S T E A} (get : S → T) (set : T → S → S) (m : prog T E A) : prog S E A :=
  λ s, let '(t, r) := m (get s) in (set t s, r).

(** [opt.ok_or_else(|| e)?] *)
Definition ok_or {E A} (o : option A) (e : E) : res E A :=
  match o with Some a => Ok a | None => Err e end.

(** ** Loops *)

(** What the body of a [while] or [for] asks for next. *)
Inductive ctl : Type := Continue | Break.

Fixpoint while_loop {S E} (fuel : nat) (body : prog S E ctl) : prog S E unit := λ s,
  match fuel with
  | O => (s, OutOfFuel)
  | Datatypes.S n =>
      match body s with
      | (s', Ok Continue) => while_loop n body s'
      | (s', Ok Break) => (s', Ok tt)
      | (s', Err e) => (s', Err e)
      | (s', Panic) => (s', Panic)
      | (s', OutOfFuel) => (s', OutOfFuel)
      end
  end.

(** [for x in l { f(x)?; }] *)
Fixpoint for_each {S E A} (l : list A) (f : A → prog S E unit) : prog S E unit :=
  match l with
  | [] => mret tt
  | x :: l' => f x ;; for_each l' f
  end.

Section loops.
Context {S E : Type}.
Implicit Types (s : S) (body : prog S E ctl).

(** More fuel does not change the result of a loop that had enough. *)
Lemma while_loop_mono n k body s s' r :
  while_loop n body s = (s', r) → r ≠ OutOfFuel →
  while_loop (n + k) body s = (s', r).
Proof.
  revert s. induction n as [|n IH]; simpl; intros s H Hr; [congruence|].
  destruct (body s) as [s1 [[]|e| |]]; eauto.
Qed.

(** A measure that every continuing iteration decreases bounds the fuel. *)
Lemma while_loop_terminates (I : S → Prop) (mu : S → nat) body :
  (∀ s s' r, I s → body s = (s', r) → r ≠ OutOfFuel) →
  (∀ s s', I s → body s = (s', Ok Continue) → I s' ∧ (mu s' < mu s)%nat) →
  ∀ n s, I s → (mu s < n)%nat → (while_loop n body s).2 ≠ OutOfFuel.
Proof.
  intros Hbody Hdec n. induction n as [|n IH]; intros s HI Hn; [lia|]. simpl.
  destruct (body s) as [s1 [[]|e| |]] eqn:Hb; simpl; try done.
  - destruct (Hdec _ _ HI Hb). apply IH; [done|lia].
  - by destruct (Hbody _ _ _ HI Hb).
Qed.

(** The invariant rule: [I] holds before each iteration, [Q] at the end. *)
Lemma while_loop_inv (I : S → Prop) (Q : S → res E unit → Prop) body :
  (∀ s s', I s → body s = (s', Ok Continue) → I s') →
  (∀ s s', I s → body s = (s', Ok Break) → Q s' (Ok tt)) →
  (∀ s s' e, I s → body s = (s', Err e) → Q s' (Err e)) →
  (∀ s s', I s → body s = (s', Panic) → Q s' Panic) →
  ∀ n s s' r, I s → while_loop n body s = (s', r) → r = OutOfFuel ∨ Q s' r.
Proof.
  intros Hc Hb He Hp n. induction n as [|n IH]; intros s s' r HI H; simpl in H.
  { left; congruence. }
  destruct (body s) as [s1 [[]|e| |]] eqn:Hs; simplify_eq; eauto.
Qed.

(** A body that agrees on every successful turn gives the same loop. *)
Lemma while_loop_agree (body1 body2 : prog S E ctl) :
  (∀ s s' c, body1 s = (s', Ok c) → body2 s = (s', Ok c)) →
  ∀ n s s', while_loop n body1 s = (s', Ok tt) → while_loop n body2 s = (s', Ok tt).
Proof.
  intros Hb n. induction n as [|n IH]; intros s s' H; simpl in *; [done|].
  destruct (body1 s) as [s1 [c|e| |]] eqn:Hs; try done.
  rewrite (Hb _ _ _ Hs). destruct c; [by apply IH|done].
Qed.

(** An invariant of every turn, whatever the turn returns. *)
Lemma while_loop_preserves (I : S → Prop) body :
  (∀ s s' r, I s → body s = (s', r) → I s') →
  ∀ n s s' r, I s → while_loop n body s = (s', r) → I s'.
Proof.
  intros Hb n. induction n as [|n IH]; intros s s' r HI H; simpl in *; [by simplify_eq|].
  destruct (body s) as [s1 r1] eqn:Hs. apply Hb in Hs; [|done].
  destruct r1 as [[]| | |]; simplify_eq; eauto.
Qed.

Lemma for_each_inv {A} (I : S → Prop) (f : A → prog S E unit) l :
  (∀ x s s' r, x ∈ l → I s → f x s = (s', r) → I s') →
  ∀ s s' r, I s → for_each l f s = (s', r) → I s'.
Proof.
  induction l as [|x l IH]; simpl; intros Hf s s' r HI H.
  { unfold mret, prog_ret in H; by simplify_eq. }
  unfold mbind, prog_bind in H.
  destruct (f x s) as [s1 [[]|e| |]] eqn:Hx; simplify_eq.
  all: first [ eapply IH; [|eapply (Hf x)|]; eauto; set_solver
             | eapply (Hf x); eauto; set_solver ].
Qed.

End loops.

Lemma bind_plift_ok {S E A B} (a : A) (k : A → prog S E B) s : (plift (Ok a) ≫= k) s = k a s.
Proof. done. Qed.

(** The steps of a sequence that succeeds. *)
Lemma bind_ok_inv {S E A B} (p : prog S E A) (q : A → prog S E B) s s' b :
  (p ≫= q) s = (s', Ok b) → ∃ s1 a, p s = (s1, Ok a) ∧ q a s1 = (s', Ok b).
Proof. unfold mbind, prog_bind. destruct (p s) as [s1 [a|e| |]] eqn:Hp; try done. eauto. Qed.

(** Unfolds the monad of [prog] in the goal and everywhere. *)
Ltac prog_unfold :=
  unfold mbind, mret, prog_bind, prog_ret, perr, ppanic, pget, pput, plift in *.

(** Case analysis on the innermost scrutinee of a hypothesis about a run. *)
Ltac prog_case H :=
  match type of H with
  | context [match ?x with _ => _ end] =>
      lazymatch x with
      | context [match _ with _ => _ end] => fail
      | _ => let E := fresh "Hcase" in destruct x eqn:E
      end
  end.

(** ** Machine integers *)

(** Rust's [overflow-checks]: on in a debug build, off in a release build. *)
Class BuildProfile := overflow_checks : bool.

Definition u16 (z : Z) : Prop := 0 ≤ z < 2 ^ 16.
Definition u32 (z : Z) : Prop := 0 ≤ z < 2 ^ 32.
Definition u64 (z : Z) : Prop := 0 ≤ z < 2 ^ 64.

(** A result of unsigned [w]-bit arithmetic that may not fit. *)
Definition arith {E} `{BuildProfile} (w : Z) (z : Z) : res E Z :=
  if bool_decide (0 ≤ z < 2 ^ w) then Ok z
  else if overflow_checks then Panic else Ok (z mod 2 ^ w).

Definition add_u64 {E} `{BuildProfile} (a b : Z) : res E Z := arith 64 (a + b).
Definition mul_u64 {E} `{BuildProfile} (a b : Z) : res E Z := arith 64 (a * b).

Lemma add_u64_fits {E} `{BuildProfile} a b :
  u64 (a + b) → add_u64 a b = (Ok (a + b) : res E Z).
Proof. intros Hs. unfold add_u64, arith. by rewrite bool_decide_true. Qed.

(** A sum that does not fit panics, or wraps in a release build. *)
Lemma add_u64_wraps {E} `{BuildProfile} a b :
  u64 a → u64 b → 2 ^ 64 ≤ a + b →
  add_u64 a b = (if overflow_checks then Panic else Ok (a + b - 2 ^ 64) : res E Z).
Proof.
  unfold u64. intros Ha Hb Hs. unfold add_u64, arith. rewrite bool_decide_false by lia.
  destruct overflow_checks; [done|]. f_equal.
  rewrite <- (Z.mod_small (a + b - 2 ^ 64) (2 ^ 64)) by lia.
  rewrite Zminus_mod, Z_mod_same_full, Z.sub_0_r, Z.mod_mod by lia. done.
Qed.

(** [a.checked_add(b)] on u64 *)
Definition checked_add_u64 (a b : Z) : option Z :=
  if bool_decide (a + b < 2 ^ 64) then Some (a + b) else None.

(** [a.saturating_sub(b)] on an unsigned type *)
Definition saturating_sub (a b : Z) : Z := Z.max 0 (a - b).

(** [x as u32], [x as u8] *)
Definition as_u32 (z : Z) : Z := z mod 2 ^ 32.
Definition as_u8 (z : Z) : Z := z mod 2 ^ 8.

(** [u32::to_le_bytes], [u64::to_le_bytes] and their inverses *)
Definition to_le_bytes (n : nat) (z : Z) : list byte := le_split n z.
Definition from_le_bytes (bs : list byte) : Z := le_combine bs.

Lemma from_to_le_bytes n z :
  0 ≤ z < 2 ^ (Z.of_nat n * 8) → from_le_bytes (to_le_bytes n z) = z.
Proof.
  intros. unfold from_le_bytes, to_le_bytes.
  rewrite le_combine_split. by apply Z.mod_small.
Qed.

Lemma length_to_le_bytes n z : length (to_le_bytes n z) = n.
Proof. apply length_le_split. Qed.

Lemma from_le_bytes_bound bs :
  0 ≤ from_le_bytes bs < 2 ^ (8 * Z.of_nat (length bs)).
Proof. apply le_combine_bound. Qed.

Lemma from_le_bytes_take n bs :
  from_le_bytes (take n bs) = from_le_bytes bs mod 2 ^ (8 * Z.of_nat n).
Proof. apply le_combine_firstn. Qed.

(** Adjacent little-endian fields are the digits of the longer integer. *)
Lemma from_le_bytes_app x y :
  from_le_bytes (x ++ y) = from_le_bytes x + 2 ^ (8 * Z.of_nat (length x)) * from_le_bytes y.
Proof.
  unfold from_le_bytes. rewrite le_combine_app, bitblast.Z.or_to_plus.
  { rewrite Z.shiftl_mul_pow2 by lia. rewrite (Z.mul_comm (Z.of_nat _) 8). lia. }
  pose proof (le_combine_bound x) as Hb. rewrite Z.mul_comm in Hb.
  rewrite <- (Z.mod_small _ _ Hb).
  apply Z.bits_inj_iff'. intros i Hi. rewrite Z.land_spec, Z.bits_0.
  destruct (decide (i < Z.of_nat (length x) * 8)).
  - rewrite Z.shiftl_spec_low by lia. apply andb_false_r.
  - rewrite Z.mod_pow2_bits_high by lia. done.
Qed.

Lemma to_from_le_bytes n bs :
  length bs = n → to_le_bytes n (from_le_bytes bs) = bs.
Proof. intros <-. apply split_le_combine. Qed.

#[global] Arguments to_le_bytes : simpl never.
#[global] Arguments from_le_bytes : simpl never.

(** ** Buffers *)

(** [vec![0u8; n]] *)
Definition zeros (n : nat) : list byte := replicate n Byte.x00.

(** [dst[off .. off + src.len()].copy_from_slice(src)], in range *)
Definition splice (off : nat) (src dst : list byte) : list byte :=
  take off dst ++ src ++ drop (off + length src) dst.

(** [data[..len].copy_from_slice(&src[..len])], [len = min(data.len(), src.len())] *)
Definition copy_prefix (src data : list byte) : list byte :=
  take (length data) src ++ drop (length src) data.

Lemma length_zeros n : length (zeros n) = n.
Proof. apply length_replicate. Qed.

Lemma length_splice off src dst :
  (off + length src ≤ length dst)%nat → length (splice off src dst) = length dst.
Proof. intros. unfold splice. rewrite !length_app, length_take, length_drop. lia. Qed.

Lemma length_copy_prefix src data : length (copy_prefix src data) = length data.
Proof. unfold copy_prefix. rewrite length_app, length_take, length_drop. lia. Qed.

Lemma lookup_splice off src dst i :
  (off + length src ≤ length dst)%nat →
  splice off src dst !! i =
    if decide (off ≤ i < off + length src)%nat then src !! (i - off)%nat else dst !! i.
Proof.
  intros Hlen. unfold splice. case_decide.
  - rewrite lookup_app_r by (rewrite length_take; lia).
    rewrite length_take, Nat.min_l by lia.
    by rewrite lookup_app_l by lia.
  - destruct (decide (i < off)%nat).
    + rewrite lookup_app_l by (rewrite length_take; lia).
      by rewrite lookup_take_lt by lia.
    + rewrite lookup_app_r by (rewrite length_take; lia).
      rewrite length_take, Nat.min_l by lia.
      rewrite lookup_app_r by lia. rewrite lookup_drop. f_equal. lia.
Qed.

(** Storing a run of bytes in a sparse byte map. *)
Fixpoint put_bytes (d : gmap Z byte) (a : Z) (bs : list byte) : gmap Z byte :=
  match bs with
  | [] => d
  | b :: bs' => put_bytes (<[a := b]> d) (a + 1) bs'
  end.

Lemma lookup_put_bytes d a bs x :
  put_bytes d a bs !! x =
  if decide (a ≤ x < a + Z.of_nat (length bs)) then bs !! Z.to_nat (x - a) else d !! x.
Proof.
  revert d a. induction bs as [|b bs IH]; intros d a; simpl.
  { rewrite decide_False by lia. done. }
  rewrite IH. destruct (decide (x = a)) as [->|Hne].
  - rewrite decide_False, decide_True by lia. rewrite lookup_insert_eq.
    by rewrite Z.sub_diag.
  - rewrite lookup_insert_ne by done. repeat case_decide; try lia; [|done].
    replace (Z.to_nat (x - a)) with (S (Z.to_nat (x - (a + 1)))) by lia. done.
Qed.

(** ** Text formatting *)

(** [{:x}] *)
Definition fmt_hex (z : Z) : string :=
  HexadecimalString.NilZero.string_of_uint (N.to_hex_uint (Z.to_N z)).
(** [{}] of an integer *)
Definition fmt_dec (z : Z) : string := pretty z.

(** ** Automation *)

Create HintDb movm discriminated.
Create Rewrite HintDb movm.
#[export] Hint Rewrite @length_to_le_bytes @length_zeros @length_copy_prefix
  @length_app @length_take @length_drop @length_replicate : movm.
#[export] Hint Resolve from_le_bytes_bound : movm.

(** Lengths of buffers, then linear arithmetic. *)
Ltac len_lia := autorewrite with movm in *; simpl in *; try lia.
