(* ===== verification/Errors.v ===== *)
(** * Errors: the unified error type of error.rs

    [HypervisorError] has the source's constructors.  Errors that come from a
    library are represented by their [Display] text, the only thing the crate
    does with them. *)

From S2P Require Import Prelude.

(** [std::io::ErrorKind], the kinds the crate builds or tests; [OsKind] stands
    for the others. *)
Inductive ErrorKind : Type :=
| Other
| InvalidInput
| InvalidData
| WouldBlock
| UnexpectedEof
| Unsupported
| NotFound
| OsKind (code : Z).

#[global] Instance ErrorKind_eq_dec : EqDecision ErrorKind.
Proof. solve_decision. Defined.

(** [std::io::Error]: a kind and the text it displays. *)
Record io_error : Type := IoErr { io_kind : ErrorKind; io_msg : string }.

#[global] Instance io_error_eq_dec : EqDecision io_error.
Proof. solve_decision. Defined.

Inductive HypervisorError : Type :=
| KvmError (e : string)
| IoError (e : io_error)
| BincodeError (e : string)
| MemoryError (msg : string)
| VirtioError (e : string)
| UnsupportedArchitecture
| VcpuError (msg : string)
| SnapshotError (msg : string)
| ThreadSpawnError (msg : string)
| NetworkError (msg : string)
| FamError (e : string)
| GenericError (msg : string).

#[global] Instance HypervisorError_eq_dec : EqDecision HypervisorError.
Proof. solve_decision. Defined.

(** The [Display] implementation the [#[error("...")]] attributes generate. *)
Definition to_string (e : HypervisorError) : string :=
  match e with
  | KvmError e => "KVM error: " +:+ e
  | IoError e => "IO error: " +:+ io_msg e
  | BincodeError e => "Bincode error: " +:+ e
  | MemoryError m => "Memory error: " +:+ m
  | VirtioError e => "Virtio error: " +:+ e
  | UnsupportedArchitecture => "Unsupported architecture"
  | VcpuError m => "VCPU error: " +:+ m
  | SnapshotError m => "Snapshot error: " +:+ m
  | ThreadSpawnError m => "Thread spawn error: " +:+ m
  | NetworkError m => "Network error: " +:+ m
  | FamError e => "FAM error: " +:+ e
  | GenericError m => "Generic error: " +:+ m
  end.

(** [impl From<&std::io::Error>] *)
Definition from_io_error_ref (err : io_error) : HypervisorError :=
  IoError (IoErr (io_kind err) (io_msg err)).

(** [anyhow::Error] as the crate sees it: what [downcast_ref::<io::Error>]
    returns and what it displays. *)
Record anyhow_error : Type := AnyErr {
  any_downcast_io : option io_error;
  any_display : string;
}.

(** [impl From<anyhow::Error>] *)
Definition from_anyhow (err : anyhow_error) : HypervisorError :=
  match any_downcast_io err with
  | Some io_err => IoError (IoErr (io_kind io_err) (io_msg io_err))
  | None => GenericError (any_display err)
  end.

(** [impl From<GuestMemoryError>] *)
Definition from_guest_memory_error (display : string) : HypervisorError :=
  MemoryError display.

(** [std::io::Error::new(ErrorKind::Other, msg)] wrapped as the devices wrap it *)
Definition io_other (msg : string) : HypervisorError := IoError (IoErr Other msg).

(** Rust code of the crate: [Result<T>] on a state. *)
Abbreviation rust S A := (prog S HypervisorError A).
Abbreviation result A := (res HypervisorError A).
