(* ===== verification/Platform.v ===== *)
(** * Platform: the crates and kernel services the hypervisor calls

    The crates vm-memory, virtio-queue and vmm-sys-util are not part of the
    repository.  Each is an interface here: a class of operations ([MemoryApi],
    [QueueApi], [EventApi]) that the models of the crate's own code call, and a
    class of laws ([MemoryLaws], [QueueLaws]) that states the documented
    behaviour the theorems rely on.  FlatPlatform.v has instances of all of
    them. *)

From S2P Require Import Prelude.

(** ** vm-memory: guest physical memory *)

(** The bytes behind guest physical addresses; [None] where there is no RAM. *)
Definition mem_view : Type := Z → option byte.

(** The view after [bs] has been stored at address [a]. *)
Definition overlay (f : mem_view) (a : Z) (bs : list byte) : mem_view := λ x,
  if bool_decide (a ≤ x < a + Z.of_nat (length bs)) then bs !! Z.to_nat (x - a) else f x.

(** [GuestMemoryMmap] and its regions.  Clones of a [GuestMemoryMmap] share
    the mapping, so one value stands for all clones.  Addresses are u64; a read
    fills a caller's buffer, and may have filled part of it when it fails. *)
Class MemoryApi := {
  GMem : Type;
  gm_from_ranges : list (Z * Z) → res string GMem;
  gm_regions : GMem → list (Z * Z);
  gm_host_addr : GMem → nat → Z;
  gm_byte : GMem → mem_view;
  gm_write_slice : GMem → list byte → Z → GMem * option string;
  gm_read_slice : GMem → list byte → Z → list byte * option string;
  gm_find_region : GMem → Z → option nat;
  gm_region_write : GMem → nat → list byte → Z → GMem * option string;
  gm_region_read : GMem → nat → list byte → Z → list byte * option string;
}.

(** [n] bytes of RAM from address [a] on. *)
Definition backed `{MemoryApi} (m : GMem) (a n : Z) : Prop :=
  ∀ x, a ≤ x < a + n → is_Some (gm_byte m x).

Class MemoryLaws `{MemoryApi} : Prop := {
  gm_from_ranges_regions rs m : gm_from_ranges rs = Ok m → gm_regions m = rs;
  gm_from_ranges_zero rs m x b :
    gm_from_ranges rs = Ok m → gm_byte m x = Some b → b = Byte.x00;
  gm_region_range m i st ln :
    gm_regions m !! i = Some (st, ln) → 0 ≤ st ∧ 0 < ln ∧ st + ln ≤ 2 ^ 64;
  gm_regions_disjoint m i j st ln st' ln' :
    gm_regions m !! i = Some (st, ln) → gm_regions m !! j = Some (st', ln') → i ≠ j →
    st + ln ≤ st' ∨ st' + ln' ≤ st;
  gm_backed_iff m x :
    is_Some (gm_byte m x) ↔
    ∃ i st ln, gm_regions m !! i = Some (st, ln) ∧ st ≤ x < st + ln;
  gm_write_ok m bs a :
    is_Some (gm_byte m a) → backed m a (Z.of_nat (length bs)) →
    (gm_write_slice m bs a).2 = None;
  gm_write_bytes m bs a m' :
    gm_write_slice m bs a = (m', None) →
    ∀ x, gm_byte m' x = overlay (gm_byte m) a bs x;
  gm_write_backed m bs a m' :
    gm_write_slice m bs a = (m', None) → backed m a (Z.of_nat (length bs));
  gm_write_frame m bs a m' r x :
    gm_write_slice m bs a = (m', r) →
    ¬ (a ≤ x < a + Z.of_nat (length bs)) → gm_byte m' x = gm_byte m x;
  gm_write_regions m bs a m' r :
    gm_write_slice m bs a = (m', r) → gm_regions m' = gm_regions m;
  gm_read_ok m buf a :
    is_Some (gm_byte m a) → backed m a (Z.of_nat (length buf)) →
    (gm_read_slice m buf a).2 = None;
  gm_read_bytes m buf a buf' i :
    gm_read_slice m buf a = (buf', None) → (i < length buf)%nat →
    buf' !! i = gm_byte m (a + Z.of_nat i);
  gm_read_length m buf a buf' r :
    gm_read_slice m buf a = (buf', r) → length buf' = length buf;
  gm_find_region_some m a i :
    gm_find_region m a = Some i →
    ∃ st ln, gm_regions m !! i = Some (st, ln) ∧ st ≤ a < st + ln;
  gm_find_region_none m a :
    gm_find_region m a = None → gm_byte m a = None;
  gm_region_write_ok m i st ln bs off :
    gm_regions m !! i = Some (st, ln) →
    0 ≤ off → off + Z.of_nat (length bs) ≤ ln → off < ln →
    (gm_region_write m i bs off).2 = None;
  gm_region_write_bytes m i st ln bs off m' :
    gm_regions m !! i = Some (st, ln) →
    gm_region_write m i bs off = (m', None) →
    ∀ x, gm_byte m' x = overlay (gm_byte m) (st + off) bs x;
  gm_region_write_regions m i bs off m' r :
    gm_region_write m i bs off = (m', r) → gm_regions m' = gm_regions m;
  gm_region_read_ok m i st ln buf off :
    gm_regions m !! i = Some (st, ln) →
    0 ≤ off → off + Z.of_nat (length buf) ≤ ln → off < ln →
    (gm_region_read m i buf off).2 = None;
  gm_region_read_bytes m i st ln buf off buf' k :
    gm_regions m !! i = Some (st, ln) →
    gm_region_read m i buf off = (buf', None) → (k < length buf)%nat →
    buf' !! k = gm_byte m (st + off + Z.of_nat k);
  gm_region_read_length m i buf off buf' r :
    gm_region_read m i buf off = (buf', r) → length buf' = length buf;
}.

(** ** virtio-queue: split virtqueues *)

(** The accessors of [virtio_queue::Descriptor] the devices use. *)
Record Descriptor : Type := Desc {
  desc_addr : Z;
  desc_len : Z;
  desc_write_only : bool;
}.

(** [queue.iter(mem)?.next()] is one operation, [q_pop].  A descriptor chain is
    an iterator that reads the descriptor table from guest memory at each step;
    [c_ttl] is the step budget the crate gives it.  [q_pending] counts the
    available chains not yet popped.  The driver chooses where a queue's rings
    are ([q_avail_ring], [q_used_ring]: address and length). *)
Class QueueApi `{MemoryApi} := {
  Queue : Type;
  DescChain : Type;
  q_new : Z → option Queue;
  q_max_size : Queue → Z;
  q_ready : Queue → bool;
  q_pop : Queue → GMem → Queue * res string (option DescChain);
  q_avail_ring : Queue → Z * Z;
  q_used_ring : Queue → Z * Z;
  q_pending : Queue → GMem → nat;
  q_add_used : Queue → GMem → Z → Z → Queue * GMem * option string;
  c_head_index : DescChain → Z;
  c_ttl : DescChain → nat;
  c_next : DescChain → GMem → option (Descriptor * DescChain);
}.

Definition in_ring (r : Z * Z) (x : Z) : Prop := r.1 ≤ x < r.1 + r.2.

Class QueueLaws `{QueueApi} : Prop := {
  q_new_fresh n q : q_new n = Some q → q_max_size q = n ∧ q_ready q = false;
  q_pop_not_ready q m :
    q_ready q = false → ∃ e, q_pop q m = (q, Err e);
  q_pop_outcome q m q' r :
    q_pop q m = (q', r) → r ≠ Panic ∧ r ≠ OutOfFuel;
  q_pop_config q m q' r :
    q_pop q m = (q', r) → q_max_size q' = q_max_size q ∧ q_ready q' = q_ready q;
  q_pop_rings q m q' r :
    q_pop q m = (q', r) → q_avail_ring q' = q_avail_ring q ∧ q_used_ring q' = q_used_ring q;
  q_pop_pending q m q' c :
    q_pop q m = (q', Ok (Some c)) → (q_pending q' m < q_pending q m)%nat;
  q_add_used_config q m h l q' m' r :
    q_add_used q m h l = (q', m', r) →
    q_max_size q' = q_max_size q ∧ q_ready q' = q_ready q;
  q_add_used_rings q m h l q' m' r :
    q_add_used q m h l = (q', m', r) →
    q_avail_ring q' = q_avail_ring q ∧ q_used_ring q' = q_used_ring q;
  q_add_used_frame q m h l q' m' r :
    q_add_used q m h l = (q', m', r) →
    gm_regions m' = gm_regions m ∧
    ∀ x, ¬ in_ring (q_used_ring q) x → gm_byte m' x = gm_byte m x;
  q_add_used_pending q m h l q' m' r :
    q_add_used q m h l = (q', m', r) →
    (∀ x, in_ring (q_avail_ring q) x → gm_byte m' x = gm_byte m x) →
    q_pending q' m' = q_pending q m;
  c_next_ttl c m d c' : c_next c m = Some (d, c') → (c_ttl c' < c_ttl c)%nat;
  c_next_desc c m d c' : c_next c m = Some (d, c') → u64 (desc_addr d) ∧ u32 (desc_len d);
}.

(** The driver placed the two rings of this queue apart, as the virtio
    specification requires of it. *)
Definition rings_apart `{QueueApi} (q : Queue) : Prop :=
  (q_avail_ring q).1 + (q_avail_ring q).2 ≤ (q_used_ring q).1 ∨
  (q_used_ring q).1 + (q_used_ring q).2 ≤ (q_avail_ring q).1.

(** ** vmm-sys-util: event descriptors *)

Class EventApi := {
  EventFd : Type;
  evt_new : Z → res string EventFd;
  evt_write : EventFd → Z → EventFd * option string;
}.

(** [EFD_NONBLOCK] *)
Definition EFD_NONBLOCK : Z := 0x800.

(** ** Facts about views *)

Lemma overlay_in f a bs x :
  a ≤ x < a + Z.of_nat (length bs) → overlay f a bs x = bs !! Z.to_nat (x - a).
Proof. intros. unfold overlay. by rewrite bool_decide_true. Qed.

Lemma overlay_out f a bs x :
  ¬ (a ≤ x < a + Z.of_nat (length bs)) → overlay f a bs x = f x.
Proof. intros. unfold overlay. by rewrite bool_decide_false. Qed.

(** The [n] bytes from [a] on, when all of them are RAM. *)
Definition view_bytes (f : mem_view) (a : Z) (n : nat) : option (list byte) :=
  mapM (λ i, f (a + Z.of_nat i)) (seq 0 n).

(** A little-endian integer in memory. *)
Definition view_le (f : mem_view) (n : nat) (a : Z) : option Z :=
  from_le_bytes <$> view_bytes f a n.

#[global] Instance view_bytes_proper :
  Proper (pointwise_relation Z eq ==> eq ==> eq ==> eq) view_bytes.
Proof.
  intros f g Hfg a ? <- n ? <-. unfold view_bytes.
  induction (seq 0 n) as [|i l IH]; simpl; [done|]. by rewrite Hfg, IH.
Qed.

#[global] Instance view_le_proper :
  Proper (pointwise_relation Z eq ==> eq ==> eq ==> eq) view_le.
Proof. intros f g Hfg n ? <- a ? <-. unfold view_le. by rewrite Hfg. Qed.

#[global] Instance overlay_proper :
  Proper (pointwise_relation Z eq ==> eq ==> eq ==> pointwise_relation Z eq) overlay.
Proof. intros f g Hfg a ? <- bs ? <- x. unfold overlay. by rewrite Hfg. Qed.

(** [view_bytes] characterised by lookups. *)
Lemma view_bytes_spec f a n bs :
  view_bytes f a n = Some bs ↔
  length bs = n ∧ ∀ i, (i < n)%nat → bs !! i = f (a + Z.of_nat i).
Proof.
  unfold view_bytes. rewrite mapM_Some, Forall2_same_length_lookup, length_seq.
  split; intros [Hl Hx]; split; try done.
  - intros i Hi. destruct (lookup_lt_is_Some_2 bs i) as [b Hb]; [lia|].
    rewrite Hb. symmetry. apply (Hx i); [|done]. by rewrite lookup_seq_lt.
  - intros i x b Hs Hb. rewrite lookup_seq in Hs. destruct Hs as [-> Hlt].
    rewrite <- Hx by lia. done.
Qed.

Lemma view_bytes_ext f g a n :
  (∀ x, a ≤ x < a + Z.of_nat n → f x = g x) → view_bytes f a n = view_bytes g a n.
Proof.
  intros Hfg. apply Forall_mapM_ext, Forall_seq. intros i Hi. apply Hfg. lia.
Qed.

Lemma view_bytes_overlay_same f a bs :
  view_bytes (overlay f a bs) a (length bs) = Some bs.
Proof.
  apply view_bytes_spec. split; [done|]. intros i Hi.
  rewrite overlay_in by lia. f_equal. lia.
Qed.

Lemma view_bytes_overlay_disjoint f a bs b n :
  b + Z.of_nat n ≤ a ∨ a + Z.of_nat (length bs) ≤ b →
  view_bytes (overlay f a bs) b n = view_bytes f b n.
Proof. intros Hd. apply view_bytes_ext. intros x Hx. apply overlay_out. lia. Qed.

Lemma view_le_overlay_disjoint f a bs b n :
  b + Z.of_nat n ≤ a ∨ a + Z.of_nat (length bs) ≤ b →
  view_le (overlay f a bs) n b = view_le f n b.
Proof. intros. unfold view_le. by rewrite view_bytes_overlay_disjoint. Qed.

Lemma view_le_overlay_same f a n z :
  0 ≤ z < 2 ^ (Z.of_nat n * 8) →
  view_le (overlay f a (to_le_bytes n z)) n a = Some z.
Proof.
  intros Hz. unfold view_le.
  pose proof (view_bytes_overlay_same f a (to_le_bytes n z)) as Hv.
  rewrite length_to_le_bytes in Hv. rewrite Hv. simpl. by rewrite from_to_le_bytes.
Qed.

(** A sub-range of an overlay holds the corresponding slice. *)
Lemma view_bytes_overlay_sub f a bs k n :
  (k + n ≤ length bs)%nat →
  view_bytes (overlay f a bs) (a + Z.of_nat k) n = Some (take n (drop k bs)).
Proof.
  intros Hk. apply view_bytes_spec. split; [len_lia|]. intros i Hi.
  rewrite overlay_in by lia. rewrite lookup_take_lt, lookup_drop by lia. f_equal. lia.
Qed.

(** Adjacent ranges. *)
Lemma view_bytes_app f a n k x y :
  view_bytes f a n = Some x → view_bytes f (a + Z.of_nat n) k = Some y →
  view_bytes f a (n + k) = Some (x ++ y).
Proof.
  rewrite !view_bytes_spec. intros [Lx Hx] [Ly Hy]. split; [rewrite length_app; lia|].
  intros i Hi. destruct (decide (i < n)%nat).
  - rewrite lookup_app_l by lia. by apply Hx.
  - rewrite lookup_app_r, Hy by lia. f_equal. lia.
Qed.

Lemma overlay_app f a x y z :
  overlay (overlay f a x) (a + Z.of_nat (length x)) y z = overlay f a (x ++ y) z.
Proof.
  unfold overlay. rewrite length_app. repeat case_bool_decide; try lia; try done.
  - rewrite lookup_app_r by lia. f_equal. lia.
  - by rewrite lookup_app_l by lia.
Qed.

Lemma overlay_nil f a z : overlay f a [] z = f z.
Proof. apply overlay_out. simpl. lia. Qed.

(** ** Facts about guest memory *)

Section memory_facts.
Context `{MemoryLaws}.
Implicit Types (m : GMem).

Lemma gm_byte_range m x : is_Some (gm_byte m x) → u64 x.
Proof.
  intros Hx. apply gm_backed_iff in Hx as (i & st & ln & Hi & Hx).
  apply gm_region_range in Hi. unfold u64. lia.
Qed.

(** A write that fits succeeds and its effect is the overlay. *)
Lemma gm_write_fits m bs a :
  is_Some (gm_byte m a) → backed m a (Z.of_nat (length bs)) →
  ∃ m', gm_write_slice m bs a = (m', None) ∧
        (∀ x, gm_byte m' x = overlay (gm_byte m) a bs x) ∧
        gm_regions m' = gm_regions m.
Proof.
  intros Ha Hb. pose proof (gm_write_ok m bs a Ha Hb) as Hok.
  destruct (gm_write_slice m bs a) as [m' r] eqn:Hw; simpl in Hok; subst r.
  exists m'. split_and!; [done| |]; [by eapply gm_write_bytes | by eapply gm_write_regions].
Qed.

(** A read that fits returns the bytes in memory. *)
Lemma gm_read_fits m buf a :
  is_Some (gm_byte m a) → backed m a (Z.of_nat (length buf)) →
  ∃ buf', gm_read_slice m buf a = (buf', None) ∧
          view_bytes (gm_byte m) a (length buf) = Some buf'.
Proof.
  intros Ha Hb. pose proof (gm_read_ok m buf a Ha Hb) as Hok.
  destruct (gm_read_slice m buf a) as [buf' r] eqn:Hr; simpl in Hok; subst r.
  exists buf'. split; [done|]. apply view_bytes_spec.
  split; [by eapply gm_read_length|]. intros i Hi. by eapply gm_read_bytes.
Qed.

Lemma backed_regions m m' a n :
  gm_regions m' = gm_regions m → backed m a n → backed m' a n.
Proof.
  intros Hr Hb x Hx. apply gm_backed_iff. rewrite Hr. apply gm_backed_iff. by apply Hb.
Qed.

Lemma is_Some_byte_regions m m' a :
  gm_regions m' = gm_regions m → is_Some (gm_byte m a) → is_Some (gm_byte m' a).
Proof. intros Hr. rewrite !gm_backed_iff. by rewrite Hr. Qed.

End memory_facts.

(** ** Facts about queues *)

Section queue_facts.
Context `{QL : QueueLaws}.

Lemma rings_apart_pop q m q' r : q_pop q m = (q', r) → rings_apart q → rings_apart q'.
Proof. intros [Ha Hu]%q_pop_rings. unfold rings_apart. by rewrite Ha, Hu. Qed.

(** With its rings apart, completing a chain of a queue makes no new one
    available. *)
Lemma rings_apart_add_used q m h l q' m' r :
  q_add_used q m h l = (q', m', r) → rings_apart q →
  rings_apart q' ∧ q_pending q' m' = q_pending q m.
Proof.
  intros Hu Ha. pose proof (q_add_used_rings _ _ _ _ _ _ _ Hu) as [R1 R2]. split.
  - unfold rings_apart. by rewrite R1, R2.
  - eapply q_add_used_pending; [done|]. intros x Hx.
    apply q_add_used_frame in Hu as [_ Hf]. apply Hf. unfold in_ring, rings_apart in *. lia.
Qed.

End queue_facts.
