(* ===== verification/FlatPlatform.v ===== *)
(** * FlatPlatform: a concrete platform

    Instances of the interfaces of Platform.v on which the models compute:
    guest memory as a finite map over a list of regions, virtqueues with a list
    of available chains and a used ring in guest memory, event descriptors as counters.  They show that the laws
    can hold together and carry the witnesses of the theorems. *)

From S2P Require Import Prelude Platform.

(** ** Memory *)

Definition in_ram (rs : list (Z * Z)) (x : Z) : bool :=
  existsb (λ '(st, ln), bool_decide (st ≤ x < st + ln)) rs.

Definition all_ram (rs : list (Z * Z)) (a : Z) (n : nat) : bool :=
  forallb (λ i, in_ram rs (a + Z.of_nat i)) (seq 0 n).

Fixpoint ranges_disjoint (rs : list (Z * Z)) : bool :=
  match rs with
  | [] => true
  | (st, ln) :: rs' =>
      forallb (λ '(st', ln'), bool_decide (st + ln ≤ st' ∨ st' + ln' ≤ st)) rs' &&
      ranges_disjoint rs'
  end.

Definition ranges_ok (rs : list (Z * Z)) : bool :=
  forallb (λ '(st, ln), bool_decide (0 ≤ st ∧ 0 < ln ∧ st + ln ≤ 2 ^ 64)) rs && ranges_disjoint rs.

Record FlatMem : Type := {
  fm_regions : list (Z * Z);
  fm_ok : ranges_ok fm_regions = true;
  fm_data : gmap Z byte;
}.

Definition fm_store (m : FlatMem) (a : Z) (bs : list byte) : FlatMem :=
  {| fm_regions := fm_regions m; fm_ok := fm_ok m; fm_data := put_bytes (fm_data m) a bs |}.

Definition fm_get (m : FlatMem) (x : Z) : byte := default Byte.x00 (fm_data m !! x).

Definition fm_load (m : FlatMem) (a : Z) (n : nat) : list byte :=
  (λ i, fm_get m (a + Z.of_nat i)) <$> seq 0 n.

Definition fm_byte (m : FlatMem) : mem_view := λ x,
  if in_ram (fm_regions m) x then Some (fm_get m x) else None.

Definition fm_find (m : FlatMem) (x : Z) : option nat :=
  fst <$> list_find (λ r, (r.1 ≤ x < r.1 + r.2)) (fm_regions m).

Definition fm_region_fits (ln off : Z) (n : nat) : bool :=
  bool_decide (0 ≤ off ∧ off < ln ∧ off + Z.of_nat n ≤ ln).

Definition fm_from_ranges (rs : list (Z * Z)) : res string FlatMem :=
  match decide (ranges_ok rs = true) with
  | left Hok => Ok {| fm_regions := rs; fm_ok := Hok; fm_data := ∅ |}
  | right _ => Err "invalid ranges"
  end.

#[global] Instance flat_memory : MemoryApi := {|
  GMem := FlatMem;
  gm_from_ranges := fm_from_ranges;
  gm_regions := fm_regions;
  gm_host_addr := λ _ i, 0x7f0000000000 + Z.of_nat i * 0x10000000000;
  gm_byte := fm_byte;
  gm_write_slice := λ m bs a,
    if in_ram (fm_regions m) a && all_ram (fm_regions m) a (length bs)
    then (fm_store m a bs, None) else (m, Some "Invalid guest address");
  gm_read_slice := λ m buf a,
    if in_ram (fm_regions m) a && all_ram (fm_regions m) a (length buf)
    then (fm_load m a (length buf), None) else (buf, Some "Invalid guest address");
  gm_find_region := fm_find;
  gm_region_write := λ m i bs off,
    match fm_regions m !! i with
    | Some (st, ln) =>
        if fm_region_fits ln off (length bs)
        then (fm_store m (st + off) bs, None) else (m, Some "Invalid region offset")
    | None => (m, Some "No such region")
    end;
  gm_region_read := λ m i buf off,
    match fm_regions m !! i with
    | Some (st, ln) =>
        if fm_region_fits ln off (length buf)
        then (fm_load m (st + off) (length buf), None) else (buf, Some "Invalid region offset")
    | None => (buf, Some "No such region")
    end;
|}.

Lemma in_ram_spec rs x :
  in_ram rs x = true ↔ ∃ i st ln, rs !! i = Some (st, ln) ∧ st ≤ x < st + ln.
Proof.
  unfold in_ram. rewrite existsb_exists. split.
  - intros ([st ln] & Hin & Hx). apply list_elem_of_In, list_elem_of_lookup in Hin as [i Hi].
    apply bool_decide_eq_true in Hx. eauto.
  - intros (i & st & ln & Hi & Hx). exists (st, ln). split.
    + apply list_elem_of_In. by eapply list_elem_of_lookup_2.
    + by apply bool_decide_eq_true.
Qed.

Lemma all_ram_spec rs a n :
  all_ram rs a n = true ↔ ∀ x, a ≤ x < a + Z.of_nat n → in_ram rs x = true.
Proof.
  unfold all_ram. rewrite forallb_forall. split.
  - intros Hall x Hx. replace x with (a + Z.of_nat (Z.to_nat (x - a))) by lia.
    apply Hall, in_seq. lia.
  - intros Hall i Hi. apply in_seq in Hi. apply Hall. lia.
Qed.

Lemma fm_byte_spec m x : is_Some (fm_byte m x) ↔ in_ram (fm_regions m) x = true.
Proof. unfold fm_byte. destruct (in_ram _ _); split; intros; [done|eauto|by destruct H|done]. Qed.

Lemma fm_byte_store m a bs x :
  all_ram (fm_regions m) a (length bs) = true →
  fm_byte (fm_store m a bs) x = overlay (fm_byte m) a bs x.
Proof.
  intros Hall. unfold overlay, fm_byte, fm_get. simpl. rewrite lookup_put_bytes.
  case_bool_decide as Hx.
  - rewrite (proj1 (all_ram_spec _ _ _) Hall x Hx), decide_True by done.
    destruct (lookup_lt_is_Some_2 bs (Z.to_nat (x - a))) as [b ->]; [lia|]. done.
  - by rewrite decide_False.
Qed.

Lemma fm_load_lookup m a n i :
  (i < n)%nat → fm_load m a n !! i = Some (fm_get m (a + Z.of_nat i)).
Proof. intros Hi. unfold fm_load. rewrite list_lookup_fmap, lookup_seq_lt by done. done. Qed.

Lemma length_fm_load m a n : length (fm_load m a n) = n.
Proof. unfold fm_load. by rewrite length_fmap, length_seq. Qed.

Lemma region_all_ram rs i st ln off n :
  rs !! i = Some (st, ln) → fm_region_fits ln off n = true →
  all_ram rs (st + off) n = true.
Proof.
  intros Hi Hf. apply bool_decide_eq_true in Hf. apply all_ram_spec. intros x Hx.
  apply in_ram_spec. exists i, st, ln. split; [done|lia].
Qed.

Lemma ranges_ok_lookup rs i st ln :
  ranges_ok rs = true → rs !! i = Some (st, ln) → 0 ≤ st ∧ 0 < ln ∧ st + ln ≤ 2 ^ 64.
Proof.
  unfold ranges_ok. rewrite andb_true_iff, forallb_forall. intros [Hall _] Hi.
  specialize (Hall (st, ln)). simpl in Hall. apply bool_decide_eq_true in Hall; [done|].
  apply list_elem_of_In. by eapply list_elem_of_lookup_2.
Qed.

Lemma ranges_disjoint_lookup rs i j st ln st' ln' :
  ranges_disjoint rs = true → rs !! i = Some (st, ln) → rs !! j = Some (st', ln') → i ≠ j →
  st + ln ≤ st' ∨ st' + ln' ≤ st.
Proof.
  revert i j. induction rs as [|[a n] rs IH]; intros i j Hd Hi Hj Hne; [done|].
  simpl in Hd. apply andb_prop in Hd as [Ha Hd]. rewrite forallb_forall in Ha.
  assert (Hat : ∀ k x y, rs !! k = Some (x, y) → a + n ≤ x ∨ x + y ≤ a).
  { intros k x y Hk. specialize (Ha (x, y)). apply bool_decide_eq_true in Ha; [done|].
    apply list_elem_of_In. by eapply list_elem_of_lookup_2. }
  destruct i as [|i], j as [|j]; simplify_eq/=; [by eapply Hat| |eauto].
  destruct (Hat _ _ _ Hi); auto.
Qed.

Lemma fm_guard m a n :
  is_Some (fm_byte m a) → backed (H:=flat_memory) m a (Z.of_nat n) →
  in_ram (fm_regions m) a && all_ram (fm_regions m) a n = true.
Proof.
  intros Ha Hb. apply andb_true_intro. split; [by apply fm_byte_spec|].
  apply all_ram_spec. intros x Hx. apply fm_byte_spec. by apply Hb.
Qed.

#[global] Instance flat_memory_laws : MemoryLaws.
Proof.
  split; simpl.
  - intros rs m. unfold fm_from_ranges. case_match; by intros; simplify_eq.
  - intros rs m x b. unfold fm_from_ranges. case_match; intros; simplify_eq.
    unfold fm_byte, fm_get in *; simpl in *. rewrite lookup_empty in *. by case_match; simplify_eq.
  - intros m i st ln. apply ranges_ok_lookup, fm_ok.
  - intros m i j st ln st' ln'. apply ranges_disjoint_lookup.
    pose proof (fm_ok m) as Hok. by apply andb_prop in Hok as [_ Hok].
  - intros m x. rewrite fm_byte_spec. apply in_ram_spec.
  - intros m bs a Ha Hb. by rewrite fm_guard.
  - intros m bs a m' Hw x. destruct (in_ram _ a); simpl in Hw; [|done].
    destruct (all_ram _ _ _) eqn:Hall; simplify_eq. by apply fm_byte_store.
  - intros m bs a m' Hw x Hx. destruct (in_ram _ a); simpl in Hw; [|done].
    destruct (all_ram _ _ _) eqn:Hall; simplify_eq. apply fm_byte_spec.
    by eapply all_ram_spec.
  - intros m bs a m' r x Hw Hx.
    destruct (in_ram _ a && all_ram _ a _) eqn:Hg; simplify_eq; [|done].
    apply andb_prop in Hg as [_ Hall]. rewrite fm_byte_store by done. by apply overlay_out.
  - intros m bs a m' r Hw. by destruct (in_ram _ a && all_ram _ a _); simplify_eq.
  - intros m buf a Ha Hb. by rewrite fm_guard.
  - intros m buf a buf' i Hr Hi. destruct (in_ram _ a); simpl in Hr; [|done].
    destruct (all_ram _ _ _) eqn:Hall; simplify_eq. rewrite fm_load_lookup by done.
    unfold fm_byte. by rewrite (proj1 (all_ram_spec _ _ _) Hall) by lia.
  - intros m buf a buf' r Hr. destruct (_ && _); simplify_eq; [apply length_fm_load|done].
  - intros m a i Hf. unfold fm_find in Hf. destruct (list_find _ _) as [[j [st ln]]|] eqn:Hl;
      simplify_eq/=. apply list_find_Some in Hl as (Hj & Hx & _). eauto.
  - intros m a Hf. unfold fm_find in Hf. destruct (list_find _ _) eqn:Hl; [done|].
    apply list_find_None in Hl. apply eq_None_not_Some. rewrite fm_byte_spec, in_ram_spec.
    intros (i & st & ln & Hi & Hx). rewrite Forall_lookup in Hl. by apply (Hl i _ Hi).
  - intros m i st ln bs off -> ???. unfold fm_region_fits. rewrite bool_decide_true by lia. done.
  - intros m i st ln bs off m' Hi Hw x. rewrite Hi in Hw. destruct (fm_region_fits _ _ _) eqn:Hf; simplify_eq.
    apply fm_byte_store. by eapply region_all_ram.
  - intros m i bs off m' r Hw. repeat case_match; by simplify_eq.
  - intros m i st ln buf off -> ???. unfold fm_region_fits. rewrite bool_decide_true by lia. done.
  - intros m i st ln buf off buf' k Hi Hr Hk. rewrite Hi in Hr.
    destruct (fm_region_fits _ _ _) eqn:Hf; simplify_eq.
    rewrite fm_load_lookup by done. pose proof (region_all_ram _ _ _ _ _ _ Hi Hf) as Hall.
    unfold fm_byte. by rewrite (proj1 (all_ram_spec _ _ _) Hall) by lia.
  - intros m i buf off buf' r Hr. repeat case_match; simplify_eq; [apply length_fm_load|done..].
Qed.

(** ** Queues *)

Record FlatChain : Type := { fc_head : Z; fc_descs : list Descriptor }.

Record FlatQueue : Type := {
  fq_max : Z;
  fq_ready : bool;
  fq_avail : list FlatChain;
  fq_avail_addr : Z;
  fq_used_addr : Z;
  fq_used : Z;
}.

Definition fq_with (q : FlatQueue) (avail : list FlatChain) (used : Z) : FlatQueue :=
  {| fq_max := fq_max q; fq_ready := fq_ready q; fq_avail := avail;
     fq_avail_addr := fq_avail_addr q; fq_used_addr := fq_used_addr q; fq_used := used |}.

(** The used ring: flags, index, then an (id, length) pair per slot. *)
Definition fq_complete (q : FlatQueue) (m : FlatMem) (h l : Z) : FlatQueue * FlatMem * option string :=
  if bool_decide (0 < fq_max q) then
    let '(m1, e1) := gm_write_slice (m : GMem) (to_le_bytes 4 h ++ to_le_bytes 4 l)
                       (fq_used_addr q + 4 + 8 * (fq_used q mod fq_max q)) in
    match e1 with
    | Some e => (q, m1, Some e)
    | None =>
        let '(m2, e2) := gm_write_slice m1 (to_le_bytes 2 ((fq_used q + 1) mod 2 ^ 16))
                           (fq_used_addr q + 2) in
        (fq_with q (fq_avail q) (fq_used q + 1), m2, e2)
    end
  else (q, m, Some "empty queue").

Definition norm_desc (d : Descriptor) : Descriptor :=
  Desc (desc_addr d mod 2 ^ 64) (desc_len d mod 2 ^ 32) (desc_write_only d).

#[global] Instance flat_queue : QueueApi := {|
  Queue := FlatQueue;
  DescChain := FlatChain;
  q_new := λ n, Some {| fq_max := n; fq_ready := false; fq_avail := [];
                     fq_avail_addr := 0; fq_used_addr := 0; fq_used := 0 |};
  q_max_size := fq_max;
  q_ready := fq_ready;
  q_pop := λ q _,
    if fq_ready q then
      match fq_avail q with
      | [] => (q, Ok None)
      | c :: cs => (fq_with q cs (fq_used q), Ok (Some c))
      end
    else (q, Err "queue not ready");
  q_avail_ring := λ q, (fq_avail_addr q, 6 + 2 * fq_max q);
  q_used_ring := λ q, (fq_used_addr q, 6 + 8 * fq_max q);
  q_pending := λ q _, length (fq_avail q);
  q_add_used := fq_complete;
  c_head_index := fc_head;
  c_ttl := λ c, length (fc_descs c);
  c_next := λ c _,
    match fc_descs c with
    | [] => None
    | d :: ds => Some (norm_desc d, {| fc_head := fc_head c; fc_descs := ds |})
    end;
|}.

(** A completion changes the queue's counter and its used ring only. *)
Lemma fq_complete_frame q m h l q' m' r :
  fq_complete q m h l = (q', m', r) →
  (∃ k, q' = fq_with q (fq_avail q) k) ∧ fm_regions m' = fm_regions m ∧
  ∀ x, ¬ (fq_used_addr q ≤ x < fq_used_addr q + (6 + 8 * fq_max q)) → fm_byte m' x = fm_byte m x.
Proof.
  unfold fq_complete. case_bool_decide as Hmax.
  2: { intros; simplify_eq. split; [by exists (fq_used q'); destruct q'|done]. }
  destruct (gm_write_slice _ _ _) as [m1 e1] eqn:W1.
  pose proof (Z.mod_pos_bound (fq_used q) (fq_max q) Hmax).
  pose proof (gm_write_regions _ _ _ _ _ W1) as R1.
  assert (F1 : ∀ x, ¬ (fq_used_addr q ≤ x < fq_used_addr q + (6 + 8 * fq_max q)) →
    fm_byte m1 x = fm_byte m x).
  { intros x Hx. apply (gm_write_frame _ _ _ _ _ x W1).
    rewrite length_app, !length_to_le_bytes. lia. }
  destruct e1 as [e|]; [intros; simplify_eq; split; [by exists (fq_used q'); destruct q'|done]|].
  destruct (gm_write_slice m1 _ _) as [m2 e2] eqn:W2.
  pose proof (gm_write_regions _ _ _ _ _ W2) as R2. intros; simplify_eq.
  split; [by eexists|]. split; [simpl in *; congruence|]. intros x Hx. rewrite <- F1 by done.
  apply (gm_write_frame _ _ _ _ _ x W2). rewrite length_to_le_bytes. lia.
Qed.

#[global] Instance flat_queue_laws : QueueLaws.
Proof.
  split; simpl.
  - intros n q ?; by simplify_eq/=.
  - intros q m ->. eauto.
  - intros q m q' r Hp. repeat case_match; by simplify_eq.
  - intros q m q' r Hp. repeat case_match; simplify_eq/=; done.
  - intros q m q' r Hp. repeat case_match; simplify_eq/=; done.
  - intros q m q' c Hp. repeat case_match; simplify_eq/=. lia.
  - intros q m h l q' m' r ([k ->] & _)%fq_complete_frame. done.
  - intros q m h l q' m' r ([k ->] & _)%fq_complete_frame. done.
  - intros q m h l q' m' r (_ & ? & ?)%fq_complete_frame. done.
  - intros q m h l q' m' r ([k ->] & _)%fq_complete_frame _. done.
  - intros c m d c' Hn. case_match; simplify_eq/=. lia.
  - intros c m d c' Hn. case_match; simplify_eq/=. unfold u64, u32.
    split; apply Z.mod_pos_bound; lia.
Qed.

(** ** Event descriptors *)

#[global] Instance flat_event : EventApi := {|
  EventFd := Z;
  evt_new := λ _, Ok 0;
  evt_write := λ c v,
    if bool_decide (c + v < 2 ^ 64 - 1) then (c + v, None)
    else (c, Some "Resource temporarily unavailable");
|}.

(** ** A small machine memory for examples *)

(** The 128 MB region [GuestMemoryRegions::new] asks for. *)
Definition ram128 : list (Z * Z) := [(0, 0x8000000)].

Definition flat128 : FlatMem :=
  {| fm_regions := ram128; fm_ok := eq_refl; fm_data := ∅ |}.
