(* ===== verification/Host.v ===== *)
(** * Host: the parts of Rust's standard library the devices do I/O with

    Regular files, the process's standard output and non-blocking UDP sockets,
    as far as the crate uses them.  Each is a state with the operations as
    programs on it. *)

From S2P Require Import Prelude Errors.

(** ** Standard output *)

(** The bytes written so far; [so_broken] when the other end is closed and
    writes fail. *)
Record Stdout : Type := { so_bytes : list byte; so_broken : bool }.

Definition stdout_write_all (buf : list byte) : prog Stdout io_error unit := λ o,
  if so_broken o then (o, Err (IoErr (OsKind 32) "Broken pipe"))
  else ({| so_bytes := so_bytes o ++ buf; so_broken := false |}, Ok tt).

Definition stdout_flush : prog Stdout io_error unit := λ o,
  if so_broken o then (o, Err (IoErr (OsKind 32) "Broken pipe")) else (o, Ok tt).

(** ** Regular files *)

(** A sparse file of [f_len] bytes (bytes not in [f_data] are zero), the cursor,
    the mode it was opened in, and the largest size the host lets it grow to. *)
Record File : Type := {
  f_data : gmap Z byte;
  f_len : Z;
  f_pos : Z;
  f_writable : bool;
  f_limit : Z;
}.

Definition file_byte (f : File) (x : Z) : byte := default Byte.x00 (f_data f !! x).

Definition file_range (f : File) (pos : Z) (n : nat) : list byte :=
  (λ i, file_byte f (pos + Z.of_nat i)) <$> seq 0 n.

Definition file_with_pos (f : File) (pos : Z) : File :=
  {| f_data := f_data f; f_len := f_len f; f_pos := pos;
     f_writable := f_writable f; f_limit := f_limit f |}.

(** [seek(SeekFrom::Start(off))]: the kernel's offset is an i64. *)
Definition file_seek (off : Z) : prog File io_error unit := λ f,
  if bool_decide (off < 2 ^ 63) then (file_with_pos f off, Ok tt)
  else (f, Err (IoErr InvalidInput "Invalid argument")).

(** [read_exact(&mut buf)]: what was read before the end of the file stays in
    the buffer. *)
Definition file_read_exact (buf : list byte) (f : File) : File * (list byte * option io_error) :=
  let avail := Z.max 0 (f_len f - f_pos f) in
  let n := Nat.min (length buf) (Z.to_nat avail) in
  let buf' := file_range f (f_pos f) n ++ drop n buf in
  (file_with_pos f (f_pos f + Z.of_nat n),
   (buf', if bool_decide (n = length buf) then None
          else Some (IoErr UnexpectedEof "failed to fill whole buffer"))).

(** [write_all(&buf)]: extends the file as needed, up to the host's limit. *)
Definition file_write_all (buf : list byte) : prog File io_error unit := λ f,
  if bool_decide (buf = []) then (f, Ok tt)
  else if f_writable f then
    let n := Nat.min (length buf) (Z.to_nat (f_limit f - f_pos f)) in
    ({| f_data := put_bytes (f_data f) (f_pos f) (take n buf);
        f_len := if bool_decide (n = 0%nat) then f_len f
                 else Z.max (f_len f) (f_pos f + Z.of_nat n);
        f_pos := f_pos f + Z.of_nat n;
        f_writable := true; f_limit := f_limit f |},
     if bool_decide (n = length buf) then Ok tt
     else Err (IoErr (OsKind 27) "File too large"))
  else (f, Err (IoErr (OsKind 9) "Bad file descriptor")).

(** [File::flush] does nothing: a [File] has no user-space buffer. *)
Definition file_flush : prog File io_error unit := mret tt.

#[global] Arguments file_seek : simpl never.
#[global] Arguments file_read_exact : simpl never.
#[global] Arguments file_write_all : simpl never.

(** The contents of a file, without the cursor. *)
Definition same_contents (f g : File) : Prop :=
  f_data f = f_data g ∧ f_len f = f_len g ∧ f_writable f = f_writable g ∧ f_limit f = f_limit g.

#[global] Instance same_contents_equiv : Equivalence same_contents.
Proof. unfold same_contents. split; red; intuition congruence. Qed.

Lemma file_seek_contents off f f' r :
  file_seek off f = (f', r) → same_contents f' f.
Proof. unfold file_seek. by case_bool_decide; intros; simplify_eq. Qed.

Lemma file_read_exact_contents buf f f' r :
  file_read_exact buf f = (f', r) → same_contents f' f.
Proof. unfold file_read_exact. intros; simplify_eq; done. Qed.

(** A file opened for reading only cannot be changed through its handle. *)
Lemma file_write_all_readonly buf f f' r :
  f_writable f = false → file_write_all buf f = (f', r) → f' = f.
Proof. intros Hw. unfold file_write_all. rewrite Hw. case_bool_decide; by intros; simplify_eq. Qed.

Lemma length_file_range f pos n : length (file_range f pos n) = n.
Proof. unfold file_range. by rewrite length_fmap, length_seq. Qed.

Lemma file_read_exact_length buf f f' buf' e :
  file_read_exact buf f = (f', (buf', e)) → length buf' = length buf.
Proof.
  unfold file_read_exact. intros; simplify_eq.
  rewrite length_app, length_file_range, length_drop. lia.
Qed.

(** A read inside the file returns its bytes. *)
Lemma file_read_exact_inside buf f :
  0 ≤ f_pos f → f_pos f + Z.of_nat (length buf) ≤ f_len f →
  file_read_exact buf f =
  (file_with_pos f (f_pos f + Z.of_nat (length buf)),
   (file_range f (f_pos f) (length buf), None)).
Proof.
  intros Hp Hl. unfold file_read_exact.
  rewrite Nat.min_l by lia. rewrite bool_decide_true by done.
  by rewrite drop_all, app_nil_r.
Qed.

(** ** UDP sockets *)

(** What the network has for a non-blocking socket, in order. *)
Inductive recv_event : Type :=
| Datagram (bs : list byte)
| RecvError (e : io_error).

(** [us_answer n buf] is what the host says to the n-th send, of [buf]: it may
    refuse any of them (too long a datagram, no route, a full buffer). *)
Record UdpSocket : Type := {
  us_in : list recv_event;
  us_sent : list (list byte * string);
  us_tries : nat;
  us_answer : nat → list byte → option io_error;
}.

Definition with_in (s : UdpSocket) (l : list recv_event) : UdpSocket :=
  {| us_in := l; us_sent := us_sent s; us_tries := us_tries s; us_answer := us_answer s |}.

Definition with_sent (s : UdpSocket) (l : list (list byte * string)) (n : nat) : UdpSocket :=
  {| us_in := us_in s; us_sent := us_sent s ++ l; us_tries := us_tries s + n;
     us_answer := us_answer s |}.

(** [recv_from(&mut buf)] returns the number of bytes received. *)
Definition recv_from (buf : list byte) : prog UdpSocket io_error (list byte * Z) := λ s,
  match us_in s with
  | [] => (s, Err (IoErr WouldBlock "Resource temporarily unavailable"))
  | Datagram bs :: l =>
      (with_in s l, Ok (copy_prefix bs buf, Z.of_nat (Nat.min (length bs) (length buf))))
  | RecvError e :: l => (with_in s l, Err e)
  end.

(** [send_to(&buf, peer)] *)
Definition send_to (buf : list byte) (peer : string) : prog UdpSocket io_error Z := λ s,
  match us_answer s (us_tries s) buf with
  | Some e => (with_sent s [] 1, Err e)
  | None => (with_sent s [(buf, peer)] 1, Ok (Z.of_nat (length buf)))
  end.

(** ** Files read whole *)

(** The host's files as the loaders see them: [File::open(path)] and
    [file.read_to_end(&mut buffer)], either of which may fail. *)
Class HostFiles := {
  HFile : Type;
  host_open : string → res io_error HFile;
  host_read_to_end : HFile → res io_error (list byte);
}.

(** [r.map_err(HypervisorError::IoError)?] *)
Definition lift_io {S A} (r : res io_error A) : rust S A :=
  plift (match r with
         | Ok a => Ok a
         | Err e => Err (IoError e)
         | Panic => Panic
         | OutOfFuel => OutOfFuel
         end).

(** Opens a file and reads all of it. *)
Definition read_file {S} `{HostFiles} (path : string) : rust S (list byte) :=
  file ← lift_io (host_open path);
  lift_io (host_read_to_end file).
