(* ===== verification/VirtioMmio.v ===== *)
(** * VirtioMmio: the [VirtioDevice] trait and the MMIO transport

    virtio/mod.rs (the trait, [VirtioDeviceConfig]) and virtio/mmio.rs
    ([VirtioMmioDevice]).  The trait is a class over the device's state; methods
    that take [&mut self] and touch guest memory run on the pair of the device
    and the [World] it shares with the rest of the machine. *)

From S2P Require Import Prelude Errors Platform Host.

Section virtio.
Context `{QA : QueueApi} `{EA : EventApi}.

(** What all devices share: guest memory and the process's stdout. *)
Record World : Type := { w_mem : GMem; w_stdout : Stdout }.

Definition with_mem (w : World) (m : GMem) : World :=
  {| w_mem := m; w_stdout := w_stdout w |}.
Definition with_stdout (w : World) (o : Stdout) : World :=
  {| w_mem := w_mem w; w_stdout := o |}.

(** ** The trait *)

(** [fuel] bounds the [while let] loop of [process_queue]. *)
Class VirtioDevice (D : Type) := {
  device_type : D → Z;
  get_features : D → Z;
  set_acked_features : Z → rust D unit;
  read_config : D → Z → list byte → list byte * result unit;
  write_config : Z → list byte → rust D unit;
  process_queue : nat → Z → rust (D * World) unit;
  get_queues : D → list Z;
  get_interrupt_status : D → Z;
  shutdown : rust D unit;
  dev_mmio_read : D → Z → list byte → list byte * result unit;
  dev_mmio_write : Z → list byte → rust D unit;
  get_mmio_region : D → option (Z * Z);
}.

(** The trait's default methods. *)
Definition default_shutdown {D} : rust D unit := mret tt.
Definition default_mmio_read {D} (_ : D) (_ : Z) (data : list byte) : list byte * result unit :=
  (data, Ok tt).
Definition default_mmio_write {D} (_ : Z) (_ : list byte) : rust D unit := mret tt.
Definition default_get_mmio_region {D} (_ : D) : option (Z * Z) := None.

(** ** [VirtioDeviceConfig]; its [mem] is the world's memory *)

Record VirtioDeviceConfig : Type := {
  guest_mem : Z;
  irq : Z;
  queues : list Queue;
  interrupt_evt : option EventFd;
}.

(** [Queue::new(1024).unwrap()], [num_queues] times *)
Fixpoint new_queues (num_queues : nat) : res string (list Queue) :=
  match num_queues with
  | O => Ok []
  | S n =>
      match q_new 1024 with
      | Some q => match new_queues n with Ok qs => Ok (q :: qs) | r => r end
      | None => Panic
      end
  end.

Definition config_new (guest_mem irq : Z) (num_queues : nat) : res string VirtioDeviceConfig :=
  match new_queues num_queues with
  | Ok qs =>
      Ok {| guest_mem := guest_mem; irq := irq; queues := qs;
            interrupt_evt := match evt_new EFD_NONBLOCK with Ok e => Some e | _ => None end |}
  | Err e => Err e
  | Panic => Panic
  | OutOfFuel => OutOfFuel
  end.

Definition config_with_queue (c : VirtioDeviceConfig) (i : nat) (q : Queue) : VirtioDeviceConfig :=
  {| guest_mem := guest_mem c; irq := irq c; queues := <[i := q]> (queues c);
     interrupt_evt := interrupt_evt c |}.

Definition config_with_evt (c : VirtioDeviceConfig) (e : EventFd) : VirtioDeviceConfig :=
  {| guest_mem := guest_mem c; irq := irq c; queues := queues c;
     interrupt_evt := Some e |}.

(** [if let Some(evt) = &self.config.interrupt_evt { evt.write(1).map_err(..)? }],
    as the console and the block device raise their interrupt *)
Definition signal_interrupt (c : VirtioDeviceConfig) : VirtioDeviceConfig * result unit :=
  match interrupt_evt c with
  | Some evt =>
      let '(evt', e) := evt_write evt 1 in
      (config_with_evt c evt',
       match e with
       | None => Ok tt
       | Some msg => Err (io_other ("Failed to signal interrupt: " +:+ msg))
       end)
  | None => (c, Ok tt)
  end.

(** The configuration-space read of the console, block and net devices: bytes
    [offset..] of the packed configuration struct into [data]. *)
Definition read_config_slice (config_slice : list byte) (offset : Z) (data : list byte)
    : list byte * result unit :=
  let config_len := Z.of_nat (length config_slice) in
  if bool_decide (config_len ≤ offset) then
    (data, Err (MemoryError "Invalid config space offset"))
  else
    let len := Z.to_nat (Z.min (Z.of_nat (length data)) (config_len - offset)) in
    (take len (drop (Z.to_nat offset) config_slice) ++ drop len data, Ok tt).

(** ** The MMIO transport *)

Record VirtioMmioDevice (D : Type) : Type := MmioDev {
  device : D;
  base_addr : Z;
  size : Z;
  queue_sel : Z;
}.

Definition mmio_new {D} (d : D) (base : Z) : VirtioMmioDevice D :=
  MmioDev D d base 0x1000 0.

Section transport.
Context {D : Type} `{DV : VirtioDevice D}.
Implicit Types (v : VirtioMmioDevice D).

Definition with_device v (d : D) : VirtioMmioDevice D :=
  MmioDev D d (base_addr D v) (size D v) (queue_sel D v).

(** The [match offset] of [mmio_read]: the u32 a register reads as. *)
Definition register_value v (offset : Z) : Z :=
  match offset with
  | 0x00 => 0x74726976
  | 0x04 => 1
  | 0x08 => device_type (device D v)
  | 0x0c => 0x4d564f4d
  | 0x10 => Z.land (get_features (device D v)) 0xffffffff
  | 0x14 => as_u32 (Z.shiftr (get_features (device D v)) 32)
  | 0x34 =>
      let queues := get_queues (device D v) in
      if bool_decide (queue_sel D v < Z.of_nat (length queues))
      then default 0 (queues !! Z.to_nat (queue_sel D v)) else 0
  | 0x44 => 1
  | 0x60 => get_interrupt_status (device D v)
  | 0x70 => 0
  | _ => 0
  end.

Definition mmio_read v (offset : Z) (data : list byte) : list byte * result unit :=
  if bool_decide (0x100 ≤ offset) then read_config (device D v) (offset - 0x100) data
  else
    let bytes := to_le_bytes 4 (register_value v offset) in
    let len := Nat.min (length data) (length bytes) in
    (take len bytes ++ drop len data, Ok tt).

(** Running a device method through the transport. *)
Definition on_device {A} (m : rust D A) : rust (VirtioMmioDevice D * World) A :=
  zoom (λ s, device D s.1) (λ d s, (with_device s.1 d, s.2)) m.

Definition on_device_world {A} (m : rust (D * World) A) : rust (VirtioMmioDevice D * World) A :=
  zoom (λ s, (device D s.1, s.2)) (λ dw s, (with_device s.1 dw.1, dw.2)) m.

Definition select_queue (val : Z) : rust (VirtioMmioDevice D * World) unit := λ s,
  ((MmioDev D (device D s.1) (base_addr D s.1) (size D s.1) val, s.2), Ok tt).

(** [val_bytes[..len].copy_from_slice(&data[..len])], then [u32::from_le_bytes] *)
Definition write_value (data : list byte) : Z :=
  let len := Nat.min (length data) 4 in
  from_le_bytes (take len data ++ drop len (zeros 4)).

Definition mmio_write (fuel : nat) (offset : Z) (data : list byte)
    : rust (VirtioMmioDevice D * World) unit :=
  if bool_decide (0x100 ≤ offset) then on_device (write_config (offset - 0x100) data)
  else
    let val := write_value data in
    match offset with
    | 0x20 => pignore (on_device (set_acked_features val))
    | 0x30 => select_queue val
    | 0x50 => pignore (on_device_world (process_queue fuel val))
    | _ => mret tt
    end.

End transport.
End virtio.

Arguments MmioDev {D} _ _ _ _.
Arguments device {D} _.
Arguments base_addr {D} _.
Arguments size {D} _.
Arguments queue_sel {D} _.

(** ** Lemmas on configuration reads *)

Lemma read_config_slice_out cfg offset data :
  Z.of_nat (length cfg) ≤ offset →
  read_config_slice cfg offset data = (data, Err (MemoryError "Invalid config space offset")).
Proof. intros. unfold read_config_slice. by rewrite bool_decide_true. Qed.

Lemma read_config_slice_in cfg offset data :
  0 ≤ offset < Z.of_nat (length cfg) →
  ∃ data', read_config_slice cfg offset data = (data', Ok tt) ∧
    length data' = length data ∧
    ∀ i, data' !! i =
      if decide ((i < length data)%nat ∧ offset + Z.of_nat i < Z.of_nat (length cfg))
      then cfg !! (Z.to_nat offset + i)%nat else data !! i.
Proof.
  intros Ho. unfold read_config_slice. rewrite bool_decide_false by lia.
  eexists; split; [done|]. set (len := Z.to_nat _).
  assert (Hlen : length (take len (drop (Z.to_nat offset) cfg)) = len) by len_lia.
  split; [rewrite length_app, Hlen, length_drop; lia|]. intros i.
  destruct (decide (i < len)%nat).
  - rewrite lookup_app_l, lookup_take_lt, lookup_drop, decide_True by lia. done.
  - rewrite lookup_app_r, Hlen, lookup_drop, decide_False by lia. f_equal. lia.
Qed.

(** Reading the whole struct in one access returns the struct. *)
Lemma read_config_slice_all cfg data :
  (0 < length cfg)%nat → length data = length cfg →
  read_config_slice cfg 0 data = (cfg, Ok tt).
Proof.
  intros Hpos Hl. unfold read_config_slice. rewrite bool_decide_false by lia.
  rewrite Z.sub_0_r, Hl, Z.min_id, Nat2Z.id, drop_0, firstn_all, drop_ge by lia.
  by rewrite app_nil_r.
Qed.

(** ** Theorems on the transport *)

(** A device whose [process_queue] cannot act: the interface through which the
    transport's theorems see a device with no configured queue. *)
Class InertDevice `{QA : QueueApi} (D : Type) {DV : VirtioDevice D} := {
  inert : D → Prop;
  inert_set_acked_features f d d' r :
    inert d → set_acked_features f d = (d', r) → inert d';
  inert_write_config o bs d d' r :
    inert d → write_config o bs d = (d', r) → inert d';
  inert_process_queue fuel i d w d' w' r :
    inert d → process_queue fuel i (d, w) = ((d', w'), r) → inert d' ∧ w' = w;
}.

Section transport_theorems.
Context `{QA : QueueApi} `{EA : EventApi} {D : Type} `{DV : !VirtioDevice D}.
Implicit Types (v : VirtioMmioDevice D) (w : World).

Lemma write_value_u32 data : u32 (write_value data).
Proof.
  unfold write_value, u32. pose proof (from_le_bytes_bound
    (take (length data `min` 4) data ++ drop (length data `min` 4) (zeros 4))) as Hb.
  replace (length (take _ data ++ _)) with 4%nat in Hb by (len_lia). lia.
Qed.

Lemma write_value_le z : u32 z → write_value (to_le_bytes 4 z) = z.
Proof.
  intros Hz. unfold write_value. rewrite length_to_le_bytes. simpl Nat.min.
  rewrite firstn_all2, drop_ge, app_nil_r by len_lia.
  by rewrite from_to_le_bytes.
Qed.

Lemma mmio_read_register_aux v offset data :
  0 ≤ offset < 0x100 →
  ∃ data', mmio_read v offset data = (data', Ok tt) ∧
    data' = take (length data) (to_le_bytes 4 (register_value v offset)) ++ drop 4 data.
Proof.
  intros Ho. unfold mmio_read. rewrite bool_decide_false by lia.
  eexists; split; [done|]. rewrite length_to_le_bytes.
  destruct (decide (length data ≤ 4)%nat).
  - rewrite Nat.min_l, !drop_ge by lia. done.
  - rewrite Nat.min_r by lia. f_equal.
    rewrite !firstn_all2 by len_lia. done.
Qed.

(** C27: a read of a control register through the transport succeeds, leaves the
    length of the guest's buffer alone, stores the low bytes of the register's
    value in it little-endian (all four when the access is four bytes wide), and
    does not touch bytes beyond the register. *)
Theorem mmio_read_register v offset data (Ho : 0 ≤ offset < 0x100) :
  ∃ data', mmio_read v offset data = (data', Ok tt) ∧
    length data' = length data ∧
    from_le_bytes (take 4 data') =
      register_value v offset mod 2 ^ (8 * Z.min 4 (Z.of_nat (length data))) ∧
    drop 4 data' = drop 4 data.
Proof.
  destruct (mmio_read_register_aux v offset data Ho) as (data' & -> & ->).
  eexists; split; [done|].
  set (reg := register_value v offset).
  assert (Hl : length (take (length data) (to_le_bytes 4 reg)) = Nat.min (length data) 4) by len_lia.
  destruct (decide (length data ≤ 4)%nat) as [Hd|Hd].
  - rewrite (drop_ge data) by lia. rewrite app_nil_r. split_and!; [len_lia| |].
    + rewrite (firstn_all2 (take _ _)) by len_lia.
      rewrite from_le_bytes_take. unfold from_le_bytes, to_le_bytes. rewrite le_combine_split.
      rewrite Z.min_r by lia. change (Z.of_nat 4 * 8) with 32.
      apply Z.mod_mod_divide.
      exists (2 ^ (32 - 8 * Z.of_nat (length data))). rewrite <- Z.pow_add_r by lia. f_equal. lia.
    + rewrite drop_ge; [done|len_lia].
  - rewrite (firstn_all2 (to_le_bytes 4 reg)) by len_lia. split_and!; [len_lia| |].
    + rewrite take_app_length' by len_lia. unfold from_le_bytes, to_le_bytes.
      rewrite le_combine_split. rewrite Z.min_l by lia. done.
    + rewrite drop_app_length' by len_lia. done.
Qed.

(** A queue the driver selects by writing QueueSel is the one QueueNumMax
    then describes, and an index past the device's queues reads as 0; nothing
    else changes. *)
Theorem queue_select_num_max fuel v w q (Hq : u32 q) :
  ∃ v', mmio_write fuel 0x30 (to_le_bytes 4 q) (v, w) = ((v', w), Ok tt) ∧
    device v' = device v ∧ base_addr v' = base_addr v ∧ size v' = size v ∧
    register_value v' 0x34 = default 0 (get_queues (device v) !! Z.to_nat q).
Proof.
  unfold mmio_write. rewrite bool_decide_false by lia.
  rewrite write_value_le by done. unfold select_queue; simpl.
  eexists; split; [done|]. split_and!; try done.
  unfold register_value; simpl. case_bool_decide as Hl; [done|].
  rewrite lookup_ge_None_2; [done|]. unfold u32 in Hq. lia.
Qed.

(** The [match offset] of [mmio_write] as a chain of tests. *)
Lemma mmio_write_cases fuel offset data :
  mmio_write (D := D) fuel offset data =
  if bool_decide (0x100 ≤ offset) then on_device (write_config (offset - 0x100) data)
  else if offset =? 0x20 then pignore (on_device (set_acked_features (write_value data)))
  else if offset =? 0x30 then select_queue (write_value data)
  else if offset =? 0x50 then pignore (on_device_world (process_queue fuel (write_value data)))
  else mret tt.
Proof.
  unfold mmio_write. case_bool_decide; [done|]. destruct offset as [|p|p]; [done| |done].
  do 7 (destruct p as [p|p|]; try reflexivity).
Qed.

(** C28: below the configuration space the transport acts only on GuestFeatures,
    QueueSel and QueueNotify.  A write to any other register, among them the
    ones a driver needs to set a queue up (QueueNum 0x38, QueuePFN 0x40) and
    Status 0x70, succeeds and changes nothing, so Status still reads 0. *)
Theorem unhandled_register_write fuel v w offset data
    (Ho : 0 ≤ offset < 0x100) (Hn : offset ∉ [0x20; 0x30; 0x50]) :
  mmio_write fuel offset data (v, w) = ((v, w), Ok tt) ∧
  register_value v 0x70 = 0.
Proof.
  split; [|done]. rewrite mmio_write_cases, bool_decide_false by lia.
  rewrite !not_elem_of_cons in Hn.
  destruct Hn as (? & ? & ? & _). by rewrite !(proj2 (Z.eqb_neq _ _)).
Qed.

(** The guest never sees a device error through a control register: below
    the configuration space a write either succeeds or does not return. *)
Theorem mmio_write_never_errs fuel offset data s e (Ho : 0 ≤ offset < 0x100) :
  (mmio_write (D := D) fuel offset data s).2 ≠ Err e.
Proof.
  rewrite mmio_write_cases, bool_decide_false by lia.
  assert (Hig : ∀ A (m : rust (VirtioMmioDevice D * World) A),
    (pignore (E' := HypervisorError) m s).2 ≠ Err e)
    by (intros A m; unfold pignore; by destruct (m s) as [? []]).
  repeat case_match; try done; apply Hig.
Qed.

(** A guest's writes to one device, in order, results dropped as vm.rs does. *)
Definition mmio_writes (fuel : nat) (l : list (Z * list byte))
    : rust (VirtioMmioDevice D * World) unit :=
  for_each l (λ '(o, bs), pignore (mmio_write fuel o bs)).

Lemma inert_mmio_write `{ID : !InertDevice D} fuel o bs v w s' r :
  inert (device v) → mmio_write fuel o bs (v, w) = (s', r) →
  inert (device s'.1) ∧ s'.2 = w.
Proof.
  intros Hi Hw. rewrite mmio_write_cases in Hw.
  assert (Hdev : ∀ (m : rust D unit),
    (∀ d' r', m (device v) = (d', r') → inert d') →
    ∀ s' r', on_device m (v, w) = (s', r') → inert (device s'.1) ∧ s'.2 = w).
  { intros m Hm s1 r1. unfold on_device, zoom; simpl.
    destruct (m (device v)) as [d' r'] eqn:Hd. intros; simplify_eq/=. eauto. }
  assert (Hig : ∀ (m : rust (VirtioMmioDevice D * World) unit),
    (∀ s' r', m (v, w) = (s', r') → inert (device s'.1) ∧ s'.2 = w) →
    ∀ s' r', pignore (E' := HypervisorError) m (v, w) = (s', r') → inert (device s'.1) ∧ s'.2 = w).
  { intros m Hm s1 r1. unfold pignore. destruct (m (v, w)) as [s2 r2] eqn:Hm2.
    destruct r2; intros; simplify_eq; eauto. }
  case_bool_decide.
  { eapply Hdev; [|done]. intros. by eapply inert_write_config. }
  repeat case_match.
  - eapply Hig; [|done]. intros s1 r1 Hs. eapply Hdev; [|done].
    intros. by eapply inert_set_acked_features.
  - unfold select_queue in Hw. by simplify_eq/=.
  - eapply Hig; [|done]. intros s1 r1. unfold on_device_world, zoom; simpl.
    destruct (process_queue _ _ _) as [[d' w'] r'] eqn:Hpq. intros; simplify_eq/=.
    by eapply inert_process_queue.
  - prog_unfold. by simplify_eq/=.
Qed.

(** No sequence of guest writes moves an inert device: memory and stdout stay
    as they are. *)
Lemma inert_mmio_writes `{ID : !InertDevice D} fuel l v w s' r :
  inert (device v) → mmio_writes fuel l (v, w) = (s', r) →
  inert (device s'.1) ∧ s'.2 = w.
Proof.
  intros Hi Hw.
  eapply (for_each_inv (λ s, inert (device s.1) ∧ s.2 = w)) in Hw; [done| |done].
  intros [o bs] [v1 w1] s2 r2 _ [Hi1 Hw1] Hp; simpl in *; subst w1.
  unfold pignore in Hp. destruct (mmio_write _ _ _ _) as [s3 r3] eqn:Hm.
  eapply inert_mmio_write in Hm; [|done]. by destruct r3; simplify_eq.
Qed.

End transport_theorems.
