(* ===== verification/Chains.v ===== *)
(** * Chains: walking descriptor chains

    [for desc in desc_chain] over memory that the loop does not change, shared
    by the console, net and fs devices, and the laws of [QueueApi] turned into
    facts about it. *)

From S2P Require Import Prelude Errors Platform Host VirtioMmio.

Section chains.
Context `{QA : QueueApi}.

Fixpoint walk_chain (n : nat) (c : DescChain) (m : GMem) : list Descriptor :=
  match n with
  | O => []
  | S n' =>
      match c_next c m with
      | Some (d, c') => d :: walk_chain n' c' m
      | None => []
      end
  end.

(** The descriptors the iterator yields, with the crate's own step budget. *)
Definition chain_descs (c : DescChain) (m : GMem) : list Descriptor :=
  walk_chain (c_ttl c) c m.

(** [let mut data = vec![0u8; desc.len()]; let _ = mem.read_slice(&mut data, desc.addr())] *)
Definition desc_read (m : GMem) (d : Descriptor) : list byte :=
  (gm_read_slice m (zeros (Z.to_nat (desc_len d))) (desc_addr d)).1.

(** ** Specification: what a chain carries *)

(** The iterator runs to its end over the descriptors [ds]. *)
Inductive yields (m : GMem) : DescChain → list Descriptor → Prop :=
| yields_end c : c_next c m = None → yields m c []
| yields_desc c d c' ds : c_next c m = Some (d, c') → yields m c' ds → yields m c (d :: ds).

(** [bs] is a buffer of the descriptor's length, holding the guest's bytes when
    all of them are RAM. *)
Definition desc_bytes (m : GMem) (d : Descriptor) (bs : list byte) : Prop :=
  length bs = Z.to_nat (desc_len d) ∧
  (0 < desc_len d → backed m (desc_addr d) (desc_len d) →
   view_bytes (gm_byte m) (desc_addr d) (Z.to_nat (desc_len d)) = Some bs).

(** The bytes of a chain's descriptors that are to be kept, in chain order. *)
Definition payload_of (keep : Descriptor → bool) (m : GMem) (c : DescChain) (bs : list byte) : Prop :=
  ∃ ds bss, yields m c ds ∧ Forall2 (desc_bytes m) (List.filter keep ds) bss ∧ bs = concat bss.

(** ** Lemmas *)

Context `{QL : !QueueLaws}.

Lemma walk_chain_enough n c m :
  (c_ttl c ≤ n)%nat → walk_chain n c m = walk_chain (c_ttl c) c m.
Proof.
  revert c. induction n as [n IH] using lt_wf_ind. intros c Hn.
  destruct (c_next c m) as [[d c']|] eqn:Hc.
  - pose proof (c_next_ttl _ _ _ _ Hc) as Ht.
    destruct n as [|n]; [lia|]. destruct (c_ttl c) as [|t] eqn:Htc; [lia|]. simpl. rewrite Hc.
    f_equal. rewrite (IH n), (IH t); [done|lia..].
  - by destruct n, (c_ttl c); simpl; rewrite ?Hc.
Qed.

(** The walk follows the iterator to its end: the budget never cuts it short. *)
Lemma chain_descs_unfold c m :
  chain_descs c m =
  match c_next c m with
  | Some (d, c') => d :: chain_descs c' m
  | None => []
  end.
Proof.
  unfold chain_descs. destruct (c_next c m) as [[d c']|] eqn:Hc.
  - pose proof (c_next_ttl _ _ _ _ Hc). destruct (c_ttl c) as [|t]; [lia|]. simpl. rewrite Hc.
    f_equal. apply walk_chain_enough. lia.
  - destruct (c_ttl c); simpl; by rewrite ?Hc.
Qed.

Lemma chain_descs_yields c m : yields m c (chain_descs c m).
Proof.
  remember (c_ttl c) as n eqn:Hn. revert c Hn. induction n as [n IH] using lt_wf_ind. intros c ->.
  rewrite chain_descs_unfold. destruct (c_next c m) as [[d c']|] eqn:Hc; [|by constructor].
  econstructor; [done|]. eapply IH; [|done]. by eapply c_next_ttl.
Qed.

Lemma chain_descs_range c m d :
  d ∈ chain_descs c m → u64 (desc_addr d) ∧ u32 (desc_len d).
Proof.
  unfold chain_descs. generalize (c_ttl c) as n. intros n. revert c.
  induction n as [|n IH]; intros c; simpl; [set_solver|].
  destruct (c_next c m) as [[d0 c']|] eqn:Hc; [|set_solver].
  rewrite elem_of_cons. intros [->|Hd]; [by eapply c_next_desc|eauto].
Qed.

Context `{ML : !MemoryLaws}.

Lemma length_desc_read m d : length (desc_read m d) = Z.to_nat (desc_len d).
Proof.
  unfold desc_read. destruct (gm_read_slice _ _ _) as [b r] eqn:Hr.
  apply gm_read_length in Hr. by rewrite length_zeros in Hr.
Qed.

(** A descriptor over RAM reads as the guest's bytes. *)
Lemma desc_read_backed m d :
  0 < desc_len d → backed m (desc_addr d) (desc_len d) →
  view_bytes (gm_byte m) (desc_addr d) (Z.to_nat (desc_len d)) = Some (desc_read m d).
Proof.
  intros Hpos Hb. unfold desc_read.
  destruct (gm_read_fits m (zeros (Z.to_nat (desc_len d))) (desc_addr d)) as (buf & Hr & Hv).
  - apply Hb. lia.
  - rewrite length_zeros, Z2Nat.id by lia. done.
  - rewrite length_zeros in Hv. by rewrite Hr.
Qed.

Lemma desc_read_bytes m d : desc_bytes m d (desc_read m d).
Proof. split; [apply length_desc_read|apply desc_read_backed]. Qed.

(** Reading the kept descriptors one after the other gathers the payload. *)
Lemma gather_payload keep m c :
  payload_of keep m c
    (concat ((λ d, if keep d then desc_read m d else []) <$> chain_descs c m)).
Proof.
  exists (chain_descs c m), (desc_read m <$> List.filter keep (chain_descs c m)).
  split_and!; [apply chain_descs_yields| |].
  - induction (List.filter keep _); simpl; constructor; [apply desc_read_bytes|done].
  - induction (chain_descs c m) as [|d l IH]; [done|].
    rewrite fmap_cons. cbn [concat]. rewrite IH. simpl. by destruct (keep d).
Qed.

End chains.

(** ** Draining a queue into a host-side sink

    The transmit loops of the console and net devices: pop a chain, gather its
    bytes, hand them to the host, complete the chain with their number, until
    the queue is empty.  [W] is the host side, [payload] what is gathered and
    [sink] what is done with it. *)

Section drain.
Context `{QA : QueueApi} {W : Type}.
Context (payload : GMem → DescChain → list byte) (sink : list byte → W → W).
Context (carries : GMem → DescChain → list byte → Prop).

Record DrainState : Type := { dr_queue : Queue; dr_mem : GMem; dr_host : W }.

(** One turn of [while let Some(desc_chain) = queue.iter(mem)?.next()]. *)
Definition drain_turn : rust DrainState ctl := λ s,
  match q_pop (dr_queue s) (dr_mem s) with
  | (q, Err e) =>
      ({| dr_queue := q; dr_mem := dr_mem s; dr_host := dr_host s |},
       Err (MemoryError ("Failed to iterate queue: " +:+ e)))
  | (q, Ok None) =>
      ({| dr_queue := q; dr_mem := dr_mem s; dr_host := dr_host s |}, Ok Break)
  | (q, Ok (Some chain)) =>
      let buf := payload (dr_mem s) chain in
      let host := sink buf (dr_host s) in
      let '(q', m', _) := q_add_used q (dr_mem s) (c_head_index chain)
                            (as_u32 (Z.of_nat (length buf))) in
      ({| dr_queue := q'; dr_mem := m'; dr_host := host |}, Ok Continue)
  | (q, Panic) => ({| dr_queue := q; dr_mem := dr_mem s; dr_host := dr_host s |}, Panic)
  | (q, OutOfFuel) => ({| dr_queue := q; dr_mem := dr_mem s; dr_host := dr_host s |}, OutOfFuel)
  end.

(** [drained q m bufs q' m' e]: popping chains from [q] until the queue is empty
    ([e = None]) or unusable ([e = Some _]), completing each with the length of
    the payload it carries, yields the payloads [bufs]. *)
Inductive drained : Queue → GMem → list (list byte) → Queue → GMem → option string → Prop :=
| drained_empty q m q' :
    q_pop q m = (q', Ok None) → drained q m [] q' m None
| drained_fail q m q' e :
    q_pop q m = (q', Err e) → drained q m [] q' m (Some e)
| drained_chain q m q1 c buf q2 m2 r bufs q' m' e :
    q_pop q m = (q1, Ok (Some c)) → carries m c buf →
    q_add_used q1 m (c_head_index c) (as_u32 (Z.of_nat (length buf))) = (q2, m2, r) →
    drained q2 m2 bufs q' m' e →
    drained q m (buf :: bufs) q' m' e.

(** What the loop returns, given how the drain ended. *)
Definition drain_result (e : option string) : result unit :=
  match e with
  | None => Ok tt
  | Some e => Err (MemoryError ("Failed to iterate queue: " +:+ e))
  end.

Context `{QL : !QueueLaws}.

(** One more unit of fuel than available chains is enough, and the loop is the
    drain with its payloads fed to the sink in order. *)
Lemma drain_loop_spec fuel q m h :
  (∀ m c, carries m c (payload m c)) → rings_apart q → (q_pending q m < fuel)%nat →
  ∃ bufs q' m' e, drained q m bufs q' m' e ∧
    while_loop fuel drain_turn {| dr_queue := q; dr_mem := m; dr_host := h |} =
    ({| dr_queue := q'; dr_mem := m'; dr_host := foldl (λ h b, sink b h) h bufs |},
     drain_result e).
Proof.
  intros Hcar. revert q m h. induction fuel as [|n IH]; intros q m h Hring Hp; [lia|].
  simpl while_loop. unfold drain_turn at 1; simpl.
  destruct (q_pop q m) as [q1 r] eqn:Hpop.
  pose proof (q_pop_outcome _ _ _ _ Hpop) as [Hnp Hnf].
  destruct r as [[c|]|e| |]; try done.
  - destruct (q_add_used _ _ _ _) as [[q2 m2] r2] eqn:Hu.
    apply rings_apart_add_used in Hu as Hp2; [|by eapply rings_apart_pop].
    destruct Hp2 as [Hring2 Hp2]. pose proof (q_pop_pending _ _ _ _ Hpop).
    destruct (IH q2 m2 (sink (payload m c) h)) as (bufs & q' & m' & e & Hd & Hr); [done|lia|].
    exists (payload m c :: bufs), q', m', e. split; [by econstructor|done].
  - exists [], q1, m, None. split; [by constructor|done].
  - exists [], q1, m, (Some e). split; [by constructor|done].
Qed.

End drain.

(** ** Fresh queues *)

Section fresh.
Context `{QA : QueueApi} `{EA : EventApi} `{QL : !QueueLaws}.

Definition queues_unready (c : VirtioDeviceConfig) : Prop :=
  Forall (λ q, q_ready q = false) (queues c).

(** [VirtioDeviceConfig::new] makes queues of 1024 entries, none of them ready. *)
Lemma config_new_fresh gm i n c :
  config_new gm i n = Ok c →
  queues_unready c ∧ length (queues c) = n ∧ Forall (λ q, q_max_size q = 1024) (queues c).
Proof.
  unfold config_new. destruct (new_queues n) as [qs| | |] eqn:Hq; try done.
  intros Hc; simplify_eq. unfold queues_unready; simpl.
  revert qs Hq. induction n as [|n IH]; simpl; intros qs Hq; simplify_eq; [done|].
  destruct (q_new 1024) as [q|] eqn:Hn; [|done].
  destruct (new_queues n) as [qs'| | |] eqn:Hn'; simplify_eq/=.
  destruct (IH qs' eq_refl) as (? & ? & ?). apply q_new_fresh in Hn as [??].
  split_and!; [by constructor|lia|by constructor].
Qed.

Lemma queues_unready_insert c i q :
  queues_unready c → q_ready q = false → queues_unready (config_with_queue c i q).
Proof. unfold queues_unready; simpl. intros. by apply Forall_insert. Qed.

Lemma queues_unready_pop c i q m :
  queues_unready c → queues c !! i = Some q →
  ∃ e, q_pop q m = (q, Err e) ∧ config_with_queue c i q = c.
Proof.
  intros Hu Hi. unfold queues_unready in Hu. rewrite Forall_lookup in Hu.
  destruct (q_pop_not_ready q m (Hu _ _ Hi)) as [e He]. exists e. split; [done|].
  destruct c; unfold config_with_queue; simpl in *. f_equal. by apply list_insert_id.
Qed.

End fresh.
