(* ===== verification/Console.v ===== *)
(** * Console: the virtio console of virtio/console.rs

    Queue 1 carries guest output to the host's stdout; queue 0 (input) is not
    implemented in the source. *)

From S2P Require Import Prelude Errors Platform Host VirtioMmio Chains.

Definition VIRTIO_ID_CONSOLE : Z := 3.
Definition VIRTIO_CONSOLE_F_SIZE : Z := 0.

(** The packed configuration struct, as values and as the bytes the guest reads. *)
Record ConsoleConfig : Type := {
  cols : Z;
  rows : Z;
  max_nr_ports : Z;
  emerg_wr : Z;
}.

Definition console_config_bytes (c : ConsoleConfig) : list byte :=
  to_le_bytes 2 (cols c) ++ to_le_bytes 2 (rows c) ++
  to_le_bytes 4 (max_nr_ports c) ++ to_le_bytes 4 (emerg_wr c).

Section console.
Context `{QA : QueueApi} `{EA : EventApi}.

(** [output] is the process's stdout, part of the [World]. *)
Record VirtioConsole : Type := {
  con_config : VirtioDeviceConfig;
  con_config_space : ConsoleConfig;
}.

Definition console_new (guest_memory irq : Z) : result VirtioConsole :=
  match config_new guest_memory irq 2 with
  | Ok config =>
      Ok {| con_config := config;
            con_config_space :=
              {| cols := 80; rows := 24; max_nr_ports := 1; emerg_wr := 0 |} |}
  | Err e => Err (MemoryError e)
  | Panic => Panic
  | OutOfFuel => OutOfFuel
  end.

Definition con_with_config (d : VirtioConsole) (c : VirtioDeviceConfig) : VirtioConsole :=
  {| con_config := c; con_config_space := con_config_space d |}.

(** Not implemented in the source: nothing is read from stdin. *)
Definition process_rx_queue : rust (VirtioConsole * World) unit := mret tt.

(** The bytes of a chain's readable descriptors, in chain order. *)
Definition tx_payload (m : GMem) (c : DescChain) : list byte :=
  concat ((λ d, if desc_write_only d then [] else desc_read m d) <$> chain_descs c m).

(** The host side of the transmit loop: stdout and [used_any].
    [if !buf.is_empty() { let _ = output.write_all(&buf); }] *)
Definition tx_sink (buf : list byte) (h : Stdout * bool) : Stdout * bool :=
  (if bool_decide (buf = []) then h.1 else (stdout_write_all buf h.1).1, true).

Definition process_tx_queue (fuel : nat) : rust (VirtioConsole * World) unit := λ '(d, w),
  match queues (con_config d) !! 1%nat with
  | None => ((d, w), Panic)
  | Some q =>
      let '(s, r) := while_loop fuel (drain_turn tx_payload tx_sink)
                       {| dr_queue := q; dr_mem := w_mem w; dr_host := (w_stdout w, false) |} in
      let '(out, used_any) := dr_host s in
      let w' := {| w_mem := dr_mem s; w_stdout := out |} in
      let cfg := config_with_queue (con_config d) 1 (dr_queue s) in
      match r with
      | Ok _ =>
          let '(cfg', r') := if (used_any : bool) then signal_interrupt cfg else (cfg, Ok tt) in
          ((con_with_config d cfg', w'), r')
      | r => ((con_with_config d cfg, w'), r)
      end
  end.

Definition console_get_features (d : VirtioConsole) : Z := Z.shiftl 1 VIRTIO_CONSOLE_F_SIZE.

(** Unsupported bits only cause a log line. *)
Definition console_set_acked_features (features : Z) : rust VirtioConsole unit := mret tt.

Definition console_read_config (d : VirtioConsole) (offset : Z) (data : list byte)
    : list byte * result unit :=
  read_config_slice (console_config_bytes (con_config_space d)) offset data.

Definition console_process_queue (fuel : nat) (queue_idx : Z)
    : rust (VirtioConsole * World) unit :=
  match queue_idx with
  | 0 => process_rx_queue
  | 1 => process_tx_queue fuel
  | _ => perr (MemoryError "Invalid queue index")
  end.

#[global] Instance console_device : VirtioDevice VirtioConsole := {|
  device_type := λ _, VIRTIO_ID_CONSOLE;
  get_features := console_get_features;
  set_acked_features := console_set_acked_features;
  read_config := console_read_config;
  write_config := λ _ _, mret tt;
  process_queue := console_process_queue;
  get_queues := λ d, q_max_size <$> queues (con_config d);
  get_interrupt_status := λ _, 0;
  shutdown := default_shutdown;
  dev_mmio_read := default_mmio_read;
  dev_mmio_write := default_mmio_write;
  get_mmio_region := default_get_mmio_region;
|}.

(** ** The transmit queue *)

Context `{QL : !QueueLaws}.

Lemma foldl_tx_sink bufs o u :
  so_broken o = false →
  foldl (λ h b, tx_sink b h) (o, u) bufs =
  ({| so_bytes := so_bytes o ++ concat bufs; so_broken := false |}, u || bool_decide (bufs ≠ [])).
Proof.
  revert o u. induction bufs as [|b bufs IH]; intros o u Hok; simpl.
  { rewrite app_nil_r, orb_false_r. destruct o; simpl in *; by subst. }
  assert (Hout : (tx_sink b (o, u)).1 = {| so_bytes := so_bytes o ++ b; so_broken := false |}).
  { unfold tx_sink; simpl. destruct (decide (b = [])) as [->|Hb].
    - rewrite bool_decide_true, app_nil_r by done. destruct o; simpl in *; by subst.
    - rewrite bool_decide_false by done. unfold stdout_write_all. by rewrite Hok. }
  unfold tx_sink at 2. simpl in *. rewrite Hout, IH by done. simpl.
  by rewrite app_assoc, orb_true_r.
Qed.

Lemma tx_payload_of `{ML : !MemoryLaws} m c :
  payload_of (λ d, negb (desc_write_only d)) m c (tx_payload m c).
Proof.
  pose proof (gather_payload (λ d, negb (desc_write_only d)) m c) as Hg. revert Hg.
  unfold tx_payload. replace (concat _) with
    (concat ((λ d, if desc_write_only d then [] else desc_read m d) <$> chain_descs c m)); [done|].
  f_equal. apply list_fmap_ext. intros i d _. by destruct (desc_write_only d).
Qed.

(** C4: on a transmit queue whose rings the driver placed apart and with stdout
    open, processing the queue always returns (enough fuel is one more than the
    available chains), and what it returns is exactly the drain of the queue:
    every chain popped in order, the bytes of its device-readable descriptors
    (the guest's, where they are RAM) appended to stdout, the chain completed
    with their number, and the interrupt raised once iff some chain was
    processed; a queue that cannot be iterated gives the error and no
    interrupt. *)
Theorem console_tx_drains `{ML : !MemoryLaws} fuel d w q
    (Hq : queues (con_config d) !! 1%nat = Some q)
    (Hring : rings_apart q)
    (Hout : so_broken (w_stdout w) = false)
    (Hfuel : (q_pending q (w_mem w) < fuel)%nat) :
  ∃ bufs q' m' e,
    drained (payload_of (λ d, negb (desc_write_only d))) q (w_mem w) bufs q' m' e ∧
    let w' := {| w_mem := m';
                 w_stdout := {| so_bytes := so_bytes (w_stdout w) ++ concat bufs;
                                so_broken := false |} |} in
    let cfg := config_with_queue (con_config d) 1 q' in
    console_process_queue fuel 1 (d, w) =
    match e, bufs with
    | Some e, _ =>
        ((con_with_config d cfg, w'), Err (MemoryError ("Failed to iterate queue: " +:+ e)))
    | None, [] => ((con_with_config d cfg, w'), Ok tt)
    | None, _ :: _ =>
        ((con_with_config d (signal_interrupt cfg).1, w'), (signal_interrupt cfg).2)
    end.
Proof.
  destruct (drain_loop_spec tx_payload tx_sink _ fuel q (w_mem w) (w_stdout w, false)
              tx_payload_of Hring Hfuel)
    as (bufs & q' & m' & e & Hd & Hr).
  exists bufs, q', m', e. split; [done|]. simpl.
  unfold process_tx_queue. rewrite Hq, Hr. simpl. rewrite foldl_tx_sink by done.
  destruct e, bufs; simpl; try done. by destruct (signal_interrupt _).
Qed.

(** ** The console is inert until a queue is ready *)

Lemma console_process_queue_unready fuel i d w d' w' r :
  queues_unready (con_config d) →
  console_process_queue fuel i (d, w) = ((d', w'), r) →
  d' = d ∧ w' = w.
Proof.
  intros Hu Hp. unfold console_process_queue in Hp.
  assert (Htx : process_tx_queue fuel (d, w) = ((d', w'), r) → d' = d ∧ w' = w).
  { unfold process_tx_queue. destruct (queues _ !! 1%nat) as [q|] eqn:Hq; [|by intros; simplify_eq].
    destruct (queues_unready_pop _ _ _ (w_mem w) Hu Hq) as (e & He & Hc).
    destruct fuel; simpl.
    - rewrite Hc. destruct d, w. by intros; simplify_eq.
    - unfold drain_turn; simpl. rewrite He. simpl. rewrite Hc. destruct d, w. by intros; simplify_eq. }
  unfold process_rx_queue in Hp. destruct i as [|[]|]; prog_unfold; simplify_eq; auto.
Qed.

#[global] Instance console_inert : InertDevice VirtioConsole.
Proof.
  refine {| inert := λ d, queues_unready (con_config d) |}.
  - intros f d d' r Hi Hs. simpl in Hs. prog_unfold. unfold console_set_acked_features in Hs.
    prog_unfold. by simplify_eq.
  - intros o bs d d' r Hi Hs. simpl in Hs. prog_unfold. by simplify_eq.
  - intros fuel i d w d' w' r Hi Hp.
    apply console_process_queue_unready in Hp as [-> ->]; done.
Defined.

Lemma console_new_inert gm i d : console_new gm i = Ok d → inert d.
Proof.
  unfold console_new. destruct (config_new gm i 2) eqn:Hc; try done.
  intros; simplify_eq. by apply config_new_fresh in Hc as [? _].
Qed.

End console.
