(* ===== verification/Block.v ===== *)
(** * Block: the virtio block device of virtio/block.rs

    [process_queue] serves requests with a body that drops the errors of its
    steps; [process_request], [handle_read] and [handle_write] are the variant
    with error propagation that the source keeps beside it.  Both walk a chain
    the same way, [request_turn]. *)

From S2P Require Import Prelude Errors Platform Host VirtioMmio Chains.

Definition VIRTIO_ID_BLOCK : Z := 2.

Definition VIRTIO_BLK_F_RO : Z := Z.shiftl 1 5.
Definition VIRTIO_BLK_F_BLK_SIZE : Z := Z.shiftl 1 6.
Definition VIRTIO_BLK_F_FLUSH : Z := Z.shiftl 1 9.
Definition VIRTIO_BLK_F_TOPOLOGY : Z := Z.shiftl 1 10.
Definition VIRTIO_F_VERSION_1 : Z := Z.shiftl 1 32.

Definition VIRTIO_BLK_T_IN : Z := 0.
Definition VIRTIO_BLK_T_OUT : Z := 1.
Definition VIRTIO_BLK_T_FLUSH : Z := 4.

Definition VIRTIO_BLK_S_OK : Z := 0.
Definition VIRTIO_BLK_S_IOERR : Z := 1.
Definition VIRTIO_BLK_S_UNSUPP : Z := 2.

(** ** The configuration structs, packed little-endian *)

Record BlockGeometry : Type := { cylinders : Z; heads : Z; sectors : Z }.

Definition geometry_bytes (g : BlockGeometry) : list byte :=
  to_le_bytes 2 (cylinders g) ++ to_le_bytes 1 (heads g) ++ to_le_bytes 1 (sectors g).

Record BlockTopology : Type := {
  physical_block_exp : Z;
  alignment_offset : Z;
  min_io_size : Z;
  opt_io_size : Z;
}.

Definition topology_bytes (t : BlockTopology) : list byte :=
  to_le_bytes 1 (physical_block_exp t) ++ to_le_bytes 1 (alignment_offset t) ++
  to_le_bytes 2 (min_io_size t) ++ to_le_bytes 4 (opt_io_size t).

Record BlockConfig : Type := {
  capacity : Z;
  size_max : Z;
  seg_max : Z;
  geometry : BlockGeometry;
  cfg_block_size : Z;
  topology : BlockTopology;
  writeback : Z;
  unused : list byte;
  max_discard_sectors : Z;
  max_discard_seg : Z;
  discard_sector_alignment : Z;
  max_write_zeroes_sectors : Z;
  max_write_zeroes_seg : Z;
  write_zeroes_may_unmap : Z;
  unused2 : list byte;
}.

Definition block_config_bytes (c : BlockConfig) : list byte :=
  to_le_bytes 8 (capacity c) ++ to_le_bytes 4 (size_max c) ++ to_le_bytes 4 (seg_max c) ++
  geometry_bytes (geometry c) ++ to_le_bytes 4 (cfg_block_size c) ++
  topology_bytes (topology c) ++ to_le_bytes 1 (writeback c) ++ unused c ++
  to_le_bytes 4 (max_discard_sectors c) ++ to_le_bytes 4 (max_discard_seg c) ++
  to_le_bytes 4 (discard_sector_alignment c) ++ to_le_bytes 4 (max_write_zeroes_sectors c) ++
  to_le_bytes 4 (max_write_zeroes_seg c) ++ to_le_bytes 1 (write_zeroes_may_unmap c) ++
  unused2 c.

Section block.
Context `{QA : QueueApi} `{EA : EventApi} `{BP : BuildProfile}.

Record VirtioBlock : Type := {
  blk_config : VirtioDeviceConfig;
  disk : File;
  disk_size : Z;
  block_size : Z;
  read_only : bool;
}.

(** [open] is the host's open of the disk image, read-write or read-only, and
    [stat] its error from [metadata], if any. *)
Definition block_new (guest_mem irq : Z) (open : bool → res io_error File)
    (stat : option io_error) (ro : bool) : result VirtioBlock :=
  match open (negb ro) with
  | Ok file =>
      match stat with
      | Some e => Err (IoError e)
      | None =>
          match config_new guest_mem irq 1 with
          | Ok config =>
              Ok {| blk_config := config; disk := file; disk_size := f_len file;
                    block_size := 512; read_only := ro |}
          | Err e => Err (MemoryError ("Failed to create virtio config: " +:+ e))
          | Panic => Panic
          | OutOfFuel => OutOfFuel
          end
      end
  | Err e => Err (io_other ("Failed to open disk image: " +:+ io_msg e))
  | Panic => Panic
  | OutOfFuel => OutOfFuel
  end.

(** ** One request: the disk and guest memory *)

Abbreviation blk_io A := (rust (File * GMem) A).

(** The error-propagating read: [handle_read]. *)
Definition handle_read (bsize : Z) (desc : Descriptor) : blk_io unit := λ '(f, m),
  match gm_read_slice m (zeros 8) (desc_addr desc) with
  | (_, Some _) => ((f, m), Err (MemoryError "Failed to read sector"))
  | (sector_buf, None) =>
      match mul_u64 (from_le_bytes sector_buf) bsize with
      | Ok offset =>
          match file_seek offset f with
          | (f1, Err e) => ((f1, m), Err (IoError e))
          | (f1, _) =>
              let buf_len := Z.to_nat (saturating_sub (desc_len desc) 16) in
              match file_read_exact (zeros buf_len) f1 with
              | (f2, (_, Some e)) => ((f2, m), Err (IoError e))
              | (f2, (buf, None)) =>
                  match checked_add_u64 (desc_addr desc) 16 with
                  | None => ((f2, m), Err (MemoryError "Invalid descriptor address"))
                  | Some write_addr =>
                      let '(m', e) := gm_write_slice m buf write_addr in
                      ((f2, m'), match e with
                                 | None => Ok tt
                                 | Some e => Err (from_guest_memory_error e)
                                 end)
                  end
              end
          end
      | Err e => ((f, m), Err e)
      | Panic => ((f, m), Panic)
      | OutOfFuel => ((f, m), OutOfFuel)
      end
  end.

(** The error-propagating write: [handle_write]. *)
Definition handle_write (bsize : Z) (desc : Descriptor) : blk_io unit := λ '(f, m),
  match gm_read_slice m (zeros 8) (desc_addr desc) with
  | (_, Some _) => ((f, m), Err (MemoryError "Failed to read sector"))
  | (sector_buf, None) =>
      match mul_u64 (from_le_bytes sector_buf) bsize with
      | Ok offset =>
          match file_seek offset f with
          | (f1, Err e) => ((f1, m), Err (IoError e))
          | (f1, _) =>
              let buf_len := Z.to_nat (saturating_sub (desc_len desc) 16) in
              match checked_add_u64 (desc_addr desc) 16 with
              | None => ((f1, m), Err (MemoryError "Invalid descriptor address"))
              | Some read_addr =>
                  match gm_read_slice m (zeros buf_len) read_addr with
                  | (_, Some e) => ((f1, m), Err (from_guest_memory_error e))
                  | (buf, None) =>
                      match file_write_all buf f1 with
                      | (f2, Err e) => ((f2, m), Err (IoError e))
                      | (f2, _) => ((f2, m), Ok tt)
                      end
                  end
              end
          end
      | Err e => ((f, m), Err e)
      | Panic => ((f, m), Panic)
      | OutOfFuel => ((f, m), OutOfFuel)
      end
  end.

(** [disk.flush().map_err(..)?] *)
Definition handle_flush : blk_io unit := λ '(f, m),
  match file_flush f with
  | (f1, Err e) => ((f1, m), Err (io_other ("Failed to flush disk: " +:+ io_msg e)))
  | (f1, _) => ((f1, m), Ok tt)
  end.

(** The arms of [process_queue]: same steps, errors dropped. *)
Definition inline_read (bsize : Z) (desc : Descriptor) : blk_io unit := λ '(f, m),
  let sector_buf := (gm_read_slice m (zeros 8) (desc_addr desc)).1 in
  match mul_u64 (from_le_bytes sector_buf) bsize with
  | Ok offset =>
      let f1 := (file_seek offset f).1 in
      let buf_len := Z.to_nat (saturating_sub (desc_len desc) 16) in
      let '(f2, (buf, _)) := file_read_exact (zeros buf_len) f1 in
      let m' := match checked_add_u64 (desc_addr desc) 16 with
                | Some write_addr => (gm_write_slice m buf write_addr).1
                | None => m
                end in
      ((f2, m'), Ok tt)
  | Err e => ((f, m), Err e)
  | Panic => ((f, m), Panic)
  | OutOfFuel => ((f, m), OutOfFuel)
  end.

Definition inline_write (bsize : Z) (desc : Descriptor) : blk_io unit := λ '(f, m),
  let sector_buf := (gm_read_slice m (zeros 8) (desc_addr desc)).1 in
  match mul_u64 (from_le_bytes sector_buf) bsize with
  | Ok offset =>
      let f1 := (file_seek offset f).1 in
      let buf_len := Z.to_nat (saturating_sub (desc_len desc) 16) in
      let buf := match checked_add_u64 (desc_addr desc) 16 with
                 | Some read_addr => (gm_read_slice m (zeros buf_len) read_addr).1
                 | None => zeros buf_len
                 end in
      (((file_write_all buf f1).1, m), Ok tt)
  | Err e => ((f, m), Err e)
  | Panic => ((f, m), Panic)
  | OutOfFuel => ((f, m), OutOfFuel)
  end.

Definition inline_flush : blk_io unit := λ '(f, m), (((file_flush f).1, m), Ok tt).

(** ** Walking a chain *)

Record ReqState : Type := { rq_chain : DescChain; rq_io : File * GMem; rq_status : Z }.

Definition rq_run (c : DescChain) (m : blk_io unit) (s : ReqState) : ReqState * result ctl :=
  let '(io, r) := m (rq_io s) in
  ({| rq_chain := c; rq_io := io; rq_status := rq_status s |},
   match r with
   | Ok _ => Ok Continue
   | Err e => Err e
   | Panic => Panic
   | OutOfFuel => OutOfFuel
   end).

Definition rq_stop (c : DescChain) (status : Z) (s : ReqState) : ReqState * result ctl :=
  ({| rq_chain := c; rq_io := rq_io s; rq_status := status |}, Ok Break).

(** One turn of [for desc in desc_chain]: each descriptor is taken as a request
    header. *)
Definition request_turn (on_in on_out : Descriptor → blk_io unit) (on_flush : blk_io unit)
    (ro : bool) : rust ReqState ctl := λ s,
  match c_next (rq_chain s) (rq_io s).2 with
  | None => (s, Ok Break)
  | Some (desc, c) =>
      match gm_read_slice (rq_io s).2 (zeros 4) (desc_addr desc) with
      | (_, Some _) =>
          ({| rq_chain := c; rq_io := rq_io s; rq_status := rq_status s |},
           Err (MemoryError "Failed to read request type"))
      | (req_type_buf, None) =>
          let req_type := from_le_bytes req_type_buf in
          if req_type =? VIRTIO_BLK_T_IN then rq_run c (on_in desc) s
          else if req_type =? VIRTIO_BLK_T_OUT then
            if ro then rq_stop c VIRTIO_BLK_S_IOERR s else rq_run c (on_out desc) s
          else if req_type =? VIRTIO_BLK_T_FLUSH then rq_run c on_flush s
          else rq_stop c VIRTIO_BLK_S_UNSUPP s
      end
  end.

(** The step budget of the chain bounds the walk. *)
Definition request_loop (turn : rust ReqState ctl) (c : DescChain) (io : File * GMem)
    : ReqState * result unit :=
  while_loop (S (c_ttl c)) turn {| rq_chain := c; rq_io := io; rq_status := VIRTIO_BLK_S_OK |}.

(** [process_request]: the status of the chain, or the first error. *)
Definition process_request (d : VirtioBlock) (c : DescChain) (io : File * GMem)
    : (File * GMem) * result Z :=
  let '(s, r) := request_loop
    (request_turn (handle_read (block_size d)) (handle_write (block_size d)) handle_flush
       (read_only d)) c io in
  (rq_io s, match r with
            | Ok _ => Ok (rq_status s)
            | Err e => Err e
            | Panic => Panic
            | OutOfFuel => OutOfFuel
            end).

(** The same walk with the arms of [process_queue]. *)
Definition inline_request (d : VirtioBlock) (c : DescChain) (io : File * GMem)
    : (File * GMem) * result Z :=
  let '(s, r) := request_loop
    (request_turn (inline_read (block_size d)) (inline_write (block_size d)) inline_flush
       (read_only d)) c io in
  (rq_io s, match r with
            | Ok _ => Ok (rq_status s)
            | Err e => Err e
            | Panic => Panic
            | OutOfFuel => OutOfFuel
            end).

(** ** The queue *)

Record BlkState : Type := { bs_queue : Queue; bs_io : File * GMem }.

(** One turn of [while let Some(desc_chain) = queue.iter(mem)?.next()]. *)
Definition blk_turn (d : VirtioBlock) : rust BlkState ctl := λ s,
  match q_pop (bs_queue s) (bs_io s).2 with
  | (q, Err e) =>
      ({| bs_queue := q; bs_io := bs_io s |},
       Err (MemoryError ("Failed to iterate queue: " +:+ e)))
  | (q, Ok None) => ({| bs_queue := q; bs_io := bs_io s |}, Ok Break)
  | (q, Ok (Some c)) =>
      match inline_request d c (bs_io s) with
      | ((f, m), Ok status) =>
          let '(q', m', e) := q_add_used q m (c_head_index c) status in
          ({| bs_queue := q'; bs_io := (f, m') |},
           match e with
           | None => Ok Continue
           | Some e => Err (MemoryError ("Failed to add used descriptor: " +:+ e))
           end)
      | (io, Err e) => ({| bs_queue := q; bs_io := io |}, Err e)
      | (io, Panic) => ({| bs_queue := q; bs_io := io |}, Panic)
      | (io, OutOfFuel) => ({| bs_queue := q; bs_io := io |}, OutOfFuel)
      end
  | (q, Panic) => ({| bs_queue := q; bs_io := bs_io s |}, Panic)
  | (q, OutOfFuel) => ({| bs_queue := q; bs_io := bs_io s |}, OutOfFuel)
  end.

Definition blk_with (d : VirtioBlock) (c : VirtioDeviceConfig) (f : File) : VirtioBlock :=
  {| blk_config := c; disk := f; disk_size := disk_size d; block_size := block_size d;
     read_only := read_only d |}.

Definition block_process_queue (fuel : nat) (queue_idx : Z) : rust (VirtioBlock * World) unit :=
  λ '(d, w),
  if bool_decide (queue_idx ≠ 0) then
    ((d, w), Err (MemoryError "Invalid queue index for block device"))
  else
    match queues (blk_config d) !! 0%nat with
    | None => ((d, w), Err (MemoryError "Queue not found"))
    | Some q =>
        let '(s, r) := while_loop fuel (blk_turn d)
                         {| bs_queue := q; bs_io := (disk d, w_mem w) |} in
        let cfg := config_with_queue (blk_config d) 0 (bs_queue s) in
        let w' := with_mem w (bs_io s).2 in
        match r with
        | Ok _ =>
            let '(cfg', r') := signal_interrupt cfg in
            ((blk_with d cfg' (bs_io s).1, w'), r')
        | r => ((blk_with d cfg (bs_io s).1, w'), r)
        end
    end.

(** ** The rest of the trait *)

Definition block_get_features (d : VirtioBlock) : Z :=
  let features := Z.lor (Z.lor (Z.lor VIRTIO_F_VERSION_1 VIRTIO_BLK_F_BLK_SIZE)
                           VIRTIO_BLK_F_FLUSH) VIRTIO_BLK_F_TOPOLOGY in
  if read_only d then Z.lor features VIRTIO_BLK_F_RO else features.

Definition block_set_acked_features (features : Z) : rust VirtioBlock unit := mret tt.

Definition block_config (d : VirtioBlock) : BlockConfig :=
  {| capacity := disk_size d / block_size d;
     size_max := 131072;
     seg_max := 32;
     geometry := {| cylinders := 0; heads := 16; sectors := 63 |};
     cfg_block_size := block_size d;
     topology := {| physical_block_exp := 0; alignment_offset := 0;
                    min_io_size := 512; opt_io_size := 0 |};
     writeback := 0;
     unused := zeros 3;
     max_discard_sectors := 0;
     max_discard_seg := 0;
     discard_sector_alignment := 0;
     max_write_zeroes_sectors := 0;
     max_write_zeroes_seg := 0;
     write_zeroes_may_unmap := 0;
     unused2 := zeros 3 |}.

Definition block_read_config (d : VirtioBlock) (offset : Z) (data : list byte)
    : list byte * result unit :=
  read_config_slice (block_config_bytes (block_config d)) offset data.

#[global] Instance block_device : VirtioDevice VirtioBlock := {|
  device_type := λ _, VIRTIO_ID_BLOCK;
  get_features := block_get_features;
  set_acked_features := block_set_acked_features;
  read_config := block_read_config;
  write_config := λ _ _, mret tt;
  process_queue := block_process_queue;
  get_queues := λ d, q_max_size <$> queues (blk_config d);
  get_interrupt_status := λ _, 0;
  shutdown := default_shutdown;
  dev_mmio_read := default_mmio_read;
  dev_mmio_write := default_mmio_write;
  get_mmio_region := default_get_mmio_region;
|}.

End block.

(** ** Theorems *)

Section block_theorems.
Context `{QA : QueueApi} `{EA : EventApi} `{BP : BuildProfile}.
Context `{ML : !MemoryLaws} `{QL : !QueueLaws}.
Implicit Types (d : VirtioBlock) (f : File) (m : GMem).

(** *** Termination of the chain walk *)

Lemma rq_run_chain c p s s' r : rq_run c p s = (s', r) → rq_chain s' = c.
Proof. unfold rq_run. destruct (p (rq_io s)). intros; by simplify_eq. Qed.

Lemma rq_run_ok c p s s' : rq_run c p s = (s', Ok Continue) → ∃ io, p (rq_io s) = (io, Ok tt).
Proof. unfold rq_run. destruct (p (rq_io s)) as [io [[]| | |]]; intros; simplify_eq; eauto. Qed.

Lemma request_turn_ttl on_in on_out on_flush ro s s' :
  request_turn on_in on_out on_flush ro s = (s', Ok Continue) →
  (c_ttl (rq_chain s') < c_ttl (rq_chain s))%nat.
Proof.
  unfold request_turn. destruct (c_next _ _) as [[desc c]|] eqn:Hc; [|done].
  apply c_next_ttl in Hc. destruct (gm_read_slice _ _ _) as [b [e|]]; [done|].
  unfold rq_stop. repeat case_match; intros Hr; try done; apply rq_run_chain in Hr; by rewrite Hr.
Qed.

Lemma request_turn_fuel on_in on_out on_flush ro s s' r :
  (∀ desc io, (on_in desc io).2 ≠ OutOfFuel) → (∀ desc io, (on_out desc io).2 ≠ OutOfFuel) →
  (∀ io, (on_flush io).2 ≠ OutOfFuel) →
  request_turn on_in on_out on_flush ro s = (s', r) → r ≠ OutOfFuel.
Proof.
  intros Hi Ho Hf. unfold request_turn. destruct (c_next _ _) as [[desc c]|]; [|by intros; simplify_eq].
  destruct (gm_read_slice _ _ _) as [b [e|]]; [by intros; simplify_eq|].
  assert (Hrun : ∀ p, (∀ io, (p io).2 ≠ OutOfFuel) → rq_run c p s = (s', r) → r ≠ OutOfFuel).
  { intros p Hp. unfold rq_run. pose proof (Hp (rq_io s)) as Hps.
    destruct (p (rq_io s)) as [io []]; by intros; simplify_eq. }
  unfold rq_stop. repeat case_match; try (by intros; simplify_eq); apply Hrun; auto.
Qed.

Lemma mul_u64_fuel a b : @mul_u64 HypervisorError _ a b ≠ OutOfFuel.
Proof. unfold mul_u64, arith. repeat case_match; done. Qed.

Lemma mul_u64_err a b e : @mul_u64 HypervisorError _ a b ≠ Err e.
Proof. unfold mul_u64, arith. repeat case_match; done. Qed.

Lemma inline_read_fuel bsize desc io : (inline_read bsize desc io).2 ≠ OutOfFuel.
Proof.
  destruct io as [f m]. unfold inline_read.
  pose proof (mul_u64_fuel (from_le_bytes (gm_read_slice m (zeros 8) (desc_addr desc)).1) bsize).
  by destruct (mul_u64 _ _).
Qed.

Lemma inline_write_fuel bsize desc io : (inline_write bsize desc io).2 ≠ OutOfFuel.
Proof.
  destruct io as [f m]. unfold inline_write.
  pose proof (mul_u64_fuel (from_le_bytes (gm_read_slice m (zeros 8) (desc_addr desc)).1) bsize).
  by destruct (mul_u64 _ _).
Qed.

(** C29: serving a chain always returns, for any guest: the walk over the
    descriptors ends within the chain's step budget even when the data the
    device stores in guest memory rewrites the descriptor table on the way. *)
Theorem block_request_terminates d c io : (inline_request d c io).2 ≠ OutOfFuel.
Proof.
  unfold inline_request, request_loop.
  pose proof (while_loop_terminates (λ _, True) (λ s, c_ttl (rq_chain s))
    (request_turn (inline_read (block_size d)) (inline_write (block_size d)) inline_flush
       (read_only d))) as Ht.
  specialize (Ht ltac:(intros s s' r _ Hr; eapply request_turn_fuel; [..|done];
    [apply inline_read_fuel|apply inline_write_fuel|by intros []])
    ltac:(intros s s' _ Hs; split; [done|by eapply request_turn_ttl])
    (S (c_ttl c)) {| rq_chain := c; rq_io := io; rq_status := VIRTIO_BLK_S_OK |} I ltac:(simpl; lia)).
  destruct (while_loop _ _ _) as [s r]; simpl in *. by destruct r.
Qed.

(** *** The two request bodies agree *)

Lemma handle_read_inline bsize desc io io' :
  handle_read bsize desc io = (io', Ok tt) → inline_read bsize desc io = (io', Ok tt).
Proof.
  destruct io as [f m]. unfold handle_read, inline_read.
  destruct (gm_read_slice _ _ _) as [sb [e|]]; [done|]. cbn [fst snd].
  destruct (mul_u64 _ _) as [off| | |]; try done.
  destruct (file_seek off f) as [f1 [[]| | |]] eqn:Hs; cbn [fst snd];
    try (unfold file_seek in Hs; case_bool_decide; simplify_eq; done).
  destruct (file_read_exact _ f1) as [f2 [buf [e|]]]; [done|].
  destruct (checked_add_u64 _ _) as [wa|]; [|done].
  destruct (gm_write_slice _ _ _) as [m' [e|]]; [done|]. by intros; simplify_eq.
Qed.

Lemma handle_write_inline bsize desc io io' :
  handle_write bsize desc io = (io', Ok tt) → inline_write bsize desc io = (io', Ok tt).
Proof.
  destruct io as [f m]. unfold handle_write, inline_write.
  destruct (gm_read_slice _ _ _) as [sb [e|]] eqn:?; [done|]. cbn [fst snd].
  destruct (mul_u64 _ _) as [off| | |]; try done.
  destruct (file_seek off f) as [f1 [[]| | |]] eqn:Hs; cbn [fst snd];
    try (unfold file_seek in Hs; case_bool_decide; simplify_eq; done).
  destruct (checked_add_u64 _ _) as [ra|]; [|done].
  destruct (gm_read_slice m (zeros (Z.to_nat _)) ra) as [buf [e|]]; [done|]. cbn [fst snd].
  destruct (file_write_all buf f1) as [f2 [[]|e| |]]; by intros; simplify_eq.
Qed.

(** C30: the body [process_queue] inlines does what [process_request] does
    whenever the latter succeeds: same status, same disk, same guest memory. *)
Theorem inline_matches_process_request d c io io' status
    (Hok : process_request d c io = (io', Ok status)) :
  inline_request d c io = (io', Ok status).
Proof.
  unfold process_request, inline_request, request_loop in *.
  destruct (while_loop _ _ _) as [s r] eqn:Hl.
  destruct r as [[]| | |]; simplify_eq. erewrite while_loop_agree; [done| |done].
  clear. intros s s' k. unfold request_turn.
  destruct (c_next _ _) as [[desc c]|]; [|done].
  destruct (gm_read_slice _ _ _) as [b [e|]]; [done|].
  assert (Hrun : ∀ (p1 p2 : rust (File * GMem) unit),
    (∀ io io', p1 io = (io', Ok tt) → p2 io = (io', Ok tt)) →
    rq_run c p1 s = (s', Ok k) → rq_run c p2 s = (s', Ok k)).
  { intros p1 p2 Hp. unfold rq_run. destruct (p1 (rq_io s)) as [io1 [[]| | |]] eqn:H1; try done.
    by rewrite (Hp _ _ H1). }
  repeat case_match; try done; apply Hrun;
    [apply handle_read_inline|apply handle_write_inline].
Qed.

(** *** Read-only disks *)

Lemma inline_read_contents bsize desc f m f' m' r :
  inline_read bsize desc (f, m) = ((f', m'), r) → same_contents f' f.
Proof.
  unfold inline_read. destruct (mul_u64 _ _); try by intros; simplify_eq.
  destruct (file_seek a f) as [f1 r1] eqn:Hs.
  destruct (file_read_exact _ _) as [f2 [buf e]] eqn:Hr. intros; simplify_eq. simpl in Hr.
  etransitivity; [by eapply file_read_exact_contents|by eapply file_seek_contents].
Qed.

Lemma readonly_turn_contents bsize s s' r :
  request_turn (inline_read bsize) (inline_write bsize) inline_flush true s = (s', r) →
  same_contents (rq_io s').1 (rq_io s).1.
Proof.
  unfold request_turn. destruct (c_next _ _) as [[desc c]|]; [|by intros; simplify_eq].
  destruct (gm_read_slice _ _ _) as [b [e|]]; [by intros; simplify_eq|].
  unfold rq_stop, rq_run. destruct s as [c0 [f0 m0] st]. cbn [rq_io rq_chain rq_status fst snd].
  destruct (_ =? VIRTIO_BLK_T_IN).
  { destruct (inline_read _ _ _) as [[f1 m1] r1] eqn:Hin. intros; simplify_eq. cbn [rq_io fst].
    by eapply inline_read_contents. }
  repeat case_match; intros; by simplify_eq/=.
Qed.

Lemma readonly_request_contents d c f m f' m' r :
  read_only d = true → inline_request d c (f, m) = ((f', m'), r) → same_contents f' f.
Proof.
  intros Hro. unfold inline_request, request_loop. rewrite Hro.
  destruct (while_loop _ _ _) as [s r0] eqn:Hl. intros; simplify_eq.
  apply (while_loop_preserves (λ s, same_contents (rq_io s).1 f)) in Hl; [|clear|done].
  - by destruct (rq_io s); simplify_eq/=.
  - intros s s' r Hs Ht. etransitivity; [by eapply readonly_turn_contents|done].
Qed.

(** C5: A disk attached read-only is never changed: whatever the guest puts in
    the queue and in memory, processing any queue leaves the contents of the
    image and its size as they were. *)
Theorem readonly_disk_unchanged fuel idx d w d' w' r
    (Hro : read_only d = true)
    (Hrun : block_process_queue fuel idx (d, w) = ((d', w'), r)) :
  same_contents (disk d') (disk d) ∧ read_only d' = true.
Proof.
  unfold block_process_queue in Hrun. case_bool_decide; [by simplify_eq|].
  destruct (queues _ !! 0%nat) as [q|]; [|by simplify_eq].
  destruct (while_loop _ _ _) as [s r0] eqn:Hl.
  apply (while_loop_preserves (λ s, same_contents (bs_io s).1 (disk d))) in Hl; [|clear Hrun|done].
  - destruct r0; [destruct (signal_interrupt _)|..]; by simplify_eq/=.
  - intros s1 s2 r1 Hs Ht. unfold blk_turn in Ht.
    destruct (q_pop _ _) as [q1 [[c|]| | |]]; simplify_eq/=; try done.
    destruct (bs_io s1) as [f1 m1]; simpl in *.
    destruct (inline_request d c (f1, m1)) as [[f2 m2] r2] eqn:Hr.
    apply readonly_request_contents in Hr; [|done].
    destruct r2; [destruct (q_add_used _ _ _ _) as [[q2 m3] e]|..]; simplify_eq/=;
      (etransitivity; [exact Hr|done]).
Qed.

(** *** Where requests go on the disk *)

Lemma read_prefix m a n k b1 b2 :
  (k ≤ n)%nat →
  gm_read_slice m (zeros k) a = (b1, None) → gm_read_slice m (zeros n) a = (b2, None) →
  b1 = take k b2.
Proof.
  intros Hk H1 H2. pose proof (gm_read_length _ _ _ _ _ H1) as Hl1.
  pose proof (gm_read_length _ _ _ _ _ H2) as Hl2. rewrite length_zeros in *.
  apply list_eq_same_length with (n := k); [len_lia|len_lia|].
  intros i x y Hi Hx Hy. rewrite lookup_take_lt in Hy by lia.
  rewrite (gm_read_bytes m (zeros k) a b1 i H1) in Hx by (rewrite length_zeros; lia).
  rewrite (gm_read_bytes m (zeros n) a b2 i H2) in Hy by (rewrite length_zeros; lia). congruence.
Qed.

(** The 8 bytes read as the sector are the header's type and reserved words. *)
Lemma header_sector m a ty hi buf :
  view_le (gm_byte m) 4 a = Some ty → view_le (gm_byte m) 4 (a + 4) = Some hi →
  gm_read_slice m (zeros 8) a = (buf, None) →
  from_le_bytes buf = ty + 2 ^ 32 * hi.
Proof.
  intros Hty Hhi Hr. unfold view_le in *.
  destruct (view_bytes _ a 4) as [b1|] eqn:H1; simplify_eq/=.
  destruct (view_bytes _ (a + 4) 4) as [b2|] eqn:H2; simplify_eq/=.
  apply view_bytes_spec in H1 as [Hl1 Hb1]. apply view_bytes_spec in H2 as [Hl2 Hb2].
  replace buf with (b1 ++ b2); [by rewrite from_le_bytes_app, Hl1|].
  pose proof (gm_read_length _ _ _ _ _ Hr) as Hl. rewrite length_zeros in Hl.
  apply list_eq_same_length with (n := 8%nat); [len_lia|len_lia|].
  intros i x y Hi Hx Hy.
  rewrite (gm_read_bytes m (zeros 8) a buf i Hr) in Hy by (rewrite length_zeros; lia).
  destruct (decide (i < 4)%nat).
  - rewrite lookup_app_l, Hb1 in Hx by lia. congruence.
  - rewrite lookup_app_r, Hl1, Hb2 in Hx by lia.
    replace (a + 4 + Z.of_nat (i - 4)) with (a + Z.of_nat i) in Hx by lia. congruence.
Qed.

(** A descriptor that starts with a request header in RAM, its reserved word
    zero; what follows the 16 bytes of the header is the request's data. *)
Definition request_at m desc (ty : Z) : Prop :=
  16 ≤ desc_len desc ∧ backed m (desc_addr desc) (desc_len desc) ∧
  view_le (gm_byte m) 4 (desc_addr desc) = Some ty ∧
  view_le (gm_byte m) 4 (desc_addr desc + 4) = Some 0.

Lemma request_at_header m desc ty :
  request_at m desc ty →
  (∃ buf, gm_read_slice m (zeros 4) (desc_addr desc) = (buf, None) ∧ from_le_bytes buf = ty) ∧
  (∃ buf, gm_read_slice m (zeros 8) (desc_addr desc) = (buf, None) ∧ from_le_bytes buf = ty).
Proof.
  intros (Hl & Hb & Hty & Hres). split.
  - destruct (gm_read_fits m (zeros 4) (desc_addr desc)) as (buf & Hr & Hv).
    + apply Hb. lia.
    + intros x Hx. apply Hb. rewrite length_zeros in Hx. lia.
    + exists buf. split; [done|]. unfold view_le in Hty. rewrite length_zeros in Hv.
      rewrite Hv in Hty. by injection Hty.
  - destruct (gm_read_fits m (zeros 8) (desc_addr desc)) as (buf & Hr & _).
    + apply Hb. lia.
    + intros x Hx. apply Hb. rewrite length_zeros in Hx. lia.
    + exists buf. split; [done|]. rewrite (header_sector _ _ _ _ _ Hty Hres Hr). lia.
Qed.

Lemma request_at_data m desc ty :
  request_at m desc ty → 16 < desc_len desc →
  checked_add_u64 (desc_addr desc) 16 = Some (desc_addr desc + 16) ∧
  is_Some (gm_byte m (desc_addr desc + 16)) ∧
  backed m (desc_addr desc + 16) (desc_len desc - 16).
Proof.
  intros (_ & Hb & _ & _) Hl.
  assert (H16 : is_Some (gm_byte m (desc_addr desc + 16))) by (apply Hb; lia).
  assert (Ha : is_Some (gm_byte m (desc_addr desc))) by (apply Hb; lia).
  split_and!; [|done|intros x Hx; apply Hb; lia].
  unfold checked_add_u64. apply gm_byte_range in H16, Ha. unfold u64 in H16, Ha.
  by rewrite bool_decide_true by lia.
Qed.

(** The type read from the header selects the arm. *)
Lemma request_turn_typed bsize ro c c' desc f m st ty :
  c_next c m = Some (desc, c') → request_at m desc ty →
  request_turn (inline_read bsize) (inline_write bsize) inline_flush ro
    {| rq_chain := c; rq_io := (f, m); rq_status := st |} =
  let s := {| rq_chain := c; rq_io := (f, m); rq_status := st |} in
  if ty =? VIRTIO_BLK_T_IN then rq_run c' (inline_read bsize desc) s
  else if ty =? VIRTIO_BLK_T_OUT then
    if ro then rq_stop c' VIRTIO_BLK_S_IOERR s else rq_run c' (inline_write bsize desc) s
  else if ty =? VIRTIO_BLK_T_FLUSH then rq_run c' inline_flush s
  else rq_stop c' VIRTIO_BLK_S_UNSUPP s.
Proof.
  intros Hc Hreq. destruct (request_at_header _ _ _ Hreq) as [(b & Hb & <-) _].
  unfold request_turn. cbn [rq_chain rq_io snd]. by rewrite Hc, Hb.
Qed.

Lemma inline_read_sector_zero f m desc :
  request_at m desc VIRTIO_BLK_T_IN → desc_len desc - 16 ≤ f_len f →
  ∃ f' m', inline_read 512 desc (f, m) = ((f', m'), Ok tt) ∧ same_contents f' f ∧
    ∀ x, gm_byte m' x =
      overlay (gm_byte m) (desc_addr desc + 16) (file_range f 0 (Z.to_nat (desc_len desc - 16))) x.
Proof.
  intros Hreq Hlen. destruct (request_at_header _ _ _ Hreq) as [_ (buf & Hr & Hs)].
  pose proof Hreq as (Hl & _). unfold inline_read. rewrite Hr. simpl fst. rewrite Hs.
  replace (saturating_sub (desc_len desc) 16) with (desc_len desc - 16) by (unfold saturating_sub; lia).
  change (mul_u64 VIRTIO_BLK_T_IN 512) with (@Ok HypervisorError Z 0). cbn match.
  unfold file_seek. rewrite bool_decide_true by lia. simpl fst.
  rewrite file_read_exact_inside by (simpl; rewrite ?length_zeros; lia).
  rewrite length_zeros. simpl f_pos. eexists _, _. split_and!; [done..|]. intros x.
  destruct (decide (16 < desc_len desc)) as [Hd|Hd].
  - destruct (request_at_data _ _ _ Hreq Hd) as (-> & H16 & Hb).
    destruct (gm_write_fits m (file_range (file_with_pos f 0) 0 (Z.to_nat (desc_len desc - 16)))
      (desc_addr desc + 16)) as (m' & Hw & Hbytes & _); [done| |by rewrite Hw].
    rewrite length_file_range, Z2Nat.id by lia. done.
  - replace (desc_len desc - 16) with 0 by lia. change (file_range _ 0 (Z.to_nat 0)) with (@nil byte).
    rewrite overlay_nil. destruct (checked_add_u64 _ _) as [a|]; [|done].
    destruct (gm_write_slice m [] a) as [m' r] eqn:Hw. simpl.
    eapply gm_write_frame; [done|]. simpl. lia.
Qed.

(** C31: what the walk over a chain does with a descriptor that starts with a
    read request whose reserved word is zero, as the virtio specification has it
    (and asks for no more than the disk holds).  The bytes after the 16 of the
    header, in the same descriptor, receive the first bytes of the disk, whatever
    sector the header names; nothing else in guest memory changes, and neither
    does the disk.  A descriptor that is the header alone thus receives nothing,
    and the next descriptor of the chain is taken as a request of its own. *)
Theorem read_request_serves_sector_zero ro f m c c' desc st
    (Hnext : c_next c m = Some (desc, c'))
    (Hreq : request_at m desc VIRTIO_BLK_T_IN)
    (Hlen : desc_len desc - 16 ≤ f_len f) :
  ∃ f' m',
    request_turn (inline_read 512) (inline_write 512) inline_flush ro
      {| rq_chain := c; rq_io := (f, m); rq_status := st |} =
    ({| rq_chain := c'; rq_io := (f', m'); rq_status := st |}, Ok Continue) ∧
    same_contents f' f ∧
    (∀ x, gm_byte m' x =
       overlay (gm_byte m) (desc_addr desc + 16) (file_range f 0 (Z.to_nat (desc_len desc - 16))) x) ∧
    (desc_len desc = 16 → ∀ x, gm_byte m' x = gm_byte m x).
Proof.
  destruct (inline_read_sector_zero f m desc Hreq Hlen) as (f' & m' & Hr & Hf & Hm).
  exists f', m'. rewrite (request_turn_typed _ _ _ _ _ _ _ _ _ Hnext Hreq). cbv zeta.
  cbn [Z.eqb VIRTIO_BLK_T_IN]. unfold rq_run. cbn [rq_io rq_status]. rewrite Hr.
  split_and!; [done..|]. intros H16 x. rewrite Hm, H16. apply overlay_nil.
Qed.

Lemma inline_write_sector_one f m desc :
  request_at m desc VIRTIO_BLK_T_OUT → f_writable f = true →
  512 + (desc_len desc - 16) ≤ f_limit f →
  ∃ f' buf, inline_write 512 desc (f, m) = ((f', m), Ok tt) ∧
    view_bytes (gm_byte m) (desc_addr desc + 16) (Z.to_nat (desc_len desc - 16)) = Some buf ∧
    f_len f' = (if decide (buf = []) then f_len f else Z.max (f_len f) (512 + (desc_len desc - 16))) ∧
    f_data f' = put_bytes (f_data f) 512 buf.
Proof.
  intros Hreq Hw Hlim. destruct (request_at_header _ _ _ Hreq) as [_ (sbuf & Hr & Hs)].
  pose proof Hreq as (Hl & _). unfold inline_write. rewrite Hr. simpl fst. rewrite Hs.
  replace (saturating_sub (desc_len desc) 16) with (desc_len desc - 16) by (unfold saturating_sub; lia).
  change (mul_u64 VIRTIO_BLK_T_OUT 512) with (@Ok HypervisorError Z 512). cbn match.
  unfold file_seek. rewrite bool_decide_true by lia. simpl fst.
  destruct (decide (16 < desc_len desc)) as [Hd|Hd].
  - destruct (request_at_data _ _ _ Hreq Hd) as (-> & H16 & Hb).
    destruct (gm_read_fits m (zeros (Z.to_nat (desc_len desc - 16))) (desc_addr desc + 16))
      as (buf & Hrd & Hv); [done| |].
    { rewrite length_zeros, Z2Nat.id by lia. done. }
    rewrite length_zeros in Hv. pose proof Hv as [Hbl _]%view_bytes_spec. rewrite Hrd. simpl fst.
    assert (buf ≠ []) by (intros ->; simpl in Hbl; lia).
    unfold file_write_all. rewrite bool_decide_false by done. simpl f_writable. rewrite Hw.
    simpl f_limit. simpl f_pos.
    replace (length buf `min` Z.to_nat (f_limit f - 512))%nat with (length buf) by lia.
    eexists _, buf. split_and!; [done|done| |]; simpl.
    + rewrite bool_decide_false, decide_False by (done || lia). lia.
    + by rewrite firstn_all.
  - replace (desc_len desc - 16) with 0 in * by lia. change (zeros (Z.to_nat 0)) with (@nil byte).
    replace (match checked_add_u64 _ _ with Some a => _ | None => _ end) with (@nil byte).
    { eexists _, []. split_and!; done. }
    destruct (checked_add_u64 _ _) as [a|]; [|done]. destruct (gm_read_slice m [] a) as [b r] eqn:Hb.
    apply gm_read_length in Hb. by destruct b.
Qed.

(** C32: what the walk over a chain does with a descriptor that starts with a
    write request whose reserved word is zero, on a writable disk that is allowed
    to grow far enough.  The bytes after the 16 of the header, in the same
    descriptor, go to byte 512 of the disk, whatever sector the header names:
    sector 1 is the number of the request type.  No byte outside that range
    changes, and neither does guest memory.  A descriptor that is the header
    alone thus writes nothing, and the next descriptor of the chain is taken as
    a request of its own. *)
Theorem write_request_lands_on_sector_one f m c c' desc st
    (Hnext : c_next c m = Some (desc, c'))
    (Hreq : request_at m desc VIRTIO_BLK_T_OUT)
    (Hw : f_writable f = true) (Hlim : 512 + (desc_len desc - 16) ≤ f_limit f) :
  ∃ f' buf,
    request_turn (inline_read 512) (inline_write 512) inline_flush false
      {| rq_chain := c; rq_io := (f, m); rq_status := st |} =
    ({| rq_chain := c'; rq_io := (f', m); rq_status := st |}, Ok Continue) ∧
    view_bytes (gm_byte m) (desc_addr desc + 16) (Z.to_nat (desc_len desc - 16)) = Some buf ∧
    f_len f' = (if decide (desc_len desc = 16) then f_len f
                else Z.max (f_len f) (512 + (desc_len desc - 16))) ∧
    ∀ x, f_data f' !! x =
      if decide (512 ≤ x < 512 + (desc_len desc - 16)) then buf !! Z.to_nat (x - 512)
      else f_data f !! x.
Proof.
  destruct (inline_write_sector_one f m desc Hreq Hw Hlim) as (f' & buf & Hr & Hv & Hlen & Hd).
  exists f', buf. rewrite (request_turn_typed _ _ _ _ _ _ _ _ _ Hnext Hreq). cbv zeta.
  cbn [Z.eqb VIRTIO_BLK_T_IN VIRTIO_BLK_T_OUT]. unfold rq_run. cbn [rq_io rq_status]. rewrite Hr.
  pose proof Hreq as (Hl & _). pose proof Hv as [Hbl _]%view_bytes_spec. split_and!; [done..| |].
  - rewrite Hlen. destruct (decide (desc_len desc = 16)) as [H16|H16].
    + rewrite decide_True; [done|]. destruct buf; [done|]. simpl in Hbl. lia.
    + rewrite decide_False; [done|]. intros ->. simpl in Hbl. lia.
  - intros x. rewrite Hd, lookup_put_bytes. by rewrite Hbl, Z2Nat.id by lia.
Qed.

(** With overflow checks on (a debug build) the guest can panic the thread
    that serves its request: a reserved word of 2^23 or more makes the byte
    offset overflow 64 bits. *)
Theorem large_reserved_word_panics f m desc ty hi
    (Hchk : overflow_checks = true) (Hty : view_le (gm_byte m) 4 (desc_addr desc) = Some ty)
    (Hhi : view_le (gm_byte m) 4 (desc_addr desc + 4) = Some hi) (Hbig : 2 ^ 23 ≤ hi) :
  (inline_read 512 desc (f, m)).2 = Panic ∧ (inline_write 512 desc (f, m)).2 = Panic.
Proof.
  assert (Hok : ∃ buf, gm_read_slice m (zeros 8) (desc_addr desc) = (buf, None)).
  { unfold view_le in *. destruct (view_bytes _ _ _) as [b1|] eqn:H1; [|done].
    destruct (view_bytes _ (_ + 4) _) as [b2|] eqn:H2; [|done].
    apply view_bytes_spec in H1 as [Hl1 Hb1]. apply view_bytes_spec in H2 as [Hl2 Hb2].
    assert (Hback : backed m (desc_addr desc) 8).
    { intros x Hx. destruct (decide (x < desc_addr desc + 4)).
      - specialize (Hb1 (Z.to_nat (x - desc_addr desc)) ltac:(lia)).
        rewrite Z2Nat.id in Hb1 by lia. rewrite Zplus_minus in Hb1. rewrite <- Hb1.
        apply lookup_lt_is_Some_2. lia.
      - specialize (Hb2 (Z.to_nat (x - (desc_addr desc + 4))) ltac:(lia)).
        rewrite Z2Nat.id in Hb2 by lia. rewrite Zplus_minus in Hb2. rewrite <- Hb2.
        apply lookup_lt_is_Some_2. lia. }
    destruct (gm_read_fits m (zeros 8) (desc_addr desc)) as (buf & Hr & _); [|done|eauto].
    apply Hback. lia. }
  destruct Hok as [buf Hr]. unfold inline_read, inline_write. rewrite Hr. simpl fst.
  rewrite (header_sector _ _ _ _ _ Hty Hhi Hr).
  assert (0 ≤ ty).
  { unfold view_le in Hty. destruct (view_bytes _ _ _); simplify_eq/=. apply from_le_bytes_bound. }
  unfold mul_u64, arith. rewrite bool_decide_false, Hchk by lia. done.
Qed.

(** ** The device is inert until its queue is ready *)

Lemma block_process_queue_unready fuel i d w d' w' r :
  queues_unready (blk_config d) →
  block_process_queue fuel i (d, w) = ((d', w'), r) → d' = d ∧ w' = w.
Proof.
  intros Hu. unfold block_process_queue. case_bool_decide; [by intros; simplify_eq|].
  destruct (queues _ !! 0%nat) as [q|] eqn:Hq; [|by intros; simplify_eq].
  destruct (queues_unready_pop _ _ _ (w_mem w) Hu Hq) as (e & He & Hc).
  destruct fuel; simpl.
  - rewrite Hc. destruct d, w. by intros; simplify_eq.
  - unfold blk_turn; simpl. rewrite He. simpl. rewrite Hc. destruct d, w. by intros; simplify_eq.
Qed.

#[global] Instance block_inert : InertDevice VirtioBlock.
Proof.
  refine {| inert := λ d, queues_unready (blk_config d) |}.
  - intros f d d' r Hi Hs. simpl in Hs. unfold block_set_acked_features in Hs.
    prog_unfold. by simplify_eq.
  - intros o bs d d' r Hi Hs. simpl in Hs. prog_unfold. by simplify_eq.
  - intros fuel i d w d' w' r Hi Hp.
    apply block_process_queue_unready in Hp as [-> ->]; done.
Defined.

Lemma block_new_inert gm i open stat ro d : block_new gm i open stat ro = Ok d → inert d.
Proof.
  unfold block_new. destruct (open _), stat; try done. destruct (config_new gm i 1) eqn:Hc; try done.
  intros; simplify_eq. by apply config_new_fresh in Hc as [? _].
Qed.

End block_theorems.
