(* ===== verification/Net.v ===== *)
(** * Net: the virtio network device of virtio/net.rs

    Queue 0 receives, queue 1 transmits; packets travel over a non-blocking UDP
    socket. *)

From S2P Require Import Prelude Errors Platform Host VirtioMmio Chains.

Definition VIRTIO_ID_NET : Z := 1.
Definition VIRTIO_NET_F_MAC : Z := 5.
Definition VIRTIO_NET_F_STATUS : Z := 16.
Definition NET_VIRTIO_F_VERSION_1 : Z := Z.shiftl 1 32.

Record NetConfig : Type := {
  mac : list byte;
  status : Z;
  max_virtqueue_pairs : Z;
  mtu : Z;
}.

Definition net_config_bytes (c : NetConfig) : list byte :=
  mac c ++ to_le_bytes 2 (status c) ++ to_le_bytes 2 (max_virtqueue_pairs c) ++
  to_le_bytes 2 (mtu c).

(** [1u64.wrapping_shl(n)]: the shift amount is taken modulo 64. *)
Definition wrapping_shl_1 (n : Z) : Z := Z.shiftl 1 (n mod 64).

Section net.
Context `{QA : QueueApi} `{EA : EventApi}.

Record VirtioNet : Type := {
  net_config : VirtioDeviceConfig;
  socket : UdpSocket;
  local_mac : list byte;
  peer_addr : option string;
}.

(** [bind] and [nonblocking] are what the host answers for the socket, [parse]
    is [str::parse::<SocketAddr>] (an address is its text) and [random] the six
    bytes of [getrandom]. *)
Definition net_new (guest_mem irq : Z) (bind : res io_error UdpSocket)
    (nonblocking : option io_error) (parse : string → res string string)
    (peer : option string) (random : res string (list byte)) : result VirtioNet :=
  match bind with
  | Ok sock =>
      match nonblocking with
      | Some e => Err (io_other ("Failed to set non-blocking: " +:+ io_msg e))
      | None =>
          let peer_socket : result (option string) :=
            match peer with
            | None => Ok None
            | Some addr =>
                match parse addr with
                | Ok a => Ok (Some a)
                | Err e => Err (IoError (IoErr InvalidInput ("Invalid peer address: " +:+ e)))
                | Panic => Panic
                | OutOfFuel => OutOfFuel
                end
            end in
          match peer_socket with
          | Ok peer_socket =>
              match config_new guest_mem irq 2 with
              | Ok config =>
                  match random with
                  | Ok mac =>
                      Ok {| net_config := config; socket := sock;
                            local_mac := <[0%nat := Byte.x02]> mac;
                            peer_addr := peer_socket |}
                  | Err e => Err (io_other ("Failed to generate MAC address: " +:+ e))
                  | Panic => Panic
                  | OutOfFuel => OutOfFuel
                  end
              | Err e => Err (MemoryError ("Failed to create virtio config: " +:+ e))
              | Panic => Panic
              | OutOfFuel => OutOfFuel
              end
          | Err e => Err e
          | Panic => Panic
          | OutOfFuel => OutOfFuel
          end
      end
  | Err e => Err (io_other ("Failed to bind socket: " +:+ io_msg e))
  | Panic => Panic
  | OutOfFuel => OutOfFuel
  end.

Definition net_with (d : VirtioNet) (c : VirtioDeviceConfig) (s : UdpSocket) : VirtioNet :=
  {| net_config := c; socket := s; local_mac := local_mac d; peer_addr := peer_addr d |}.

(** ** Receive *)

Record RxState : Type := { rx_queue : Queue; rx_mem : GMem; rx_socket : UdpSocket }.

(** One turn: the chain is popped before the socket is asked for a packet. *)
Definition rx_turn : rust RxState ctl := λ s,
  let m := rx_mem s in
  match q_pop (rx_queue s) m with
  | (q, Err e) =>
      ({| rx_queue := q; rx_mem := m; rx_socket := rx_socket s |},
       Err (MemoryError ("Failed to iterate queue: " +:+ e)))
  | (q, Ok None) => ({| rx_queue := q; rx_mem := m; rx_socket := rx_socket s |}, Ok Break)
  | (q, Ok (Some chain)) =>
      match recv_from (zeros 1514) (rx_socket s) with
      | (k, Ok _) =>
          let '(q', m', _) := q_add_used q m (c_head_index chain) 0 in
          ({| rx_queue := q'; rx_mem := m'; rx_socket := k |}, Ok Continue)
      | (k, Err e) =>
          ({| rx_queue := q; rx_mem := m; rx_socket := k |},
           if bool_decide (io_kind e = WouldBlock) then Ok Break else Err (IoError e))
      | (k, Panic) => ({| rx_queue := q; rx_mem := m; rx_socket := k |}, Panic)
      | (k, OutOfFuel) => ({| rx_queue := q; rx_mem := m; rx_socket := k |}, OutOfFuel)
      end
  | (q, Panic) => ({| rx_queue := q; rx_mem := m; rx_socket := rx_socket s |}, Panic)
  | (q, OutOfFuel) => ({| rx_queue := q; rx_mem := m; rx_socket := rx_socket s |}, OutOfFuel)
  end.

Definition net_process_rx_queue (fuel : nat) : rust (VirtioNet * World) unit := λ '(d, w),
  match queues (net_config d) !! 0%nat with
  | None => ((d, w), Err (MemoryError "RX queue not found"))
  | Some q =>
      let '(s, r) := while_loop fuel rx_turn
                       {| rx_queue := q; rx_mem := w_mem w; rx_socket := socket d |} in
      ((net_with d (config_with_queue (net_config d) 0 (rx_queue s)) (rx_socket s),
        with_mem w (rx_mem s)), r)
  end.

(** ** Transmit *)

(** All descriptors of a chain, device-writable ones included. *)
Definition net_payload (m : GMem) (c : DescChain) : list byte :=
  concat (desc_read m <$> chain_descs c m).

(** [if let Some(peer) = self.peer_addr { socket.send_to(&buf, peer) .. }] *)
Definition net_sink (peer : option string) (buf : list byte) (s : UdpSocket) : UdpSocket :=
  match peer with
  | Some peer => (send_to buf peer s).1
  | None => s
  end.

Definition net_process_tx_queue (fuel : nat) : rust (VirtioNet * World) unit := λ '(d, w),
  match queues (net_config d) !! 1%nat with
  | None => ((d, w), Err (MemoryError "TX queue not found"))
  | Some q =>
      let '(s, r) := while_loop fuel (drain_turn net_payload (net_sink (peer_addr d)))
                       {| dr_queue := q; dr_mem := w_mem w; dr_host := socket d |} in
      ((net_with d (config_with_queue (net_config d) 1 (dr_queue s)) (dr_host s),
        with_mem w (dr_mem s)), r)
  end.

(** ** The trait *)

Definition net_get_features (d : VirtioNet) : Z :=
  Z.lor (Z.lor (wrapping_shl_1 (as_u32 NET_VIRTIO_F_VERSION_1))
           (wrapping_shl_1 (as_u32 VIRTIO_NET_F_MAC)))
    (wrapping_shl_1 (as_u32 VIRTIO_NET_F_STATUS)).

Definition net_set_acked_features (features : Z) : rust VirtioNet unit := mret tt.

Definition net_read_config (d : VirtioNet) (offset : Z) (data : list byte)
    : list byte * result unit :=
  read_config_slice
    (net_config_bytes {| mac := local_mac d; status := 1; max_virtqueue_pairs := 1; mtu := 1500 |})
    offset data.

Definition net_process_queue (fuel : nat) (queue_idx : Z) : rust (VirtioNet * World) unit :=
  match queue_idx with
  | 0 => net_process_rx_queue fuel
  | 1 => net_process_tx_queue fuel
  | _ => perr (MemoryError ("Invalid queue index: " +:+ fmt_dec queue_idx))
  end.

#[global] Instance net_device : VirtioDevice VirtioNet := {|
  device_type := λ _, VIRTIO_ID_NET;
  get_features := net_get_features;
  set_acked_features := net_set_acked_features;
  read_config := net_read_config;
  write_config := λ _ _, mret tt;
  process_queue := net_process_queue;
  get_queues := λ d, q_max_size <$> queues (net_config d);
  get_interrupt_status := λ _, 0;
  shutdown := default_shutdown;
  dev_mmio_read := default_mmio_read;
  dev_mmio_write := default_mmio_write;
  get_mmio_region := default_get_mmio_region;
|}.

(** ** Theorems *)

(** The feature word the guest reads has bits 0, 5 and 16.  Shifting by
    [VIRTIO_F_VERSION_1 as u32], which is 0, offers checksum offload (bit 0) in
    place of VIRTIO_F_VERSION_1 (bit 32). *)
Theorem net_features_bits d :
  net_get_features d = 0x10021 ∧
  Z.testbit (net_get_features d) 32 = false ∧ Z.testbit (net_get_features d) 0 = true.
Proof. done. Qed.

Context `{QL : !QueueLaws}.

Lemma foldl_net_sink_none bufs s : foldl (λ h b, net_sink None b h) s bufs = s.
Proof. induction bufs; done. Qed.

(** The datagrams the host accepts when [bufs] are sent in order from try [n] on. *)
Fixpoint accepted (answer : nat → list byte → option io_error) (n : nat) (bufs : list (list byte))
    : list (list byte) :=
  match bufs with
  | [] => []
  | b :: bufs' =>
      match answer n b with None => [b] | Some _ => [] end ++ accepted answer (S n) bufs'
  end.

Lemma foldl_net_sink_some bufs p s :
  foldl (λ h b, net_sink (Some p) b h) s bufs =
  with_sent s ((λ b, (b, p)) <$> accepted (us_answer s) (us_tries s) bufs) (length bufs).
Proof.
  revert s. induction bufs as [|b bufs IH]; intros s; cbn [foldl accepted length].
  { unfold with_sent. simpl. rewrite app_nil_r, Nat.add_0_r. by destruct s. }
  rewrite IH. unfold net_sink, send_to. destruct (us_answer s (us_tries s) b) as [e|];
    unfold with_sent; simpl; rewrite ?app_nil_r, Nat.add_1_r, <- ?app_assoc; simpl; f_equal; lia.
Qed.

Lemma net_payload_of `{ML : !MemoryLaws} m c : payload_of (λ _, true) m c (net_payload m c).
Proof. exact (gather_payload (λ _, true) m c). Qed.

(** C33: on a transmit queue whose rings the driver placed apart, processing
    always returns (with more fuel than available chains) and is the drain of
    the queue: with a peer, the bytes of all descriptors of each chain are sent
    as one datagram, in order, each leaving iff the host accepts it, and a
    refused one is completed with its full length all the same; without a peer
    every chain is completed with its full length and nothing is sent. *)
Theorem net_tx_drains `{ML : !MemoryLaws} fuel d w q
    (Hq : queues (net_config d) !! 1%nat = Some q)
    (Hring : rings_apart q) (Hfuel : (q_pending q (w_mem w) < fuel)%nat) :
  ∃ bufs q' m' e,
    drained (payload_of (λ _, true)) q (w_mem w) bufs q' m' e ∧
    net_process_queue fuel 1 (d, w) =
    ((net_with d (config_with_queue (net_config d) 1 q')
        match peer_addr d with
        | Some p =>
            {| us_in := us_in (socket d);
               us_sent := us_sent (socket d) ++
                 ((λ b, (b, p)) <$> accepted (us_answer (socket d)) (us_tries (socket d)) bufs);
               us_tries := us_tries (socket d) + length bufs;
               us_answer := us_answer (socket d) |}
        | None => socket d
        end, with_mem w m'), drain_result e).
Proof.
  destruct (drain_loop_spec net_payload (net_sink (peer_addr d)) _ fuel q (w_mem w) (socket d)
    net_payload_of Hring Hfuel) as (bufs & q' & m' & e & Hd & Hr).
  exists bufs, q', m', e. split; [done|]. simpl.
  unfold net_process_tx_queue. rewrite Hq, Hr. simpl.
  destruct (peer_addr d) as [p|]; [by rewrite foldl_net_sink_some|by rewrite foldl_net_sink_none].
Qed.

(** What the network delivers, datagram contents erased. *)
Definition shape (ev : recv_event) : option io_error :=
  match ev with Datagram _ => None | RecvError e => Some e end.

Lemma rx_turn_shape s1 s2 s1' r :
  rx_queue s1 = rx_queue s2 → rx_mem s1 = rx_mem s2 →
  shape <$> us_in (rx_socket s1) = shape <$> us_in (rx_socket s2) →
  rx_turn s1 = (s1', r) →
  ∃ s2', rx_turn s2 = (s2', r) ∧ rx_queue s1' = rx_queue s2' ∧ rx_mem s1' = rx_mem s2' ∧
    shape <$> us_in (rx_socket s1') = shape <$> us_in (rx_socket s2').
Proof.
  destruct s1 as [q1 m1 k1], s2 as [q2 m2 k2]; simpl. intros <- <- Hk. unfold rx_turn; simpl.
  destruct (q_pop q1 m1) as [q [[c|]|e| |]]; try by intros; simplify_eq; eauto.
  unfold recv_from. destruct (us_in k1) as [|e1 l1] eqn:H1, (us_in k2) as [|e2 l2] eqn:H2;
    simpl in Hk; try done.
  { intros; simplify_eq. eexists; split_and!; [done..|]. simpl. by rewrite H1, H2. }
  injection Hk as He Hl. destruct e1, e2; simpl in He; simplify_eq.
  - destruct (q_add_used _ _ _ _) as [[q' m'] r']. intros; simplify_eq.
    eexists; split_and!; done.
  - intros; simplify_eq. eexists; split_and!; done.
Qed.

(** C34: nothing a peer sends reaches the guest.  Two runs of the receive queue
    whose sockets hold the same number of datagrams with different contents
    leave the same queue and the same guest memory and return the same. *)
Theorem rx_ignores_packet_contents fuel d w k
    (Hk : shape <$> us_in (socket d) = shape <$> us_in k) :
  ∀ d1 w1 r, net_process_queue fuel 0 (d, w) = ((d1, w1), r) →
  ∃ d2, net_process_queue fuel 0 (net_with d (net_config d) k, w) = ((d2, w1), r) ∧
    net_config d2 = net_config d1.
Proof.
  intros d1 w1 r. simpl. unfold net_process_rx_queue; simpl.
  destruct (queues _ !! 0%nat) as [q|]; [|intros; simplify_eq; by eexists].
  assert (Hloop : ∀ n s1 s2 s1' r, rx_queue s1 = rx_queue s2 → rx_mem s1 = rx_mem s2 →
    shape <$> us_in (rx_socket s1) = shape <$> us_in (rx_socket s2) →
    while_loop n rx_turn s1 = (s1', r) →
    ∃ s2', while_loop n rx_turn s2 = (s2', r) ∧
      rx_queue s1' = rx_queue s2' ∧ rx_mem s1' = rx_mem s2').
  { clear. intros n. induction n as [|n IH]; intros s1 s2 s1' r Hq Hm Hk; simpl.
    { intros; simplify_eq. by eexists. }
    destruct (rx_turn s1) as [t1 r1] eqn:Ht.
    destruct (rx_turn_shape _ _ _ _ Hq Hm Hk Ht) as (t2 & -> & Hq2 & Hm2 & Hk2).
    destruct r1 as [[]|e| |]; try (intros; simplify_eq; by eexists). by apply IH. }
  destruct (while_loop _ _ _) as [s1 r1] eqn:H1. intros; simplify_eq.
  destruct (Hloop fuel {| rx_queue := q; rx_mem := w_mem w; rx_socket := socket d |}
    {| rx_queue := q; rx_mem := w_mem w; rx_socket := k |} s1 r eq_refl eq_refl Hk H1) as (s2 & -> & Hq2 & Hm2).
  eexists. rewrite <- Hm2. split; [done|]. simpl. by rewrite Hq2.
Qed.

(** Polling the receive queue while the socket is dry takes one available
    buffer from the driver and never returns it: the chain is popped, no used
    entry is written, and the call reports success. *)
Theorem rx_dry_socket_leaks_buffer fuel d w q q' c
    (Hq : queues (net_config d) !! 0%nat = Some q)
    (Hpop : q_pop q (w_mem w) = (q', Ok (Some c)))
    (Hdry : us_in (socket d) = []) :
  net_process_queue (S fuel) 0 (d, w) =
    ((net_with d (config_with_queue (net_config d) 0 q') (socket d), w), Ok tt) ∧
  (q_pending q' (w_mem w) < q_pending q (w_mem w))%nat.
Proof.
  split; [|by eapply q_pop_pending]. simpl. unfold net_process_rx_queue. rewrite Hq. simpl.
  unfold rx_turn at 1; simpl. rewrite Hpop. unfold recv_from. rewrite Hdry. simpl.
  by destruct w.
Qed.

(** ** The device is inert until a queue is ready *)

Lemma net_process_queue_unready fuel i d w d' w' r :
  queues_unready (net_config d) →
  net_process_queue fuel i (d, w) = ((d', w'), r) → d' = d ∧ w' = w.
Proof.
  intros Hu Hp. unfold net_process_queue in Hp.
  assert (Hback : ∀ i q, queues (net_config d) !! i = Some q →
    net_with d (config_with_queue (net_config d) i q) (socket d) = d ∧
    ∃ e, q_pop q (w_mem w) = (q, Err e)).
  { intros j q Hj. destruct (queues_unready_pop _ _ _ (w_mem w) Hu Hj) as (e & He & Hc).
    rewrite Hc. split; [by destruct d|eauto]. }
  assert (Hw : with_mem w (w_mem w) = w) by by destruct w.
  destruct i as [|[]|]; prog_unfold; simplify_eq; auto.
  - unfold net_process_rx_queue in Hp. destruct (queues _ !! 0%nat) as [q|] eqn:Hq; [|by simplify_eq].
    destruct (Hback _ _ Hq) as (Hd & e & He). destruct fuel; simpl in Hp.
    + rewrite Hd, Hw in Hp. by simplify_eq.
    + unfold rx_turn in Hp; simpl in Hp. rewrite He in Hp. simpl in Hp.
      rewrite Hd, Hw in Hp. by simplify_eq.
  - unfold net_process_tx_queue in Hp. destruct (queues _ !! 1%nat) as [q|] eqn:Hq; [|by simplify_eq].
    destruct (Hback _ _ Hq) as (Hd & e & He). destruct fuel; simpl in Hp.
    + rewrite Hd, Hw in Hp. by simplify_eq.
    + unfold drain_turn in Hp; simpl in Hp. rewrite He in Hp. simpl in Hp.
      rewrite Hd, Hw in Hp. by simplify_eq.
Qed.

#[global] Instance net_inert : InertDevice VirtioNet.
Proof.
  refine {| inert := λ d, queues_unready (net_config d) |}.
  - intros f d d' r Hi Hs. simpl in Hs. unfold net_set_acked_features in Hs.
    prog_unfold. by simplify_eq.
  - intros o bs d d' r Hi Hs. simpl in Hs. prog_unfold. by simplify_eq.
  - intros fuel i d w d' w' r Hi Hp.
    apply net_process_queue_unready in Hp as [-> ->]; done.
Defined.

Lemma net_new_inert gm i b nb parse peer rnd d :
  net_new gm i b nb parse peer rnd = Ok d → inert d.
Proof.
  unfold net_new. intros Hn. destruct (config_new gm i 2) eqn:Hc;
    repeat case_match; simplify_eq; by apply config_new_fresh in Hc as [? _].
Qed.

End net.
