(* ===== verification/Fs.v ===== *)
(** * Fs: the shared-directory device of virtio/fs.rs

    Access-control lists ([Acl]), the state of the share ([FsState]) with its
    MMIO window, and [VirtioFs] as a [VirtioDevice] and as a vhost-user
    backend. *)

From S2P Require Import Prelude Errors Platform Host VirtioMmio Chains.

(** ** Permissions: the [bitflags!] type *)

(** A set of flags is its u32 of bits. *)
Abbreviation AclPermissions := Z (only parsing).
Definition READ : AclPermissions := 1.
Definition WRITE : AclPermissions := 2.
Definition EXECUTE : AclPermissions := 4.
Definition DELETE : AclPermissions := 8.
Definition ALL : AclPermissions := Z.lor (Z.lor READ WRITE) (Z.lor EXECUTE DELETE).

Definition contains (p q : AclPermissions) : bool := Z.land p q =? q.
Definition is_empty (p : AclPermissions) : bool := p =? 0.
(** [from_bits]: only declared flags. *)
Definition from_bits (bits : Z) : option AclPermissions :=
  if Z.ldiff bits ALL =? 0 then Some bits else None.

(** [Serialize] stores the bits; [Deserialize] refuses undeclared ones. *)
Definition perm_serialize (p : AclPermissions) : Z := p.
Definition perm_deserialize (bits : Z) : res string AclPermissions :=
  match from_bits bits with
  | Some p => Ok p
  | None => Err "invalid AclPermissions value"
  end.

(** [impl Debug] *)
Definition perm_debug (p : AclPermissions) : string :=
  let flags := (if contains p READ then ["READ"] else []) ++
               (if contains p WRITE then ["WRITE"] else []) ++
               (if contains p EXECUTE then ["EXECUTE"] else []) ++
               (if contains p DELETE then ["DELETE"] else []) in
  "AclPermissions(" +:+ fmt_dec p +:+ " | " +:+ String.concat " | " flags +:+ ")".

Record AclEntry : Type := { e_uid : Z; e_gid : Z; e_permissions : AclPermissions }.
Record Acl : Type := { owner : Z; group : Z; entries : list AclEntry }.

Definition acl_default : Acl := {| owner := 0; group := 0; entries := [] |}.

Definition check_permission (a : Acl) (uid gid : Z) (required : AclPermissions) : bool :=
  if owner a =? uid then
    match List.find (λ e, e_uid e =? uid) (entries a) with
    | Some e => contains (e_permissions e) required
    | None => is_empty required || (required =? ALL)
    end
  else if group a =? gid then
    existsb (λ e, contains (e_permissions e) required)
      (List.filter (λ e, e_gid e =? gid) (entries a))
  else
    existsb (λ e, contains (e_permissions e) required)
      (List.filter (λ e, (e_uid e =? uid) || (e_gid e =? gid)) (entries a)).

(** ** The host's file system, as far as it is used *)

(** A path is the list of its components, which is how [Path] compares. *)
Abbreviation Path := (list string).

Record FileMeta : Type := { fm_uid : Z; fm_gid : Z; fm_dir : bool }.

(** The files there are, and who the process's new files belong to. *)
Record HostFs : Type := {
  hf_files : gmap Path FileMeta;
  hf_uid : Z;
  hf_gid : Z;
}.

Definition hf_with (h : HostFs) (files : gmap Path FileMeta) : HostFs :=
  {| hf_files := files; hf_uid := hf_uid h; hf_gid := hf_gid h |}.

Definition path_exists (p : Path) (h : HostFs) : bool := bool_decide (is_Some (hf_files h !! p)).

Definition metadata (p : Path) (h : HostFs) : res io_error FileMeta :=
  ok_or (hf_files h !! p) (IoErr NotFound "No such file or directory").

(** [fs::create_dir_all]: every missing ancestor, then the directory. *)
Fixpoint create_dirs (prefix rest : Path) : prog HostFs io_error unit := λ h,
  match rest with
  | [] => (h, Ok tt)
  | c :: rest' =>
      let p := prefix ++ [c] in
      match hf_files h !! p with
      | None =>
          create_dirs p rest'
            (hf_with h (<[p := {| fm_uid := hf_uid h; fm_gid := hf_gid h; fm_dir := true |}]>
                          (hf_files h)))
      | Some f =>
          if fm_dir f then create_dirs p rest' h
          else (h, Err (IoErr (OsKind 20) "Not a directory"))
      end
  end.

Definition create_dir_all (p : Path) : prog HostFs io_error unit := create_dirs [] p.

(** An open file: what was opened and how. *)
Record FsHandle : Type := { fh_path : Path; fh_read : bool; fh_write : bool }.

(** The directory a new file would be in is there. *)
Definition parent_exists (p : Path) (h : HostFs) : bool :=
  let parent := take (length p - 1) p in
  bool_decide (parent = []) ||
  match hf_files h !! parent with Some f => fm_dir f | None => false end.

(** [OpenOptions::open] *)
Definition open_with (create read write : bool) (p : Path) : prog HostFs io_error FsHandle := λ h,
  if negb (read || write) then (h, Err (IoErr InvalidInput "Invalid argument"))
  else
    let handle := {| fh_path := p; fh_read := read; fh_write := write |} in
    match hf_files h !! p with
    | Some f =>
        if fm_dir f && write then (h, Err (IoErr (OsKind 21) "Is a directory"))
        else (h, Ok handle)
    | None =>
        if create && parent_exists p h then
          (hf_with h (<[p := {| fm_uid := hf_uid h; fm_gid := hf_gid h; fm_dir := false |}]>
                        (hf_files h)), Ok handle)
        else (h, Err (IoErr NotFound "No such file or directory"))
    end.

(** ** [FsState] *)

Record FsState : Type := {
  root : Path;
  acls : gmap Path Acl;
  mmio_region : option (Z * Z);
  mmio_data : list byte;
}.

Definition fs_with_acls (s : FsState) (a : gmap Path Acl) : FsState :=
  {| root := root s; acls := a; mmio_region := mmio_region s; mmio_data := mmio_data s |}.

Definition fs_with_data (s : FsState) (data : list byte) : FsState :=
  {| root := root s; acls := acls s; mmio_region := mmio_region s; mmio_data := data |}.

Definition init_acl (path : Path) : rust (FsState * HostFs) unit := λ '(s, h),
  match metadata path h with
  | Ok meta =>
      match acls s !! path with
      | Some _ => ((s, h), Ok tt)
      | None =>
          let acl := {| owner := fm_uid meta; group := fm_gid meta; entries := [] |} in
          ((fs_with_acls s (<[path := acl]> (acls s)), h), Ok tt)
      end
  | Err e => ((s, h), Err (IoError e))
  | Panic => ((s, h), Panic)
  | OutOfFuel => ((s, h), OutOfFuel)
  end.

Definition fs_state_new (rt : Path) (region : option (Z * Z)) : rust HostFs FsState := λ h,
  let '(h1, r) := if path_exists rt h then (h, Ok tt) else create_dir_all rt h in
  match r with
  | Ok _ =>
      let data := match region with Some (_, size) => zeros (Z.to_nat size) | None => [] end in
      let state := {| root := rt; acls := ∅; mmio_region := region; mmio_data := data |} in
      match init_acl rt (state, h1) with
      | ((state', h2), Ok _) => (h2, Ok state')
      | ((_, h2), Err e) => (h2, Err e)
      | ((_, h2), Panic) => (h2, Panic)
      | ((_, h2), OutOfFuel) => (h2, OutOfFuel)
      end
  | Err e => (h1, Err (IoError e))
  | Panic => (h1, Panic)
  | OutOfFuel => (h1, OutOfFuel)
  end.

(** [self.root.join(fid.to_string())] *)
Definition get_path (s : FsState) (fid : Z) : result Path := Ok (root s ++ [fmt_dec fid]).

Definition set_acl (path : Path) (acl : Acl) : rust FsState unit := λ s,
  (fs_with_acls s (<[path := acl]> (acls s)), Ok tt).

Definition get_acl (s : FsState) (path : Path) : option Acl := acls s !! path.

Definition invalid_offset : HypervisorError := IoError (IoErr InvalidInput "Invalid offset").

Section fs_mmio.
Context `{BP : BuildProfile}.

(** [offset + data.len()] is a usize sum; slicing with start past end panics. *)
Definition fs_mmio_read (s : FsState) (offset : Z) (data : list byte) : list byte * result unit :=
  match @add_u64 HypervisorError _ offset (Z.of_nat (length data)) with
  | Ok stop =>
      if bool_decide (Z.of_nat (length (mmio_data s)) < stop) then (data, Err invalid_offset)
      else if bool_decide (offset ≤ stop) then
        (take (length data) (drop (Z.to_nat offset) (mmio_data s)), Ok tt)
      else (data, Panic)
  | Err e => (data, Err e)
  | Panic => (data, Panic)
  | OutOfFuel => (data, OutOfFuel)
  end.

Definition fs_mmio_write (offset : Z) (data : list byte) : rust FsState unit := λ s,
  match @add_u64 HypervisorError _ offset (Z.of_nat (length data)) with
  | Ok stop =>
      if bool_decide (Z.of_nat (length (mmio_data s)) < stop) then (s, Err invalid_offset)
      else if bool_decide (offset ≤ stop) then
        (fs_with_data s (splice (Z.to_nat offset) data (mmio_data s)), Ok tt)
      else (s, Panic)
  | Err e => (s, Err e)
  | Panic => (s, Panic)
  | OutOfFuel => (s, OutOfFuel)
  end.

End fs_mmio.

(** [create_file]: [std::io::Result] *)
Definition create_file (path : Path) (perm : Z) : prog (FsState * HostFs) io_error FsHandle :=
  λ '(s, h),
  match open_with true false true path h with
  | (h1, Ok file) =>
      match init_acl path (s, h1) with
      | (sh, Ok _) => (sh, Ok file)
      | (sh, Err e) => (sh, Err (IoErr Other ("Failed to initialize ACL: " +:+ to_string e)))
      | (sh, Panic) => (sh, Panic)
      | (sh, OutOfFuel) => (sh, OutOfFuel)
      end
  | (h1, Err e) => ((s, h1), Err e)
  | (h1, Panic) => ((s, h1), Panic)
  | (h1, OutOfFuel) => ((s, h1), OutOfFuel)
  end.

Definition open_file (path : Path) (read write : bool) : prog HostFs io_error FsHandle :=
  open_with false read write path.

(** ** [fs::Error] *)

Inductive FsError : Type :=
| FsIo (e : io_error)
| InvalidMessage
| UnsupportedOperation
| PermissionDenied
| InvalidOffset
| FsEventFd (e : io_error).

Definition fs_error_display (e : FsError) : string :=
  match e with
  | FsIo e => "I/O error: " +:+ io_msg e
  | InvalidMessage => "Invalid message format"
  | UnsupportedOperation => "Unsupported operation"
  | PermissionDenied => "Permission denied"
  | InvalidOffset => "Invalid offset"
  | FsEventFd e => "EventFd error: " +:+ io_msg e
  end.

(** [impl From<Error> for std::io::Error] *)
Definition io_from_fs_error (e : FsError) : io_error :=
  match e with
  | FsIo e => e
  | e => IoErr Other (fs_error_display e)
  end.

(** ** [VirtioFs] *)

(** [process_9p]: every message is refused. *)
Definition process_9p (msg : list byte) : result unit :=
  if bool_decide (length msg < 4)%nat then
    Err (IoError (IoErr InvalidInput "Invalid message"))
  else
    match msg !! 4%nat with
    | None => Panic
    | Some msg_type => Err (IoError (IoErr Unsupported "Operation not supported"))
    end.

(** [EventSet::IN] *)
Definition EPOLLIN : Z := 1.

Section virtio_fs.
Context `{QA : QueueApi} `{EA : EventApi}.

Record VirtioFs : Type := {
  fs_state : FsState;
  vrings : list (option Queue);
  queue_evts : list EventFd;
  irq_trigger : EventFd;
  fs_features : Z;
  acked_features : Z;
}.

Definition event_new : result EventFd :=
  match evt_new 0 with
  | Ok e => Ok e
  | Err e => Err (IoError (IoErr Other e))
  | Panic => Panic
  | OutOfFuel => OutOfFuel
  end.

Definition virtio_fs_new (rt : Path) (irq : EventFd) : rust HostFs VirtioFs :=
  state ← fs_state_new rt None;
  evt0 ← plift event_new;
  evt1 ← plift event_new;
  mret {| fs_state := state; vrings := [None; None]; queue_evts := [evt0; evt1];
          irq_trigger := irq; fs_features := 0; acked_features := 0 |}.

Definition fs_with_acked (d : VirtioFs) (f : Z) : VirtioFs :=
  {| fs_state := fs_state d; vrings := vrings d; queue_evts := queue_evts d;
     irq_trigger := irq_trigger d; fs_features := fs_features d; acked_features := f |}.

Definition fs_with_irq (d : VirtioFs) (e : EventFd) : VirtioFs :=
  {| fs_state := fs_state d; vrings := vrings d; queue_evts := queue_evts d;
     irq_trigger := e; fs_features := fs_features d; acked_features := acked_features d |}.

Definition fs_get_features (d : VirtioFs) : Z := Z.lor (Z.shiftl 1 0) (Z.shiftl 1 32).

Definition fs_set_acked_features (features : Z) : rust VirtioFs unit := λ d,
  (fs_with_acked d features, Ok tt).

Definition fs_read_config (d : VirtioFs) (offset : Z) (data : list byte)
    : list byte * result unit := (zeros (length data), Ok tt).

Definition fs_process_queue (fuel : nat) (queue_idx : Z) : rust (VirtioFs * World) unit := mret tt.

#[global] Instance fs_device : VirtioDevice VirtioFs := {|
  device_type := λ _, 26;
  get_features := fs_get_features;
  set_acked_features := fs_set_acked_features;
  read_config := fs_read_config;
  write_config := λ _ _, mret tt;
  process_queue := fs_process_queue;
  get_queues := λ _, [256];
  get_interrupt_status := λ _, 0;
  shutdown := default_shutdown;
  dev_mmio_read := default_mmio_read;
  dev_mmio_write := default_mmio_write;
  get_mmio_region := default_get_mmio_region;
|}.

(** *** The vhost-user backend; [GMem] is the memory installed last *)

Definition num_queues (d : VirtioFs) : Z := 1.
Definition max_queue_size (d : VirtioFs) : Z := 256.
Definition backend_features (d : VirtioFs) : Z := fs_features d.
Definition protocol_features (d : VirtioFs) : Z := 0.
Definition set_event_idx (enable : bool) : prog VirtioFs io_error unit := mret tt.

Definition update_memory (mem : GMem) : prog (VirtioFs * GMem) io_error unit := λ '(d, _),
  ((d, mem), Ok tt).

(** One turn of the queue loop of [handle_event]. *)
Definition event_turn : prog (Queue * GMem) io_error ctl := λ '(q, m),
  match q_pop q m with
  | (q1, Err e) => ((q1, m), Err (IoErr Other ("Queue iter error: " +:+ e)))
  | (q1, Ok None) => ((q1, m), Ok Break)
  | (q1, Ok (Some chain)) =>
      match c_next chain m with
      | None => ((q1, m), Ok Continue)
      | Some (desc, _) =>
          match gm_read_slice m (zeros (Z.to_nat (desc_len desc))) (desc_addr desc) with
          | (_, Some _) => ((q1, m), Ok Continue)
          | (data, None) =>
              match process_9p data with
              | Panic => ((q1, m), Panic)
              | OutOfFuel => ((q1, m), OutOfFuel)
              | _ =>
                  let '(q2, m2, _) := q_add_used q1 m (c_head_index chain) (desc_len desc) in
                  ((q2, m2), Ok Continue)
              end
          end
      end
  | (q1, Panic) => ((q1, m), Panic)
  | (q1, OutOfFuel) => ((q1, m), OutOfFuel)
  end.

(** [rings] are the queues behind the [VringRwLock]s the caller passes. *)
Definition handle_event (fuel : nat) (device_event evset : Z)
    : prog (VirtioFs * list Queue * GMem) io_error unit := λ '(d, rings, m),
  if bool_decide (device_event ≠ 0) then
    ((d, rings, m), Err (IoErr Other "Unexpected device event"))
  else if negb (Z.land evset EPOLLIN =? EPOLLIN) then ((d, rings, m), Ok tt)
  else
    let '(rings1, m1, r) :=
      match rings !! 0%nat with
      | Some q =>
          let '((q', m'), r) := while_loop fuel event_turn (q, m) in (<[0%nat := q']> rings, m', r)
      | None => (rings, m, Ok tt)
      end in
    match r with
    | Ok _ =>
        let '(evt, e) := evt_write (irq_trigger d) 1 in
        ((fs_with_irq d evt, rings1, m1),
         match e with
         | None => Ok tt
         | Some msg => Err (IoErr Other ("Failed to signal irq: " +:+ msg))
         end)
    | r => ((d, rings1, m1), r)
    end.

End virtio_fs.

(** ** Theorems on access control *)

(** [p] is a set of declared flags. *)
Definition valid_perm (p : AclPermissions) : Prop := 0 ≤ p ≤ ALL.

Lemma contains_spec p q : contains p q = true ↔ ∀ i, Z.testbit q i = true → Z.testbit p i = true.
Proof.
  unfold contains. rewrite Z.eqb_eq. split.
  - intros Hpq i Hi. rewrite <- Hpq, Z.land_spec in Hi. by apply andb_prop in Hi as [].
  - intros Hi. apply Z.bits_inj. intros i. rewrite Z.land_spec.
    destruct (Z.testbit q i) eqn:Hq; [by rewrite (Hi i Hq)|apply andb_false_r].
Qed.

Lemma contains_mono p q q' :
  contains q q' = true → contains p q = true → contains p q' = true.
Proof. rewrite !contains_spec. auto. Qed.

(** The entries that speak for a user, by the branch the check takes. *)
Definition applies (a : Acl) (uid gid : Z) (e : AclEntry) : Prop :=
  if owner a =? uid then e_uid e = uid
  else if group a =? gid then e_gid e = gid
  else e_uid e = uid ∨ e_gid e = gid.

Lemma check_permission_sound a uid gid req :
  (owner a ≠ uid ∨ ∃ e, e ∈ entries a ∧ e_uid e = uid) →
  check_permission a uid gid req = true →
  ∃ e, e ∈ entries a ∧ applies a uid gid e ∧ contains (e_permissions e) req = true.
Proof.
  intros Hent. unfold check_permission, applies.
  destruct (Z.eqb_spec (owner a) uid) as [Ho|Ho].
  - destruct (List.find _ _) as [e|] eqn:Hf.
    + apply List.find_some in Hf as [Hin Hu]. apply Z.eqb_eq in Hu.
      intros Hc. exists e. by rewrite list_elem_of_In.
    + destruct Hent as [|(e & Hin & Hu)]; [done|]. exfalso.
      rewrite list_elem_of_In in Hin. pose proof (List.find_none _ _ Hf e Hin) as Hn.
      simpl in Hn. apply Z.eqb_neq in Hn. done.
  - destruct (Z.eqb_spec (group a) gid) as [Hg|Hg]; rewrite existsb_exists;
      intros (e & [Hin Hp]%filter_In & Hc); exists e; rewrite list_elem_of_In;
      [apply Z.eqb_eq in Hp; done|].
    apply orb_prop in Hp as [Hp|Hp]; apply Z.eqb_eq in Hp; auto.
Qed.

(** C36: outside the owner-without-entry case an ACL is a lattice-respecting
    guard: a granted request comes from an entry that speaks for the user and
    contains it, and whoever may do something may do any part of it. *)
Theorem check_permission_grants a uid gid req req'
    (Hent : owner a ≠ uid ∨ ∃ e, e ∈ entries a ∧ e_uid e = uid)
    (Hreq : check_permission a uid gid req = true)
    (Hsub : contains req req' = true) :
  check_permission a uid gid req' = true ∧
  ∃ e, e ∈ entries a ∧ applies a uid gid e ∧ contains (e_permissions e) req = true.
Proof.
  split; [|by apply check_permission_sound]. revert Hreq. unfold check_permission.
  destruct (owner a =? uid) eqn:Ho.
  - destruct (List.find _ _) as [e|] eqn:Hf; [by apply contains_mono|].
    apply Z.eqb_eq in Ho. destruct Hent as [|(e & Hin & Hu)]; [done|]. exfalso.
    rewrite list_elem_of_In in Hin. pose proof (List.find_none _ _ Hf e Hin) as Hn.
    simpl in Hn. apply Z.eqb_neq in Hn. done.
  - destruct (group a =? gid); rewrite !existsb_exists; intros (e & Hin & Hc);
      exists e; (split; [done|by eapply contains_mono]).
Qed.

(** Under the ACL [init_acl] gives a path (its owner, no entries) the owner
    may do nothing or everything at once: a request for some but not all of the
    four permissions is refused although the request for all four is granted. *)
Theorem owner_without_entry a uid gid req
    (Ho : owner a = uid) (Hn : Forall (λ e, e_uid e ≠ uid) (entries a)) :
  check_permission a uid gid req = true ↔ req = 0 ∨ req = ALL.
Proof.
  unfold check_permission. rewrite Ho, Z.eqb_refl.
  destruct (List.find _ _) as [e|] eqn:Hf.
  { exfalso. apply List.find_some in Hf as [Hin Hu]. apply Z.eqb_eq in Hu.
    rewrite Forall_forall in Hn. by apply (Hn e). }
  unfold is_empty. rewrite orb_true_iff, !Z.eqb_eq. done.
Qed.

Lemma from_bits_spec bits : 0 ≤ bits → from_bits bits = if bits <=? ALL then Some bits else None.
Proof.
  intros Hb. unfold from_bits. destruct (Z.leb_spec bits ALL) as [Hle|Hgt].
  - change ALL with 15 in *.
    assert (Hc : bits ∈ seqZ 0 16) by (apply elem_of_seqZ; lia).
    revert Hc. vm_compute seqZ. rewrite !elem_of_cons, elem_of_nil.
    intros Hc. repeat destruct Hc as [->|Hc]; done.
  - destruct (Z.eqb_spec (Z.ldiff bits ALL) 0) as [Hd|]; [|done]. exfalso.
    change ALL with (Z.ones 4) in *. rewrite Z.ldiff_ones_r in Hd by lia.
    apply Z.shiftl_eq_0_iff in Hd; [|lia]. rewrite Z.shiftr_div_pow2 in Hd by lia.
    change (Z.ones 4) with 15 in Hgt. change (2 ^ 4) with 16 in Hd.
    apply Z.div_small_iff in Hd; lia.
Qed.

(** C37: serialised permissions read back as themselves, and deserialisation
    accepts exactly the sixteen sets of declared flags. *)
Theorem permissions_roundtrip p (Hp : u32 p) :
  perm_deserialize (perm_serialize p) =
  if decide (valid_perm p) then Ok p else Err "invalid AclPermissions value".
Proof.
  unfold perm_deserialize, perm_serialize, valid_perm. unfold u32 in Hp.
  rewrite from_bits_spec by lia. destruct (Z.leb_spec p ALL).
  - rewrite decide_True by lia. done.
  - rewrite decide_False by lia. done.
Qed.

(** ** Theorems on the MMIO window *)

Section fs_mmio_theorems.
Context `{BP : BuildProfile}.

Lemma fs_window_cases s offset n :
  u64 offset → Z.of_nat (length (mmio_data s)) < 2 ^ 63 →
  (offset + Z.of_nat n ≤ Z.of_nat (length (mmio_data s)) ∧
   @add_u64 HypervisorError _ offset (Z.of_nat n) = Ok (offset + Z.of_nat n)) ∨
  (Z.of_nat (length (mmio_data s)) < offset + Z.of_nat n < 2 ^ 64 ∧
   @add_u64 HypervisorError _ offset (Z.of_nat n) = Ok (offset + Z.of_nat n)) ∨
  (2 ^ 64 ≤ offset + Z.of_nat n ∧
   (@add_u64 HypervisorError _ offset (Z.of_nat n) = Panic ∨
    @add_u64 HypervisorError _ offset (Z.of_nat n) = Ok ((offset + Z.of_nat n) mod 2 ^ 64))).
Proof.
  intros Ho Hl. unfold u64 in Ho. unfold add_u64, arith.
  case_bool_decide as Hin; [|right; right; split; [lia|destruct overflow_checks; auto]].
  destruct (decide (offset + Z.of_nat n ≤ Z.of_nat (length (mmio_data s)))); [left|right; left];
    split; (done || lia).
Qed.

(** C38: what a write to the window puts there a read of the same bytes gets
    back, and a read apart from it gets what it got before. *)
Theorem fs_mmio_write_read s offset data
    (Ho : u64 offset) (Hl : Z.of_nat (length (mmio_data s)) < 2 ^ 63)
    (Hfit : offset + Z.of_nat (length data) ≤ Z.of_nat (length (mmio_data s))) :
  ∃ s', fs_mmio_write offset data s = (s', Ok tt) ∧
    acls s' = acls s ∧ root s' = root s ∧
    length (mmio_data s') = length (mmio_data s) ∧
    (∀ buf, length buf = length data → fs_mmio_read s' offset buf = (data, Ok tt)) ∧
    (∀ o buf, u64 o → Z.of_nat (length buf) < 2 ^ 63 →
      o + Z.of_nat (length buf) ≤ offset ∨ offset + Z.of_nat (length data) ≤ o →
      fs_mmio_read s' o buf = fs_mmio_read s o buf).
Proof.
  assert (Hadd : ∀ n, offset + Z.of_nat n ≤ Z.of_nat (length (mmio_data s)) →
    @add_u64 HypervisorError _ offset (Z.of_nat n) = Ok (offset + Z.of_nat n)).
  { intros n Hn. unfold add_u64, arith, u64 in *. rewrite bool_decide_true by lia. done. }
  unfold u64 in Ho. unfold fs_mmio_write. rewrite Hadd by done.
  rewrite bool_decide_false, bool_decide_true by lia.
  assert (Hlen : length (splice (Z.to_nat offset) data (mmio_data s)) = length (mmio_data s))
    by (apply length_splice; lia).
  eexists; split; [done|]. simpl. split_and!; [done..| |].
  - intros buf Hb. unfold fs_mmio_read. simpl. rewrite Hb, Hadd by done.
    rewrite Hlen, bool_decide_false, bool_decide_true by lia. f_equal.
    unfold splice. rewrite drop_app_length' by len_lia. by rewrite take_app_length.
  - intros o buf Ho' Hb Hd. unfold u64 in Ho'. unfold fs_mmio_read; simpl. rewrite Hlen.
    destruct (add_u64 _ _) as [stop| | |] eqn:Hs; try done. case_bool_decide; [done|].
    case_bool_decide; [|done]. f_equal. unfold add_u64, arith in Hs.
    case_bool_decide; [|destruct overflow_checks; simplify_eq;
      rewrite <- (Z.mod_unique (o + Z.of_nat (length buf)) (2 ^ 64) 1
        (o + Z.of_nat (length buf) - 2 ^ 64)) in *; lia]. simplify_eq.
    apply list_eq. intros i. destruct (decide (i < length buf)%nat).
    + rewrite !lookup_take_lt, !lookup_drop, lookup_splice by lia.
      by rewrite decide_False by lia.
    + rewrite !lookup_take_ge by lia. done.
Qed.

(** An access that leaves the window has no effect.  It is refused with an
    error unless its end overflows the address space; an overflowing one panics
    in a debug build, and in a release build panics or is refused. *)
Theorem fs_mmio_out_of_range s offset data
    (Ho : u64 offset) (Hl : Z.of_nat (length (mmio_data s)) < 2 ^ 63)
    (Hd : Z.of_nat (length data) < 2 ^ 63)
    (Hout : Z.of_nat (length (mmio_data s)) < offset + Z.of_nat (length data)) :
  ∃ r, fs_mmio_write offset data s = (s, r) ∧ fs_mmio_read s offset data = (data, r) ∧
    (offset + Z.of_nat (length data) < 2 ^ 64 → r = Err invalid_offset) ∧
    (2 ^ 64 ≤ offset + Z.of_nat (length data) →
      r = Panic ∨ (r = Err invalid_offset ∧ overflow_checks = false)).
Proof.
  unfold fs_mmio_write, fs_mmio_read, add_u64, arith. unfold u64 in Ho. case_bool_decide.
  { rewrite bool_decide_true by lia. exists (Err invalid_offset).
    split_and!; try done; intros; try done; lia. }
  destruct overflow_checks eqn:Hc.
  { exists Panic. split_and!; try done; intros; try lia. by left. }
  replace ((offset + Z.of_nat (length data)) mod 2 ^ 64)
    with (offset + Z.of_nat (length data) - 2 ^ 64) by (apply Z.mod_unique with 1; lia).
  case_bool_decide.
  - exists (Err invalid_offset). split_and!; try done; intros; by right.
  - rewrite bool_decide_false by lia. exists Panic.
    split_and!; try done; intros; [lia|by left].
Qed.

End fs_mmio_theorems.

(** ** Theorems on the 9P queue *)

(** No 9P message is ever served: a message shorter than 4 bytes is an
    invalid message, a longer one is unsupported, and a message of exactly 4
    bytes panics, since byte 4 is read after a check for 4 bytes only. *)
Theorem process_9p_outcomes msg :
  process_9p msg =
  if decide (length msg < 4)%nat then Err (IoError (IoErr InvalidInput "Invalid message"))
  else if decide (length msg = 4%nat) then Panic
  else Err (IoError (IoErr Unsupported "Operation not supported")).
Proof.
  unfold process_9p. case_bool_decide; [by rewrite decide_True|].
  rewrite decide_False by done. case_decide as H4.
  - by rewrite lookup_ge_None_2 by lia.
  - destruct (lookup_lt_is_Some_2 msg 4%nat) as [b ->]; [lia|done].
Qed.

Section fs_theorems.
Context `{QA : QueueApi} `{EA : EventApi} `{QL : !QueueLaws} `{ML : !MemoryLaws}.

(** How the queue loop of [handle_event] ends. *)
Inductive event_end : Type :=
| EvEmpty
| EvFail (e : string)
| EvPanic.

Definition readable (m : GMem) (d : Descriptor) : Prop :=
  (gm_read_slice m (zeros (Z.to_nat (desc_len d))) (desc_addr d)).2 = None.

(** [served q m q' m' o]: chains are taken from [q] until it is empty or
    unusable.  A chain without descriptors, or whose first descriptor cannot be
    read, is dropped; one whose first descriptor holds a message of 4 bytes stops
    everything; any other is completed with the length of that descriptor. *)
Inductive served : Queue → GMem → Queue → GMem → event_end → Prop :=
| served_empty q m q' : q_pop q m = (q', Ok None) → served q m q' m EvEmpty
| served_fail q m q' e : q_pop q m = (q', Err e) → served q m q' m (EvFail e)
| served_no_desc q m q1 c q' m' o :
    q_pop q m = (q1, Ok (Some c)) → c_next c m = None →
    served q1 m q' m' o → served q m q' m' o
| served_unreadable q m q1 c d c' q' m' o :
    q_pop q m = (q1, Ok (Some c)) → c_next c m = Some (d, c') → ¬ readable m d →
    served q1 m q' m' o → served q m q' m' o
| served_panic q m q1 c d c' :
    q_pop q m = (q1, Ok (Some c)) → c_next c m = Some (d, c') → readable m d → desc_len d = 4 →
    served q m q1 m EvPanic
| served_message q m q1 c d c' q2 m2 e q' m' o :
    q_pop q m = (q1, Ok (Some c)) → c_next c m = Some (d, c') → readable m d → desc_len d ≠ 4 →
    q_add_used q1 m (c_head_index c) (desc_len d) = (q2, m2, e) →
    served q2 m2 q' m' o → served q m q' m' o.

Definition event_result (o : event_end) : res io_error unit :=
  match o with
  | EvEmpty => Ok tt
  | EvFail e => Err (IoErr Other ("Queue iter error: " +:+ e))
  | EvPanic => Panic
  end.

Lemma event_loop_serves fuel q m :
  rings_apart q → (q_pending q m < fuel)%nat →
  ∃ q' m' o, served q m q' m' o ∧ while_loop fuel event_turn (q, m) = ((q', m'), event_result o).
Proof.
  revert q m. induction fuel as [|n IH]; intros q m Hring Hp; [lia|].
  cbn [while_loop]. unfold event_turn at 1. destruct (q_pop q m) as [q1 r] eqn:Hpop.
  pose proof (q_pop_outcome _ _ _ _ Hpop) as [Hnp Hnf].
  destruct r as [[c|]|e| |]; try done.
  2: { exists q1, m, EvEmpty. split; [by constructor|done]. }
  2: { exists q1, m, (EvFail e). split; [by constructor|done]. }
  pose proof (q_pop_pending _ _ _ _ Hpop). pose proof (rings_apart_pop _ _ _ _ Hpop Hring) as Hring1.
  destruct (c_next c m) as [[d c']|] eqn:Hc.
  2: { destruct (IH q1 m) as (q' & m' & o & Hs & Hr); [done|lia|].
       exists q', m', o. split; [by eapply served_no_desc|done]. }
  destruct (gm_read_slice m _ _) as [data [e|]] eqn:Hread.
  { destruct (IH q1 m) as (q' & m' & o & Hs & Hr); [done|lia|].
    exists q', m', o. split; [eapply served_unreadable; try done; by unfold readable; rewrite Hread|done]. }
  assert (Hd : readable m d) by (unfold readable; by rewrite Hread).
  apply gm_read_length in Hread. rewrite length_zeros in Hread.
  apply c_next_desc in Hc as Hrange. destruct Hrange as [_ Hlen]. unfold u32 in Hlen.
  rewrite process_9p_outcomes. destruct (decide (desc_len d = 4)) as [H4|H4].
  { rewrite decide_False, decide_True by lia. exists q1, m, EvPanic.
    split; [by eapply served_panic|done]. }
  destruct (q_add_used q1 m _ _) as [[q2 m2] e] eqn:Hu.
  destruct (rings_apart_add_used _ _ _ _ _ _ _ Hu Hring1) as [Hring2 Hp2].
  destruct (IH q2 m2) as (q' & m' & o & Hs & Hr); [done|lia|].
  exists q', m', o. split; [by eapply served_message|].
  repeat case_decide; done || lia.
Qed.

(** C39: what the vhost-user event handler does.  An event other than 0 is an
    error and one without EPOLLIN nothing.  Otherwise, on a queue whose rings
    are apart and with more fuel than available chains, it returns: the chains
    are served in order until the queue is empty and then the interrupt is
    signalled once, failing if that fails; a queue that cannot be iterated gives
    an error and a readable message of exactly 4 bytes a panic, both without an
    interrupt.  Without a queue only the interrupt is signalled. *)
Theorem fs_handle_event_serves fuel ev evset d rings m
    (Hring : ∀ q, rings !! 0%nat = Some q → rings_apart q ∧ (q_pending q m < fuel)%nat) :
  (ev ≠ 0 → handle_event fuel ev evset (d, rings, m) =
     ((d, rings, m), Err (IoErr Other "Unexpected device event"))) ∧
  (ev = 0 → Z.testbit evset 0 = false → handle_event fuel ev evset (d, rings, m) = ((d, rings, m), Ok tt)) ∧
  (ev = 0 → Z.testbit evset 0 = true → ∃ rings' m' o,
     match rings !! 0%nat with
     | Some q => ∃ q', served q m q' m' o ∧ rings' = <[0%nat := q']> rings
     | None => rings' = rings ∧ m' = m ∧ o = EvEmpty
     end ∧
     handle_event fuel ev evset (d, rings, m) =
     match o, evt_write (irq_trigger d) 1 with
     | EvEmpty, (evt, None) => ((fs_with_irq d evt, rings', m'), Ok tt)
     | EvEmpty, (evt, Some msg) =>
         ((fs_with_irq d evt, rings', m'), Err (IoErr Other ("Failed to signal irq: " +:+ msg)))
     | EvFail e, _ => ((d, rings', m'), Err (IoErr Other ("Queue iter error: " +:+ e)))
     | EvPanic, _ => ((d, rings', m'), Panic)
     end).
Proof.
  assert (Hbit : (Z.land evset EPOLLIN =? EPOLLIN) = Z.testbit evset 0).
  { change EPOLLIN with (Z.ones 1). rewrite Z.land_ones, Z.bit0_odd by lia. change (2 ^ 1) with 2.
    rewrite Zmod_odd. by destruct (Z.odd evset). }
  unfold handle_event. rewrite Hbit. split_and!.
  - intros Hev. by rewrite bool_decide_true.
  - intros -> ->. done.
  - intros -> ->. cbn [negb]. rewrite bool_decide_false by tauto.
    destruct (rings !! 0%nat) as [q|].
    + destruct (Hring q eq_refl) as [Ha Hp]. destruct (event_loop_serves fuel q m Ha Hp)
        as (q' & m' & o & Hs & Hr). rewrite Hr. exists (<[0%nat := q']> rings), m', o.
      split; [by exists q'|]. destruct o; simpl; try done. by destruct (evt_write _ _) as [evt [msg|]].
    + exists rings, m, EvEmpty. split; [done|]. by destruct (evt_write _ _) as [evt [msg|]].
Qed.

(** [process_queue] of the share does nothing at all. *)
#[global] Instance fs_inert : InertDevice VirtioFs.
Proof.
  refine {| inert := λ _, True |}; try done.
  intros fuel i d w d' w' r _ Hp. simpl in Hp. unfold fs_process_queue in Hp.
  prog_unfold. by simplify_eq.
Defined.

End fs_theorems.
