(* ===== verification/Kvm.v ===== *)
(** * Kvm: the kernel's virtualisation interface

    The structs of kvm-bindings with the fields the crate names (the rest of a
    struct is one opaque field), and the operations of kvm-ioctls as a class,
    with the documented behaviour the theorems rely on as laws.  FlatKvm.v has
    an instance. *)

From S2P Require Import Prelude Errors Platform.

(** ** Structs *)

Record kvm_regs : Type := {
  rax : Z; rbx : Z; rcx : Z; rdx : Z; rsi : Z; rdi : Z; rsp : Z; rbp : Z;
  r8 : Z; r9 : Z; r10 : Z; r11 : Z; r12 : Z; r13 : Z; r14 : Z; r15 : Z;
  rip : Z; rflags : Z;
}.

Record kvm_segment : Type := {
  sg_base : Z; sg_limit : Z; sg_selector : Z; sg_type : Z; sg_present : Z; sg_dpl : Z;
  sg_db : Z; sg_s : Z; sg_l : Z; sg_g : Z; sg_avl : Z;
  sg_rest : list byte;
}.

Record kvm_dtable : Type := { dt_base : Z; dt_limit : Z; dt_rest : list byte }.

Record kvm_sregs : Type := {
  cs : kvm_segment; ds : kvm_segment; es : kvm_segment; fs : kvm_segment; gs : kvm_segment;
  ss : kvm_segment; tr : kvm_segment;
  gdt : kvm_dtable; idt : kvm_dtable;
  cr0 : Z; cr3 : Z; cr4 : Z; efer : Z;
  sr_rest : list byte;
}.

Record kvm_fpu : Type := { fcw : Z; mxcsr : Z; fpu_rest : list byte }.

Record kvm_msr_entry : Type := { msr_index : Z; msr_reserved : Z; msr_data : Z }.

Record kvm_userspace_memory_region : Type := {
  slot : Z; slot_flags : Z; guest_phys_addr : Z; memory_size : Z; userspace_addr : Z;
}.

(** A slot covers a guest physical address. *)
Definition slot_covers (r : kvm_userspace_memory_region) (x : Z) : Prop :=
  guest_phys_addr r ≤ x < guest_phys_addr r + memory_size r.

(** [VcpuExit]; the data of an access is the buffer shared with the kernel. *)
Inductive VcpuExit : Type :=
| IoIn (port : Z) (data : list byte)
| IoOut (port : Z) (data : list byte)
| MmioRead (addr : Z) (data : list byte)
| MmioWrite (addr : Z) (data : list byte)
| Hlt
| Shutdown
| OtherExit (reason : string).

(** ** Operations *)

(** The ioctls on a VM and on a vCPU.  [vcpu_run] runs the guest, which changes
    guest memory, until an exit; [vcpu_set_data] is a store to the exit's shared
    buffer, which the guest sees when it is next run. *)
Class KvmApi `{MemoryApi} := {
  VmFd : Type;
  VcpuFd : Type;
  vm_slots : VmFd → list kvm_userspace_memory_region;
  vm_set_user_memory_region : VmFd → kvm_userspace_memory_region → VmFd * option string;
  vm_create_vcpu : VmFd → Z → res string VcpuFd;
  vcpu_get_regs : VcpuFd → res string kvm_regs;
  vcpu_set_regs : VcpuFd → kvm_regs → VcpuFd * option string;
  vcpu_get_sregs : VcpuFd → res string kvm_sregs;
  vcpu_set_sregs : VcpuFd → kvm_sregs → VcpuFd * option string;
  vcpu_get_fpu : VcpuFd → res string kvm_fpu;
  vcpu_set_fpu : VcpuFd → kvm_fpu → VcpuFd * option string;
  vcpu_msrs : VcpuFd → gmap Z Z;
  vcpu_set_msrs : VcpuFd → list kvm_msr_entry → VcpuFd * res string nat;
  vcpu_run : VcpuFd → VmFd → GMem → VcpuFd * GMem * res string VcpuExit;
  vcpu_set_data : VcpuFd → list byte → VcpuFd;
}.

(** ** MSRs *)

Definition MSR_EFER : Z := 0xc0000080.
Definition MSR_STAR : Z := 0xc0000081.
Definition MSR_LSTAR : Z := 0xc0000082.
Definition MSR_CSTAR : Z := 0xc0000083.
Definition MSR_SFMASK : Z := 0xc0000084.
Definition MSR_FS_BASE : Z := 0xc0000100.
Definition MSR_GS_BASE : Z := 0xc0000101.
Definition MSR_APIC_BASE : Z := 0x1b.
Definition MSR_TSC_DEADLINE : Z := 0x6e0.

Definition syscall_msrs : list Z := [MSR_EFER; MSR_STAR; MSR_LSTAR; MSR_CSTAR; MSR_SFMASK].

(** The MSRs KVM_SET_SREGS may change: those whose state is a field of
    [kvm_sregs], and the APIC's, which depend on its base. *)
Definition sregs_msr (i : Z) : Prop :=
  i ∈ [MSR_EFER; MSR_FS_BASE; MSR_GS_BASE; MSR_APIC_BASE; MSR_TSC_DEADLINE] ∨ 0x800 ≤ i < 0x900.

Definition msr_store (m : gmap Z Z) (es : list kvm_msr_entry) : gmap Z Z :=
  foldl (λ m e, <[msr_index e := msr_data e]> m) m es.

(** EFER.LMA is read-only: it follows CR0.PG and EFER.LME. *)
Definition EFER_LMA : Z := 0x400.

Definition efer_write (old : Z) (e : kvm_msr_entry) : Z :=
  if msr_index e =? MSR_EFER
  then Z.lor (Z.ldiff (msr_data e) EFER_LMA) (Z.land old EFER_LMA) else old.

Definition sregs_with_efer (s : kvm_sregs) (e : Z) : kvm_sregs :=
  {| cs := cs s; ds := ds s; es := es s; fs := fs s; gs := gs s; ss := ss s; tr := tr s;
     gdt := gdt s; idt := idt s; cr0 := cr0 s; cr3 := cr3 s; cr4 := cr4 s; efer := e;
     sr_rest := sr_rest s |}.

(** ** What the vCPU keeps of what it is given *)

(** Bit 1 of RFLAGS is always set. *)
Definition fixed_rflags (r : kvm_regs) : kvm_regs :=
  {| rax := rax r; rbx := rbx r; rcx := rcx r; rdx := rdx r; rsi := rsi r; rdi := rdi r;
     rsp := rsp r; rbp := rbp r; r8 := r8 r; r9 := r9 r; r10 := r10 r; r11 := r11 r;
     r12 := r12 r; r13 := r13 r; r14 := r14 r; r15 := r15 r; rip := rip r;
     rflags := Z.lor (rflags r) 2 |}.

(** The first of the bytes after [avl] is [unusable]. *)
Definition usable (sg : kvm_segment) : Prop := hd_error (sg_rest sg) = Some Byte.x00.

(** A segment in the form the processor keeps it: usable, present, accessed, and
    with the granularity its limit needs.  Others are adjusted when loaded. *)
Definition loadable (sg : kvm_segment) : Prop :=
  usable sg ∧ sg_present sg = 1 ∧ Z.testbit (sg_type sg) 0 = true ∧
  (sg_g sg = 1 ↔ 0xFFFFF < sg_limit sg).

Definition segment_fields (sg : kvm_segment) : list Z :=
  [sg_base sg; sg_limit sg; sg_selector sg; sg_type sg; sg_present sg; sg_dpl sg; sg_db sg;
   sg_s sg; sg_l sg; sg_g sg; sg_avl sg].

Definition loaded (sg sg' : kvm_segment) : Prop :=
  loadable sg → usable sg' ∧ segment_fields sg' = segment_fields sg.

Definition segments_of (s : kvm_sregs) : list kvm_segment := [cs s; ds s; es s; fs s; gs s; ss s; tr s].

(** [s'] is what KVM_GET_SREGS returns after KVM_SET_SREGS with [s]. *)
Definition sregs_loaded (s s' : kvm_sregs) : Prop :=
  Forall2 loaded (segments_of s) (segments_of s') ∧
  dt_base (gdt s') = dt_base (gdt s) ∧ dt_limit (gdt s') = dt_limit (gdt s) ∧
  dt_base (idt s') = dt_base (idt s) ∧ dt_limit (idt s') = dt_limit (idt s) ∧
  cr0 s' = cr0 s ∧ cr3 s' = cr3 s ∧ cr4 s' = cr4 s ∧ efer s' = efer s.

(** The unnamed special registers are the LDT, CR2, CR8 and the APIC base, 48
    bytes, and then the bitmap of the interrupt being injected. *)
Definition sr_state (s : kvm_sregs) : list byte := take 48 (sr_rest s).

(** The same special registers, whatever interrupt is being injected: setting
    them adds an interrupt but does not take one back. *)
Definition same_sregs (s s' : kvm_sregs) : Prop :=
  segments_of s' = segments_of s ∧ gdt s' = gdt s ∧ idt s' = idt s ∧ cr0 s' = cr0 s ∧
  cr3 s' = cr3 s ∧ cr4 s' = cr4 s ∧ efer s' = efer s ∧ sr_state s' = sr_state s.

(** ** Laws

    A setter that succeeds sets its own registers.  EFER is one register, seen
    as an MSR and as a field of [kvm_sregs] ([vcpu_efer_msr]), so setting either
    changes both.  State read from a vCPU can be moved to another
    ([vcpu_sregs_migrate], [vcpu_fpu_migrate]).  Nothing is said of what
    becomes of an [mxcsr] that was not read from a vCPU. *)
Class KvmLaws `{KvmApi} : Prop := {
  vm_set_region_slots v r v' :
    vm_set_user_memory_region v r = (v', None) →
    Forall (λ s, slot s ≠ slot r) (vm_slots v) →
    vm_slots v' = vm_slots v ++ [r];
  vm_create_vcpu_reset vm i v s :
    vm_create_vcpu vm i = Ok v → vcpu_get_sregs v = Ok s → usable (cs s);
  vcpu_regs_fixed v r : vcpu_get_regs v = Ok r → fixed_rflags r = r;
  vcpu_efer_msr v s : vcpu_get_sregs v = Ok s → vcpu_msrs v !! MSR_EFER = Some (efer s);
  vcpu_set_regs_spec v r v' :
    vcpu_set_regs v r = (v', None) →
    vcpu_get_regs v' = Ok (fixed_rflags r) ∧ vcpu_get_sregs v' = vcpu_get_sregs v ∧
    vcpu_get_fpu v' = vcpu_get_fpu v ∧ vcpu_msrs v' = vcpu_msrs v;
  vcpu_set_sregs_spec v s v' :
    vcpu_set_sregs v s = (v', None) →
    vcpu_get_regs v' = vcpu_get_regs v ∧ vcpu_get_fpu v' = vcpu_get_fpu v ∧
    (∀ i, ¬ sregs_msr i → vcpu_msrs v' !! i = vcpu_msrs v !! i) ∧
    ∃ s', vcpu_get_sregs v' = Ok s' ∧ sregs_loaded s s' ∧
      (∀ s0, vcpu_get_sregs v = Ok s0 → sr_rest s = sr_rest s0 → sr_rest s' = sr_rest s0);
  vcpu_sregs_migrate v0 s v v' :
    vcpu_get_sregs v0 = Ok s → vcpu_set_sregs v s = (v', None) →
    ∃ s', vcpu_get_sregs v' = Ok s' ∧ same_sregs s s';
  vcpu_set_fpu_spec v f v' :
    vcpu_set_fpu v f = (v', None) →
    vcpu_get_regs v' = vcpu_get_regs v ∧ vcpu_get_sregs v' = vcpu_get_sregs v ∧
    vcpu_msrs v' = vcpu_msrs v ∧
    ∃ f', vcpu_get_fpu v' = Ok f' ∧ fcw f' = fcw f ∧
      (∀ f0, vcpu_get_fpu v = Ok f0 → fpu_rest f = fpu_rest f0 → fpu_rest f' = fpu_rest f0);
  vcpu_fpu_migrate v0 f v v' :
    vcpu_get_fpu v0 = Ok f → vcpu_set_fpu v f = (v', None) → vcpu_get_fpu v' = Ok f;
  vcpu_set_msrs_spec v es v' n :
    vcpu_set_msrs v es = (v', Ok n) → Forall (λ e, msr_index e ∈ syscall_msrs) es →
    (n ≤ length es)%nat ∧
    vcpu_get_regs v' = vcpu_get_regs v ∧ vcpu_get_fpu v' = vcpu_get_fpu v ∧
    (∀ s, vcpu_get_sregs v = Ok s →
       vcpu_get_sregs v' = Ok (sregs_with_efer s (foldl efer_write (efer s) (take n es)))) ∧
    (∀ i, i ≠ MSR_EFER → vcpu_msrs v' !! i = msr_store (vcpu_msrs v) (take n es) !! i);
  vcpu_run_mmio_uncovered v vm m v' m' a data :
    vcpu_run v vm m = (v', m', Ok (MmioRead a data)) ∨
    vcpu_run v vm m = (v', m', Ok (MmioWrite a data)) →
    Forall (λ s, ¬ slot_covers s a) (vm_slots vm);
  vcpu_run_regions v vm m v' m' r :
    vcpu_run v vm m = (v', m', r) → gm_regions m' = gm_regions m;
}.

(** ** Facts *)

Lemma msr_store_lookup m m' entries i :
  m !! i = m' !! i → msr_store m entries !! i = msr_store m' entries !! i.
Proof.
  revert m m'. induction entries as [|e l IH]; intros m m' Hm; simpl; [done|]. apply IH.
  destruct (decide (msr_index e = i)) as [<-|Hne]; [by rewrite !lookup_insert_eq|].
  by rewrite !lookup_insert_ne.
Qed.

Lemma msr_store_other m entries i :
  Forall (λ e, msr_index e ≠ i) entries → msr_store m entries !! i = m !! i.
Proof.
  intros Hall. revert m. induction Hall as [|e l He _ IH]; intros m; simpl; [done|].
  rewrite IH. by apply lookup_insert_ne.
Qed.
