(* ===== verification/Memory.v ===== *)
(** * Memory: the guest's physical memory layout of memory.rs

    [GuestMemoryRegions::new] chooses the regions, [setup_memory_region]
    registers them as KVM slots. *)

From S2P Require Import Prelude Errors Platform Kvm.

Definition MEMORY_SIZE : Z := 128 * 1024 * 1024.
Definition KVM_32BIT_GAP_SIZE : Z := Z.shiftl 768 21.
Definition KVM_32BIT_GAP_START : Z := 0x100000000.

Section memory.
Context `{MA : MemoryApi}.

Record GuestMemoryRegions : Type := { memory : GMem; low_mem_size : Z }.

(** The ranges [new] asks for, with the constant [MEMORY_SIZE] as a parameter
    (the source invites changing it). *)
Definition ranges_for (size : Z) : list (Z * Z) :=
  let low_mem := Z.min KVM_32BIT_GAP_START size in
  if bool_decide (KVM_32BIT_GAP_START < size) then
    let high_mem_size := size - KVM_32BIT_GAP_START in
    [(0, low_mem); (KVM_32BIT_GAP_START + KVM_32BIT_GAP_SIZE, high_mem_size)]
  else [(0, low_mem)].

Definition memory_new_sized (size : Z) : result GuestMemoryRegions :=
  match gm_from_ranges (ranges_for size) with
  | Ok m => Ok {| memory := m; low_mem_size := Z.min KVM_32BIT_GAP_START size |}
  | Err e => Err (MemoryError e)
  | Panic => Panic
  | OutOfFuel => OutOfFuel
  end.

Definition memory_new : result GuestMemoryRegions := memory_new_sized MEMORY_SIZE.

(** ** Stores the loaders make *)

(** [memory.write_slice(bs, GuestAddress(a)).map_err(err)?] *)
Definition write_mem (bs : list byte) (a : Z) (err : string → HypervisorError) : rust GMem unit :=
  λ m, let '(m', e) := gm_write_slice m bs a in
       (m', match e with None => Ok tt | Some e => Err (err e) end).

(** A program on guest memory that changes nothing outside [lo, hi). *)
Definition confined (lo hi : Z) (p : rust GMem unit) : Prop :=
  ∀ m m' r, p m = (m', r) →
    gm_regions m' = gm_regions m ∧ ∀ x, ¬ (lo ≤ x < hi) → gm_byte m' x = gm_byte m x.

(** A program that succeeds whenever [lo, hi) is RAM. *)
Definition total_on (lo hi : Z) (p : rust GMem unit) : Prop :=
  ∀ m, backed m lo (hi - lo) → ∃ m', p m = (m', Ok tt) ∧ gm_regions m' = gm_regions m.

Context `{KA : !KvmApi}.

(** The slot for region [i]. *)
Definition slot_for (m : GMem) (i : nat) (r : Z * Z) : kvm_userspace_memory_region :=
  {| slot := as_u32 (Z.of_nat i); slot_flags := 0; guest_phys_addr := r.1;
     memory_size := r.2; userspace_addr := gm_host_addr m i |}.

Definition register_slot (r : kvm_userspace_memory_region) : rust VmFd unit := λ v,
  let '(v', e) := vm_set_user_memory_region v r in
  (v', match e with None => Ok tt | Some e => Err (KvmError e) end).

Definition setup_memory_region (g : GuestMemoryRegions) : rust VmFd unit :=
  for_each (imap (slot_for (memory g)) (gm_regions (memory g))) register_slot.

(** ** Theorems *)

(** C40: for any memory size the chosen layout holds exactly that many bytes of
    RAM, below 4 GB first, and none of it in the PCI window. *)
Theorem memory_layout size (Hs : 0 < size) :
  let rs := ranges_for size in
  foldr (λ r n, r.2 + n) 0 rs = size ∧
  (∀ x, 0 ≤ x < size → x < KVM_32BIT_GAP_START → ∃ st ln, (st, ln) ∈ rs ∧ st ≤ x < st + ln) ∧
  (∀ st ln x, (st, ln) ∈ rs → st ≤ x < st + ln →
    0 ≤ x ∧ ¬ (KVM_32BIT_GAP_START ≤ x < KVM_32BIT_GAP_START + KVM_32BIT_GAP_SIZE)).
Proof.
  unfold ranges_for. change KVM_32BIT_GAP_SIZE with 1610612736.
  unfold KVM_32BIT_GAP_START. case_bool_decide; simpl; split_and!; try lia.
  - intros x Hx Hlow. exists 0, (Z.min 0x100000000 size). rewrite elem_of_cons. split; [by left|lia].
  - intros st ln x Hin Hx. rewrite !elem_of_cons, elem_of_nil in Hin.
    destruct Hin as [?|[?|[]]]; simplify_eq; lia.
  - intros x Hx Hlow. exists 0, (Z.min 0x100000000 size). rewrite elem_of_cons. split; [by left|lia].
  - intros st ln x Hin Hx. rewrite elem_of_cons, elem_of_nil in Hin.
    destruct Hin as [?|[]]; simplify_eq; lia.
Qed.

(** The default build has one region, [0, 128 MB). *)
Lemma memory_new_region `{ML : !MemoryLaws} g :
  memory_new = Ok g → gm_regions (memory g) = [(0, 0x8000000)] ∧ low_mem_size g = 0x8000000.
Proof.
  unfold memory_new, memory_new_sized.
  destruct (gm_from_ranges _) as [m| | |] eqn:Hm; try done.
  intros; simplify_eq; simpl. apply gm_from_ranges_regions in Hm. by rewrite Hm.
Qed.

Context `{KL : !KvmLaws}.

Lemma register_slots_spec m rs k v v' :
  Forall (λ s, 0 ≤ slot s < Z.of_nat k) (vm_slots v) →
  Z.of_nat k + Z.of_nat (length rs) < 2 ^ 32 →
  for_each (imap (λ i, slot_for m (k + i)) rs) register_slot v = (v', Ok tt) →
  vm_slots v' = vm_slots v ++ imap (λ i, slot_for m (k + i)) rs.
Proof.
  revert k v. induction rs as [|r rs IH]; intros k v Hs Hk; simpl.
  { prog_unfold. intros; simplify_eq. by rewrite app_nil_r. }
  unfold mbind, prog_bind. unfold register_slot at 1.
  destruct (vm_set_user_memory_region _ _) as [v1 [e|]] eqn:Hr; [done|].
  simpl in Hk. rewrite Nat.add_0_r in *.
  assert (Hid : slot (slot_for m k r) = Z.of_nat k)
    by (simpl; unfold as_u32; apply Z.mod_small; lia). set (s0 := slot_for m k r) in *.
  apply vm_set_region_slots in Hr.
  2: { eapply Forall_impl; [|exact Hs]. cbn beta. intros s Hsl. rewrite Hid. lia. }
  intros Hrest. unfold compose in *.
  erewrite (imap_ext _ (λ i, slot_for m (S k + i))) in Hrest |- *
    by (intros i x _; simpl; f_equal; lia).
  rewrite (IH (S k) v1); [by rewrite Hr, <- app_assoc| |lia|done].
  rewrite Hr. apply Forall_app. split.
  - eapply Forall_impl; [|exact Hs]. simpl. lia.
  - constructor; [rewrite Hid; lia|done].
Qed.

(** Slots registered on a fresh VM: one per region, in order. *)
Lemma setup_memory_slots g v v' :
  vm_slots v = [] → Z.of_nat (length (gm_regions (memory g))) < 2 ^ 32 →
  setup_memory_region g v = (v', Ok tt) →
  vm_slots v' = imap (slot_for (memory g)) (gm_regions (memory g)).
Proof.
  intros Hfresh Hn Hrun.
  pose proof (register_slots_spec (memory g) (gm_regions (memory g)) 0 v v') as Hr.
  simpl in Hr. rewrite Hfresh in Hr. apply Hr; [constructor|lia|done].
Qed.

Lemma slot_of_region m s :
  s ∈ imap (slot_for m) (gm_regions m) ↔
  ∃ i st ln, gm_regions m !! i = Some (st, ln) ∧ s = slot_for m i (st, ln).
Proof.
  rewrite list_elem_of_lookup. split.
  - intros [i Hi]. rewrite list_lookup_imap in Hi.
    destruct (_ !! i) as [[st ln]|] eqn:Hr; simplify_eq/=. by exists i, st, ln.
  - intros (i & st & ln & Hi & ->). exists i. by rewrite list_lookup_imap, Hi.
Qed.

(** Those slots cover exactly the RAM. *)
Lemma slots_cover_ram `{ML : !MemoryLaws} m x :
  (∃ s, s ∈ imap (slot_for m) (gm_regions m) ∧ slot_covers s x) ↔ is_Some (gm_byte m x).
Proof.
  rewrite gm_backed_iff. split.
  - intros (s & (i & st & ln & Hi & ->)%slot_of_region & Hx). by exists i, st, ln.
  - intros (i & st & ln & Hi & Hx). exists (slot_for m i (st, ln)). split; [|done].
    apply slot_of_region. by exists i, st, ln.
Qed.

(** C12: registering memory with a fresh VM gives the guest exactly its RAM: when
    it succeeds, a guest physical address is covered by a slot iff it is backed,
    and each region is mapped to the host address of its own mapping. *)
Theorem setup_memory_covers_ram `{ML : !MemoryLaws} g v v'
    (Hfresh : vm_slots v = []) (Hn : Z.of_nat (length (gm_regions (memory g))) < 2 ^ 32)
    (Hrun : setup_memory_region g v = (v', Ok tt)) :
  (∀ x, is_Some (gm_byte (memory g) x) ↔ ∃ s, s ∈ vm_slots v' ∧ slot_covers s x) ∧
  (∀ s, s ∈ vm_slots v' → ∃ i st ln, gm_regions (memory g) !! i = Some (st, ln) ∧
    guest_phys_addr s = st ∧ memory_size s = ln ∧ userspace_addr s = gm_host_addr (memory g) i).
Proof.
  rewrite (setup_memory_slots g v v' Hfresh Hn Hrun). split.
  - intros x. by rewrite slots_cover_ram.
  - intros s (i & st & ln & Hi & ->)%slot_of_region. by exists i, st, ln.
Qed.

End memory.

(** ** Lemmas on the loaders' stores *)

Section stores.
Context `{ML : MemoryLaws}.
Implicit Types (m : GMem).

Lemma write_mem_ok bs a err m m' :
  write_mem bs a err m = (m', Ok tt) →
  (∀ x, gm_byte m' x = overlay (gm_byte m) a bs x) ∧ gm_regions m' = gm_regions m.
Proof.
  unfold write_mem. destruct (gm_write_slice _ _ _) as [m1 [e|]] eqn:Hw; [done|].
  intros; simplify_eq. split; [by eapply gm_write_bytes|by eapply gm_write_regions].
Qed.

Lemma write_mem_confined bs a err lo hi :
  lo ≤ a → a + Z.of_nat (length bs) ≤ hi → confined lo hi (write_mem bs a err).
Proof.
  intros Hlo Hhi m m' r. unfold write_mem.
  destruct (gm_write_slice _ _ _) as [m1 e] eqn:Hw. intros; simplify_eq.
  split; [by eapply gm_write_regions|]. intros x Hx. eapply gm_write_frame; [done|lia].
Qed.

Lemma write_mem_total bs a err lo hi :
  lo ≤ a → (0 < length bs)%nat → a + Z.of_nat (length bs) ≤ hi →
  total_on lo hi (write_mem bs a err).
Proof.
  intros Hlo Hpos Hhi m Hb. destruct (gm_write_fits m bs a) as (m' & Hw & _ & Hr).
  - apply Hb. lia.
  - intros x Hx. apply Hb. lia.
  - exists m'. unfold write_mem. by rewrite Hw.
Qed.

Lemma confined_bind lo hi (p q : rust GMem unit) :
  confined lo hi p → confined lo hi q → confined lo hi (p ;; q).
Proof.
  intros Hp Hq m m' r. prog_unfold. destruct (p m) as [m1 r1] eqn:H1.
  destruct (Hp _ _ _ H1) as [Hr1 Hf1]. destruct r1; intros H2; [|simplify_eq; done..].
  destruct (Hq _ _ _ H2) as [Hr2 Hf2]. split; [congruence|].
  intros x Hx. by rewrite Hf2, Hf1.
Qed.

Lemma confined_for_each {A} lo hi (l : list A) f :
  (∀ x, x ∈ l → confined lo hi (f x)) → confined lo hi (for_each l f).
Proof.
  induction l as [|x l IH]; simpl; intros Hf.
  { intros m m' r. prog_unfold. by intros; simplify_eq. }
  apply confined_bind; [|apply IH; intros]; apply Hf; set_solver.
Qed.

Lemma total_on_bind lo hi (p q : rust GMem unit) :
  total_on lo hi p → total_on lo hi q → total_on lo hi (p ;; q).
Proof.
  intros Hp Hq m Hb. destruct (Hp m Hb) as (m1 & H1 & R1).
  destruct (Hq m1) as (m2 & H2 & R2); [by eapply backed_regions|].
  exists m2. prog_unfold. rewrite H1. split; [done|congruence].
Qed.

Lemma total_on_for_each {A} lo hi (l : list A) f :
  (∀ x, x ∈ l → total_on lo hi (f x)) → total_on lo hi (for_each l f).
Proof.
  induction l as [|x l IH]; simpl; intros Hf.
  { intros m _. by exists m. }
  apply total_on_bind; [|apply IH; intros]; apply Hf; set_solver.
Qed.

Lemma confined_weaken lo hi lo' hi' p :
  confined lo hi p → lo' ≤ lo → hi ≤ hi' → confined lo' hi' p.
Proof. intros Hp ?? m m' r Hrun. destruct (Hp _ _ _ Hrun) as [? Hf]. split; [done|]. intros; apply Hf; lia. Qed.

Lemma total_on_weaken lo hi lo' hi' p :
  total_on lo hi p → lo' ≤ lo → hi ≤ hi' → total_on lo' hi' p.
Proof. intros Hp ?? m Hb. apply Hp. intros x Hx. apply Hb. lia. Qed.

End stores.

#[export] Hint Resolve write_mem_confined write_mem_total confined_bind total_on_bind
  confined_for_each total_on_for_each : movm.
