(* ===== verification/Vcpu.v ===== *)
(** * Vcpu: virtual CPUs of vcpu.rs

    [init] brings a vCPU to flat 32-bit protected mode, [run] executes the guest
    until an exit and serves port I/O. *)

From S2P Require Import Prelude Errors Platform Host VirtioMmio Kvm.

(** COM1's data port *)
Definition COM1 : Z := 0x3F8.

(** ** Register images *)

Definition regs_for_init (r : kvm_regs) (entry_point boot_params : Z) : kvm_regs :=
  {| rax := rax r; rbx := rbx r; rcx := rcx r; rdx := rdx r;
     rsi := boot_params; rdi := rdi r; rsp := 0x80000; rbp := 0x80000;
     r8 := r8 r; r9 := r9 r; r10 := r10 r; r11 := r11 r;
     r12 := r12 r; r13 := r13 r; r14 := r14 r; r15 := r15 r;
     rip := entry_point; rflags := 0x2 |}.

Definition code_segment (old : kvm_segment) : kvm_segment :=
  {| sg_base := 0; sg_limit := 0xFFFFFFFF; sg_selector := 0x8; sg_type := 0xB; sg_present := 1;
     sg_dpl := 0; sg_db := 1; sg_s := 1; sg_l := 0; sg_g := 1; sg_avl := 0;
     sg_rest := sg_rest old |}.

(** [let mut data_seg = sregs.cs; data_seg.selector = ..; ..] *)
Definition data_segment (cs : kvm_segment) : kvm_segment :=
  {| sg_base := sg_base cs; sg_limit := 0xFFFFFFFF; sg_selector := 0x10; sg_type := 3;
     sg_present := sg_present cs; sg_dpl := sg_dpl cs; sg_db := sg_db cs; sg_s := sg_s cs;
     sg_l := sg_l cs; sg_g := sg_g cs; sg_avl := sg_avl cs; sg_rest := sg_rest cs |}.

Definition task_segment (old : kvm_segment) : kvm_segment :=
  {| sg_base := 0; sg_limit := 0xFFFF; sg_selector := 0x18; sg_type := 11; sg_present := 1;
     sg_dpl := 0; sg_db := 0; sg_s := 0; sg_l := 0; sg_g := 0; sg_avl := 0;
     sg_rest := sg_rest old |}.

Definition dtable (base limit : Z) (old : kvm_dtable) : kvm_dtable :=
  {| dt_base := base; dt_limit := limit; dt_rest := dt_rest old |}.

Definition sregs_for_init (s : kvm_sregs) : kvm_sregs :=
  let cs' := code_segment (cs s) in
  let data_seg := data_segment cs' in
  {| cs := cs'; ds := data_seg; es := data_seg; fs := data_seg; gs := data_seg; ss := data_seg;
     tr := task_segment (tr s);
     gdt := dtable 0x1000 0xFFFF (gdt s); idt := dtable 0x2000 0xFFFF (idt s);
     cr0 := 0x11; cr3 := 0x0; cr4 := 0x0; efer := efer s; sr_rest := sr_rest s |}.

Definition fpu_for_init (f : kvm_fpu) : kvm_fpu :=
  {| fcw := 0x37f; mxcsr := 0x1f80; fpu_rest := fpu_rest f |}.

Definition msr (index data : Z) : kvm_msr_entry :=
  {| msr_index := index; msr_reserved := 0; msr_data := data |}.

Definition msr_entries : list kvm_msr_entry :=
  [ msr 0xc0000080 0x1;
    msr 0xc0000081 0x0013000800000000;
    msr 0xc0000082 0x1000;
    msr 0xc0000083 0x0;
    msr 0xc0000084 0x0 ].

Section vcpu.
Context `{QA : QueueApi} `{KA : !KvmApi}.

Record Vcpu : Type := { fd : VcpuFd; vcpu_id : Z }.

Definition vcpu_new (fd : VcpuFd) (id : Z) : result Vcpu := Ok {| fd := fd; vcpu_id := id |}.

(** [fd.get_x().map_err(HypervisorError::KvmError)?] *)
Definition kvm_get {A} (get : VcpuFd → res string A) : rust VcpuFd A := λ v,
  (v, match get v with
      | Ok a => Ok a
      | Err e => Err (KvmError e)
      | Panic => Panic
      | OutOfFuel => OutOfFuel
      end).

(** [fd.set_x(&a).map_err(HypervisorError::KvmError)?] *)
Definition kvm_set {A} (set : VcpuFd → A → VcpuFd * option string) (a : A) : rust VcpuFd unit :=
  λ v, let '(v', e) := set v a in
       (v', match e with None => Ok tt | Some e => Err (KvmError e) end).

(** The number of MSRs the kernel accepted is dropped. *)
Definition setup_msrs : rust VcpuFd unit := λ v,
  let '(v', r) := vcpu_set_msrs v msr_entries in
  (v', match r with
       | Ok _ => Ok tt
       | Err e => Err (KvmError e)
       | Panic => Panic
       | OutOfFuel => OutOfFuel
       end).

Definition vcpu_init (entry_point boot_params : Z) : rust VcpuFd unit :=
  regs ← kvm_get vcpu_get_regs;
  kvm_set vcpu_set_regs (regs_for_init regs entry_point boot_params);;
  sregs ← kvm_get vcpu_get_sregs;
  kvm_set vcpu_set_sregs (sregs_for_init sregs);;
  fpu ← kvm_get vcpu_get_fpu;
  kvm_set vcpu_set_fpu (fpu_for_init fpu);;
  setup_msrs.

(** [if let Some(first_byte) = data.first_mut() { *first_byte = 0 }] *)
Definition zero_first (data : list byte) : list byte :=
  match data with [] => [] | _ :: rest => Byte.x00 :: rest end.

(** [stdout.write_all(data).unwrap(); stdout.flush().unwrap()] *)
Definition print_or_panic (data : list byte) : rust Stdout unit := λ o,
  match stdout_write_all data o with
  | (o1, Ok _) => match stdout_flush o1 with (o2, Ok _) => (o2, Ok tt) | (o2, _) => (o2, Panic) end
  | (o1, _) => (o1, Panic)
  end.

Definition vcpu_run_once (vm : VmFd) : rust (VcpuFd * World) VcpuExit := λ '(v, w),
  let '(v1, m1, r) := vcpu_run v vm (w_mem w) in
  let w1 := with_mem w m1 in
  match r with
  | Ok (IoIn addr data) =>
      let data' := zero_first data in
      ((vcpu_set_data v1 data', w1), Ok (IoIn addr data'))
  | Ok (IoOut addr data) =>
      let '(out, p) := if addr =? COM1 then print_or_panic data (w_stdout w1)
                       else (w_stdout w1, Ok tt) in
      ((v1, with_stdout w1 out),
       match p with
       | Ok _ => Ok (IoOut addr data)
       | Err e => Err e
       | Panic => Panic
       | OutOfFuel => OutOfFuel
       end)
  | Ok exit_reason =>
      ((v1, w1), match vcpu_get_regs v1 with
                 | Ok _ => Ok exit_reason
                 | Err e => Err (KvmError e)
                 | Panic => Panic
                 | OutOfFuel => OutOfFuel
                 end)
  | Err e => ((v1, w1), Err (KvmError e))
  | Panic => ((v1, w1), Panic)
  | OutOfFuel => ((v1, w1), OutOfFuel)
  end.

(** ** Specification: flat 32-bit protected mode *)

(** A present ring-0 segment over all 4 GB with 32-bit defaults. *)
Definition flat_segment (sg : kvm_segment) : Prop :=
  sg_base sg = 0 ∧ sg_limit sg = 0xFFFFFFFF ∧ sg_present sg = 1 ∧ sg_dpl sg = 0 ∧
  sg_db sg = 1 ∧ sg_l sg = 0 ∧ sg_g sg = 1 ∧ sg_s sg = 1.

Definition executable (sg : kvm_segment) : Prop := Z.testbit (sg_type sg) 3 = true.
Definition writable_data (sg : kvm_segment) : Prop :=
  Z.testbit (sg_type sg) 3 = false ∧ Z.testbit (sg_type sg) 1 = true.

(** CR0.PE on; paging (CR0.PG) and PAE (CR4 bit 5) off. *)
Definition protected_mode (s : kvm_sregs) : Prop :=
  Z.testbit (cr0 s) 0 = true ∧ Z.testbit (cr0 s) 31 = false ∧ Z.testbit (cr4 s) 5 = false ∧
  flat_segment (cs s) ∧ executable (cs s) ∧
  Forall (λ sg, flat_segment sg ∧ writable_data sg) [ds s; es s; fs s; gs s; ss s].

Context `{KL : !KvmLaws}.

Lemma kvm_get_ok {A} (get : VcpuFd → res string A) v v' a :
  kvm_get get v = (v', Ok a) → v' = v ∧ get v = Ok a.
Proof. unfold kvm_get. destruct (get v); intros; by simplify_eq. Qed.

Lemma kvm_set_ok {A} set (a : A) v v' : kvm_set set a v = (v', Ok tt) → set v a = (v', None).
Proof. unfold kvm_set. destruct (set v a) as [v1 [e|]]; intros; by simplify_eq. Qed.

(** The fields of the segments of [init], in the order of [segment_fields]: base,
    limit, selector, type, present, dpl, db, s, l, g, avl. *)
Definition init_code : list Z := [0; 0xFFFFFFFF; 0x8; 0xB; 1; 0; 1; 1; 0; 1; 0].
Definition init_data : list Z := [0; 0xFFFFFFFF; 0x10; 3; 1; 0; 1; 1; 0; 1; 0].
Definition init_task : list Z := [0; 0xFFFF; 0x18; 11; 1; 0; 0; 0; 0; 0; 0].

(** The segments after loading the image of [init] into a vCPU whose code segment
    was usable. *)
Lemma sregs_for_init_segments s s' :
  sregs_loaded (sregs_for_init s) s' → usable (cs s) →
  usable (cs s') ∧ segment_fields (cs s') = init_code ∧
  Forall (λ sg, segment_fields sg = init_data) [ds s'; es s'; fs s'; gs s'; ss s'].
Proof.
  intros (Hseg & _) Hu. unfold segments_of in Hseg. decompose_Forall_hyps.
  assert (Hcs : loadable (code_segment (cs s))) by (repeat split; done).
  assert (Hds : loadable (data_segment (code_segment (cs s)))) by (repeat split; done).
  repeat match goal with
  | H : loaded (data_segment _) _ |- _ => specialize (H Hds) as [_ ?]
  | H : loaded (code_segment _) _ |- _ => specialize (H Hcs) as [? ?]
  end.
  split_and!; [done..|]. repeat (apply Forall_cons_2; [done|]). done.
Qed.

Lemma sregs_for_init_task s s' :
  sregs_loaded (sregs_for_init s) s' → usable (tr s) → segment_fields (tr s') = init_task.
Proof.
  intros (Hseg & _) Hu. unfold segments_of in Hseg. decompose_Forall_hyps.
  assert (Htr : loadable (task_segment (tr s))) by (repeat split; done).
  match goal with H : loaded (task_segment _) _ |- _ => by specialize (H Htr) as [_ ?] end.
Qed.

Lemma init_code_flat sg : segment_fields sg = init_code → flat_segment sg ∧ executable sg.
Proof.
  unfold segment_fields, init_code, executable. intros Hf. simplify_eq.
  split; [by split_and!|]. by match goal with H : sg_type _ = _ |- _ => rewrite H end.
Qed.

Lemma init_data_flat sg : segment_fields sg = init_data → flat_segment sg ∧ writable_data sg.
Proof.
  unfold segment_fields, init_data, writable_data. intros Hf. simplify_eq.
  split; [by split_and!|]. by match goal with H : sg_type _ = _ |- _ => rewrite H end.
Qed.

Lemma sregs_for_init_protected s s' :
  sregs_loaded (sregs_for_init s) s' → usable (cs s) → protected_mode s' ∧ usable (cs s').
Proof.
  intros HL Hu. destruct (sregs_for_init_segments s s' HL Hu) as (Hus & [Hf Hx]%init_code_flat & Hd).
  destruct HL as (_ & _ & _ & _ & _ & H0 & _ & H4 & _).
  split; [|done]. unfold protected_mode. rewrite H0, H4. split_and!; try done.
  eapply Forall_impl; [|exact Hd]. intros sg. apply init_data_flat.
Qed.

(** A prefix of the entries is one of six. *)
Lemma take_msr_entries n :
  ∃ k, take n msr_entries = take k msr_entries ∧ (k ≤ 5)%nat ∧ (k = 0 ↔ n = 0)%nat ∧
       ∀ A (l : list A), length l = 4%nat → take (n - 1) l = take (k - 1) l.
Proof.
  destruct (decide (n ≤ 5)%nat) as [Hn|Hn]; [by exists n|].
  exists 5%nat. split_and!; [by rewrite !take_ge by (simpl; lia)|lia|lia|].
  intros A l Hl. by rewrite !take_ge by lia.
Qed.

(** The MSRs after the kernel accepted [n] of the entries. *)
Lemma efer_after_init e n :
  let e' := foldl efer_write e (take (S n) msr_entries) in
  Z.testbit e' 0 = true ∧ Z.testbit e' 8 = false.
Proof.
  assert (He : foldl efer_write e (take (S n) msr_entries) =
               Z.lor (Z.ldiff 1 EFER_LMA) (Z.land e EFER_LMA)).
  { destruct (take_msr_entries (S n)) as (k & -> & Hk & Hz & _).
    do 6 (destruct k as [|k]; [first [lia|reflexivity]|]). lia. }
  cbv zeta. rewrite He, !Z.lor_spec, !Z.land_spec.
  change (Z.testbit EFER_LMA 8) with false. split; [reflexivity|]. rewrite andb_false_r. reflexivity.
Qed.

Definition syscall_values : list (Z * Z) :=
  [(0xc0000081, 0x0013000800000000); (0xc0000082, 0x1000); (0xc0000083, 0); (0xc0000084, 0)].

Lemma msr_entries_stored m n i d :
  (i, d) ∈ take (n - 1) syscall_values →
  ¬ sregs_msr i ∧ msr_store m (take n msr_entries) !! i = Some d.
Proof.
  assert (Hplain : ∀ j, 0xc0000081 ≤ j ≤ 0xc0000084 → ¬ sregs_msr j).
  { intros j Hj [Hin|?]; [|lia].
    unfold MSR_EFER, MSR_FS_BASE, MSR_GS_BASE, MSR_APIC_BASE, MSR_TSC_DEADLINE in Hin.
    rewrite !elem_of_cons, elem_of_nil in Hin. lia. }
  destruct (take_msr_entries n) as (k & -> & Hk & _ & Hl). rewrite Hl by done. clear Hl.
  destruct k as [|[|[|[|[|[|k]]]]]]; [..|lia]; simpl; rewrite ?elem_of_cons, ?elem_of_nil; intros Hi.
  all: destruct_or? Hi; simplify_eq; try done.
  all: split; [apply Hplain; lia|by rewrite ?lookup_insert_ne, lookup_insert_eq by done].
Qed.

Lemma msr_entries_others m n i :
  ¬ (0xc0000080 ≤ i ≤ 0xc0000084) → msr_store m (take n msr_entries) !! i = m !! i.
Proof.
  intros Hi. apply msr_store_other, Forall_take. unfold msr_entries.
  repeat (constructor; [simpl; lia|]). constructor.
Qed.

(** What each ioctl of [init] did. *)
Lemma vcpu_init_inv entry bp v v' :
  vcpu_init entry bp v = (v', Ok tt) →
  ∃ r0 s0 s1 f0 f1 n,
    vcpu_get_regs v = Ok r0 ∧ vcpu_get_sregs v = Ok s0 ∧ vcpu_get_fpu v = Ok f0 ∧
    vcpu_get_regs v' = Ok (regs_for_init r0 entry bp) ∧
    sregs_loaded (sregs_for_init s0) s1 ∧ sr_rest s1 = sr_rest s0 ∧
    vcpu_get_sregs v' = Ok (sregs_with_efer s1 (foldl efer_write (efer s1) (take n msr_entries))) ∧
    vcpu_get_fpu v' = Ok f1 ∧ fcw f1 = fcw (fpu_for_init f0) ∧ fpu_rest f1 = fpu_rest f0 ∧
    (∀ i, ¬ sregs_msr i → vcpu_msrs v' !! i = msr_store (vcpu_msrs v) (take n msr_entries) !! i).
Proof.
  intros Hrun. apply bind_ok_inv in Hrun as (v0 & r0 & [-> Hregs]%kvm_get_ok & Hrun).
  apply bind_ok_inv in Hrun as (v1 & [] & (R1 & S1 & F1 & M1)%kvm_set_ok%vcpu_set_regs_spec & Hrun).
  apply bind_ok_inv in Hrun as (v2 & s0 & [-> Hsregs]%kvm_get_ok & Hrun).
  apply bind_ok_inv in Hrun as (v3 & [] & (R3 & F3 & M3 & s1 & S3 & L3 & K3)%kvm_set_ok%vcpu_set_sregs_spec & Hrun).
  apply bind_ok_inv in Hrun as (v4 & f0 & [-> Hfpu]%kvm_get_ok & Hrun).
  apply bind_ok_inv in Hrun as (v5 & [] & (R5 & S5 & M5 & f1 & F5 & W5 & K5)%kvm_set_ok%vcpu_set_fpu_spec & Hrun).
  unfold setup_msrs in Hrun. destruct (vcpu_set_msrs v5 msr_entries) as [v6 [n| | |]] eqn:H6; try done.
  simplify_eq. apply vcpu_set_msrs_spec in H6 as (_ & R6 & F6 & S6 & M6).
  2: { unfold msr_entries. repeat (constructor; [set_solver|]). constructor. }
  change (fixed_rflags _) with (regs_for_init r0 entry bp) in R1.
  exists r0, s0, s1, f0, f1, n. split_and!; try congruence; try done.
  - by apply K3.
  - apply S6. congruence.
  - by apply K5.
  - intros i Hi. rewrite M6 by (intros ->; apply Hi; left; set_solver).
    apply msr_store_lookup. rewrite M5, M3 by done. by rewrite M1.
Qed.


(** C35: serving a port read clears the first byte of the kernel's buffer and
    leaves the others; serving a write to COM1 puts exactly the written bytes on
    stdout, and panics when stdout is closed; a write to another port has no
    effect. *)
Theorem vcpu_run_port_io vm v w v1 m1 (r : VcpuExit) addr data
    (Hrun : vcpu_run v vm (w_mem w) = (v1, m1, Ok r)) :
  (∀ b rest, r = IoIn addr (b :: rest) →
    vcpu_run_once vm (v, w) =
    ((vcpu_set_data v1 (Byte.x00 :: rest), with_mem w m1), Ok (IoIn addr (Byte.x00 :: rest)))) ∧
  (r = IoOut addr data →
    vcpu_run_once vm (v, w) =
    if decide (addr = 0x3F8 ∧ so_broken (w_stdout w) = true)
    then ((v1, with_mem w m1), Panic)
    else ((v1, {| w_mem := m1;
                  w_stdout := if decide (addr = 0x3F8)
                    then {| so_bytes := so_bytes (w_stdout w) ++ data; so_broken := false |}
                    else w_stdout w |}), Ok (IoOut addr data))).
Proof.
  unfold vcpu_run_once. rewrite Hrun. split; [by intros b rest ->|intros ->].
  destruct (Z.eqb_spec addr COM1) as [->|Hne].
  - assert (Hp : print_or_panic data (w_stdout w) =
      if so_broken (w_stdout w) then (w_stdout w, Panic)
      else ({| so_bytes := so_bytes (w_stdout w) ++ data; so_broken := false |}, Ok tt)).
    { unfold print_or_panic, stdout_write_all, stdout_flush. by destruct (so_broken _). }
    change (w_stdout (with_mem w m1)) with (w_stdout w). rewrite Hp.
    destruct (so_broken (w_stdout w)).
    + rewrite decide_True by done. by destruct w.
    + rewrite decide_False by (intros [? ?]; done). by rewrite decide_True.
  - rewrite !decide_False by (try intros [? ?]; done). by destruct w.
Qed.

End vcpu.
