(* ===== verification/KernelLoader.v ===== *)
(** * KernelLoader: the ELF loader of kernel_loader.rs

    [load_kernel] copies the kernel's PT_LOAD segments into guest memory, builds
    page tables that identity-map 4 GB at 0x9000, and writes the command line
    (0x10000) and the boot parameters (0x7000).  goblin's parser is a parameter
    ([ElfApi]).  The specification of the page tables is the x86-64 four-level
    walk ([walk]). *)

From S2P Require Import Prelude Errors Platform Host Kvm Memory.

(** ** goblin: ELF files *)

Record program_header : Type := {
  p_type : Z; p_offset : Z; p_paddr : Z; p_filesz : Z; p_memsz : Z;
}.

Record Elf : Type := { elf_entry : Z; program_headers : list program_header }.

(** [Elf::parse]; the error's text is dropped by the loader. *)
Class ElfApi := elf_parse : list byte → option Elf.

(** The fields of a parsed header are u64. *)
Definition header_ok (ph : program_header) : Prop :=
  u64 (p_offset ph) ∧ u64 (p_paddr ph) ∧ u64 (p_filesz ph) ∧ u64 (p_memsz ph).

Class ElfLaws `{ElfApi} : Prop := {
  elf_parse_range bs e : elf_parse bs = Some e → Forall header_ok (program_headers e);
}.

Definition PT_LOAD : Z := 1.

(** Whether [info!] formats its arguments: the log level chosen in main.rs. *)
Class LogLevel := info_enabled : bool.

(** ** The loader *)

Record KernelLoader : Type := { entry_point : Z; cmdline : string }.

Definition kernel_loader_new : KernelLoader := {| entry_point := 0; cmdline := "" |}.

Definition get_entry_point (k : KernelLoader) : Z := entry_point k.
Definition get_cmdline (k : KernelLoader) : string := cmdline k.

(** [&buffer[start..end]] *)
Definition slice {S E} (buffer : list byte) (start end_ : Z) : prog S E (list byte) :=
  if bool_decide (start ≤ end_ ≤ Z.of_nat (length buffer))
  then mret (take (Z.to_nat (end_ - start)) (drop (Z.to_nat start) buffer))
  else ppanic.

Section loader.
Context `{MA : MemoryApi} {HF : HostFiles} {EL : ElfApi} {BP : BuildProfile} {LL : LogLevel}.

(** The body of the loop over program headers. *)
Definition load_segment (buffer : list byte) (phdr : program_header) : rust GMem unit :=
  if p_type phdr =? PT_LOAD then
    let mem_start := p_paddr phdr in
    let file_start := p_offset phdr in
    file_end ← plift (add_u64 (p_offset phdr) (p_filesz phdr));
    if bool_decide (Z.of_nat (length buffer) < file_end) then
      perr (MemoryError "Invalid ELF segment: extends past end of file")
    else
      bytes ← slice buffer file_start file_end;
      write_mem bytes mem_start (λ e, MemoryError
        ("Failed to write kernel segment at 0x" +:+ fmt_hex mem_start +:+ ": " +:+ e));;
      if info_enabled then plift (add_u64 mem_start (p_memsz phdr));; mret tt else mret tt
  else mret tt.

Definition page_table_base : Z := 0x9000.
Definition pml4_addr : Z := page_table_base.
Definition pdpte_addr : Z := page_table_base + 0x1000.
Definition pde_addr : Z := page_table_base + 0x2000.

(** An eight-byte page-table entry. *)
Definition write_entry (addr entry : Z) (msg : string) : rust GMem unit :=
  write_mem (to_le_bytes 8 entry) addr (λ _, MemoryError msg).

Definition pdpte_entry (i : Z) : Z := Z.lor (pde_addr + i * 0x1000) 0x3.
Definition pde_entry (i : Z) : Z := Z.lor (i * 0x200000) 0x83.

Definition write_page_tables : rust GMem unit :=
  write_mem (zeros (Z.to_nat 0x6000)) pml4_addr
    (λ _, MemoryError "Failed to zero page tables");;
  write_entry pml4_addr (Z.lor pdpte_addr 0x3) "PML4 write failed";;
  for_each (seqZ 0 4) (λ i, write_entry (pdpte_addr + i * 8) (pdpte_entry i) "PDPTE write failed");;
  for_each (seqZ 0 2048) (λ i, write_entry (pde_addr + i * 8) (pde_entry i) "PDE write failed").

Definition cmdline_addr : Z := 0x10000.

Definition write_cmdline (cmdline : string) : rust GMem unit :=
  write_mem (String.list_byte_of_string cmdline ++ [Byte.x00]) cmdline_addr
    (λ _, MemoryError "Failed to write cmdline").

Definition store_at (off : Z) (src dst : list byte) : list byte := splice (Z.to_nat off) src dst.

Definition boot_params : list byte :=
  let p := zeros 4096 in
  let p := store_at 0x210 [Byte.xff] p in
  let p := store_at 0x228 (to_le_bytes 4 (as_u32 cmdline_addr)) p in
  let p := store_at 0x1e8 [Byte.x01] p in
  let p := store_at 0x2d0 (to_le_bytes 8 0) p in
  let p := store_at 0x2d8 (to_le_bytes 8 0x8000000) p in
  store_at 0x2e0 (to_le_bytes 4 1) p.

Definition boot_params_addr : Z := 0x7000.

Definition write_boot_params : rust GMem unit :=
  write_mem boot_params boot_params_addr (λ _, MemoryError "Failed to write boot params").

(** [memory.read_slice(&mut first_bytes, entry).unwrap()], for the log *)
Definition read_first_bytes (entry : Z) : rust GMem unit := λ m,
  (m, match (gm_read_slice m (zeros 16) entry).2 with None => Ok tt | Some _ => Panic end).

Definition on_mem {A} (p : rust GMem A) : rust (KernelLoader * GMem) A :=
  zoom snd (λ m s, (s.1, m)) p.

Definition load_kernel (kernel_path cmdline : string) : rust (KernelLoader * GMem) unit :=
  buffer ← read_file kernel_path;
  elf ← plift (ok_or (elf_parse buffer) (MemoryError "Invalid ELF format"));
  on_mem (for_each (program_headers elf) (load_segment buffer));;
  (λ s, (({| entry_point := elf_entry elf; cmdline := cmdline |}, s.2), Ok tt));;
  on_mem write_page_tables;;
  on_mem (write_cmdline cmdline);;
  on_mem write_boot_params;;
  on_mem (read_first_bytes (elf_entry elf)).

End loader.

#[global] Arguments boot_params : simpl never.

(** ** Specification: x86-64 four-level paging *)

Definition table_entry (f : mem_view) (table index : Z) : option Z :=
  e ← view_le f 8 (table + 8 * index);
  if Z.testbit e 0 then Some e else None.

(** The physical address of a virtual address in the tables rooted at [cr3];
    bit 7 of a level-3 or level-2 entry makes it a 1 GB or a 2 MB page. *)
Definition walk (f : mem_view) (cr3 va : Z) : option Z :=
  let frame e := Z.land e 0xffffffffff000 in
  let index k := Z.land (Z.shiftr va k) 0x1ff in
  e4 ← table_entry f cr3 (index 39);
  e3 ← table_entry f (frame e4) (index 30);
  if Z.testbit e3 7 then Some (Z.land e3 0xfffffc0000000 + Z.land va 0x3fffffff) else
  e2 ← table_entry f (frame e3) (index 21);
  if Z.testbit e2 7 then Some (Z.land e2 0xfffffffe00000 + Z.land va 0x1fffff) else
  e1 ← table_entry f (frame e2) (index 12);
  Some (frame e1 + Z.land va 0xfff).

(** What a PT_LOAD header asks to be in memory. *)
Definition segment_bytes (buffer : list byte) (ph : program_header) : list byte :=
  take (Z.to_nat (p_filesz ph)) (drop (Z.to_nat (p_offset ph)) buffer).

Definition segments (elf : Elf) : list program_header :=
  filter (λ ph, p_type ph = PT_LOAD) (program_headers elf).

(** Segments in file order, later ones over earlier ones. *)
Definition segments_image (buffer : list byte) (phs : list program_header) (f : mem_view) : mem_view :=
  foldl (λ f ph, overlay f (p_paddr ph) (segment_bytes buffer ph)) f phs.

(** ** Lemmas *)

Section loader_facts.
Context `{ML : MemoryLaws} {HF : HostFiles} `{EL : ElfLaws} {BP : BuildProfile} {LL : LogLevel}.
Implicit Types (m : GMem).

(** The [k]-th and later entries of a table, written in order. *)
Lemma write_entries_spec base (entry : Z → Z) msg k n m m' :
  (∀ i, k ≤ i < k + Z.of_nat n → 0 ≤ entry i < 2 ^ 64) →
  for_each (seqZ k (Z.of_nat n)) (λ i, write_entry (base + i * 8) (entry i) msg) m = (m', Ok tt) →
  (∀ i, k ≤ i < k + Z.of_nat n → view_le (gm_byte m') 8 (base + 8 * i) = Some (entry i)) ∧
  (∀ x, ¬ (base + 8 * k ≤ x < base + 8 * (k + Z.of_nat n)) → gm_byte m' x = gm_byte m x).
Proof.
  revert k m. induction n as [|n IH]; intros k m Hent Hrun.
  { simpl in Hrun. prog_unfold. simplify_eq. split; [lia|done]. }
  rewrite seqZ_cons in Hrun by lia. simpl in Hrun.
  replace (Z.pred (Z.of_nat (S n))) with (Z.of_nat n) in Hrun by lia.
  apply bind_ok_inv in Hrun as (m1 & [] & H1 & H2).
  apply write_mem_ok in H1 as [H1 _]. apply IH in H2 as [H2 H3]; [|intros; apply Hent; lia].
  split.
  - intros i Hi. destruct (decide (i = k)) as [->|Hne]; [|apply H2; lia].
    rewrite <- (view_le_overlay_same (gm_byte m) (base + 8 * k) 8 (entry k)) by (apply Hent; lia).
    unfold view_le. f_equal. apply view_bytes_ext. intros x Hx. rewrite H3 by lia.
    rewrite H1. f_equal. lia.
  - intros x Hx. rewrite H3, H1 by lia. apply overlay_out. rewrite length_to_le_bytes. lia.
Qed.

Lemma write_entries_confined base entry msg k n :
  confined (base + 8 * k) (base + 8 * (k + Z.of_nat n))
    (for_each (seqZ k (Z.of_nat n)) (λ i, write_entry (base + i * 8) (entry i) msg)).
Proof.
  apply confined_for_each. intros i Hi%elem_of_seqZ. apply write_mem_confined;
    rewrite ?length_to_le_bytes; lia.
Qed.

Lemma pdpte_entry_range i : 0 ≤ i < 4 → pdpte_entry i = 0xb003 + i * 0x1000.
Proof. intros. assert (i = 0 ∨ i = 1 ∨ i = 2 ∨ i = 3) as [->|[->|[->| ->]]] by lia; done. Qed.

Lemma pde_entry_sum i : 0 ≤ i → pde_entry i = i * 0x200000 + 0x83.
Proof.
  intros. unfold pde_entry. apply bitblast.Z.or_to_plus.
  change 0x200000 with (2 ^ 21). rewrite <- Z.shiftl_mul_pow2 by lia.
  apply Z.bits_inj_iff'. intros j Hj. rewrite Z.land_spec, Z.bits_0.
  destruct (decide (j < 21)); [by rewrite Z.shiftl_spec_low by lia|].
  change 0x83 with (0x83 mod 2 ^ 21). rewrite Z.mod_pow2_bits_high by lia. apply andb_false_r.
Qed.

Lemma view_le_zeros f a n b k :
  a ≤ b → b + Z.of_nat k ≤ a + Z.of_nat n →
  view_le (overlay f a (zeros n)) k b = Some 0.
Proof.
  intros Ha Hb. unfold view_le.
  replace b with (a + Z.of_nat (Z.to_nat (b - a))) by lia.
  rewrite view_bytes_overlay_sub by (rewrite length_zeros; lia). simpl. unfold zeros.
  rewrite drop_replicate, take_replicate, Nat.min_l by lia.
  f_equal. clear. induction k as [|k IH]; [done|].
  change (replicate (S k) _) with ([Byte.x00] ++ replicate k Byte.x00).
  by rewrite from_le_bytes_app, IH.
Qed.

(** The tables entry by entry. *)
Definition tables_at (f : mem_view) : Prop :=
  (∀ i, 0 ≤ i < 512 → view_le f 8 (0x9000 + 8 * i) = Some (if i =? 0 then 0xa003 else 0)) ∧
  (∀ i, 0 ≤ i < 512 →
    view_le f 8 (0xa000 + 8 * i) = Some (if i <? 4 then 0xb003 + i * 0x1000 else 0)) ∧
  (∀ i, 0 ≤ i < 2048 → view_le f 8 (0xb000 + 8 * i) = Some (i * 0x200000 + 0x83)).

Lemma tables_at_ext f g :
  (∀ x, 0x9000 ≤ x < 0xf000 → f x = g x) → tables_at g → tables_at f.
Proof.
  intros Hfg (H4 & H3 & H2).
  assert (Hv : ∀ a, 0x9000 ≤ a → a + 8 ≤ 0xf000 → view_le f 8 a = view_le g 8 a)
    by (intros; unfold view_le; f_equal; apply view_bytes_ext; intros; apply Hfg; lia).
  split_and!; intros i Hi; rewrite Hv by lia; auto.
Qed.

Lemma write_page_tables_spec m m' :
  write_page_tables m = (m', Ok tt) → tables_at (gm_byte m').
Proof.
  unfold write_page_tables. intros Hrun.
  apply bind_ok_inv in Hrun as (m1 & [] & Hz & Hrun).
  apply bind_ok_inv in Hrun as (m2 & [] & H4 & Hrun).
  apply bind_ok_inv in Hrun as (m3 & [] & H3 & H2).
  apply write_mem_ok in Hz as [Hz _]. apply write_mem_ok in H4 as [H4 _].
  apply (write_entries_spec pdpte_addr pdpte_entry _ 0 4) in H3 as [H3 F3];
    [|intros i Hi; rewrite pdpte_entry_range by lia; lia].
  apply (write_entries_spec pde_addr pde_entry _ 0 2048) in H2 as [H2 F2];
    [|intros i Hi; rewrite pde_entry_sum by lia; lia].
  change pml4_addr with 0x9000 in *. change pdpte_addr with 0xa000 in *.
  change pde_addr with 0xb000 in *. change (Z.lor 0xa000 0x3) with 0xa003 in *.
  assert (Hzero : ∀ i, 1 ≤ i < 1024 → ¬ (512 ≤ i < 516) →
    view_le (gm_byte m') 8 (0x9000 + 8 * i) = Some 0).
  { intros i Hi Hne. rewrite <- (view_le_zeros (gm_byte m) 0x9000 (Z.to_nat 0x6000) (0x9000 + 8 * i) 8)
      by lia. unfold view_le. f_equal. apply view_bytes_ext. intros x Hx.
    rewrite F2, F3, H4 by lia. rewrite overlay_out by (rewrite length_to_le_bytes; lia). apply Hz. }
  split_and!; intros i Hi.
  - destruct (Z.eqb_spec i 0) as [->|Hne]; [|apply Hzero; lia].
    rewrite <- (view_le_overlay_same (gm_byte m1) 0x9000 8 0xa003) by done.
    unfold view_le. f_equal. apply view_bytes_ext. intros x Hx. rewrite F2, F3 by lia. apply H4.
  - destruct (Z.ltb_spec i 4).
    + rewrite <- pdpte_entry_range, <- H3 by lia.
      unfold view_le. f_equal. apply view_bytes_ext. intros x Hx. apply F2. lia.
    + replace (0xa000 + 8 * i) with (0x9000 + 8 * (i + 512)) by lia. apply Hzero; lia.
  - rewrite H2 by lia. f_equal. apply pde_entry_sum. lia.
Qed.

Lemma write_page_tables_confined : confined 0x9000 0xf000 write_page_tables.
Proof.
  unfold write_page_tables. apply confined_bind; [|apply confined_bind; [|apply confined_bind]].
  - apply write_mem_confined; rewrite ?length_zeros; unfold pml4_addr, page_table_base; lia.
  - apply write_mem_confined; [done|by rewrite length_to_le_bytes].
  - eapply confined_weaken; [apply (write_entries_confined _ _ _ 0 4)|done|done].
  - eapply confined_weaken; [apply (write_entries_confined _ _ _ 0 2048)|done|done].
Qed.

Lemma write_page_tables_total : total_on 0x9000 0xf000 write_page_tables.
Proof.
  unfold write_page_tables. apply total_on_bind; [|apply total_on_bind; [|apply total_on_bind]].
  1,2: apply write_mem_total; rewrite ?length_zeros, ?length_to_le_bytes;
    unfold pml4_addr, page_table_base; lia.
  all: apply total_on_for_each; intros i Hi%elem_of_seqZ; apply write_mem_total;
    rewrite ?length_to_le_bytes; unfold pdpte_addr, pde_addr, page_table_base; lia.
Qed.

(** What the walk reads from a page-directory-pointer entry. *)
Lemma pdpte_fields i :
  0 ≤ i < 4 →
  Z.testbit (0xb003 + i * 0x1000) 0 = true ∧ Z.testbit (0xb003 + i * 0x1000) 7 = false ∧
  Z.land (0xb003 + i * 0x1000) 0xffffffffff000 = 0xb000 + i * 0x1000.
Proof. intros Hi. assert (i = 0 ∨ i = 1 ∨ i = 2 ∨ i = 3) as [->|[->|[->| ->]]] by lia; done. Qed.

(** What the walk reads from a page-directory entry. *)
Lemma pde_fields j :
  0 ≤ j < 2048 →
  Z.testbit (j * 0x200000 + 0x83) 0 = true ∧ Z.testbit (j * 0x200000 + 0x83) 7 = true ∧
  Z.land (j * 0x200000 + 0x83) 0xfffffffe00000 = j * 0x200000.
Proof.
  intros Hj.
  assert (Hb : ∀ k, 0 ≤ k → Z.testbit (j * 0x200000 + 0x83) k =
    Z.testbit (Z.shiftl j 21) k || Z.testbit 0x83 k).
  { intros k Hk. rewrite <- pde_entry_sum, <- Z.lor_spec by lia. unfold pde_entry.
    by rewrite Z.shiftl_mul_pow2 by lia. }
  split_and!; [by rewrite Hb, Z.shiftl_spec_low by lia..|].
  apply Z.bits_inj_iff'. intros k Hk. rewrite Z.land_spec, Hb by done.
  change (j * 0x200000) with (j * 2 ^ 21). rewrite <- Z.shiftl_mul_pow2 by lia.
  change 0xfffffffe00000 with (Z.shiftl (Z.ones 31) 21).
  rewrite (Z.shiftl_spec (Z.ones 31)) by lia. destruct (decide (k < 21)).
  { rewrite (Z.testbit_neg_r _ (k - 21)), andb_false_r by lia. by rewrite Z.shiftl_spec_low by lia. }
  change 0x83 with (0x83 mod 2 ^ 21). rewrite Z.mod_pow2_bits_high, orb_false_r by lia.
  rewrite Z.shiftl_spec by lia.
  destruct (decide (k - 21 < 31)); [by rewrite Z.ones_spec_low, andb_true_r by lia|].
  rewrite Z.ones_spec_high, andb_false_r by lia. symmetry.
  rewrite <- (Z.mod_small j (2 ^ 31)) by lia. apply Z.mod_pow2_bits_high. lia.
Qed.

Lemma table_index va k : 0 ≤ k → Z.land (Z.shiftr va k) 0x1ff = va / 2 ^ k mod 512.
Proof.
  intros. change 0x1ff with (Z.ones 9). rewrite Z.land_ones by lia. by rewrite Z.shiftr_div_pow2.
Qed.

(** The indices of an address of the first 512 GB. *)
Lemma table_indices va :
  0 ≤ va < 2 ^ 39 →
  va / 2 ^ 39 mod 512 = 0 ∧ va / 2 ^ 30 mod 512 = va / 2 ^ 30 ∧
  va / 2 ^ 30 * 512 + va / 2 ^ 21 mod 512 = va / 2 ^ 21.
Proof.
  intros Hva. split_and!.
  - by rewrite Z.div_small.
  - apply Z.mod_small. split; [apply Z.div_pos; lia|apply Z.div_lt_upper_bound; lia].
  - change (2 ^ 30) with (2 ^ 21 * 512). rewrite <- Z.div_div by lia.
    pose proof (Z.div_mod (va / 2 ^ 21) 512). lia.
Qed.

Lemma table_entry_read f t i e :
  view_le f 8 (t + 8 * i) = Some e →
  table_entry f t i = if Z.testbit e 0 then Some e else None.
Proof. intros He. unfold table_entry. by rewrite He. Qed.

(** The walk over those tables. *)
Lemma walk_tables f va :
  tables_at f → 0 ≤ va < 2 ^ 48 →
  walk f 0x9000 va = if bool_decide (va < 2 ^ 32) then Some va else None.
Proof.
  intros (H4 & H3 & H2) Hva. unfold walk. rewrite !table_index by lia.
  rewrite (table_entry_read _ _ _ _ (H4 _ (Z.mod_pos_bound (va / 2 ^ 39) 512 eq_refl))).
  destruct (decide (va < 2 ^ 39)) as [Hlo|Hhi].
  2: { rewrite bool_decide_false by lia.
       rewrite (Z.mod_small (va / 2 ^ 39)) by
         (split; [apply Z.div_pos; lia|apply Z.div_lt_upper_bound; lia]).
       assert (1 ≤ va / 2 ^ 39) by (apply Z.div_le_lower_bound; lia).
       by rewrite (proj2 (Z.eqb_neq _ _)) by lia. }
  destruct (table_indices va) as (-> & E3 & E2); [lia|].
  change (0 =? 0) with true. cbv iota. change (Z.testbit 0xa003 0) with true.
  cbn [mbind option_bind].
  change (Z.land 0xa003 0xffffffffff000) with 0xa000.
  rewrite (table_entry_read _ _ _ _ (H3 _ (Z.mod_pos_bound (va / 2 ^ 30) 512 eq_refl))), E3.
  destruct (Z.ltb_spec (va / 2 ^ 30) 4) as [L3|G3].
  2: { rewrite bool_decide_false; [done|]. intros Hb.
       assert (va / 2 ^ 30 < 4) by (apply Z.div_lt_upper_bound; lia). lia. }
  assert (0 ≤ va / 2 ^ 30) by (apply Z.div_pos; lia).
  assert (0 ≤ va / 2 ^ 21 mod 512 < 512) by (apply Z.mod_pos_bound; lia).
  rewrite bool_decide_true by (pose proof (Z.mul_succ_div_gt va (2 ^ 30)); lia).
  destruct (pdpte_fields (va / 2 ^ 30)) as (-> & F7 & F12); [lia|].
  cbn [mbind option_bind]. rewrite F7, F12.
  rewrite (table_entry_read _ _ _ (va / 2 ^ 21 * 0x200000 + 0x83))
    by (rewrite <- H2 by lia; f_equal; lia).
  destruct (pde_fields (va / 2 ^ 21)) as (-> & G7 & G21); [lia|].
  cbn [mbind option_bind]. rewrite G7, G21. f_equal.
  change 0x1fffff with (Z.ones 21). rewrite Z.land_ones by lia.
  pose proof (Z.div_mod va (2 ^ 21)). lia.
Qed.

Lemma on_mem_ok (p : rust GMem unit) s s' :
  on_mem p s = (s', Ok tt) → s'.1 = s.1 ∧ p s.2 = (s'.2, Ok tt).
Proof. unfold on_mem, zoom. destruct (p s.2) as [m r]. by intros; simplify_eq. Qed.

(** The steps of a run that succeeds. *)
Lemma load_kernel_inv path cl s k' m' :
  load_kernel path cl s = ((k', m'), Ok tt) →
  ∃ file buffer elf m1 m2 m3,
    host_open path = Ok file ∧ host_read_to_end file = Ok buffer ∧ elf_parse buffer = Some elf ∧
    for_each (program_headers elf) (load_segment buffer) s.2 = (m1, Ok tt) ∧
    write_page_tables m1 = (m2, Ok tt) ∧ write_cmdline cl m2 = (m3, Ok tt) ∧
    write_boot_params m3 = (m', Ok tt) ∧ read_first_bytes (elf_entry elf) m' = (m', Ok tt) ∧
    k' = {| entry_point := elf_entry elf; cmdline := cl |}.
Proof.
  intros Hrun. apply bind_ok_inv in Hrun as (s0 & buffer & Hf & Hrun).
  apply bind_ok_inv in Hf as (s1 & file & Ho & Hr).
  unfold lift_io, plift in Ho, Hr. destruct (host_open path) eqn:HO; simplify_eq.
  destruct (host_read_to_end file) eqn:HR; simplify_eq.
  apply bind_ok_inv in Hrun as (s1 & elf & He & Hrun).
  unfold plift, ok_or in He. destruct (elf_parse buffer) eqn:HE; simplify_eq.
  apply bind_ok_inv in Hrun as (s2 & [] & [H1 H1']%on_mem_ok & Hrun).
  apply bind_ok_inv in Hrun as (s3 & [] & Hk & Hrun); simplify_eq.
  apply bind_ok_inv in Hrun as (s4 & [] & [H2 H2']%on_mem_ok & Hrun).
  apply bind_ok_inv in Hrun as (s5 & [] & [H3 H3']%on_mem_ok & Hrun).
  apply bind_ok_inv in Hrun as (s6 & [] & [H4 H4']%on_mem_ok & [H5 H5']%on_mem_ok).
  simpl in *. assert (m' = s6.2) as -> by (unfold read_first_bytes in H5'; by simplify_eq).
  exists file, buffer, elf, s2.2, s4.2, s5.2. split_and!; try done. congruence.
Qed.

(** One segment, on every path: overflowing file offsets never load anything in
    either build profile, a segment past the end of the file is an error, and
    otherwise its file bytes are written. *)
Lemma load_segment_cases buffer ph m :
  header_ok ph →
  load_segment buffer ph m =
  if p_type ph =? PT_LOAD then
    if bool_decide (2 ^ 64 ≤ p_offset ph + p_filesz ph) then
      (m, if negb overflow_checks &&
             bool_decide (Z.of_nat (length buffer) < p_offset ph + p_filesz ph - 2 ^ 64)
          then Err (MemoryError "Invalid ELF segment: extends past end of file") else Panic)
    else if bool_decide (Z.of_nat (length buffer) < p_offset ph + p_filesz ph) then
      (m, Err (MemoryError "Invalid ELF segment: extends past end of file"))
    else
      (write_mem (segment_bytes buffer ph) (p_paddr ph) (λ e, MemoryError
         ("Failed to write kernel segment at 0x" +:+ fmt_hex (p_paddr ph) +:+ ": " +:+ e));;
       if info_enabled then plift (add_u64 (p_paddr ph) (p_memsz ph));; mret tt else mret tt) m
  else (m, Ok tt).
Proof.
  intros (Ho & _ & Hs & _). unfold u64 in *. unfold load_segment.
  destruct (p_type ph =? PT_LOAD); [|done].
  destruct (decide (p_offset ph + p_filesz ph < 2 ^ 64)) as [Hlt|Hge].
  - rewrite (add_u64_fits (p_offset ph)), bind_plift_ok by (unfold u64; lia). rewrite (bool_decide_false (2 ^ 64 ≤ _)) by lia.
    case_bool_decide; [done|]. unfold slice. rewrite bool_decide_true by lia.
    unfold segment_bytes. by replace (_ + _ - _) with (p_filesz ph) by lia.
  - rewrite (add_u64_wraps (p_offset ph)), (bool_decide_true (2 ^ 64 ≤ _)) by (unfold u64; lia).
    destruct overflow_checks; [done|]. rewrite bind_plift_ok. simpl.
    case_bool_decide; [done|]. unfold slice. by rewrite bool_decide_false by lia.
Qed.

Lemma load_segment_ok buffer ph m m' :
  header_ok ph → load_segment buffer ph m = (m', Ok tt) →
  gm_regions m' = gm_regions m ∧
  if decide (p_type ph = PT_LOAD) then
    p_offset ph + p_filesz ph ≤ Z.of_nat (length buffer) ∧
    ∀ x, gm_byte m' x = overlay (gm_byte m) (p_paddr ph) (segment_bytes buffer ph) x
  else m' = m.
Proof.
  intros Hph. rewrite load_segment_cases by done.
  destruct (Z.eqb_spec (p_type ph) PT_LOAD); case_decide; try done.
  2: by intros; simplify_eq.
  case_bool_decide; [by destruct (_ && _)|]. case_bool_decide; [done|].
  intros Hrun. apply bind_ok_inv in Hrun as (m1 & [] & Hw & Hi).
  assert (m' = m1) as ->.
  { destruct info_enabled; prog_unfold; [|by simplify_eq]. by destruct (add_u64 _ _); simplify_eq. }
  apply write_mem_ok in Hw as [Hb Hr]. split; [done|]. split; [lia|done].
Qed.

Lemma segments_image_ext buffer phs f g :
  (∀ x, f x = g x) → ∀ x, segments_image buffer phs f x = segments_image buffer phs g x.
Proof.
  revert f g. induction phs as [|ph phs IH]; intros f g Hfg; [done|]. apply IH.
  intros x. unfold overlay. by rewrite Hfg.
Qed.

Lemma load_segments_ok buffer phs m m' :
  Forall header_ok phs → for_each phs (load_segment buffer) m = (m', Ok tt) →
  gm_regions m' = gm_regions m ∧
  Forall (λ ph, p_type ph = PT_LOAD → p_offset ph + p_filesz ph ≤ Z.of_nat (length buffer)) phs ∧
  ∀ x, gm_byte m' x =
    segments_image buffer (filter (λ ph, p_type ph = PT_LOAD) phs) (gm_byte m) x.
Proof.
  revert m. induction phs as [|ph phs IH]; intros m Hok Hrun; simpl in Hrun.
  { prog_unfold. by simplify_eq. }
  apply Forall_cons_1 in Hok as [Hok1 Hok2]. apply bind_ok_inv in Hrun as (m1 & [] & H1 & Hrun).
  apply load_segment_ok in H1 as [R1 H1]; [|done].
  apply IH in Hrun as (R2 & F2 & H2); [|done].
  split; [congruence|]. rewrite filter_cons. case_decide.
  - destruct H1 as [L1 H1]. split; [by constructor|]. intros x. rewrite H2.
    exact (segments_image_ext buffer _ _ _ H1 x).
  - subst m1. split; [by constructor|done].
Qed.

Definition boot_area (cl : string) (x : Z) : Prop :=
  0x7000 ≤ x < 0x8000 ∨ 0x9000 ≤ x < 0xf000 ∨
  0x10000 ≤ x ≤ 0x10000 + Z.of_nat (length (String.list_byte_of_string cl)).

Lemma length_boot_params : length boot_params = 4096%nat.
Proof. vm_compute. reflexivity. Qed.

Lemma write_cmdline_confined cl :
  confined 0x10000 (0x10001 + Z.of_nat (length (String.list_byte_of_string cl))) (write_cmdline cl).
Proof. apply write_mem_confined; [done|]. rewrite length_app. unfold cmdline_addr. simpl. lia. Qed.

Lemma write_cmdline_total cl :
  total_on 0x10000 (0x10001 + Z.of_nat (length (String.list_byte_of_string cl))) (write_cmdline cl).
Proof.
  apply write_mem_total; rewrite ?length_app; simpl; unfold cmdline_addr; lia.
Qed.

Lemma write_boot_params_total : total_on 0x7000 0x8000 write_boot_params.
Proof. apply write_mem_total; rewrite ?length_boot_params; unfold boot_params_addr; lia. Qed.

Lemma write_boot_params_confined : confined 0x7000 0x8000 write_boot_params.
Proof. apply write_mem_confined; [done|]. by rewrite length_boot_params. Qed.

(** What the stores after the segments leave behind. *)
Lemma boot_stores_ok cl m1 m2 m3 m' :
  write_page_tables m1 = (m2, Ok tt) → write_cmdline cl m2 = (m3, Ok tt) →
  write_boot_params m3 = (m', Ok tt) →
  tables_at (gm_byte m') ∧
  view_bytes (gm_byte m') 0x7000 4096 = Some boot_params ∧
  view_bytes (gm_byte m') 0x10000 (S (length (String.list_byte_of_string cl))) =
    Some (String.list_byte_of_string cl ++ [Byte.x00]) ∧
  (∀ x, ¬ boot_area cl x → gm_byte m' x = gm_byte m1 x).
Proof.
  intros H1 H2 H3. pose proof (write_page_tables_confined _ _ _ H1) as [_ C1].
  pose proof (write_cmdline_confined _ _ _ _ H2) as [_ C2].
  pose proof (write_boot_params_confined _ _ _ H3) as [_ C3].
  apply write_page_tables_spec in H1. apply write_mem_ok in H2 as [H2 _].
  apply write_mem_ok in H3 as [H3 _]. split_and!.
  - eapply tables_at_ext; [|done]. intros x Hx. rewrite C3, C2 by lia. done.
  - rewrite <- length_boot_params, <- (view_bytes_overlay_same (gm_byte m3) 0x7000 boot_params).
    apply view_bytes_ext. intros x Hx. apply H3.
  - set (bs := String.list_byte_of_string cl) in *.
    replace (S (length bs)) with (length (bs ++ [Byte.x00])) by (rewrite length_app; simpl; lia).
    rewrite <- (view_bytes_overlay_same (gm_byte m2) 0x10000 (bs ++ [Byte.x00])).
    apply view_bytes_ext. intros x Hx. rewrite C3 by lia. apply H2.
  - intros x Hx. unfold boot_area in Hx. rewrite C3, C2, C1 by lia. done.
Qed.

(** ** Theorems *)

(** C1: after a successful load the page tables at 0x9000 map exactly the first
    4 GB, each address to itself: the x86-64 walk from 0x9000 translates every
    canonical low address below 2^32 to itself and no other. *)
Theorem kernel_identity_map path cl s k' m' va
    (Hrun : load_kernel path cl s = ((k', m'), Ok tt)) (Hva : 0 ≤ va < 2 ^ 48) :
  walk (gm_byte m') 0x9000 va = if bool_decide (va < 2 ^ 32) then Some va else None.
Proof.
  apply load_kernel_inv in Hrun as (f & buf & elf & m1 & m2 & m3 & _ & _ & _ & _ & H1 & H2 & H3 & _).
  apply walk_tables; [|done]. by eapply boot_stores_ok.
Qed.

(** C9: after a successful load the boot protocol's data are in place: loader
    type 0xff, the command-line pointer leading to the command line followed by
    a NUL, and one e820 entry declaring the 128 MB of RAM usable. *)
Theorem kernel_boot_protocol path cl s k' m'
    (Hrun : load_kernel path cl s = ((k', m'), Ok tt)) :
  let f := gm_byte m' in
  view_le f 1 (0x7000 + 0x210) = Some 0xff ∧
  view_le f 4 (0x7000 + 0x228) = Some 0x10000 ∧
  view_bytes f 0x10000 (S (length (String.list_byte_of_string cl))) =
    Some (String.list_byte_of_string cl ++ [Byte.x00]) ∧
  view_le f 1 (0x7000 + 0x1e8) = Some 1 ∧
  view_le f 8 (0x7000 + 0x2d0) = Some 0 ∧ view_le f 8 (0x7000 + 0x2d8) = Some MEMORY_SIZE ∧
  view_le f 4 (0x7000 + 0x2e0) = Some 1 ∧
  get_cmdline k' = cl.
Proof.
  apply load_kernel_inv in Hrun as (fl & buf & elf & m1 & m2 & m3 & _ & _ & _ & _ & H1 & H2 & H3 & _ & ->).
  destruct (boot_stores_ok _ _ _ _ _ H1 H2 H3) as (_ & Hp & Hc & _). intros f.
  assert (Hfield : ∀ k n, (k + n ≤ 4096)%nat →
    view_le f n (0x7000 + Z.of_nat k) = Some (from_le_bytes (take n (drop k boot_params)))).
  { intros k n Hk. unfold view_le. apply view_bytes_spec in Hp as [_ Hp].
    erewrite (view_bytes_ext _ (overlay f 0x7000 boot_params)).
    - rewrite view_bytes_overlay_sub by (rewrite length_boot_params; lia). done.
    - intros x Hx. rewrite overlay_in by (rewrite length_boot_params; lia).
      rewrite Hp by lia. unfold f. f_equal. lia. }
  split_and!; try done.
  - etrans; [apply (Hfield 528%nat 1%nat); lia|]. by vm_compute.
  - etrans; [apply (Hfield 552%nat 4%nat); lia|]. by vm_compute.
  - etrans; [apply (Hfield 488%nat 1%nat); lia|]. by vm_compute.
  - etrans; [apply (Hfield 720%nat 8%nat); lia|]. by vm_compute.
  - etrans; [apply (Hfield 728%nat 8%nat); lia|]. by vm_compute.
  - etrans; [apply (Hfield 736%nat 4%nat); lia|]. by vm_compute.
Qed.

(** C7: after a successful load every PT_LOAD segment lies within the file, and
    outside the boot data guest memory is what it was before with the segments'
    file bytes stored over it in header order, no more: bytes between p_filesz
    and p_memsz keep their old contents. *)
Theorem kernel_segments path cl k m k' m'
    (Hrun : load_kernel path cl (k, m) = ((k', m'), Ok tt)) :
  ∃ file buffer elf,
    host_open path = Ok file ∧ host_read_to_end file = Ok buffer ∧ elf_parse buffer = Some elf ∧
    get_entry_point k' = elf_entry elf ∧
    (∀ ph, ph ∈ segments elf → p_offset ph + p_filesz ph ≤ Z.of_nat (length buffer)) ∧
    (∀ x, ¬ boot_area cl x → gm_byte m' x = segments_image buffer (segments elf) (gm_byte m) x).
Proof.
  apply load_kernel_inv in Hrun as
    (fl & buf & elf & m1 & m2 & m3 & Ho & Hr & He & HS & H1 & H2 & H3 & _ & ->).
  apply load_segments_ok in HS as (_ & Hin & Hseg); [|by eapply elf_parse_range].
  destruct (boot_stores_ok _ _ _ _ _ H1 H2 H3) as (_ & _ & _ & Hf).
  exists fl, buf, elf. split_and!; try done.
  - intros ph Hph. unfold segments in Hph. rewrite list_elem_of_filter in Hph.
    destruct Hph as [Ht [i Hi]%list_elem_of_lookup]. rewrite Forall_lookup in Hin. by eapply Hin.
  - intros x Hx. rewrite Hf by done. apply Hseg.
Qed.

(** A segment the loader accepts. *)
Definition segment_fits (buffer : list byte) (m : GMem) (ph : program_header) : Prop :=
  p_offset ph + p_filesz ph ≤ Z.of_nat (length buffer) ∧ Z.of_nat (length buffer) < 2 ^ 64 ∧
  p_paddr ph + p_memsz ph < 2 ^ 64 ∧
  is_Some (gm_byte m (p_paddr ph)) ∧ backed m (p_paddr ph) (p_filesz ph).

Lemma load_segment_fits buffer ph m :
  header_ok ph → (p_type ph = PT_LOAD → segment_fits buffer m ph) →
  ∃ m', load_segment buffer ph m = (m', Ok tt) ∧ gm_regions m' = gm_regions m.
Proof.
  intros Hph Hfit. rewrite load_segment_cases by done.
  destruct (Z.eqb_spec (p_type ph) PT_LOAD) as [Ht|Ht]; [|by exists m].
  destruct (Hfit Ht) as (Hf & Hb & Ho & Ha & Hm). destruct Hph as (U1 & U2 & U3 & U4).
  unfold u64 in *. rewrite !bool_decide_false by lia.
  destruct (gm_write_fits m (segment_bytes buffer ph) (p_paddr ph)) as (m' & Hw & _ & Hr); [done| |].
  { intros x Hx. apply Hm. unfold segment_bytes in Hx. rewrite length_take in Hx. lia. }
  exists m'. split; [|done]. unfold write_mem, mbind, prog_bind. rewrite Hw.
  destruct info_enabled; [|done]. by rewrite add_u64_fits by (unfold u64; lia).
Qed.

Lemma load_segments_fit buffer phs m :
  Forall header_ok phs → Forall (λ ph, p_type ph = PT_LOAD → segment_fits buffer m ph) phs →
  ∃ m', for_each phs (load_segment buffer) m = (m', Ok tt) ∧ gm_regions m' = gm_regions m.
Proof.
  revert m. induction phs as [|ph phs IH]; intros m Hok Hfit; [by exists m|].
  apply Forall_cons_1 in Hok as [Hok1 Hok2]. apply Forall_cons_1 in Hfit as [Hfit1 Hfit2].
  destruct (load_segment_fits buffer ph m) as (m1 & H1 & R1); [done..|].
  destruct (IH m1) as (m2 & H2 & R2); [done| |].
  { eapply Forall_impl; [|exact Hfit2]. intros ph' Hf Ht. destruct (Hf Ht) as (? & ? & ? & ? & ?).
    split_and!; [done..|by eapply is_Some_byte_regions|by eapply backed_regions]. }
  exists m2. simpl. unfold mbind, prog_bind. rewrite H1. split; [done|congruence].
Qed.

(** The log's read of the entry point decides between success and a panic. *)
Lemma read_first_bytes_cases entry m m0 :
  gm_regions m = gm_regions m0 →
  (backed m0 entry 16 → read_first_bytes entry m = (m, Ok tt)) ∧
  (¬ backed m0 entry 16 → read_first_bytes entry m = (m, Panic)).
Proof.
  intros Hr. unfold read_first_bytes. split.
  - intros Hb. rewrite (gm_read_ok m (zeros 16) entry); [done| |].
    + eapply is_Some_byte_regions; [done|]. apply Hb. lia.
    + by eapply backed_regions.
  - intros Hb. destruct (gm_read_slice m (zeros 16) entry) as [buf [e|]] eqn:Hread; [done|].
    exfalso. apply Hb. eapply (backed_regions m); [done|]. intros x Hx.
    pose proof (gm_read_length _ _ _ _ _ Hread) as Hl. rewrite length_zeros in Hl.
    replace x with (entry + Z.of_nat (Z.to_nat (x - entry))) by lia.
    erewrite <- gm_read_bytes; [|done|rewrite length_zeros; lia].
    apply lookup_lt_is_Some_2. lia.
Qed.

(** On such inputs every step before the last succeeds. *)
Lemma load_kernel_stores path cl k m file buffer elf :
  host_open path = Ok file → host_read_to_end file = Ok buffer → elf_parse buffer = Some elf →
  Forall (λ ph, p_type ph = PT_LOAD → segment_fits buffer m ph) (program_headers elf) →
  backed m 0x7000 (0x9001 + Z.of_nat (length (String.list_byte_of_string cl))) →
  ∃ m', gm_regions m' = gm_regions m ∧
    load_kernel path cl (k, m) =
    on_mem (read_first_bytes (elf_entry elf)) ({| entry_point := elf_entry elf; cmdline := cl |}, m').
Proof.
  intros Ho Hr He Hseg Hlow. set (n := Z.of_nat (length (String.list_byte_of_string cl))) in *.
  destruct (load_segments_fit buffer (program_headers elf) m) as (m1 & H1 & R1);
    [by eapply elf_parse_range|done|].
  pose proof (backed_regions _ _ _ _ R1 Hlow) as B1.
  destruct (total_on_weaken _ _ 0x7000 (0x10001 + n) _ write_page_tables_total
    ltac:(lia) ltac:(lia) m1) as (m2 & H2 & R2); [intros x Hx; apply B1; lia|].
  pose proof (backed_regions _ _ _ _ R2 B1) as B2.
  destruct (write_cmdline_total cl m2) as (m3 & H3 & R3); [intros x Hx; apply B2; lia|].
  pose proof (backed_regions _ _ _ _ R3 B2) as B3.
  destruct (write_boot_params_total m3) as (m4 & H4 & R4); [intros x Hx; apply B3; lia|].
  exists m4. split; [congruence|].
  unfold load_kernel, read_file, mbind, prog_bind, lift_io, plift, ok_or. rewrite Ho, Hr, He.
  unfold on_mem at 1, zoom at 1. cbn [fst snd]. rewrite H1. cbn [fst snd].
  unfold on_mem at 1, zoom at 1. cbn [fst snd]. rewrite H2. cbn [fst snd].
  unfold on_mem at 1, zoom at 1. cbn [fst snd]. rewrite H3. cbn [fst snd].
  unfold on_mem at 1, zoom at 1. cbn [fst snd]. rewrite H4. done.
Qed.

(** C8: a kernel that parses, whose segments lie within its file and in RAM, is
    loaded on a machine whose low memory holds the boot data: [load_kernel]
    returns Ok when the 16 bytes at the entry point are RAM and panics when they
    are not. *)
Theorem load_kernel_outcome path cl k m file buffer elf
    (Ho : host_open path = Ok file) (Hr : host_read_to_end file = Ok buffer)
    (He : elf_parse buffer = Some elf)
    (Hseg : Forall (λ ph, p_type ph = PT_LOAD → segment_fits buffer m ph) (program_headers elf))
    (Hlow : backed m 0x7000 (0x9001 + Z.of_nat (length (String.list_byte_of_string cl)))) :
  (backed m (elf_entry elf) 16 → (load_kernel path cl (k, m)).2 = Ok tt) ∧
  (¬ backed m (elf_entry elf) 16 → (load_kernel path cl (k, m)).2 = Panic).
Proof.
  destruct (load_kernel_stores path cl k m file buffer elf) as (m' & Hreg & ->); [done..|].
  destruct (read_first_bytes_cases (elf_entry elf) m' m Hreg) as [HA HB].
  unfold on_mem, zoom. cbn [fst snd]. split; intros Hb; [by rewrite HA|by rewrite HB].
Qed.

End loader_facts.
