(* ===== verification/Bootloader.v ===== *)
(** * Bootloader: the real-mode loader of bootloader.rs

    [load_bootloader] puts a boot sector at 0x7c00 and a minimal BIOS (an
    interrupt vector table and two handlers) below it,
    [init_vcpu_for_real_mode] points a vCPU at it.  The specification of the
    BIOS is a small real-mode interpreter ([isr]) for the instructions the
    handlers use. *)

From S2P Require Import Prelude Errors Platform Host VirtioMmio Kvm Memory Vcpu.

(** ** Loading *)

Section bios.
Context `{MA : MemoryApi} {HF : HostFiles}.

Definition boot_addr : Z := 0x7c00.
Definition bios_addr : Z := 0x1000.

Definition byte_lo (z : Z) : byte := byte.of_Z (as_u8 (Z.land z 0xFF)).
Definition byte_hi (z : Z) : byte := byte.of_Z (as_u8 (Z.land (Z.shiftr z 8) 0xFF)).

(** mov dx,0x3f8; out dx,al; iret *)
Definition int10_handler : list byte := [Byte.xba; Byte.xf8; Byte.x03; Byte.xee; Byte.xcf].
Definition ivt_entry : list byte := [byte_lo bios_addr; byte_hi bios_addr; Byte.x00; Byte.x00].
Definition dummy_iret : list byte := [Byte.xcf].
Definition ivt_dummy : list byte :=
  [byte_lo (bios_addr + 0x10); byte_hi (bios_addr + 0x10); Byte.x00; Byte.x00].

Definition install_minimal_bios : rust GMem unit :=
  write_mem int10_handler bios_addr (λ _, MemoryError "Failed to write INT 0x10 handler");;
  write_mem ivt_entry 0x40 (λ _, MemoryError "Failed to write IVT entry 0x10");;
  write_mem dummy_iret (bios_addr + 0x10) (λ _, MemoryError "Failed to write dummy iret");;
  for_each [0x13; 0x15; 0x16] (λ i,
    write_mem ivt_dummy (i * 4) (λ _, MemoryError "Failed to write dummy IVT entry")).

Definition load_bootloader (boot_path : string) : rust GMem unit :=
  buffer ← read_file boot_path;
  write_mem buffer boot_addr (λ e, MemoryError ("Failed to write bootloader: " +:+ e));;
  install_minimal_bios.

End bios.

(** ** The vCPU *)

Definition real_code_segment (old : kvm_segment) : kvm_segment :=
  {| sg_base := 0; sg_limit := 0xFFFF; sg_selector := 0; sg_type := 11; sg_present := 1;
     sg_dpl := 0; sg_db := 0; sg_s := 1; sg_l := 0; sg_g := 0; sg_avl := 0;
     sg_rest := sg_rest old |}.

(** [let mut data_seg = sregs.cs; data_seg.type_ = 3;] *)
Definition real_data_segment (cs : kvm_segment) : kvm_segment :=
  {| sg_base := sg_base cs; sg_limit := sg_limit cs; sg_selector := sg_selector cs; sg_type := 3;
     sg_present := sg_present cs; sg_dpl := sg_dpl cs; sg_db := sg_db cs; sg_s := sg_s cs;
     sg_l := sg_l cs; sg_g := sg_g cs; sg_avl := sg_avl cs; sg_rest := sg_rest cs |}.

Definition sregs_for_real_mode (s : kvm_sregs) : kvm_sregs :=
  let cs' := real_code_segment (cs s) in
  let data_seg := real_data_segment cs' in
  {| cs := cs'; ds := data_seg; es := data_seg; fs := data_seg; gs := data_seg; ss := data_seg;
     tr := tr s;
     gdt := dtable 0 0xFFFF (gdt s); idt := dtable 0 0x3FF (idt s);
     cr0 := 0x10; cr3 := 0; cr4 := 0; efer := 0; sr_rest := sr_rest s |}.

Definition regs_for_real_mode (r : kvm_regs) : kvm_regs :=
  {| rax := rax r; rbx := rbx r; rcx := rcx r; rdx := rdx r; rsi := rsi r; rdi := rdi r;
     rsp := 0x7c00; rbp := 0;
     r8 := r8 r; r9 := r9 r; r10 := r10 r; r11 := r11 r;
     r12 := r12 r; r13 := r13 r; r14 := r14 r; r15 := r15 r;
     rip := 0x7c00; rflags := 0x2 |}.

Definition init_vcpu_for_real_mode `{KA : KvmApi} : rust VcpuFd unit :=
  sregs ← kvm_get vcpu_get_sregs;
  kvm_set vcpu_set_sregs (sregs_for_real_mode sregs);;
  regs ← kvm_get vcpu_get_regs;
  kvm_set vcpu_set_regs (regs_for_real_mode regs).

(** ** Specification *)

(** Linear address of the handler of vector [v]: offset and segment words. *)
Definition ivt_target (f : mem_view) (v : Z) : option Z :=
  off ← view_le f 2 (4 * v);
  seg ← view_le f 2 (4 * v + 2);
  Some (seg * 16 + off).

(** Runs an interrupt service routine from [ip] to its [iret] and returns the
    (port, byte) pairs it writes: [mov dx,imm16] (0xBA), [out dx,al] (0xEE),
    [iret] (0xCF). *)
Fixpoint isr (fuel : nat) (f : mem_view) (ip dx al : Z) : option (list (Z * Z)) :=
  match fuel with
  | O => None
  | S n =>
      op ← view_le f 1 ip;
      if op =? 0xBA then imm ← view_le f 2 (ip + 1); isr n f (ip + 3) imm al
      else if op =? 0xEE then rest ← isr n f (ip + 1) dx al; Some ((dx, al) :: rest)
      else if op =? 0xCF then Some []
      else None
  end.

(** [INT v] with [al] and [dx] loaded. *)
Definition int (f : mem_view) (v dx al : Z) : option (list (Z * Z)) :=
  ip ← ivt_target f v; isr 3 f ip dx al.

(** A 64 KB real-mode segment. *)
Definition real_segment (sg : kvm_segment) : Prop :=
  sg_base sg = 16 * sg_selector sg ∧ sg_limit sg = 0xFFFF ∧ sg_db sg = 0 ∧ sg_present sg = 1.

(** Real mode: CR0.PE and paging off, no long mode, 64 KB segments at 0. *)
Definition real_mode (s : kvm_sregs) : Prop :=
  Z.testbit (cr0 s) 0 = false ∧ Z.testbit (cr0 s) 31 = false ∧ efer s = 0 ∧
  Forall real_segment [cs s; ds s; es s; fs s; gs s; ss s] ∧
  dt_base (idt s) = 0 ∧ dt_limit (idt s) = 4 * 256 - 1.

(** What [install_minimal_bios] stores, as one overlay after another. *)
Definition bios_image (f : mem_view) : mem_view :=
  let f := overlay f 0x1000 int10_handler in
  let f := overlay f 0x40 ivt_entry in
  let f := overlay f 0x1010 dummy_iret in
  foldl (λ f i, overlay f (i * 4) ivt_dummy) f [0x13; 0x15; 0x16].

#[global] Instance isr_proper n :
  Proper (pointwise_relation Z eq ==> eq ==> eq ==> eq ==> eq) (isr n).
Proof.
  intros f g Hfg ip ? <- dx ? <- al ? <-. revert ip dx.
  induction n as [|n IH]; intros ip dx; simpl; [done|]. rewrite Hfg.
  destruct (view_le g 1 ip) as [op|]; simpl; [|done]. repeat case_match; try done.
  - rewrite Hfg. destruct (view_le g 2 _); simpl; [apply IH|done].
  - by rewrite IH.
Qed.

#[global] Instance int_proper :
  Proper (pointwise_relation Z eq ==> eq ==> eq ==> eq ==> eq) int.
Proof.
  intros f g Hfg v ? <- dx ? <- al ? <-. unfold int, ivt_target.
  rewrite (view_le_proper f g Hfg 2%nat _ eq_refl (4 * v) (4 * v) eq_refl).
  destruct (view_le g 2 (4 * v)); simpl; [|done].
  rewrite (view_le_proper f g Hfg 2%nat _ eq_refl (4 * v + 2) _ eq_refl).
  destruct (view_le g 2 (4 * v + 2)); simpl; [|done]. exact (isr_proper 3 f g Hfg _ _ eq_refl _ _ eq_refl _ _ eq_refl).
Qed.

(** The addresses it leaves alone. *)
Definition bios_area (x : Z) : Prop :=
  0x40 ≤ x < 0x44 ∨ 0x4c ≤ x < 0x50 ∨ 0x54 ≤ x < 0x5c ∨ 0x1000 ≤ x < 0x1005 ∨ x = 0x1010.

Lemma bios_image_frame f x : ¬ bios_area x → bios_image f x = f x.
Proof.
  unfold bios_area, bios_image. intros Hx. simpl.
  rewrite !overlay_out; [done|simpl; lia..].
Qed.

#[global] Instance bios_image_proper :
  Proper (pointwise_relation Z eq ==> pointwise_relation Z eq) bios_image.
Proof. intros f g Hfg. unfold bios_image; simpl. intros x. unfold overlay. by rewrite Hfg. Qed.

(** ** Lemmas and theorems *)

Section bios_facts.
Context `{ML : MemoryLaws} {HF : HostFiles}.
Implicit Types (m : GMem).

Lemma install_minimal_bios_ok m m' :
  install_minimal_bios m = (m', Ok tt) → ∀ x, gm_byte m' x = bios_image (gm_byte m) x.
Proof.
  intros Hrun.
  repeat (apply bind_ok_inv in Hrun as (?m1 & [] & [?Hw _]%write_mem_ok & Hrun)).
  unfold mret, prog_ret in Hrun. simplify_eq. intros a. unfold bios_image; simpl.
  rewrite Hw4. apply overlay_proper; [|done..]. intros y. rewrite Hw3.
  apply overlay_proper; [|done..]. intros z. rewrite Hw2.
  apply overlay_proper; [|done..]. intros t. rewrite Hw1.
  apply overlay_proper; [|done..]. intros u. rewrite Hw0.
  apply overlay_proper; [|done..]. intros v. apply Hw.
Qed.

Lemma install_minimal_bios_total : total_on 0 0x1011 install_minimal_bios.
Proof.
  unfold install_minimal_bios, bios_addr. simpl for_each.
  repeat (apply total_on_bind; [apply write_mem_total; simpl; lia|]).
  intros m _. by exists m.
Qed.

(** The boot sector is stored, then the BIOS. *)
Lemma load_bootloader_runs path m file buffer :
  host_open path = Ok file → host_read_to_end file = Ok buffer →
  backed m 0 (0x7c01 + Z.of_nat (length buffer)) →
  ∃ m1 m2, load_bootloader path m = (m2, Ok tt) ∧ install_minimal_bios m1 = (m2, Ok tt) ∧
    ∀ x, gm_byte m1 x = overlay (gm_byte m) 0x7c00 buffer x.
Proof.
  intros Ho Hr Hram. destruct (gm_write_fits m buffer 0x7c00) as (m1 & Hw & Hb & Hreg).
  { apply Hram. lia. } { intros x Hx. apply Hram. lia. }
  destruct (install_minimal_bios_total m1) as (m2 & Hi & Hreg2).
  { eapply backed_regions; [done|]. intros x Hx. apply Hram. lia. }
  exists m1, m2. split_and!; [|done..].
  unfold load_bootloader, read_file, mbind, prog_bind, lift_io, plift. rewrite Ho, Hr.
  unfold write_mem at 1. change boot_addr with 0x7c00. by rewrite Hw, Hi.
Qed.

(** C10: loading a boot sector on a machine with enough RAM succeeds, and then
    the boot sector is at 0x7c00, INT 0x10 sends AL to COM1 and returns, INT
    0x13, 0x15 and 0x16 return without effect, and the rest of memory is as it
    was before. *)
Theorem bootloader_bios path m file buffer
    (Ho : host_open path = Ok file) (Hr : host_read_to_end file = Ok buffer)
    (Hram : backed m 0 (0x7c01 + Z.of_nat (length buffer))) :
  ∃ m', load_bootloader path m = (m', Ok tt) ∧
    view_bytes (gm_byte m') 0x7c00 (length buffer) = Some buffer ∧
    (∀ dx al, int (gm_byte m') 0x10 dx al = Some [(COM1, al)] ∧
      int (gm_byte m') 0x13 dx al = Some [] ∧ int (gm_byte m') 0x15 dx al = Some [] ∧
      int (gm_byte m') 0x16 dx al = Some []) ∧
    (∀ x, ¬ bios_area x → ¬ (0x7c00 ≤ x < 0x7c00 + Z.of_nat (length buffer)) →
      gm_byte m' x = gm_byte m x).
Proof.
  destruct (load_bootloader_runs path m file buffer Ho Hr Hram) as (m1 & m2 & Hrun & Hi & Hb).
  exists m2. split; [done|]. pose proof (install_minimal_bios_ok _ _ Hi) as Himg. split_and!.
  - rewrite <- (view_bytes_overlay_same (gm_byte m) 0x7c00 buffer). apply view_bytes_ext.
    intros x Hx. rewrite Himg, bios_image_frame by (unfold bios_area; lia). apply Hb.
  - intros dx al. change (pointwise_relation Z eq (gm_byte m2) (bios_image (gm_byte m1))) in Himg.
    rewrite !Himg. split_and!; reflexivity.
  - intros x Hx Hd. rewrite Himg, bios_image_frame by done. rewrite Hb. by apply overlay_out.
Qed.

End bios_facts.

Section real_mode_facts.
Context `{KL : KvmLaws}.

(** What each ioctl did. *)
Lemma init_vcpu_for_real_mode_inv v v' :
  init_vcpu_for_real_mode v = (v', Ok tt) →
  ∃ r0 s0 s1, vcpu_get_regs v = Ok r0 ∧ vcpu_get_regs v' = Ok (regs_for_real_mode r0) ∧
    vcpu_get_sregs v = Ok s0 ∧ vcpu_get_sregs v' = Ok s1 ∧
    sregs_loaded (sregs_for_real_mode s0) s1 ∧ sr_rest s1 = sr_rest s0 ∧
    vcpu_get_fpu v' = vcpu_get_fpu v ∧
    (∀ i, ¬ sregs_msr i → vcpu_msrs v' !! i = vcpu_msrs v !! i).
Proof.
  intros Hrun. apply bind_ok_inv in Hrun as (v0 & s0 & [-> Hs]%kvm_get_ok & Hrun).
  apply bind_ok_inv in Hrun as (v1 & [] & (R1 & F1 & M1 & s1 & S1 & L1 & K1)%kvm_set_ok%vcpu_set_sregs_spec & Hrun).
  apply bind_ok_inv in Hrun as (v2 & r0 & [-> Hr]%kvm_get_ok & Hrun).
  apply kvm_set_ok, vcpu_set_regs_spec in Hrun as (R2 & S2 & F2 & M2).
  change (fixed_rflags _) with (regs_for_real_mode r0) in R2.
  exists r0, s0, s1. split_and!; try congruence; [by apply K1|]. intros i Hi. rewrite M2. by apply M1.
Qed.

(** The fields of the real-mode segments, in the order of [segment_fields]. *)
Definition real_code : list Z := [0; 0xFFFF; 0; 11; 1; 0; 0; 1; 0; 0; 0].
Definition real_data : list Z := [0; 0xFFFF; 0; 3; 1; 0; 0; 1; 0; 0; 0].

Lemma sregs_for_real_mode_segments s s' :
  sregs_loaded (sregs_for_real_mode s) s' → usable (cs s) →
  segment_fields (cs s') = real_code ∧
  Forall (λ sg, segment_fields sg = real_data) [ds s'; es s'; fs s'; gs s'; ss s'].
Proof.
  intros (Hseg & _) Hu. unfold segments_of in Hseg. decompose_Forall_hyps.
  assert (Hcs : loadable (real_code_segment (cs s))) by (repeat split; done).
  assert (Hds : loadable (real_data_segment (real_code_segment (cs s)))) by (repeat split; done).
  repeat match goal with
  | H : loaded (real_data_segment _) _ |- _ => specialize (H Hds) as [_ ?]
  | H : loaded (real_code_segment _) _ |- _ => specialize (H Hcs) as [_ ?]
  end.
  split; [done|]. repeat (apply Forall_cons_2; [done|]). done.
Qed.

Lemma real_fields_real sg :
  segment_fields sg = real_code ∨ segment_fields sg = real_data → real_segment sg.
Proof.
  unfold segment_fields, real_code, real_data, real_segment.
  intros [Hf|Hf]; simplify_eq; split_and!; try done;
    by match goal with H : sg_selector _ = _ |- _ => rewrite H end.
Qed.

Lemma sregs_for_real_mode_real s s' :
  sregs_loaded (sregs_for_real_mode s) s' → usable (cs s) → real_mode s'.
Proof.
  intros HL Hu. destruct (sregs_for_real_mode_segments s s' HL Hu) as [Hc Hd].
  destruct HL as (_ & _ & _ & Hb & Hl & Hcr & _ & _ & He).
  unfold real_mode. rewrite Hcr, Hb, Hl, He. split_and!; try done.
  apply Forall_cons_2; [by apply real_fields_real; left|].
  eapply Forall_impl; [|exact Hd]. intros sg Hs. by apply real_fields_real; right.
Qed.

(** C11: a vCPU that [init_vcpu_for_real_mode] succeeds on starts in real mode
    (its code segment having been usable) at the boot sector with the stack just
    below it and the interrupt vectors at 0.  EFER is cleared, as a special
    register and as an MSR; the other general registers, the FPU, the special
    registers it does not name and the MSRs that are not special registers keep
    their values. *)
Theorem real_mode_vcpu v v' (Hrun : init_vcpu_for_real_mode v = (v', Ok tt)) :
  ∃ r0 r1 s0 s1,
    (vcpu_get_regs v = Ok r0 ∧ vcpu_get_regs v' = Ok r1 ∧
     rip r1 = 0x7c00 ∧ rsp r1 = 0x7c00 ∧ rbp r1 = 0 ∧ rflags r1 = 2 ∧
     Forall (λ reg, reg r1 = reg r0)
       [rax; rbx; rcx; rdx; rsi; rdi; r8; r9; r10; r11; r12; r13; r14; r15]) ∧
    (vcpu_get_sregs v = Ok s0 ∧ vcpu_get_sregs v' = Ok s1 ∧
     (usable (cs s0) → real_mode s1 ∧ segment_fields (cs s1) = real_code ∧
        Forall (λ sg, segment_fields sg = real_data) [ds s1; es s1; fs s1; gs s1; ss s1]) ∧
     loaded (tr s0) (tr s1) ∧ dt_base (gdt s1) = 0 ∧ dt_limit (gdt s1) = 0xFFFF ∧
     cr0 s1 = 0x10 ∧ cr3 s1 = 0 ∧ cr4 s1 = 0 ∧ sr_rest s1 = sr_rest s0) ∧
    vcpu_get_fpu v' = vcpu_get_fpu v ∧
    vcpu_msrs v' !! MSR_EFER = Some 0 ∧
    (∀ i, ¬ sregs_msr i → vcpu_msrs v' !! i = vcpu_msrs v !! i).
Proof.
  apply init_vcpu_for_real_mode_inv in Hrun as (r0 & s0 & s1 & R0 & R1 & S0 & S1 & L & K & F & M).
  pose proof L as (Hseg & G1 & G2 & _ & _ & C0 & C3 & C4 & _).
  exists r0, (regs_for_real_mode r0), s0, s1. split_and!; try done.
  - repeat (apply Forall_cons_2; [done|]). done.
  - intros Hu. split; [by eapply sregs_for_real_mode_real|by eapply sregs_for_real_mode_segments].
  - unfold segments_of in Hseg. by decompose_Forall_hyps.
  - rewrite (vcpu_efer_msr _ _ S1). f_equal. apply L.
Qed.

End real_mode_facts.
