(* ===== verification/Serde.v ===== *)
(** * Serde: the snapshot format of snapshot.rs

    The hand-written [Serialize] and [Deserialize] implementations.  A
    serializer is given a value of serde's data model ([value]); a deserializer
    presents one to a visitor, whose [visit_map] or [visit_seq] the code
    defines, the other methods being serde's defaults, which reject.  Structs
    are presented as maps by self-describing formats such as JSON and as
    sequences by bincode.  serde's own implementations for integers, vectors and
    byte strings are parameters ([SerdeApi]) with their documented behaviour as
    laws; so is the format ([SelfDescribing]). *)

From S2P Require Import Prelude Errors Platform Kvm.

(** ** serde *)

(** Byte strings are given to a visitor as a temporary or owned buffer
    ([VBytes]) or borrowed from the input ([VBorrowed]). *)
#[warnings="-register-all"]
Inductive value : Type :=
| VNum (z : Z)
| VStr (s : string)
| VBytes (bs : list byte)
| VBorrowed (bs : list byte)
| VSeq (vs : list value)
| VMap (kvs : list (string * value)).

(** [de::Error]'s constructors the code and serde's own impls use. *)
Inductive de_error : Type :=
| DuplicateField (field : string)
| MissingField (field : string)
| InvalidType (unexpected expected : string)
| InvalidValue (z : Z)
| InvalidLength (len : Z) (expected : string).

Abbreviation de A := (res de_error A).

#[global] Instance res_ret {E} : MRet (res E) := λ A a, Ok a.
#[global] Instance res_bind {E} : MBind (res E) := λ A B f m,
  match m with Ok a => f a | Err e => Err e | Panic => Panic | OutOfFuel => OutOfFuel end.

(** [Unexpected] of a value *)
Definition unexpected (v : value) : string :=
  match v with
  | VNum z => "integer `" +:+ fmt_dec z +:+ "`"
  | VStr s => "string " +:+ s
  | VBytes _ | VBorrowed _ => "byte array"
  | VSeq _ => "sequence"
  | VMap _ => "map"
  end.

Definition invalid_type {A} (v : value) (expected : string) : de A :=
  Err (InvalidType (unexpected v) expected).

(** [while let Some(x) = seq.next_element()? { v.push(x) }] *)
Fixpoint de_list {A} (f : value → de A) (vs : list value) : de (list A) :=
  match vs with
  | [] => mret []
  | v :: vs' => a ← f v; l ← de_list f vs'; mret (a :: l)
  end.

Definition ser_u8s (bs : list byte) : value := VSeq (map (λ b, VNum (byte.unsigned b)) bs).

(** serde's [Deserialize] for unsigned integers of [w] bits, [Vec<T>], [(A, B)],
    [String], the borrowed [&[u8]] and [&serde_bytes::Bytes], and serde_bytes'
    [Vec<u8>]. *)
Class SerdeApi := {
  de_uint : Z → value → de Z;
  de_vec : ∀ {A : Type}, (value → de A) → value → de (list A);
  de_pair : ∀ {A B : Type}, (value → de A) → (value → de B) → value → de (A * B);
  de_string : value → de string;
  de_borrowed_bytes : value → de (list byte);
  de_byte_buf : value → de (list byte);
}.

(** Integers in range, sequences and strings are taken as they are.  serde_bytes'
    [Vec<u8>] takes byte strings of any kind and sequences of u8; the borrowed
    types take byte strings and strings borrowed from the input only. *)
Class SerdeLaws `{SerdeApi} : Prop := {
  de_uint_num w z : w ∈ [8; 32; 64] → 0 ≤ z < 2 ^ w → de_uint w (VNum z) = Ok z;
  de_vec_seq {A} (f : value → de A) vs : de_vec f (VSeq vs) = de_list f vs;
  de_pair_seq {A B} (f : value → de A) (g : value → de B) x y :
    de_pair f g (VSeq [x; y]) = (a ← f x; b ← g y; mret (a, b));
  de_string_str s : de_string (VStr s) = Ok s;
  de_borrowed_borrowed bs : de_borrowed_bytes (VBorrowed bs) = Ok bs;
  de_borrowed_owned bs : ∃ e, de_borrowed_bytes (VBytes bs) = Err e;
  de_borrowed_seq vs : ∃ e, de_borrowed_bytes (VSeq vs) = Err e;
  de_byte_buf_owned bs : de_byte_buf (VBytes bs) = Ok bs;
  de_byte_buf_borrowed bs : de_byte_buf (VBorrowed bs) = Ok bs;
  de_byte_buf_u8s bs : de_byte_buf (ser_u8s bs) = Ok bs;
}.

Definition de_u8 `{SerdeApi} (v : value) : de byte := z ← de_uint 8 v; mret (byte.of_Z z).

(** [while let Some(key) = map.next_key()? { match key { .. } }] *)
Fixpoint visit_entries {A} (step : A → string → value → de A) (acc : A) (kvs : list (string * value))
    : de A :=
  match kvs with
  | [] => mret acc
  | (k, v) :: kvs' => acc' ← step acc k v; visit_entries step acc' kvs'
  end.

(** [if x.is_some() { return Err(duplicate_field(..)) } x = Some(map.next_value()?)] *)
Definition set_once {A} (field : string) (x : option A) (next_value : de A) : de (option A) :=
  match x with
  | Some _ => Err (DuplicateField field)
  | None => a ← next_value; mret (Some a)
  end.

(** [x.ok_or_else(|| missing_field(..))?] *)
Definition require {A} (field : string) (x : option A) : de A := ok_or x (MissingField field).

(** ** Plain data *)

(** Structs the code reads and writes as raw memory ([slice::from_raw_parts],
    [ptr::read]): the byte image of a value whose fields are in range. *)
Class Pod (A : Type) := {
  size_of : nat;
  as_bytes : A → list byte;
  of_bytes : list byte → A;
  pod_ok : A → Prop;
}.
Arguments size_of A {_}.

Class PodLaws (A : Type) `{Pod A} : Prop := {
  length_as_bytes a : pod_ok a → length (as_bytes a) = size_of A;
  of_as_bytes a : pod_ok a → of_bytes (as_bytes a) = a;
}.

(** [SerdeRegs::from_regs] and its likes: a newtype over the bytes. *)
Definition from_pod {A} `{Pod A} (a : A) : value := VBytes (as_bytes a).

(** [SerdeRegs::into_regs] and its likes: [assert_eq!] on the length *)
Definition into_pod {A} `{Pod A} (bs : list byte) : de A :=
  if bool_decide (length bs = size_of A) then Ok (of_bytes bs) else Panic.

Section helpers.
Context {SA : SerdeApi}.

(** [let serde_x: SerdeX = map.next_value()?; serde_x.into_x()] *)
Definition de_pod {A} `{Pod A} (v : value) : de A := bs ← de_byte_buf v; into_pod bs.

(** ** kvm_regs, field by field *)

Definition serialize_kvm_regs (r : kvm_regs) : value :=
  VMap [("rax", VNum (rax r)); ("rbx", VNum (rbx r)); ("rcx", VNum (rcx r)); ("rdx", VNum (rdx r));
        ("rsi", VNum (rsi r)); ("rdi", VNum (rdi r)); ("rsp", VNum (rsp r)); ("rbp", VNum (rbp r));
        ("r8", VNum (r8 r)); ("r9", VNum (r9 r)); ("r10", VNum (r10 r)); ("r11", VNum (r11 r));
        ("r12", VNum (r12 r)); ("r13", VNum (r13 r)); ("r14", VNum (r14 r)); ("r15", VNum (r15 r));
        ("rip", VNum (rip r)); ("rflags", VNum (rflags r))].

(** The register file as the visitor's local variables. *)
Definition reg_names : list string :=
  ["rax"; "rbx"; "rcx"; "rdx"; "rsi"; "rdi"; "rsp"; "rbp"; "r8"; "r9"; "r10"; "r11"; "r12";
   "r13"; "r14"; "r15"; "rip"; "rflags"].

Definition regs_of_map (g : string → Z) : kvm_regs :=
  {| rax := g "rax"; rbx := g "rbx"; rcx := g "rcx"; rdx := g "rdx"; rsi := g "rsi"; rdi := g "rdi";
     rsp := g "rsp"; rbp := g "rbp"; r8 := g "r8"; r9 := g "r9"; r10 := g "r10"; r11 := g "r11";
     r12 := g "r12"; r13 := g "r13"; r14 := g "r14"; r15 := g "r15"; rip := g "rip";
     rflags := g "rflags" |}.

(** [regs.k = map.next_value()?]: a field starts at zero and may be set again;
    unknown keys are skipped. *)
Definition regs_step (regs : string → Z) (k : string) (v : value) : de (string → Z) :=
  if existsb (String.eqb k) reg_names then
    z ← de_uint 64 v; mret (λ k', if String.eqb k' k then z else regs k')
  else mret regs.

Definition deserialize_kvm_regs (v : value) : de kvm_regs :=
  match v with
  | VMap kvs => regs ← visit_entries regs_step (λ _, 0) kvs; mret (regs_of_map regs)
  | _ => invalid_type v "struct kvm_regs"
  end.

(** ** kvm_sregs and kvm_fpu, as raw bytes *)

Definition serialize_raw {A} `{Pod A} (a : A) : value := VBytes (as_bytes a).

Definition deserialize_raw {A} `{Pod A} (name : string) (v : value) : de A :=
  bytes ← de_borrowed_bytes v;
  if bool_decide (length bytes ≠ size_of A) then
    Err (InvalidLength (Z.of_nat (length bytes))
           (name +:+ " (expected " +:+ fmt_dec (Z.of_nat (size_of A)) +:+ " bytes)"))
  else mret (of_bytes bytes).

Definition serialize_kvm_sregs `{Pod kvm_sregs} (s : kvm_sregs) : value := serialize_raw s.
Definition deserialize_kvm_sregs `{Pod kvm_sregs} : value → de kvm_sregs := deserialize_raw "kvm_sregs".
Definition serialize_kvm_fpu `{Pod kvm_fpu} (f : kvm_fpu) : value := serialize_raw f.
Definition deserialize_kvm_fpu `{Pod kvm_fpu} : value → de kvm_fpu := deserialize_raw "kvm_fpu".

(** ** kvm_msr_entry *)

Definition serialize_kvm_msr_entry (e : kvm_msr_entry) : value :=
  VMap [("index", VNum (msr_index e)); ("reserved", VNum (msr_reserved e)); ("data", VNum (msr_data e))].

Definition msr_acc : Type := option Z * option Z * option Z.

Definition msr_step (acc : msr_acc) (k : string) (v : value) : de msr_acc :=
  let '(index, reserved, data) := acc in
  if String.eqb k "index" then x ← set_once "index" index (de_uint 32 v); mret (x, reserved, data)
  else if String.eqb k "reserved" then
    x ← set_once "reserved" reserved (de_uint 32 v); mret (index, x, data)
  else if String.eqb k "data" then x ← set_once "data" data (de_uint 64 v); mret (index, reserved, x)
  else mret acc.

Definition msr_finish (acc : msr_acc) : de kvm_msr_entry :=
  let '(index, reserved, data) := acc in
  index ← require "index" index;
  reserved ← require "reserved" reserved;
  data ← require "data" data;
  mret {| msr_index := index; msr_reserved := reserved; msr_data := data |}.

Definition deserialize_kvm_msr_entry (v : value) : de kvm_msr_entry :=
  match v with
  | VMap kvs => acc ← visit_entries msr_step (None, None, None) kvs; msr_finish acc
  | _ => invalid_type v "struct kvm_msr_entry"
  end.

(** [MsrEntrySerde] derives both directions: a map in, a map or a sequence out;
    its map visitor is the one above, as serde's derive generates it. *)
Definition ser_msr_entry_serde (e : kvm_msr_entry) : value := serialize_kvm_msr_entry e.

Definition de_msr_entry_serde (v : value) : de kvm_msr_entry :=
  match v with
  | VMap kvs => acc ← visit_entries msr_step (None, None, None) kvs; msr_finish acc
  | VSeq [i; r; d] =>
      i ← de_uint 32 i; r ← de_uint 32 r; d ← de_uint 64 d;
      mret {| msr_index := i; msr_reserved := r; msr_data := d |}
  | VSeq vs => Err (InvalidLength (Z.of_nat (length vs)) "struct MsrEntrySerde with 3 elements")
  | _ => invalid_type v "struct MsrEntrySerde"
  end.

Definition serialize_msr_entries (msrs : list kvm_msr_entry) : value :=
  VSeq (map ser_msr_entry_serde msrs).

Definition deserialize_msr_entries (v : value) : de (list kvm_msr_entry) :=
  match v with
  | VSeq vs => de_list de_msr_entry_serde vs
  | _ => invalid_type v "sequence of kvm_msr_entry"
  end.

(** ** MemoryRegion *)

Record MemoryRegion : Type := { guest_addr : Z; mr_size : Z; mr_data : list byte }.

Definition ser_memory_region (r : MemoryRegion) : value :=
  VMap [("guest_addr", VNum (guest_addr r)); ("size", VNum (mr_size r)); ("data", ser_u8s (mr_data r))].

Definition mr_acc : Type := option Z * option Z * option (list byte).

Definition mr_step (acc : mr_acc) (k : string) (v : value) : de mr_acc :=
  let '(ga, size, data) := acc in
  if String.eqb k "guest_addr" then x ← set_once "guest_addr" ga (de_uint 64 v); mret (x, size, data)
  else if String.eqb k "size" then x ← set_once "size" size (de_uint 64 v); mret (ga, x, data)
  else if String.eqb k "data" then x ← set_once "data" data (de_vec de_u8 v); mret (ga, size, x)
  else mret acc.

Definition mr_finish (acc : mr_acc) : de MemoryRegion :=
  let '(ga, size, data) := acc in
  ga ← require "guest_addr" ga;
  size ← require "size" size;
  data ← require "data" data;
  mret {| guest_addr := ga; mr_size := size; mr_data := data |}.

Definition de_memory_region (v : value) : de MemoryRegion :=
  match v with
  | VMap kvs => acc ← visit_entries mr_step (None, None, None) kvs; mr_finish acc
  | _ => invalid_type v "struct MemoryRegion"
  end.

(** ** DeviceState *)

Record DeviceState : Type := { ds_device_type : string; ds_state : list byte }.

Definition ser_device_state (d : DeviceState) : value :=
  VMap [("device_type", VStr (ds_device_type d)); ("state", VBytes (ds_state d))].

Definition ds_acc : Type := option string * option (list byte).

Definition ds_step (acc : ds_acc) (k : string) (v : value) : de ds_acc :=
  let '(ty, st) := acc in
  if String.eqb k "device_type" then x ← set_once "device_type" ty (de_string v); mret (x, st)
  else if String.eqb k "state" then x ← set_once "state" st (de_borrowed_bytes v); mret (ty, x)
  else mret acc.

Definition ds_finish (acc : ds_acc) : de DeviceState :=
  let '(ty, st) := acc in
  ty ← require "device_type" ty;
  st ← require "state" st;
  mret {| ds_device_type := ty; ds_state := st |}.

Definition de_device_state (v : value) : de DeviceState :=
  match v with
  | VMap kvs => acc ← visit_entries ds_step (None, None) kvs; ds_finish acc
  | _ => invalid_type v "struct DeviceState"
  end.

End helpers.

(** ** VcpuState and VmState *)

Record VcpuState : Type := {
  vs_id : Z; vs_regs : kvm_regs; vs_sregs : kvm_sregs; vs_fpu : kvm_fpu;
  vs_msrs : list kvm_msr_entry;
}.

Record VmState : Type := {
  memory_regions : list MemoryRegion;
  vcpu_states : list VcpuState;
  device_states : list DeviceState;
}.

Section states.
Context {SA : SerdeApi} `{PR : Pod kvm_regs} `{PS : Pod kvm_sregs} `{PF : Pod kvm_fpu}.

(** Model-specific registers travel as (index, data) pairs. *)
Definition ser_vcpu_state (s : VcpuState) : value :=
  VMap [("id", VNum (vs_id s)); ("regs", from_pod (vs_regs s)); ("sregs", from_pod (vs_sregs s));
        ("fpu", from_pod (vs_fpu s));
        ("msrs", VSeq (map (λ e, VSeq [VNum (msr_index e); VNum (msr_data e)]) (vs_msrs s)))].

Definition vs_acc : Type :=
  option Z * option kvm_regs * option kvm_sregs * option kvm_fpu * option (list kvm_msr_entry).

Definition msr_of_pair (p : Z * Z) : kvm_msr_entry :=
  {| msr_index := p.1; msr_reserved := 0; msr_data := p.2 |}.

Definition de_msr_pairs (v : value) : de (list kvm_msr_entry) :=
  ps ← de_vec (de_pair (de_uint 32) (de_uint 64)) v; mret (map msr_of_pair ps).

Definition vs_step (acc : vs_acc) (k : string) (v : value) : de vs_acc :=
  let '(id, regs, sregs, fpu, msrs) := acc in
  if String.eqb k "id" then
    x ← set_once "id" id (de_uint 32 v); mret (x, regs, sregs, fpu, msrs)
  else if String.eqb k "regs" then
    x ← set_once "regs" regs (de_pod v); mret (id, x, sregs, fpu, msrs)
  else if String.eqb k "sregs" then
    x ← set_once "sregs" sregs (de_pod v); mret (id, regs, x, fpu, msrs)
  else if String.eqb k "fpu" then
    x ← set_once "fpu" fpu (de_pod v); mret (id, regs, sregs, x, msrs)
  else if String.eqb k "msrs" then
    x ← set_once "msrs" msrs (de_msr_pairs v); mret (id, regs, sregs, fpu, x)
  else mret acc.

Definition vs_finish (acc : vs_acc) : de VcpuState :=
  let '(id, regs, sregs, fpu, msrs) := acc in
  id ← require "id" id;
  regs ← require "regs" regs;
  sregs ← require "sregs" sregs;
  fpu ← require "fpu" fpu;
  mret {| vs_id := id; vs_regs := regs; vs_sregs := sregs; vs_fpu := fpu;
          vs_msrs := default [] msrs |}.

Definition de_vcpu_state (v : value) : de VcpuState :=
  match v with
  | VMap kvs => acc ← visit_entries vs_step (None, None, None, None, None) kvs; vs_finish acc
  | _ => invalid_type v "struct VcpuState"
  end.

Definition ser_vm_state (s : VmState) : value :=
  VMap [("memory_regions", VSeq (map ser_memory_region (memory_regions s)));
        ("vcpu_states", VSeq (map ser_vcpu_state (vcpu_states s)));
        ("device_states", VSeq (map ser_device_state (device_states s)))].

Definition vm_acc : Type := option (list MemoryRegion) * option (list DeviceState) * option (list VcpuState).

Definition vm_step (acc : vm_acc) (k : string) (v : value) : de vm_acc :=
  let '(mem, dev, cpu) := acc in
  if String.eqb k "memory_regions" then
    x ← set_once "memory_regions" mem (de_vec de_memory_region v); mret (x, dev, cpu)
  else if String.eqb k "device_states" then
    x ← set_once "device_states" dev (de_vec de_device_state v); mret (mem, x, cpu)
  else if String.eqb k "vcpu_states" then
    x ← set_once "vcpu_states" cpu (de_vec de_vcpu_state v); mret (mem, dev, x)
  else mret acc.

Definition vm_finish (acc : vm_acc) : de VmState :=
  let '(mem, dev, cpu) := acc in
  mem ← require "memory_regions" mem;
  mret {| memory_regions := mem; device_states := default [] dev; vcpu_states := default [] cpu |}.

Definition de_vm_state (v : value) : de VmState :=
  match v with
  | VMap kvs => acc ← visit_entries vm_step (None, None, None) kvs; vm_finish acc
  | _ => invalid_type v "struct VmState"
  end.

End states.

(** ** Specification *)

(** What a self-describing format presents for a value it was given: itself, with
    byte strings as one of the three things a format can do with them. *)
Class SelfDescribing (present : value → value) : Prop := {
  present_num z : present (VNum z) = VNum z;
  present_str s : present (VStr s) = VStr s;
  present_seq vs : present (VSeq vs) = VSeq (map present vs);
  present_map kvs : present (VMap kvs) = VMap (map (λ kv, (kv.1, present kv.2)) kvs);
  present_bytes bs :
    present (VBytes bs) = VBorrowed bs ∨ present (VBytes bs) = VBytes bs ∨
    present (VBytes bs) = ser_u8s bs;
}.

Definition msr_ok (e : kvm_msr_entry) : Prop :=
  u32 (msr_index e) ∧ u32 (msr_reserved e) ∧ u64 (msr_data e).

Definition region_ok (r : MemoryRegion) : Prop := u64 (guest_addr r) ∧ u64 (mr_size r).

Definition vcpu_state_ok `{Pod kvm_regs, Pod kvm_sregs, Pod kvm_fpu} (s : VcpuState) : Prop :=
  u32 (vs_id s) ∧ pod_ok (vs_regs s) ∧ pod_ok (vs_sregs s) ∧ pod_ok (vs_fpu s) ∧
  Forall msr_ok (vs_msrs s).

Definition forget_reserved (e : kvm_msr_entry) : kvm_msr_entry :=
  {| msr_index := msr_index e; msr_reserved := 0; msr_data := msr_data e |}.

(** How often a key occurs in a map. *)
Fixpoint key_count (k : string) (kvs : list (string * value)) : nat :=
  match kvs with
  | [] => 0
  | kv :: kvs' => if String.eqb kv.1 k then S (key_count k kvs') else key_count k kvs'
  end.

Definition is_set {A} (x : option A) : nat := match x with Some _ => 1 | None => 0 end.

(** A state with the reserved words of its MSR entries cleared. *)
Definition clear_vcpu (c : VcpuState) : VcpuState :=
  {| vs_id := vs_id c; vs_regs := vs_regs c; vs_sregs := vs_sregs c; vs_fpu := vs_fpu c;
     vs_msrs := map forget_reserved (vs_msrs c) |}.

Definition clear_reserved (s : VmState) : VmState :=
  {| memory_regions := memory_regions s; vcpu_states := map clear_vcpu (vcpu_states s);
     device_states := device_states s |}.

(** ** Lemmas *)

(** Element-wise round trips lift to sequences. *)
Lemma de_list_map {A B} (f : value → de B) (ser : A → value) (g : A → B) l :
  (∀ a, a ∈ l → f (ser a) = Ok (g a)) → de_list f (map ser l) = Ok (map g l).
Proof.
  induction l as [|a l IH]; intros Hf; simpl; [done|].
  rewrite Hf by set_solver. simpl. rewrite IH by set_solver. done.
Qed.

Section format.
Context `{SL : SerdeLaws} {present : value → value} `{SD : !SelfDescribing present}.

Lemma de_u32 z : u32 z → de_uint 32 (VNum z) = Ok z.
Proof. intros. apply de_uint_num; [set_solver|done]. Qed.

Lemma de_u64 z : u64 z → de_uint 64 (VNum z) = Ok z.
Proof. intros. apply de_uint_num; [set_solver|done]. Qed.

Lemma present_u8s bs : present (ser_u8s bs) = ser_u8s bs.
Proof.
  unfold ser_u8s. rewrite present_seq, map_map. f_equal. apply map_ext. intros. apply present_num.
Qed.

Lemma de_u8s bs : de_vec de_u8 (ser_u8s bs) = Ok bs.
Proof.
  unfold ser_u8s. rewrite de_vec_seq.
  etrans; [apply (de_list_map de_u8 (λ b, VNum (byte.unsigned b)) id)|by rewrite map_id].
  intros b _. unfold de_u8. rewrite de_uint_num; [|set_solver|apply byte.unsigned_range]. simpl.
  by rewrite byte.of_Z_unsigned.
Qed.

Lemma de_byte_buf_present bs : de_byte_buf (present (VBytes bs)) = Ok bs.
Proof.
  destruct (present_bytes bs) as [->|[->| ->]];
    [apply de_byte_buf_borrowed|apply de_byte_buf_owned|apply de_byte_buf_u8s].
Qed.

Lemma de_pod_present `{PodLaws A} (a : A) :
  pod_ok a → de_pod (present (from_pod a)) = Ok a.
Proof.
  intros Ha. unfold de_pod, from_pod. rewrite de_byte_buf_present. simpl. unfold into_pod.
  rewrite bool_decide_true by by apply length_as_bytes. by rewrite of_as_bytes.
Qed.

Lemma memory_region_present r :
  region_ok r → de_memory_region (present (ser_memory_region r)) = Ok r.
Proof.
  intros [Ha Hs]. destruct r as [ga sz d]. unfold ser_memory_region.
  rewrite present_map. cbn [map fst snd guest_addr mr_size mr_data]. rewrite present_u8s, !present_num.
  pose proof (de_u8s d) as Hd. set (v := ser_u8s d) in *. clearbody v.
  cbn. rewrite !de_u64 by done. cbn. rewrite !de_u64 by done. cbn. by rewrite Hd.
Qed.

Lemma de_msr_pairs_present l :
  Forall msr_ok l →
  de_msr_pairs (present (VSeq (map (λ e, VSeq [VNum (msr_index e); VNum (msr_data e)]) l))) =
  Ok (map forget_reserved l).
Proof.
  intros Hl. unfold de_msr_pairs. rewrite present_seq, de_vec_seq, map_map.
  rewrite (de_list_map _ _ (λ e, (msr_index e, msr_data e))).
  - cbn. by rewrite map_map.
  - intros e He. apply list_elem_of_lookup in He as [i Hi].
    rewrite Forall_lookup in Hl. destruct (Hl _ _ Hi) as (? & ? & ?).
    rewrite present_seq. cbn [map]. rewrite !present_num, de_pair_seq.
    cbn. rewrite de_u32 by done. cbn. by rewrite de_u64.
Qed.

(** A device state is read back iff the format lends out its bytes. *)
Lemma device_state_present d :
  de_device_state (present (ser_device_state d)) =
  (bs ← de_borrowed_bytes (present (VBytes (ds_state d)));
   mret {| ds_device_type := ds_device_type d; ds_state := bs |}).
Proof.
  unfold ser_device_state. rewrite present_map. cbn. rewrite present_str, de_string_str. cbn.
  by destruct (de_borrowed_bytes _).
Qed.

Lemma device_state_borrowed d :
  present (VBytes (ds_state d)) = VBorrowed (ds_state d) →
  de_device_state (present (ser_device_state d)) = Ok d.
Proof. intros Hb. rewrite device_state_present, Hb, de_borrowed_borrowed. by destruct d. Qed.

Lemma device_state_refused d :
  present (VBytes (ds_state d)) ≠ VBorrowed (ds_state d) →
  ∃ e, de_device_state (present (ser_device_state d)) = Err e.
Proof.
  intros Hb. rewrite device_state_present. destruct (present_bytes (ds_state d)) as [?|[->| ->]]; [done|..].
  - destruct (de_borrowed_owned (ds_state d)) as [e ->]. by exists e.
  - unfold ser_u8s. edestruct de_borrowed_seq as [e ->]. by exists e.
Qed.

Lemma device_states_refused ds :
  Exists (λ d, present (VBytes (ds_state d)) ≠ VBorrowed (ds_state d)) ds →
  ∃ e, de_list de_device_state (map (λ d, present (ser_device_state d)) ds) = Err e.
Proof.
  induction ds as [|d ds IH]; intros Hd; [by apply Exists_nil in Hd|]. cbn.
  destruct (present_bytes (ds_state d)) as [Hb|Hb].
  - apply Exists_cons in Hd as [Hd|Hd]; [done|]. rewrite device_state_borrowed by done. cbn.
    destruct (IH Hd) as [e ->]. by exists e.
  - destruct (device_state_refused d) as [e ->]; [|by exists e].
    unfold ser_u8s in Hb. intros Hn. rewrite Hn in Hb. by destruct Hb.
Qed.

End format.

Section roundtrip.
Context `{SL : SerdeLaws} {present : value → value} `{SD : !SelfDescribing present}.
Context `{PR : PodLaws kvm_regs} `{PS : PodLaws kvm_sregs} `{PF : PodLaws kvm_fpu}.

Lemma vcpu_state_present s :
  vcpu_state_ok s →
  de_vcpu_state (present (ser_vcpu_state s)) = Ok (clear_vcpu s).
Proof.
  intros (Hid & Hr & Hs & Hf & Hm). unfold ser_vcpu_state.
  pose proof (de_pod_present _ Hr) as Er. pose proof (de_pod_present _ Hs) as Es.
  pose proof (de_pod_present _ Hf) as Ef. pose proof (de_msr_pairs_present _ Hm) as Em.
  set (vr := from_pod (vs_regs s)) in *. set (vs := from_pod (vs_sregs s)) in *.
  set (vf := from_pod (vs_fpu s)) in *. set (vm := VSeq _) in *. clearbody vr vs vf vm.
  rewrite present_map. cbn [map fst snd]. rewrite present_num. cbn -[de_pod de_msr_pairs].
  rewrite de_u32 by done. cbn -[de_pod de_msr_pairs].
  rewrite Er. cbn -[de_pod de_msr_pairs]. rewrite Es. cbn -[de_pod de_msr_pairs].
  rewrite Ef. cbn -[de_pod de_msr_pairs]. rewrite Em. done.
Qed.

(** The visitor on the three fields in the order they are written. *)
Lemma de_vm_state_fields vm vc vd :
  de_vm_state (VMap [("memory_regions", VSeq vm); ("vcpu_states", VSeq vc); ("device_states", VSeq vd)])
  = (m ← de_list de_memory_region vm; c ← de_list de_vcpu_state vc; d ← de_list de_device_state vd;
     mret {| memory_regions := m; vcpu_states := c; device_states := d |}).
Proof.
  cbn. rewrite de_vec_seq. destruct (de_list de_memory_region vm); cbn; try done.
  rewrite de_vec_seq. destruct (de_list de_vcpu_state vc); cbn; try done.
  rewrite de_vec_seq. by destruct (de_list de_device_state vd).
Qed.

Lemma de_memory_regions_present l :
  Forall region_ok l → de_list de_memory_region (map (λ r, present (ser_memory_region r)) l) = Ok l.
Proof.
  intros Hl. rewrite <- (map_id l) at 2. apply de_list_map. intros r [i Hi]%list_elem_of_lookup.
  rewrite Forall_lookup in Hl. eapply memory_region_present, Hl, Hi.
Qed.

Lemma de_vcpu_states_present l :
  Forall vcpu_state_ok l →
  de_list de_vcpu_state (map (λ r, present (ser_vcpu_state r)) l) = Ok (map clear_vcpu l).
Proof.
  intros Hl. apply de_list_map. intros r [i Hi]%list_elem_of_lookup.
  rewrite Forall_lookup in Hl. eapply vcpu_state_present, Hl, Hi.
Qed.

(** Each key the visitor keeps is seen once, and then its field is set. *)
Lemma vm_entries_count kvs mem dev cpu mem' dev' cpu' :
  visit_entries vm_step (mem, dev, cpu) kvs = Ok (mem', dev', cpu') →
  (is_set mem + key_count "memory_regions" kvs = is_set mem' ∧
   is_set dev + key_count "device_states" kvs = is_set dev' ∧
   is_set cpu + key_count "vcpu_states" kvs = is_set cpu')%nat.
Proof.
  revert mem dev cpu. induction kvs as [|[k v] kvs IH]; intros mem dev cpu Hv; simpl in Hv.
  { unfold mret, res_ret in Hv. simplify_eq. simpl. lia. }
  unfold vm_step in Hv at 1. simpl key_count.
  destruct (String.eqb_spec k "memory_regions") as [->|Hk1].
  { destruct mem; simpl in Hv; [done|]. destruct (de_vec _ v); simpl in Hv; try done.
    apply IH in Hv. simpl in *. lia. }
  destruct (String.eqb_spec k "device_states") as [->|Hk2].
  { destruct dev; simpl in Hv; [done|]. destruct (de_vec _ v); simpl in Hv; try done.
    apply IH in Hv. simpl in *. lia. }
  destruct (String.eqb_spec k "vcpu_states") as [->|Hk3].
  { destruct cpu; simpl in Hv; [done|]. destruct (de_vec _ v); simpl in Hv; try done.
    apply IH in Hv. simpl in *. lia. }
  simpl in Hv. by apply IH in Hv.
Qed.

(** C24: what becomes of a snapshot written with a self-describing format and
    read back.  It is the snapshot that was written, with the reserved words of
    MSR entries cleared, if the format lends out the bytes of every device state
    from its input; it is refused if there is a device state whose bytes come
    back as an owned buffer (as when reading from a stream) or as a sequence of
    numbers (JSON). *)
Theorem vm_state_roundtrip (st : VmState)
    (Hmem : Forall region_ok (memory_regions st)) (Hcpu : Forall vcpu_state_ok (vcpu_states st)) :
  (Forall (λ d, present (VBytes (ds_state d)) = VBorrowed (ds_state d)) (device_states st) →
   de_vm_state (present (ser_vm_state st)) = Ok (clear_reserved st)) ∧
  (Exists (λ d, present (VBytes (ds_state d)) ≠ VBorrowed (ds_state d)) (device_states st) →
   ∃ e, de_vm_state (present (ser_vm_state st)) = Err e).
Proof.
  unfold ser_vm_state. rewrite present_map. cbn [map fst snd]. rewrite !present_seq, !map_map.
  rewrite de_vm_state_fields, de_memory_regions_present by done. cbn [mbind res_bind].
  rewrite de_vcpu_states_present by done. cbn [mbind res_bind]. split; intros Hdev.
  - rewrite (de_list_map _ _ id); [by rewrite map_id|].
    intros d [i Hi]%list_elem_of_lookup. apply device_state_borrowed.
    rewrite Forall_lookup in Hdev. by eapply Hdev.
  - destruct (device_states_refused _ Hdev) as [e ->]. by exists e.
Qed.

(** C25: a snapshot is accepted only with exactly one list of memory regions and
    at most one list of vCPU and of device states; unknown keys do not matter. *)
Theorem vm_state_strict kvs (st : VmState) (Hde : de_vm_state (VMap kvs) = Ok st) :
  key_count "memory_regions" kvs = 1%nat ∧ (key_count "vcpu_states" kvs ≤ 1)%nat ∧
  (key_count "device_states" kvs ≤ 1)%nat.
Proof.
  cbn in Hde. destruct (visit_entries vm_step _ kvs) as [[[mem dev] cpu]| | |] eqn:Hv; try done.
  pose proof (vm_entries_count _ _ _ _ _ _ _ Hv) as (Hm & Hd & Hc). simpl in *.
  destruct mem; [|done]. destruct dev, cpu; simpl in *; lia.
Qed.

(** The field-by-field and raw-byte helpers read back what they write: the
    general registers from a map of their 18 names, segment registers and FPU
    from their byte images when these are borrowed from the input, MSR entries
    (with the reserved word) from maps. *)
Theorem kvm_helpers_roundtrip (r : kvm_regs) (s : kvm_sregs) (f : kvm_fpu) es
    (Hr : Forall u64 [rax r; rbx r; rcx r; rdx r; rsi r; rdi r; rsp r; rbp r; r8 r; r9 r; r10 r;
                      r11 r; r12 r; r13 r; r14 r; r15 r; rip r; rflags r])
    (Hs : pod_ok s) (Hf : pod_ok f) (He : Forall msr_ok es)
    (Hlend : ∀ bs, present (VBytes bs) = VBorrowed bs) :
  deserialize_kvm_regs (serialize_kvm_regs r) = Ok r ∧
  deserialize_kvm_sregs (present (serialize_kvm_sregs s)) = Ok s ∧
  deserialize_kvm_fpu (present (serialize_kvm_fpu f)) = Ok f ∧
  deserialize_msr_entries (serialize_msr_entries es) = Ok es ∧
  Forall (λ e, deserialize_kvm_msr_entry (serialize_kvm_msr_entry e) = Ok e) es.
Proof.
  assert (Hraw : ∀ A `{PodLaws A} name (a : A), pod_ok a →
    deserialize_raw name (present (serialize_raw a)) = Ok a).
  { intros A ?? name a Ha. unfold deserialize_raw, serialize_raw. rewrite Hlend, de_borrowed_borrowed.
    cbn. rewrite bool_decide_false, of_as_bytes by (rewrite ?length_as_bytes by done; auto). done. }
  assert (Hmsr : ∀ e, msr_ok e → de_msr_entry_serde (ser_msr_entry_serde e) = Ok e).
  { intros [i rs d] (? & ? & ?). cbn. rewrite de_u32 by done. cbn. rewrite de_u32 by done. cbn.
    by rewrite de_u64. }
  rewrite Forall_lookup in He. split_and!; try (by apply Hraw).
  - destruct r. unfold serialize_kvm_regs. cbn -[u64] in Hr |- *.
    repeat (apply Forall_cons_1 in Hr as [? Hr]).
    repeat (rewrite de_u64 by done; cbn). done.
  - rewrite <- (map_id es) at 2. apply de_list_map. intros e [i Hi]%list_elem_of_lookup. eauto.
  - apply Forall_lookup. intros i e Hi. exact (Hmsr e (He i e Hi)).
Qed.

End roundtrip.
