(* ===== verification/Snapshot.v ===== *)
(** * Snapshot: the snapshot manager of snapshot.rs

    Saving and restoring guest memory in 4096-byte chunks and the vCPUs'
    registers, and the snapshot file.  serde and bincode are parameters
    ([SnapshotIo]). *)

From S2P Require Import Prelude Errors Platform Host VirtioMmio Kvm Memory Vcpu Serde.

(** [Box<dyn Error>], as the errors that are boxed *)
Inductive box_error : Type :=
| BoxHv (e : HypervisorError)
| BoxIo (e : io_error)
| BoxBincode (msg : string).

Definition box_to_string (e : box_error) : string :=
  match e with
  | BoxHv e => to_string e
  | BoxIo e => io_msg e
  | BoxBincode msg => msg
  end.

(** The [Display] of serde's error constructors *)
Definition de_error_to_string (e : de_error) : string :=
  match e with
  | DuplicateField f => "duplicate field `" +:+ f +:+ "`"
  | MissingField f => "missing field `" +:+ f +:+ "`"
  | InvalidType u x => "invalid type: " +:+ u +:+ ", expected " +:+ x
  | InvalidValue z => "invalid value: integer `" +:+ fmt_dec z +:+ "`"
  | InvalidLength n x => "invalid length " +:+ fmt_dec n +:+ ", expected " +:+ x
  end.

(** [slice.chunks(n)] *)
Fixpoint chunks_fuel (fuel n : nat) (l : list byte) : list (list byte) :=
  match fuel, l with
  | S f, _ :: _ => take n l :: chunks_fuel f n (drop n l)
  | _, _ => []
  end.

Definition chunks (n : nat) (l : list byte) : list (list byte) := chunks_fuel (length l) n l.

Definition CHUNK : Z := 4096.

Section manager.
Context `{KA : KvmApi} {BP : BuildProfile}.

(** ** Memory *)

(** The chunks of one region, the first of them the [k]-th. *)
Fixpoint read_chunks (m : GMem) (region : nat) (k : Z) (cs : list (list byte))
    : res box_error (list (list byte)) :=
  match cs with
  | [] => mret []
  | chunk :: cs' =>
      let offset := k * CHUNK in
      match gm_region_read m region chunk offset with
      | (_, Some e) => Err (BoxHv (MemoryError
          ("Failed to read memory at 0x" +:+ fmt_hex offset +:+ ": " +:+ e)))
      | (chunk', None) => rest ← read_chunks m region (k + 1) cs'; mret (chunk' :: rest)
      end
  end.

Definition save_region (m : GMem) (region : nat) (r : Z * Z) : res box_error MemoryRegion :=
  let mem_size := r.2 in
  data ← read_chunks m region 0 (chunks (Z.to_nat CHUNK) (zeros (Z.to_nat mem_size)));
  mret {| guest_addr := r.1; mr_size := mem_size; mr_data := concat data |}.

Fixpoint save_regions (m : GMem) (i : nat) (rs : list (Z * Z)) : res box_error (list MemoryRegion) :=
  match rs with
  | [] => mret []
  | r :: rs' => x ← save_region m i r; l ← save_regions m (S i) rs'; mret (x :: l)
  end.

Definition save_memory (m : GMem) : res box_error (list MemoryRegion) :=
  save_regions m 0 (gm_regions m).

Fixpoint write_chunks (region : nat) (region_offset ga k : Z) (cs : list (list byte))
    : prog GMem box_error unit :=
  match cs with
  | [] => mret tt
  | chunk :: cs' =>
      offset ← plift (add_u64 region_offset (k * CHUNK));
      addr ← plift (add_u64 ga (k * CHUNK));
      (λ m, let '(m', e) := gm_region_write m region chunk offset in
            (m', match e with
                 | None => Ok tt
                 | Some e => Err (BoxHv (MemoryError
                     ("Failed to write memory at 0x" +:+ fmt_hex addr +:+ ": " +:+ e)))
                 end));;
      write_chunks region region_offset ga (k + 1) cs'
  end.

Definition overflow_or {S A} (o : option A) (msg : string) : prog S box_error A :=
  plift (ok_or o (BoxHv (MemoryError msg))).

Definition restore_region (r : MemoryRegion) : prog GMem box_error unit :=
  m ← pget;
  match gm_find_region m (guest_addr r) with
  | Some region =>
      (* the index [find_region] returned is one of the regions *)
      '(region_start, region_len) ← plift (match gm_regions m !! region with
                                          | Some x => Ok x | None => Panic end);
      region_end ← overflow_or (checked_add_u64 region_start region_len) "Region end overflow";
      mem_region_end ← overflow_or (checked_add_u64 (guest_addr r) (mr_size r))
                         "Memory region end overflow";
      if bool_decide (guest_addr r < region_start) || bool_decide (region_end < mem_region_end) then
        perr (BoxHv (MemoryError ("Memory region 0x" +:+ fmt_hex (guest_addr r) +:+ " size " +:+
          fmt_dec (mr_size r) +:+ " doesn't fit in guest memory")))
      else
        write_chunks region (guest_addr r - region_start) (guest_addr r) 0
          (chunks (Z.to_nat CHUNK) (mr_data r))
  | None => perr (BoxHv (MemoryError
      ("No memory region found for guest address 0x" +:+ fmt_hex (guest_addr r))))
  end.

Definition restore_memory (regions : list MemoryRegion) : prog GMem box_error unit :=
  for_each regions restore_region.

(** ** vCPUs *)

(** [.map_err(|e| io::Error::new(io::ErrorKind::Other, e))?] *)
Definition box_get {A} (r : res string A) : res box_error A :=
  match r with
  | Ok a => Ok a
  | Err e => Err (BoxIo (IoErr Other e))
  | Panic => Panic
  | OutOfFuel => OutOfFuel
  end.

Definition box_set {A} (set : VcpuFd → A → VcpuFd * option string) (a : A)
    : prog VcpuFd box_error unit := λ v,
  let '(v', e) := set v a in
  (v', match e with None => Ok tt | Some e => Err (BoxIo (IoErr Other e)) end).

Definition save_vcpu_state (vcpu : Vcpu) : res box_error VcpuState :=
  regs ← box_get (vcpu_get_regs (fd vcpu));
  sregs ← box_get (vcpu_get_sregs (fd vcpu));
  fpu ← box_get (vcpu_get_fpu (fd vcpu));
  mret {| vs_id := as_u32 (vcpu_id vcpu); vs_regs := regs; vs_sregs := sregs; vs_fpu := fpu;
          vs_msrs := [] |}.

Definition restore_vcpu_state (st : VcpuState) : prog VcpuFd box_error unit :=
  box_set vcpu_set_regs (vs_regs st);;
  box_set vcpu_set_sregs (vs_sregs st);;
  box_set vcpu_set_fpu (vs_fpu st).

(** ** Snapshots *)

Fixpoint save_vcpus (vcpus : list Vcpu) : res box_error (list VcpuState) :=
  match vcpus with
  | [] => mret []
  | v :: vs => s ← save_vcpu_state v; l ← save_vcpus vs; mret (s :: l)
  end.

Definition create_snapshot (m : GMem) (vcpus : list Vcpu) : res box_error VmState :=
  regions ← save_memory m;
  states ← save_vcpus vcpus;
  mret {| memory_regions := regions; vcpu_states := states; device_states := [] |}.

(** [if let Some(vcpu) = vcpus.get_mut(i) { self.restore_vcpu_state(vcpu, s)?; }] *)
Definition restore_nth (i : nat) (s : VcpuState) : prog (list Vcpu) box_error unit := λ vcpus,
  match vcpus !! i with
  | Some vcpu =>
      let '(fd', r) := restore_vcpu_state s (fd vcpu) in
      (<[i := {| fd := fd'; vcpu_id := vcpu_id vcpu |}]> vcpus, r)
  | None => (vcpus, Ok tt)
  end.

Fixpoint restore_vcpus (i : nat) (states : list VcpuState) : prog (list Vcpu) box_error unit :=
  match states with
  | [] => mret tt
  | s :: states' => restore_nth i s;; restore_vcpus (S i) states'
  end.

Definition restore_snapshot (st : VmState) : prog (GMem * list Vcpu) box_error unit :=
  zoom fst (λ m s, (m, s.2)) (restore_memory (memory_regions st));;
  zoom snd (λ v s, (s.1, v)) (restore_vcpus 0 (vcpu_states st)).

(** ** Files *)

(** The host's files by path; [File::create] and [File::open] may fail.
    [serde_api] are serde's own deserializers;
    [bincode_write] is what [serialize_into] writes and its error;
    [bincode_read_struct] is what [deserialize_from] presents to the visitor of
    a struct. *)
Class SnapshotIo := {
  serde_api :: SerdeApi;
  create_error : string → option io_error;
  open_error : string → option io_error;
  bincode_write : value → list byte * option string;
  bincode_read_struct : list byte → res string value;
}.

(** bincode is not self-describing: it presents a struct as a sequence. *)
Class SnapshotIoLaws `{SnapshotIo} : Prop := {
  bincode_struct_seq bs v : bincode_read_struct bs = Ok v → ∃ vs, v = VSeq vs;
  bincode_outcome bs : bincode_read_struct bs ≠ Panic ∧ bincode_read_struct bs ≠ OutOfFuel;
}.

Definition Files : Type := gmap string (list byte).

Context {IO : SnapshotIo} {PR : Pod kvm_regs} {PS : Pod kvm_sregs} {PF : Pod kvm_fpu}.

(** [File::create(path)?]: an existing file is truncated *)
Definition file_create (path : string) : prog Files box_error unit := λ files,
  match create_error path with
  | Some e => (files, Err (BoxIo e))
  | None => (<[path := []]> files, Ok tt)
  end.

(** [bincode::serialize_into(file, &state)?] *)
Definition serialize_into (path : string) (v : value) : prog Files box_error unit := λ files,
  let '(bs, e) := bincode_write v in
  (<[path := bs]> files, match e with None => Ok tt | Some e => Err (BoxBincode e) end).

Definition save_to_file (path : string) (m : GMem) (vcpus : list Vcpu) : prog Files box_error unit :=
  state ← plift (create_snapshot m vcpus);
  file_create path;;
  serialize_into path (ser_vm_state state).

Definition read_snapshot_file (files : Files) (path : string) : res box_error (list byte) :=
  match open_error path, files !! path with
  | Some e, _ => Err (BoxIo e)
  | None, Some bs => Ok bs
  | None, None => Err (BoxIo (IoErr NotFound "No such file or directory"))
  end.

(** [bincode::deserialize_from(file)?] *)
Definition deserialize_from (bs : list byte) : res box_error VmState :=
  match bincode_read_struct bs with
  | Ok v =>
      match de_vm_state v with
      | Ok st => Ok st
      | Err e => Err (BoxBincode (de_error_to_string e))
      | Panic => Panic
      | OutOfFuel => OutOfFuel
      end
  | Err e => Err (BoxBincode e)
  | Panic => Panic
  | OutOfFuel => OutOfFuel
  end.

Definition load_from_file (files : Files) (path : string) : prog (GMem * list Vcpu) box_error unit :=
  bs ← plift (read_snapshot_file files path);
  state ← plift (deserialize_from bs);
  restore_snapshot state.

End manager.

(** ** Lemmas *)

Section memory_facts.
Context `{ML : MemoryLaws} {BP : BuildProfile}.
Implicit Types (m : GMem) (r : MemoryRegion).

Lemma chunk_zeros len :
  (0 < len)%nat → ∃ b l, zeros len = b :: l.
Proof. destruct len; [lia|]. intros _. by eexists _, _. Qed.

(** Reading a region chunk by chunk yields its bytes. *)
Lemma read_chunks_ok m i st ln fuel k len :
  gm_regions m !! i = Some (st, ln) → 0 ≤ k →
  len = 0%nat ∨ k * CHUNK + Z.of_nat len ≤ ln → (len ≤ fuel)%nat →
  ∃ cs, read_chunks m i k (chunks_fuel fuel (Z.to_nat CHUNK) (zeros len)) = Ok cs ∧
        view_bytes (gm_byte m) (st + k * CHUNK) len = Some (concat cs).
Proof.
  intros Hi. revert k len. induction fuel as [|fuel IH]; intros k len Hk Hfit Hlen.
  { assert (len = 0)%nat as -> by lia. by exists []. }
  destruct (decide (len = 0)%nat) as [->|Hpos]; [by exists []|].
  destruct (chunk_zeros len) as (b & l & Hz); [lia|]. cbn [chunks_fuel]. rewrite Hz. rewrite <- Hz.
  unfold zeros at 1 2. rewrite take_replicate, drop_replicate. fold (zeros (Z.to_nat CHUNK `min` len)).
  fold (zeros (len - Z.to_nat CHUNK)). set (c := (Z.to_nat CHUNK `min` len)%nat).
  assert (Hc : Z.of_nat c = Z.min CHUNK (Z.of_nat len)) by (unfold c, CHUNK; lia).
  assert (HC : CHUNK = 4096) by done. cbn [read_chunks].
  destruct (gm_region_read m i (zeros c) (k * CHUNK)) as [buf e] eqn:Hr.
  pose proof (gm_region_read_ok m i st ln (zeros c) (k * CHUNK) Hi) as Hok.
  rewrite length_zeros, Hr in Hok. simpl in Hok. rewrite Hok in * by lia. clear Hok e.
  destruct (IH (k + 1) (len - Z.to_nat CHUNK)%nat) as (cs & Hcs & Hv); [lia..|].
  rewrite Hcs. exists (buf :: cs). split; [done|]. simpl concat.
  replace len with (c + (len - Z.to_nat CHUNK))%nat by lia. apply view_bytes_app.
  - apply view_bytes_spec. split; [by erewrite gm_region_read_length, length_zeros by done|].
    intros j Hj. erewrite gm_region_read_bytes; [done|exact Hi|exact Hr|by rewrite length_zeros].
  - destruct (decide (len ≤ Z.to_nat CHUNK)%nat).
    + replace (len - Z.to_nat CHUNK)%nat with 0%nat in * by lia.
      apply view_bytes_spec in Hv as [Hv _]. apply view_bytes_spec. split; [done|lia].
    + replace (st + k * CHUNK + Z.of_nat c) with (st + (k + 1) * CHUNK) by lia. done.
Qed.

(** Writing a buffer chunk by chunk stores all of it. *)
Lemma write_chunks_ok i st ln off fuel k data m :
  gm_regions m !! i = Some (st, ln) → 0 ≤ off → 0 ≤ k →
  length data = 0%nat ∨ off + k * CHUNK + Z.of_nat (length data) ≤ ln → (length data ≤ fuel)%nat →
  ∃ m', write_chunks i off (st + off) k (chunks_fuel fuel (Z.to_nat CHUNK) data) m = (m', Ok tt) ∧
    gm_regions m' = gm_regions m ∧
    ∀ x, gm_byte m' x = overlay (gm_byte m) (st + off + k * CHUNK) data x.
Proof.
  intros Hi. revert k data m Hi. induction fuel as [|fuel IH]; intros k data m Hi Ho Hk Hfit Hlen.
  { destruct data; [|simpl in Hlen; lia]. exists m. split_and!; [done..|]. intros. by rewrite overlay_nil. }
  destruct data as [|b data'] eqn:Hd; [exists m; split_and!; [done..|intros; by rewrite overlay_nil]|].
  rewrite <- Hd in *. cbn [chunks_fuel]. rewrite Hd, <- Hd. cbn [write_chunks].
  assert (HC : CHUNK = 4096) by done. assert (Hpos : (0 < length data)%nat) by (subst; simpl; lia).
  destruct (gm_region_range m i st ln Hi) as (R1 & R2 & R3).
  set (c := take (Z.to_nat CHUNK) data).
  assert (Hc : Z.of_nat (length c) = Z.min CHUNK (Z.of_nat (length data)))
    by (unfold c; rewrite length_take; lia).
  rewrite (add_u64_fits off), bind_plift_ok by (unfold u64; lia).
  rewrite (add_u64_fits (st + off)), bind_plift_ok by (unfold u64; lia). unfold mbind at 1, prog_bind at 1.
  destruct (gm_region_write m i c (off + k * CHUNK)) as [m1 e] eqn:Hw.
  pose proof (gm_region_write_ok m i st ln c (off + k * CHUNK) Hi) as Hok.
  rewrite Hw in Hok. simpl in Hok. rewrite Hok in * by lia. clear Hok e.
  pose proof (gm_region_write_bytes _ _ _ _ _ _ _ Hi Hw) as Hb.
  pose proof (gm_region_write_regions _ _ _ _ _ _ Hw) as Hr.
  destruct (IH (k + 1) (drop (Z.to_nat CHUNK) data) m1) as (m' & Hm & Hr' & Hx);
    [by rewrite Hr|done|lia|rewrite length_drop; lia..|].
  exists m'. split_and!; [done|congruence|]. intros x. rewrite Hx.
  rewrite <- (take_drop (Z.to_nat CHUNK) data) at 2. fold c. rewrite <- overlay_app.
  assert (Hdrop : Z.of_nat (length c) = CHUNK ∨ drop (Z.to_nat CHUNK) data = []).
  { destruct (decide (length data ≤ Z.to_nat CHUNK)%nat); [right; by apply drop_ge|left; lia]. }
  assert (Hf : ∀ y, gm_byte m1 y = overlay (gm_byte m) (st + off + k * CHUNK) c y)
    by (intros y; rewrite Hb; f_equal; lia).
  destruct Hdrop as [-> | ->]; [|by rewrite !overlay_nil].
  replace (st + off + (k + 1) * CHUNK) with (st + off + k * CHUNK + CHUNK) by lia.
  unfold overlay at 1 2. by rewrite Hf.
Qed.

(** A region of a snapshot that lies within one region of RAM, its data with it. *)
Lemma restore_region_ok r m i st ln :
  gm_regions m !! i = Some (st, ln) → st + ln < 2 ^ 64 →
  st ≤ guest_addr r < st + ln → 0 ≤ mr_size r → guest_addr r + mr_size r ≤ st + ln →
  guest_addr r + Z.of_nat (length (mr_data r)) ≤ st + ln →
  ∃ m', restore_region r m = (m', Ok tt) ∧ gm_regions m' = gm_regions m ∧
        ∀ x, gm_byte m' x = overlay (gm_byte m) (guest_addr r) (mr_data r) x.
Proof.
  intros Hi Hend Hga Hs Hsz Hdata. unfold restore_region, pget, mbind at 1, prog_bind at 1.
  destruct (gm_find_region m (guest_addr r)) as [j|] eqn:Hf.
  2: { apply gm_find_region_none in Hf. assert (is_Some (gm_byte m (guest_addr r))) as [? ?].
       { apply gm_backed_iff. eauto. } congruence. }
  apply gm_find_region_some in Hf as (st' & ln' & Hj & Hin).
  assert (j = i) as ->.
  { destruct (decide (j = i)) as [|Hne]; [done|].
    destruct (gm_regions_disjoint _ _ _ _ _ _ _ Hi Hj (not_eq_sym Hne)); lia. }
  rewrite Hi in Hj. simplify_eq. rewrite Hi, bind_plift_ok.
  unfold overflow_or, ok_or, checked_add_u64.
  rewrite (bool_decide_true (st' + ln' < _)), (bool_decide_true (guest_addr r + mr_size r < _)) by lia.
  rewrite !bind_plift_ok. rewrite !bool_decide_false by lia. simpl.
  destruct (write_chunks_ok i st' ln' (guest_addr r - st') (length (mr_data r)) 0 (mr_data r) m)
    as (m' & Hw & Hr & Hb); [done|lia..|].
  replace (st' + (guest_addr r - st')) with (guest_addr r) in * by lia.
  exists m'. unfold chunks. rewrite Hw. split_and!; [done..|].
  intros x. rewrite Hb. f_equal. lia.
Qed.

(** [r] is what saving region [(st, ln)] of [m] gives. *)
Definition saved_region m r : Prop :=
  ∃ i, gm_regions m !! i = Some (guest_addr r, mr_size r) ∧
       view_bytes (gm_byte m) (guest_addr r) (Z.to_nat (mr_size r)) = Some (mr_data r).

Lemma save_region_ok m i st ln :
  gm_regions m !! i = Some (st, ln) →
  ∃ r, save_region m i (st, ln) = Ok r ∧ guest_addr r = st ∧ mr_size r = ln ∧ saved_region m r.
Proof.
  intros Hi. destruct (gm_region_range m i st ln Hi) as (R1 & R2 & R3).
  destruct (read_chunks_ok m i st ln (Z.to_nat ln) 0 (Z.to_nat ln) Hi) as (cs & Hcs & Hv); [lia..|].
  unfold save_region, chunks. simpl. rewrite length_zeros, Hcs. eexists; split; [done|].
  split_and!; [done..|]. exists i. simpl. split; [done|]. by rewrite Z.add_0_r in Hv.
Qed.

Lemma save_memory_ok m :
  ∃ rs, save_memory m = Ok rs ∧ Forall (saved_region m) rs ∧
        map (λ r, (guest_addr r, mr_size r)) rs = gm_regions m.
Proof.
  unfold save_memory.
  assert (Hgen : ∀ l k, (∀ j, l !! j = gm_regions m !! (k + j)%nat) →
    ∃ rs, save_regions m k l = Ok rs ∧ Forall (saved_region m) rs ∧
          map (λ r, (guest_addr r, mr_size r)) rs = l).
  { induction l as [|[st ln] l IH]; intros k Hl; [by exists []|].
    destruct (save_region_ok m k st ln) as (r & Hr & <- & <- & Hs).
    { rewrite <- (Nat.add_0_r k), <- Hl. done. }
    destruct (IH (S k)) as (rs & Hrs & Hf & Hm).
    { intros j. rewrite Nat.add_succ_comm, <- Hl. done. }
    exists (r :: rs). simpl. rewrite Hr. simpl. rewrite Hrs. split_and!; [done|by constructor|].
    simpl. by rewrite Hm. }
  apply Hgen. done.
Qed.

Lemma restore_memory_saved m m2 rs :
  gm_regions m2 = gm_regions m → Forall (λ reg, reg.1 + reg.2 < 2 ^ 64) (gm_regions m) →
  Forall (saved_region m) rs →
  ∃ m', restore_memory rs m2 = (m', Ok tt) ∧ gm_regions m' = gm_regions m ∧
    (∀ r x, r ∈ rs → guest_addr r ≤ x < guest_addr r + mr_size r → gm_byte m' x = gm_byte m x) ∧
    (∀ x, gm_byte m2 x = gm_byte m x → gm_byte m' x = gm_byte m x).
Proof.
  intros Hreg Hend. revert m2 Hreg. induction rs as [|r rs IH]; intros m2 Hreg Hs.
  { exists m2. split_and!; [done..| |done]. intros r x []%elem_of_nil. }
  apply Forall_cons_1 in Hs as [(i & Hi & Hv) Hs].
  destruct (gm_region_range m i _ _ Hi) as (R1 & R2 & R3).
  assert (Hlt : guest_addr r + mr_size r < 2 ^ 64)
    by (rewrite Forall_lookup in Hend; apply (Hend _ _ Hi)).
  apply view_bytes_spec in Hv as [Hlen Hv].
  destruct (restore_region_ok r m2 i (guest_addr r) (mr_size r)) as (m3 & H3 & R & B);
    [by rewrite Hreg|lia..|].
  destruct (IH m3) as (m' & Hm & Hr' & Hin & Hout); [congruence|done|].
  exists m'. unfold restore_memory. cbn [for_each]. unfold mbind at 1, prog_bind at 1.
  rewrite H3. split_and!; [done..| |].
  - intros r' x Hr Hx. apply elem_of_cons in Hr as [->|Hr]; [|by eapply Hin].
    apply Hout. rewrite B, overlay_in by lia. rewrite Hv by lia. f_equal. lia.
  - intros x Hx. apply Hout. rewrite B. unfold overlay. case_bool_decide; [|done].
    rewrite Hv by lia. f_equal. lia.
Qed.

End memory_facts.

(** ** Theorems *)

Section theorems.
Context `{ML : MemoryLaws} `{KA : !KvmApi} `{KL : !KvmLaws} {BP : BuildProfile}.
Implicit Types (m : GMem) (r : MemoryRegion).

(** The register state a snapshot carries is the same on two vCPUs, but for an
    interrupt being injected. *)
Definition same_registers (v w : VcpuFd) : Prop :=
  vcpu_get_regs v = vcpu_get_regs w ∧
  (∃ s s', vcpu_get_sregs w = Ok s ∧ vcpu_get_sregs v = Ok s' ∧ same_sregs s s') ∧
  vcpu_get_fpu v = vcpu_get_fpu w.

(** [new] is [old] with the registers of [src]: EFER, being one of them, comes
    along; MSRs that are not special registers stay. *)
Definition restored_from (src old new : VcpuFd) : Prop :=
  same_registers new src ∧ vcpu_msrs new !! MSR_EFER = vcpu_msrs src !! MSR_EFER ∧
  (∀ i, ¬ sregs_msr i → vcpu_msrs new !! i = vcpu_msrs old !! i).

(** The kernel refuses some registers of [src] with error [e]. *)
Definition refused (src : VcpuFd) (e : string) : Prop :=
  ∃ d, (∃ x, vcpu_get_regs src = Ok x ∧ (vcpu_set_regs d x).2 = Some e) ∨
       (∃ x, vcpu_get_sregs src = Ok x ∧ (vcpu_set_sregs d x).2 = Some e) ∨
       (∃ x, vcpu_get_fpu src = Ok x ∧ (vcpu_set_fpu d x).2 = Some e).

(** A setter in the middle of a restore. *)
Lemma box_set_bind {A B} (set : VcpuFd → A → VcpuFd * option string) a
    (k : unit → prog VcpuFd box_error B) v :
  (box_set set a ≫= k) v =
  match set v a with
  | (v', None) => k tt v'
  | (v', Some e) => (v', Err (BoxIo (IoErr Other e)))
  end.
Proof. unfold mbind, prog_bind, box_set. by destruct (set v a) as [v' [e|]]. Qed.

Lemma restore_vcpu_state_outcome vcpu st v :
  save_vcpu_state vcpu = Ok st →
  ∃ v' o, restore_vcpu_state st v = (v', o) ∧
    (o = Ok tt ∧ restored_from (fd vcpu) v v' ∨
     ∃ e, o = Err (BoxIo (IoErr Other e)) ∧ refused (fd vcpu) e).
Proof.
  unfold save_vcpu_state, mbind, res_bind, box_get.
  destruct (vcpu_get_regs (fd vcpu)) as [regs| | |] eqn:G1; try done.
  destruct (vcpu_get_sregs (fd vcpu)) as [sregs| | |] eqn:G2; try done.
  destruct (vcpu_get_fpu (fd vcpu)) as [fpu| | |] eqn:G3; try done.
  intros Hst; simplify_eq. unfold mret, res_ret in Hst. simplify_eq.
  unfold restore_vcpu_state; simpl. fold (@mbind (prog VcpuFd box_error) _).
  rewrite box_set_bind. destruct (vcpu_set_regs v regs) as [v1 [e|]] eqn:E1.
  { eexists _, _. split; [done|]. right. exists e. split; [done|]. exists v. left.
    exists regs. by rewrite E1. }
  rewrite box_set_bind. destruct (vcpu_set_sregs v1 sregs) as [v2 [e|]] eqn:E2.
  { eexists _, _. split; [done|]. right. exists e. split; [done|]. exists v1. right; left.
    exists sregs. by rewrite E2. }
  unfold box_set. destruct (vcpu_set_fpu v2 fpu) as [v3 [e|]] eqn:E3.
  { eexists _, _. split; [done|]. right. exists e. split; [done|]. exists v2. right; right.
    exists fpu. by rewrite E3. }
  eexists _, _. split; [done|]. left. split; [done|].
  destruct (vcpu_sregs_migrate _ _ _ _ G2 E2) as (s2 & S2 & Hs2). pose proof (vcpu_fpu_migrate _ _ _ _ G3 E3) as F3.
  apply vcpu_set_regs_spec in E1 as (R1 & _ & _ & M1). rewrite (vcpu_regs_fixed _ _ G1) in R1.
  apply vcpu_set_sregs_spec in E2 as (R2 & _ & M2 & _).
  apply vcpu_set_fpu_spec in E3 as (R3 & S3 & M3 & _).
  split_and!; [split_and!; [congruence|exists sregs, s2; split_and!; congruence|congruence]| |].
  - rewrite (vcpu_efer_msr _ _ G2). replace (efer sregs) with (efer s2) by apply Hs2.
    apply vcpu_efer_msr. congruence.
  - intros i Hi. rewrite M3, M2 by done. by rewrite M1.
Qed.

(** Restoring states onto vCPUs by position, from position [k] on. *)
Lemma restore_vcpus_outcome vs states :
  save_vcpus vs = Ok states → ∀ k targets,
  (k + length vs ≤ length targets)%nat →
  ∃ targets' o, restore_vcpus k states targets = (targets', o) ∧
    (∀ i, (i < k)%nat → targets' !! i = targets !! i) ∧
    (o = Ok tt ∧
     (∀ i v, vs !! i = Some v → ∃ w v', targets !! (k + i)%nat = Some w ∧
        targets' !! (k + i)%nat = Some v' ∧ restored_from (fd v) (fd w) (fd v')) ∨
     ∃ i v e, vs !! i = Some v ∧ refused (fd v) e ∧ o = Err (BoxIo (IoErr Other e))).
Proof.
  revert states. induction vs as [|v vs IH]; intros states Hs k targets Hk; simpl in Hs.
  { unfold mret, res_ret in Hs. simplify_eq. exists targets, (Ok tt). split_and!; [done..|]. by left. }
  unfold mbind, res_bind in Hs. destruct (save_vcpu_state v) as [s| | |] eqn:Hv; try done.
  destruct (save_vcpus vs) as [ss| | |] eqn:Hvs; try done. unfold mret, res_ret in Hs. simplify_eq.
  simpl in Hk. destruct (lookup_lt_is_Some_2 targets k) as [w Hw]; [lia|].
  destruct (restore_vcpu_state_outcome v s (fd w) Hv) as (fd' & r & Hfd & Hr).
  set (t1 := <[k := {| fd := fd'; vcpu_id := vcpu_id w |}]> targets).
  assert (Hlow1 : ∀ i, i ≠ k → t1 !! i = targets !! i)
    by (intros i Hi; unfold t1; by rewrite list_lookup_insert_ne).
  cbn [restore_vcpus]. unfold mbind, prog_bind, restore_nth. rewrite Hw, Hfd. fold t1.
  destruct Hr as [[-> Hf]|(e & -> & He)].
  2: { eexists _, _. split_and!; [done|intros i Hi; apply Hlow1; lia|]. right. by exists 0%nat, v, e. }
  destruct (IH ss eq_refl (S k) t1) as (t' & r & Ht & Hlow & Hout).
  { unfold t1. rewrite length_insert. lia. }
  exists t', r. split_and!; [done|intros i Hi; rewrite Hlow by lia; apply Hlow1; lia|].
  destruct Hout as [[-> Hin]|(i & x & e & Hx & He)]; [left; split; [done|]|right; by exists (S i), x, e].
  intros [|i] x Hx; simplify_eq/=.
  - exists w, {| fd := fd'; vcpu_id := vcpu_id w |}. rewrite Nat.add_0_r. split_and!; [done| |exact Hf].
    rewrite Hlow by lia. apply list_lookup_insert_eq. lia.
  - destruct (Hin i x Hx) as (y & y' & Hy & Hy' & Hr). rewrite <- Nat.add_succ_comm.
    exists y, y'. rewrite Hlow1 in Hy by lia. done.
Qed.

(** C2: a snapshot taken and restored gives the machine back.  Restoring on a
    machine with the same memory layout (ending below 2^64) and at least as many
    vCPUs returns every byte of RAM.  Unless the kernel refuses the registers of
    some vCPU, in which case its error is returned, it also returns every vCPU's
    general, special and FPU registers by position, EFER included (an interrupt
    that was being injected on the target is not taken back); the MSRs that are
    not special registers are not part of a snapshot and keep the target's
    values. *)
Theorem snapshot_roundtrip m m2 (vs targets : list Vcpu) st
    (Hst : create_snapshot m vs = Ok st)
    (Hlayout : gm_regions m2 = gm_regions m)
    (Hend : Forall (λ reg, reg.1 + reg.2 < 2 ^ 64) (gm_regions m))
    (Hlen : (length vs ≤ length targets)%nat) :
  ∃ m' targets' o, restore_snapshot st (m2, targets) = ((m', targets'), o) ∧
    (∀ x, gm_byte m' x = gm_byte m x) ∧
    (o = Ok tt ∧
     (∀ i v, vs !! i = Some v → ∃ w v', targets !! i = Some w ∧ targets' !! i = Some v' ∧
        restored_from (fd v) (fd w) (fd v')) ∨
     ∃ i v e, vs !! i = Some v ∧ refused (fd v) e ∧ o = Err (BoxIo (IoErr Other e))).
Proof.
  destruct (save_memory_ok m) as (rs & Hrs & Hsaved & Hmap).
  unfold create_snapshot, mbind, res_bind in Hst. rewrite Hrs in Hst.
  destruct (save_vcpus vs) as [ss| | |] eqn:Hvs; try done. unfold mret, res_ret in Hst. simplify_eq.
  destruct (restore_memory_saved m m2 rs Hlayout Hend Hsaved) as (m' & Hm & Hr & Hin & Hout).
  destruct (restore_vcpus_outcome vs ss Hvs 0 targets) as (t' & r & Ht & _ & Hv); [lia|].
  exists m', t', r. unfold restore_snapshot, zoom, mbind, prog_bind. simpl. rewrite Hm. simpl. rewrite Ht.
  split_and!; [done| |exact Hv]. intros x. destruct (gm_byte m x) as [b|] eqn:Hx.
  - destruct (proj1 (gm_backed_iff m x)) as (i & st & ln & Hi & Hxi); [by rewrite Hx|].
    rewrite <- Hmap, list_lookup_fmap in Hi. destruct (rs !! i) as [y|] eqn:Hri; simplify_eq/=.
    rewrite <- Hx. eapply (Hin y); [by eapply list_elem_of_lookup_2|done].
  - destruct (gm_byte m' x) eqn:Hx'; [|done]. exfalso.
    destruct (is_Some_byte_regions m' m x) as [? ?]; [done|by rewrite Hx'|congruence].
Qed.

(** C26: a saved region that does not lie within one region of RAM, or whose end
    overflows, is refused with a memory error before any byte is written. *)
Theorem restore_region_rejects m r
    (Hsize : 0 ≤ mr_size r)
    (Hout : ∀ i st ln, gm_regions m !! i = Some (st, ln) →
       ¬ (st ≤ guest_addr r < st + ln ∧ guest_addr r + mr_size r ≤ st + ln)) :
  ∃ msg, restore_region r m = (m, Err (BoxHv (MemoryError msg))).
Proof.
  unfold restore_region, pget, mbind at 1, prog_bind at 1.
  destruct (gm_find_region m (guest_addr r)) as [i|] eqn:Hf; [|by eexists].
  apply gm_find_region_some in Hf as (st & ln & Hi & Hin). rewrite Hi, bind_plift_ok.
  unfold overflow_or, ok_or, checked_add_u64, plift, mbind, prog_bind.
  case_bool_decide; [|by eexists]. case_bool_decide; [|by eexists].
  specialize (Hout i st ln Hi). rewrite (bool_decide_true (st + ln < _)) by lia.
  rewrite orb_true_r. by eexists.
Qed.

(** What is written is the data, and its length is not checked against the
    size that was checked: a saved region of size 0 still stores all its bytes. *)
Theorem restore_region_size_unchecked m r i st ln
    (Hi : gm_regions m !! i = Some (st, ln)) (Hend : st + ln < 2 ^ 64)
    (Hga : st ≤ guest_addr r < st + ln) (Hsize : mr_size r = 0)
    (Hdata : guest_addr r + Z.of_nat (length (mr_data r)) ≤ st + ln) :
  ∃ m', restore_region r m = (m', Ok tt) ∧
        view_bytes (gm_byte m') (guest_addr r) (length (mr_data r)) = Some (mr_data r).
Proof.
  destruct (restore_region_ok r m i st ln) as (m' & Hr & _ & Hb); [done|lia..|].
  exists m'. split; [done|]. rewrite <- (view_bytes_overlay_same (gm_byte m) (guest_addr r) (mr_data r)).
  apply view_bytes_ext. intros x _. apply Hb.
Qed.

Context `{IOL : SnapshotIoLaws} {PR : Pod kvm_regs} {PS : Pod kvm_sregs} {PF : Pod kvm_fpu}.

(** Every way of opening and parsing a file ends in an error. *)
Lemma deserialize_from_err bs :
  ∃ msg, deserialize_from bs = Err (BoxBincode msg) ∧
    (∀ v, bincode_read_struct bs = Ok v → msg = "invalid type: sequence, expected struct VmState").
Proof.
  unfold deserialize_from. destruct (bincode_outcome bs) as [Hp Hf].
  destruct (bincode_read_struct bs) as [v|e| |] eqn:Hb; try done.
  - destruct (bincode_struct_seq bs v Hb) as [vs ->]. by eexists.
  - by eexists.
Qed.

Lemma load_from_file_err (files : Files) path (s : GMem * list Vcpu) :
  ∃ e, load_from_file files path s = (s, Err e).
Proof.
  unfold load_from_file, read_snapshot_file, plift, mbind, prog_bind.
  destruct (open_error path) as [e|]; [by eexists|].
  destruct (files !! path) as [bs|]; [|by eexists].
  destruct (deserialize_from_err bs) as (msg & -> & _). by eexists.
Qed.

(** C23: loading a snapshot file never succeeds, whatever the file holds, and
    changes neither memory nor vCPUs: bincode presents a struct as a sequence
    and the visitor of VmState takes maps only.  When bincode itself has no
    complaint, the message says so. *)
Theorem load_from_file_fails (files : Files) path (s : GMem * list Vcpu) :
  ∃ e, load_from_file files path s = (s, Err e) ∧
    (∀ bs v, open_error path = None → files !! path = Some bs → bincode_read_struct bs = Ok v →
       e = BoxBincode "invalid type: sequence, expected struct VmState").
Proof.
  destruct (load_from_file_err files path s) as [e He]. exists e. split; [done|].
  intros bs v Hopen Hfile Hparse. revert He.
  unfold load_from_file, read_snapshot_file, plift, mbind, prog_bind. rewrite Hopen, Hfile.
  destruct (deserialize_from_err bs) as (msg & -> & Hmsg). rewrite (Hmsg v Hparse). congruence.
Qed.

End theorems.
