(* ===== verification/Vm.v ===== *)
(** * Vm: the virtual machine of vm.rs

    [VirtualMachine] with its lifecycle: creation, loading, attaching devices,
    dispatch of MMIO exits, stop, snapshot and drop.  The threads of [run] are
    in RunLoop.v. *)

From S2P Require Import Prelude Errors Platform Host VirtioMmio Chains Console Block Net Fs Kvm Memory Vcpu KernelLoader Bootloader Serde Snapshot.

(** ** What the host provides *)

(** /dev/kvm: [Kvm::new], [create_vm], [create_irq_chip], [create_pit2] with
    flags 0, and copying the clock from one VM to another, whose failures are
    only logged. *)
Class KvmSystem `{KA : KvmApi} := {
  KvmFd : Type;
  kvm_open : res string KvmFd;
  kvm_create_vm : KvmFd → res string VmFd;
  vm_create_irq_chip : VmFd → VmFd * option string;
  vm_create_pit2 : VmFd → Z → VmFd * option string;
  vm_copy_clock : VmFd → VmFd → VmFd;
}.

Class KvmSystemLaws `{KvmSystem} : Prop := {
  kvm_create_vm_fresh k v : kvm_create_vm k = Ok v → vm_slots v = [];
  vm_create_irq_chip_slots v v' e : vm_create_irq_chip v = (v', e) → vm_slots v' = vm_slots v;
  vm_create_pit2_slots v n v' e : vm_create_pit2 v n = (v', e) → vm_slots v' = vm_slots v;
}.

(** Opening disk images and asking for their metadata, sockets, addresses and
    randomness. *)
Class HostDevices := {
  disk_open : string → bool → res io_error File;
  disk_metadata : string → option io_error;
  udp_bind : string → res io_error UdpSocket;
  udp_nonblocking : string → option io_error;
  parse_addr : string → res string string;
  random_mac : res string (list byte);
}.

(** What the hypervisor process owns besides the VM. *)
Record Env : Type := { env_stdout : Stdout; env_fs : HostFs; env_files : Files }.

Definition env_with_fs (e : Env) (h : HostFs) : Env :=
  {| env_stdout := env_stdout e; env_fs := h; env_files := env_files e |}.
Definition env_with_files (e : Env) (f : Files) : Env :=
  {| env_stdout := env_stdout e; env_fs := env_fs e; env_files := f |}.

(** [.map_err(HypervisorError::KvmError)] *)
Definition kvm_err {A} (r : res string A) : result A :=
  match r with
  | Ok a => Ok a
  | Err e => Err (KvmError e)
  | Panic => Panic
  | OutOfFuel => OutOfFuel
  end.

(** [.map_err(|e| io::Error::new(ErrorKind::Other, e))?] *)
Definition other_err {A} (r : res string A) : result A :=
  match r with
  | Ok a => Ok a
  | Err e => Err (io_other e)
  | Panic => Panic
  | OutOfFuel => OutOfFuel
  end.

Inductive VmMessage : Type :=
| Stop
| SnapshotRequest (reply : nat) (path : string).

(** The command line passed to the guest kernel. *)
Definition KERNEL_CMDLINE : string :=
  "console=hvc0 root=/dev/vda rw virtio_mmio.device=4K@0x1000:5 virtio_mmio.device=4K@0x2000:6 virtio_mmio.device=4K@0x3000:7 virtio_mmio.device=4K@0x4000:8".

Section vm.
Context `{QA : QueueApi} `{EA : EventApi} `{KA : !KvmApi} `{KS : !KvmSystem}.
Context {BP : BuildProfile} {LL : LogLevel} {HF : HostFiles} {EL : ElfApi} {HD : HostDevices}.
Context {IO : SnapshotIo} {PR : Pod kvm_regs} {PS : Pod kvm_sregs} {PF : Pod kvm_fpu}.

(** ** [Box<dyn VirtioDevice>] *)

Inductive BoxDevice : Type :=
| DConsole (d : VirtioConsole)
| DBlock (d : VirtioBlock)
| DNet (d : VirtioNet)
| DFs (d : VirtioFs).

(** Dynamic dispatch of a method that reads the device. *)
Definition dispatch {A} (f : ∀ D (DV : VirtioDevice D), D → A) (d : BoxDevice) : A :=
  match d with
  | DConsole d => f VirtioConsole _ d
  | DBlock d => f VirtioBlock _ d
  | DNet d => f VirtioNet _ d
  | DFs d => f VirtioFs _ d
  end.

(** Dynamic dispatch of a method that changes it. *)
Definition dispatch_mut {A} (f : ∀ D (DV : VirtioDevice D), rust D A) : rust BoxDevice A := λ d,
  match d with
  | DConsole d => let '(d', r) := f VirtioConsole _ d in (DConsole d', r)
  | DBlock d => let '(d', r) := f VirtioBlock _ d in (DBlock d', r)
  | DNet d => let '(d', r) := f VirtioNet _ d in (DNet d', r)
  | DFs d => let '(d', r) := f VirtioFs _ d in (DFs d', r)
  end.

Definition dispatch_world {A} (f : ∀ D (DV : VirtioDevice D), rust (D * World) A)
    : rust (BoxDevice * World) A := λ '(d, w),
  match d with
  | DConsole d => let '((d', w'), r) := f VirtioConsole _ (d, w) in ((DConsole d', w'), r)
  | DBlock d => let '((d', w'), r) := f VirtioBlock _ (d, w) in ((DBlock d', w'), r)
  | DNet d => let '((d', w'), r) := f VirtioNet _ (d, w) in ((DNet d', w'), r)
  | DFs d => let '((d', w'), r) := f VirtioFs _ (d, w) in ((DFs d', w'), r)
  end.

#[global] Instance box_device : VirtioDevice BoxDevice := {|
  device_type := dispatch (λ D _, device_type);
  get_features := dispatch (λ D _, get_features);
  set_acked_features := λ f, dispatch_mut (λ D _, set_acked_features f);
  read_config := dispatch (λ D _, read_config);
  write_config := λ o bs, dispatch_mut (λ D _, write_config o bs);
  process_queue := λ fuel i, dispatch_world (λ D _, process_queue fuel i);
  get_queues := dispatch (λ D _, get_queues);
  get_interrupt_status := dispatch (λ D _, get_interrupt_status);
  shutdown := dispatch_mut (λ D _, shutdown);
  dev_mmio_read := dispatch (λ D _, dev_mmio_read);
  dev_mmio_write := λ o bs, dispatch_mut (λ D _, dev_mmio_write o bs);
  get_mmio_region := dispatch (λ D _, get_mmio_region);
|}.

Definition Device : Type := VirtioMmioDevice BoxDevice.

(** ** The machine *)

(** [message_tx] holds, per vCPU, what has been sent on its channel. *)
Record VirtualMachine : Type := {
  kvm : KvmFd;
  vm_fd : VmFd;
  vcpus : list Vcpu;
  vm_memory : GuestMemoryRegions;
  kernel_loader : option KernelLoader;
  devices : list Device;
  snapshot_fd : VmFd;
  num_cpus : Z;
  next_irq : Z;
  running : bool;
  message_tx : list (list VmMessage);
}.

Definition machine : Type := VirtualMachine * Env.

Definition vm_mem (vm : VirtualMachine) : GMem := memory (vm_memory vm).

(** Field updates. *)
Definition vm_with_mem (vm : VirtualMachine) (m : GMem) : VirtualMachine :=
  {| kvm := kvm vm; vm_fd := vm_fd vm; vcpus := vcpus vm;
     vm_memory := {| memory := m; low_mem_size := low_mem_size (vm_memory vm) |};
     kernel_loader := kernel_loader vm; devices := devices vm; snapshot_fd := snapshot_fd vm;
     num_cpus := num_cpus vm; next_irq := next_irq vm; running := running vm;
     message_tx := message_tx vm |}.
Definition vm_with_vcpus (vm : VirtualMachine) (vs : list Vcpu) : VirtualMachine :=
  {| kvm := kvm vm; vm_fd := vm_fd vm; vcpus := vs; vm_memory := vm_memory vm;
     kernel_loader := kernel_loader vm; devices := devices vm; snapshot_fd := snapshot_fd vm;
     num_cpus := num_cpus vm; next_irq := next_irq vm; running := running vm;
     message_tx := message_tx vm |}.
Definition vm_with_loader (vm : VirtualMachine) (k : KernelLoader) : VirtualMachine :=
  {| kvm := kvm vm; vm_fd := vm_fd vm; vcpus := vcpus vm; vm_memory := vm_memory vm;
     kernel_loader := Some k; devices := devices vm; snapshot_fd := snapshot_fd vm;
     num_cpus := num_cpus vm; next_irq := next_irq vm; running := running vm;
     message_tx := message_tx vm |}.
Definition vm_with_devices (vm : VirtualMachine) (ds : list Device) : VirtualMachine :=
  {| kvm := kvm vm; vm_fd := vm_fd vm; vcpus := vcpus vm; vm_memory := vm_memory vm;
     kernel_loader := kernel_loader vm; devices := ds; snapshot_fd := snapshot_fd vm;
     num_cpus := num_cpus vm; next_irq := next_irq vm; running := running vm;
     message_tx := message_tx vm |}.
Definition vm_with_irq (vm : VirtualMachine) (n : Z) : VirtualMachine :=
  {| kvm := kvm vm; vm_fd := vm_fd vm; vcpus := vcpus vm; vm_memory := vm_memory vm;
     kernel_loader := kernel_loader vm; devices := devices vm; snapshot_fd := snapshot_fd vm;
     num_cpus := num_cpus vm; next_irq := n; running := running vm;
     message_tx := message_tx vm |}.
Definition vm_with_run (vm : VirtualMachine) (r : bool) (tx : list (list VmMessage)) : VirtualMachine :=
  {| kvm := kvm vm; vm_fd := vm_fd vm; vcpus := vcpus vm; vm_memory := vm_memory vm;
     kernel_loader := kernel_loader vm; devices := devices vm; snapshot_fd := snapshot_fd vm;
     num_cpus := num_cpus vm; next_irq := next_irq vm; running := r; message_tx := tx |}.

(** Programs on a part of the machine. *)
Definition on_memory {A} (p : rust GMem A) : rust machine A :=
  zoom (λ s, vm_mem s.1) (λ m s, (vm_with_mem s.1 m, s.2)) p.
Definition on_vcpus {A} (p : rust (list Vcpu) A) : rust machine A :=
  zoom (λ s, vcpus s.1) (λ vs s, (vm_with_vcpus s.1 vs, s.2)) p.
Definition on_host_fs {A} (p : rust HostFs A) : rust machine A :=
  zoom (λ s, env_fs s.2) (λ h s, (s.1, env_with_fs s.2 h)) p.

(** ** Creation *)

Definition clone_vmfd (fd : VmFd) : result VmFd :=
  match other_err kvm_open with
  | Ok k =>
      match other_err (kvm_create_vm k) with
      | Ok v => Ok (vm_copy_clock fd v)
      | r => r
      end
  | Err e => Err e
  | Panic => Panic
  | OutOfFuel => OutOfFuel
  end.

(** [for i in 0..num_cpus { .. }] *)
Fixpoint create_vcpus (fd : VmFd) (ids : list Z) : result (list Vcpu) :=
  match ids with
  | [] => mret []
  | i :: ids' =>
      f ← kvm_err (vm_create_vcpu fd i);
      v ← vcpu_new f i;
      l ← create_vcpus fd ids';
      mret (v :: l)
  end.

(** A step of [new] on the VM descriptor. *)
Definition vm_ioctl (r : VmFd * option string) : result VmFd :=
  match r with (v, None) => Ok v | (_, Some e) => Err (KvmError e) end.

Definition with_memory (g : GuestMemoryRegions) (v : VmFd) : result VmFd :=
  match setup_memory_region g v with
  | (v', Ok _) => Ok v'
  | (_, Err e) => Err e
  | (_, Panic) => Panic
  | (_, OutOfFuel) => OutOfFuel
  end.

Definition vm_new (num_cpus : Z) : result VirtualMachine :=
  k ← kvm_err kvm_open;
  v0 ← kvm_err (kvm_create_vm k);
  v1 ← vm_ioctl (vm_create_irq_chip v0);
  v2 ← vm_ioctl (vm_create_pit2 v1 0);
  mem ← memory_new;
  v3 ← with_memory mem v2;
  cpus ← create_vcpus v3 (seqZ 0 num_cpus);
  snap ← clone_vmfd v3;
  mret {| kvm := k; vm_fd := v3; vcpus := cpus; vm_memory := mem; kernel_loader := None;
          devices := []; snapshot_fd := snap; num_cpus := num_cpus; next_irq := 5;
          running := false; message_tx := [] |}.

(** ** Loading *)

(** [for vcpu in &self.vcpus { f(vcpu)?; }] *)
Fixpoint each_vcpu (f : rust VcpuFd unit) (done todo : list Vcpu) : list Vcpu * result unit :=
  match todo with
  | [] => (done, Ok tt)
  | v :: todo' =>
      let '(fd', r) := f (fd v) in
      let v' := {| fd := fd'; vcpu_id := vcpu_id v |} in
      match r with
      | Ok _ => each_vcpu f (done ++ [v']) todo'
      | _ => (done ++ v' :: todo', r)
      end
  end.

Definition for_vcpus (f : rust VcpuFd unit) : rust (list Vcpu) unit := each_vcpu f [].

(** The loader is kept in the machine only when everything succeeded. *)
Definition run_loader (path : string) : rust machine KernelLoader := λ s,
  let '((k, m), r) := KernelLoader.load_kernel path KERNEL_CMDLINE (kernel_loader_new, vm_mem s.1) in
  ((vm_with_mem s.1 m, s.2), match r with
                             | Ok _ => Ok k | Err e => Err e | Panic => Panic
                             | OutOfFuel => OutOfFuel end).

Definition set_loader (k : KernelLoader) : rust machine unit := λ s,
  ((vm_with_loader s.1 k, s.2), Ok tt).

Definition vm_load_kernel (path : string) : rust machine unit :=
  k ← run_loader path;
  on_vcpus (for_vcpus (vcpu_init (get_entry_point k) 0x7000));;
  set_loader k.

Definition vm_load_bootloader (path : string) : rust machine unit :=
  on_memory (Bootloader.load_bootloader path);;
  on_vcpus (for_vcpus init_vcpu_for_real_mode).

(** ** Attaching devices *)

Definition allocate_irq : rust machine Z := λ s,
  match arith (E := HypervisorError) 32 (next_irq s.1 + 1) with
  | Ok n => ((vm_with_irq s.1 n, s.2), Ok (next_irq s.1))
  | _ => (s, Panic)
  end.

Definition push_device (d : BoxDevice) (base : Z) : rust machine unit := λ s,
  ((vm_with_devices s.1 (devices s.1 ++ [mmio_new d base]), s.2), Ok tt).

Definition add_virtio_console : rust machine unit :=
  irq ← allocate_irq;
  console ← plift (console_new 0x1000 irq);
  push_device (DConsole console) 0x1000.

Definition add_virtio_block (disk_path : string) (read_only : bool) : rust machine unit :=
  irq ← allocate_irq;
  block ← plift (block_new 0x2000 irq (disk_open disk_path) (disk_metadata disk_path) read_only);
  push_device (DBlock block) 0x2000.

(** [addr.parse::<SocketAddr>().map_err(..)?], the result unused *)
Definition check_addr (what addr : string) : result unit :=
  match parse_addr addr with
  | Ok _ => Ok tt
  | Err e => Err (NetworkError ("Invalid " +:+ what +:+ " address: " +:+ e))
  | Panic => Panic
  | OutOfFuel => OutOfFuel
  end.

Definition add_virtio_net (local_addr peer_addr : string) : rust machine unit :=
  irq ← allocate_irq;
  plift (check_addr "local" local_addr);;
  plift (check_addr "peer" peer_addr);;
  net ← plift (net_new 0x3000 irq (udp_bind local_addr) (udp_nonblocking local_addr) parse_addr
                 None random_mac);
  push_device (DNet net) 0x3000.

Definition fs_event : result EventFd :=
  match evt_new 0 with
  | Ok e => Ok e
  | Err e => Err (io_other ("Failed to create EventFd: " +:+ e))
  | Panic => Panic
  | OutOfFuel => OutOfFuel
  end.

(** The tag and the read-only flag are unused. *)
Definition add_virtio_fs (tag : string) (shared_dir : Path) (readonly : bool) : rust machine unit :=
  allocate_irq;;
  queue_evt ← plift fs_event;
  fs ← on_host_fs (virtio_fs_new shared_dir queue_evt);
  push_device (DFs fs) 0x4000.

(** ** Dispatch of MMIO exits *)

Definition in_window (addr : Z) (d : Device) : bool :=
  bool_decide (base_addr d ≤ addr) && bool_decide (addr < base_addr d + size d).

(** Every device whose window holds the address fills the buffer in turn. *)
Fixpoint dispatch_read (addr : Z) (ds : list Device) (data : list byte) : result (list byte) :=
  match ds with
  | [] => mret data
  | d :: ds' =>
      if in_window addr d then
        match mmio_read d (addr - base_addr d) data with
        | (_, Panic) => Panic
        | (data', _) => dispatch_read addr ds' data'
        end
      else dispatch_read addr ds' data
  end.

(** Every device whose window holds the address sees the write. *)
Fixpoint dispatch_write (fuel : nat) (addr : Z) (data : list byte) (done todo : list Device)
    (w : World) : (list Device * World) * result unit :=
  match todo with
  | [] => ((done, w), Ok tt)
  | d :: todo' =>
      if in_window addr d then
        let '((d', w'), r) :=
          pignore (E' := HypervisorError) (mmio_write fuel (addr - base_addr d) data) (d, w) in
        match r with
        | Ok _ => dispatch_write fuel addr data (done ++ [d']) todo' w'
        | r => ((done ++ d' :: todo', w'), r)
        end
      else dispatch_write fuel addr data (done ++ [d]) todo' w
  end.

(** ** Stop, snapshots, drop *)

Definition stop : rust machine unit := λ s,
  if running s.1 then
    ((vm_with_run s.1 false (map (λ q, q ++ [Stop]) (message_tx s.1)), s.2), Ok tt)
  else (s, Ok tt).

Definition io_of_box (e : box_error) : HypervisorError := io_other (box_to_string e).

Definition save_state (path : string) : rust machine unit := λ s,
  let '(files, r) := save_to_file path (vm_mem s.1) (vcpus s.1) (env_files s.2) in
  ((s.1, env_with_files s.2 files),
   match r with Ok _ => Ok tt | Err e => Err (io_of_box e) | Panic => Panic | OutOfFuel => OutOfFuel end).

Definition restore_state (path : string) : rust machine unit := λ s,
  let '((m, vs), r) := load_from_file (env_files s.2) path (vm_mem s.1, vcpus s.1) in
  ((vm_with_vcpus (vm_with_mem s.1 m) vs, s.2),
   match r with Ok _ => Ok tt | Err e => Err (io_of_box e) | Panic => Panic | OutOfFuel => OutOfFuel end).

(** [Drop]: the devices shut down in order, unless their lock is poisoned; their
    errors are logged. *)
Definition shutdown_device (d : Device) : Device := with_device d (shutdown (device d)).1.

Definition vm_drop (poisoned : bool) (s : machine) : machine :=
  let s1 := if running s.1 then (stop s).1 else s in
  if poisoned then s1
  else (vm_with_devices s1.1 (map shutdown_device (devices s1.1)), s1.2).

End vm.

(** ** Attaching in sequence *)

(** The device options of the command line. *)
Inductive attachment : Type :=
| AttConsole
| AttBlock (disk_path : string) (read_only : bool)
| AttNet (local_addr peer_addr : string)
| AttFs (tag : string) (shared_dir : Path) (readonly : bool).

(** The MMIO window of an attachment. *)
Definition att_base (a : attachment) : Z :=
  match a with AttConsole => 0x1000 | AttBlock _ _ => 0x2000 | AttNet _ _ => 0x3000 | AttFs _ _ _ => 0x4000 end.

(** The devices the guest is told about: window and interrupt. *)
Definition cmdline_devices : list (Z * Z) := [(0x1000, 5); (0x2000, 6); (0x3000, 7); (0x4000, 8)].

Definition render_device (d : Z * Z) : string :=
  " virtio_mmio.device=4K@0x" +:+ fmt_hex d.1 +:+ ":" +:+ fmt_dec d.2.

Lemma cmdline_lists_devices :
  KERNEL_CMDLINE =
  "console=hvc0 root=/dev/vda rw" +:+ foldr (λ d s, render_device d +:+ s) "" cmdline_devices.
Proof. vm_compute. reflexivity. Qed.

Section vm_facts.
Context `{QA : QueueApi} `{EA : EventApi} `{KA : !KvmApi} `{KS : !KvmSystem}.
Context {BP : BuildProfile} {LL : LogLevel} {HF : HostFiles} {EL : ElfApi} {HD : HostDevices}.
Context {IO : SnapshotIo} {PR : Pod kvm_regs} {PS : Pod kvm_sregs} {PF : Pod kvm_fpu}.
Context `{ML : !MemoryLaws} `{QL : !QueueLaws} `{KL : !KvmLaws} `{KSL : !KvmSystemLaws}.
Implicit Types (s : machine) (w : World).

Definition attach (a : attachment) : rust machine unit :=
  match a with
  | AttConsole => add_virtio_console
  | AttBlock p ro => add_virtio_block p ro
  | AttNet l p => add_virtio_net l p
  | AttFs t dir ro => add_virtio_fs t dir ro
  end.

Definition attach_all (l : list attachment) : rust machine unit := for_each l attach.

(** The interrupt a device was given; the share is not given one. *)
Definition device_irq (d : BoxDevice) : option Z :=
  match d with
  | DConsole d => Some (irq (con_config d))
  | DBlock d => Some (irq (blk_config d))
  | DNet d => Some (irq (net_config d))
  | DFs _ => None
  end.

(** No device that was just created can act: none has a configured queue. *)
#[global] Instance box_inert : InertDevice BoxDevice.
Proof.
  refine {| inert := λ d, match d with
    | DConsole d => inert d | DBlock d => inert d | DNet d => inert d | DFs d => inert d end |}.
  - intros f [d|d|d|d] d' r Hi Hs; destruct (set_acked_features f d) as [d1 r1] eqn:E;
      pose proof (inert_set_acked_features _ _ _ _ Hi E); simpl in E, Hs; rewrite ?E in Hs;
      by simplify_eq.
  - intros o bs [d|d|d|d] d' r Hi Hs; destruct (write_config o bs d) as [d1 r1] eqn:E;
      pose proof (inert_write_config _ _ _ _ _ Hi E); simpl in E, Hs; rewrite ?E in Hs;
      by simplify_eq.
  - intros fuel i [d|d|d|d] w d' w' r Hi Hs; destruct (process_queue fuel i (d, w)) as [[d1 w1] r1] eqn:E;
      pose proof (inert_process_queue _ _ _ _ _ _ _ Hi E); simpl in E, Hs; rewrite ?E in Hs;
      by simplify_eq.
Defined.

(** ** Attaching *)

(** The device is of the attachment's class and made from its options. *)
Definition device_for (a : attachment) (b : BoxDevice) : Prop :=
  match a with
  | AttConsole => ∃ c, b = DConsole c
  | AttBlock path ro => ∃ k, b = DBlock k ∧ disk_open path (negb ro) = Ok (disk k) ∧ read_only k = ro
  | AttNet loc _ => ∃ k, b = DNet k ∧ udp_bind loc = Ok (socket k) ∧ peer_addr k = None
  | AttFs _ dir _ => ∃ k, b = DFs k ∧ root (fs_state k) = dir
  end.

(** The device an attachment gives, at its window. *)
Definition attached_as (a : attachment) (d : Device) : Prop :=
  base_addr d = att_base a ∧ device_for a (device d).

(** What attaching [a] when [n] is the next interrupt adds. *)
Definition fresh_device (n : Z) (a : attachment) (d : Device) : Prop :=
  ∃ b, d = mmio_new b (att_base a) ∧ inert b ∧
       device_irq b = match a with AttFs _ _ _ => None | _ => Some n end ∧ device_for a b.

(** The parts of a machine that attaching leaves alone. *)
Definition same_core (s s' : machine) : Prop :=
  vm_fd s'.1 = vm_fd s.1 ∧ vm_memory s'.1 = vm_memory s.1 ∧ vcpus s'.1 = vcpus s.1 ∧
  running s'.1 = running s.1 ∧ env_stdout s'.2 = env_stdout s.2 ∧ env_files s'.2 = env_files s.2.

#[global] Instance same_core_preorder : PreOrder same_core.
Proof. unfold same_core. split; red; intuition congruence. Qed.

Lemma allocate_irq_ok s s' n :
  u32 (next_irq s.1 + 1) → allocate_irq s = (s', Ok n) →
  n = next_irq s.1 ∧ next_irq s'.1 = n + 1 ∧ devices s'.1 = devices s.1 ∧ same_core s s'.
Proof.
  intros Hu. unfold allocate_irq, arith. rewrite bool_decide_true by done.
  intros; simplify_eq. repeat split.
Qed.

Lemma virtio_fs_new_root dir e h h' k :
  virtio_fs_new dir e h = (h', Ok k) → root (fs_state k) = dir.
Proof.
  intros Hn. apply bind_ok_inv in Hn as (h1 & st & Hs & Hn).
  apply bind_ok_inv in Hn as (h2 & e0 & _ & Hn). apply bind_ok_inv in Hn as (h3 & e1 & _ & Hn).
  unfold mret, prog_ret in Hn. simplify_eq. simpl. revert Hs.
  unfold fs_state_new, init_acl. destruct (if path_exists dir h then _ else _) as [h4 [[]| | |]]; try done.
  destruct (metadata dir h4); try done. simpl. rewrite lookup_empty. by intros; simplify_eq.
Qed.

Lemma config_new_irq gm i n c : config_new gm i n = Ok c → irq c = i.
Proof. unfold config_new. destruct (new_queues n); intros; by simplify_eq. Qed.

(** The end of every attach operation: the device is pushed. *)
Lemma push_device_ok b base s s' :
  push_device b base s = (s', Ok tt) →
  devices s'.1 = devices s.1 ++ [mmio_new b base] ∧ next_irq s'.1 = next_irq s.1 ∧ same_core s s'.
Proof. unfold push_device. intros; simplify_eq. repeat split. Qed.

Lemma plift_ok {S A} (r : result A) (s s' : S) a : plift r s = (s', Ok a) → s' = s ∧ r = Ok a.
Proof. unfold plift. intros; by simplify_eq. Qed.

Lemma attach_ok a s s' :
  u32 (next_irq s.1 + 1) → attach a s = (s', Ok tt) →
  ∃ d, devices s'.1 = devices s.1 ++ [d] ∧ fresh_device (next_irq s.1) a d ∧
       next_irq s'.1 = next_irq s.1 + 1 ∧ same_core s s'.
Proof.
  intros Hu Hrun. destruct a as [|p ro|l p|t dir ro]; simpl in Hrun;
    apply bind_ok_inv in Hrun as (s1 & n & (-> & N1 & D1 & C1)%allocate_irq_ok & Hrun); try done.
  - apply bind_ok_inv in Hrun as (s2 & c & [-> Hc]%plift_ok & (D2 & N2 & C2)%push_device_ok).
    eexists; split_and!; [by rewrite D2, D1| |congruence|by etrans].
    exists (DConsole c). split_and!; [done|by eapply console_new_inert| |by exists c]. simpl. f_equal.
    unfold console_new in Hc. destruct (config_new _ _ _) eqn:E; simplify_eq. by eapply config_new_irq.
  - apply bind_ok_inv in Hrun as (s2 & c & [-> Hc]%plift_ok & (D2 & N2 & C2)%push_device_ok).
    eexists; split_and!; [by rewrite D2, D1| |congruence|by etrans].
    pose proof (block_new_inert _ _ _ _ _ _ Hc) as Hi. exists (DBlock c).
    unfold block_new in Hc. destruct (disk_open p _) eqn:Ho, (disk_metadata p); try done.
    destruct (config_new _ _ _) eqn:E; simplify_eq. split_and!; [done|done| |by eexists].
    simpl. f_equal. by eapply config_new_irq.
  - apply bind_ok_inv in Hrun as (s2 & [] & [-> _]%plift_ok & Hrun).
    apply bind_ok_inv in Hrun as (s2 & [] & [-> _]%plift_ok & Hrun).
    apply bind_ok_inv in Hrun as (s2 & c & [-> Hc]%plift_ok & (D2 & N2 & C2)%push_device_ok).
    eexists; split_and!; [by rewrite D2, D1| |congruence|by etrans].
    pose proof (net_new_inert _ _ _ _ _ _ _ _ Hc) as Hi. exists (DNet c).
    unfold net_new in Hc. destruct (udp_bind l) eqn:Eb; try done.
    destruct (config_new _ _ _) eqn:E; repeat case_match; simplify_eq.
    split_and!; [done|done| |by eexists]. simpl. f_equal. by eapply config_new_irq.
  - apply bind_ok_inv in Hrun as (s2 & e & [-> _]%plift_ok & Hrun).
    apply bind_ok_inv in Hrun as (s2 & c & Hc & (D2 & N2 & C2)%push_device_ok).
    unfold on_host_fs, zoom in Hc. destruct (virtio_fs_new _ _ _) as [h r] eqn:Hf. simplify_eq. simpl in *.
    eexists; split_and!; [by rewrite D2, D1| |congruence|].
    + exists (DFs c). split_and!; [done..|]. exists c. split; [done|by eapply virtio_fs_new_root].
    + etrans; [exact C1|]. etrans; [|exact C2]. repeat split.
Qed.

Lemma attach_vcpus a s s' r : attach a s = (s', r) → vcpus s'.1 = vcpus s.1.
Proof.
  assert (Hal : ∀ x x' r, allocate_irq x = (x', r) → vcpus x'.1 = vcpus x.1).
  { intros x x' r0. unfold allocate_irq. destruct (arith _ _); by intros; simplify_eq. }
  destruct a as [|p ro|l p|t dir ro]; simpl;
    [unfold add_virtio_console|unfold add_virtio_block|unfold add_virtio_net|unfold add_virtio_fs];
    unfold mbind, prog_bind, plift, push_device, on_host_fs, zoom;
    destruct (allocate_irq s) as [s1 r1] eqn:E; apply Hal in E;
    intros; repeat (case_match; simplify_eq/=); done.
Qed.

Lemma attach_all_vcpus l s s' r : attach_all l s = (s', r) → vcpus s'.1 = vcpus s.1.
Proof.
  revert s. induction l as [|a l IH]; intros s; unfold attach_all; simpl.
  { unfold mret, prog_ret. by intros; simplify_eq. }
  unfold mbind, prog_bind. destruct (attach a s) as [s1 r1] eqn:E. apply attach_vcpus in E.
  destruct r1; [|by intros; simplify_eq..]. intros Hl%IH. congruence.
Qed.

(** A sequence of attachments gives device [k] interrupt [n + k]. *)
Lemma attach_all_ok l s s' :
  0 ≤ next_irq s.1 → next_irq s.1 + Z.of_nat (length l) < 2 ^ 32 →
  attach_all l s = (s', Ok tt) →
  ∃ ds, devices s'.1 = devices s.1 ++ ds ∧ length ds = length l ∧ same_core s s' ∧
    ∀ k a d, l !! k = Some a → ds !! k = Some d → fresh_device (next_irq s.1 + Z.of_nat k) a d.
Proof.
  revert s. induction l as [|a l IH]; intros s H0 Hn Hrun; unfold attach_all in Hrun; simpl in Hrun.
  { unfold mret, prog_ret in Hrun. simplify_eq. exists []. rewrite app_nil_r. split_and!; [done|done|reflexivity|]. intros k a d Hk. by rewrite lookup_nil in Hk. }
  apply bind_ok_inv in Hrun as (s1 & [] & H1 & Hrun). simpl in Hn.
  apply attach_ok in H1 as (d & D1 & F1 & N1 & C1); [|unfold u32; lia].
  destruct (IH s1) as (ds & D2 & L2 & C2 & F2); [lia|lia|done|].
  exists (d :: ds). split_and!; [by rewrite D2, D1, <- app_assoc|simpl; lia|by etrans|].
  intros [|k] a' d' Ha Hd; simplify_eq/=; [by rewrite Z.add_0_r|].
  replace (next_irq s.1 + Z.of_nat (S k)) with (next_irq s1.1 + Z.of_nat k) by lia. eauto.
Qed.

(** ** A new machine *)

Lemma create_vcpus_ids f ids vs : create_vcpus f ids = Ok vs → map vcpu_id vs = ids.
Proof.
  revert vs. induction ids as [|i ids IH]; intros vs Hc; simpl in Hc.
  { unfold mret, res_ret in Hc. by simplify_eq. }
  unfold mbind, res_bind in Hc. destruct (kvm_err _); try done. simpl in Hc.
  destruct (create_vcpus f ids) as [l| | |]; try done. unfold mret, res_ret in Hc. simplify_eq.
  simpl. f_equal. by apply IH.
Qed.

(** The code segment of a vCPU is usable. *)
Definition cs_usable (v : Vcpu) : Prop :=
  ∀ sregs, vcpu_get_sregs (fd v) = Ok sregs → usable (cs sregs).

Lemma create_vcpus_usable f ids vs : create_vcpus f ids = Ok vs → Forall cs_usable vs.
Proof.
  revert vs. induction ids as [|i ids IH]; intros vs Hc; simpl in Hc.
  { unfold mret, res_ret in Hc. by simplify_eq. }
  unfold mbind, res_bind in Hc. destruct (vm_create_vcpu f i) as [v| | |] eqn:Hv; try done. simpl in Hc.
  destruct (create_vcpus f ids) as [l| | |]; try done. unfold mret, res_ret in Hc. simplify_eq.
  constructor; [|by apply IH]. intros sregs. simpl. by eapply vm_create_vcpu_reset.
Qed.

(** The steps of [new] that matter to the rest. *)
Lemma vm_new_inv n vm :
  vm_new n = Ok vm →
  next_irq vm = 5 ∧ running vm = false ∧ devices vm = [] ∧ kernel_loader vm = None ∧
  map vcpu_id (vcpus vm) = seqZ 0 n ∧ memory_new = Ok (vm_memory vm) ∧
  vm_slots (vm_fd vm) = imap (slot_for (vm_mem vm)) (gm_regions (vm_mem vm)).
Proof.
  unfold vm_new, mbind, res_bind, vm_ioctl, with_memory. intros Hn.
  destruct (kvm_err kvm_open) as [k| | |]; try done.
  destruct (kvm_err (kvm_create_vm k)) as [v0| | |] eqn:E0; try done.
  destruct (vm_create_irq_chip v0) as [v1 [e|]] eqn:E1; try done.
  destruct (vm_create_pit2 v1 0) as [v2 [e|]] eqn:E2; try done.
  destruct memory_new as [g| | |] eqn:Eg; try done.
  destruct (setup_memory_region g v2) as [v3 [[]| | |]] eqn:E3; try done.
  destruct (create_vcpus v3 (seqZ 0 n)) as [cpus| | |] eqn:E4; try done.
  destruct (clone_vmfd v3) as [sn| | |]; try done. unfold mret, res_ret in Hn. simplify_eq; simpl.
  split_and!; try done; [by eapply create_vcpus_ids|].
  assert (Hf : vm_slots v2 = []).
  { apply vm_create_pit2_slots in E2 as ->. apply vm_create_irq_chip_slots in E1 as ->.
    destruct (kvm_create_vm k) eqn:Ev; simplify_eq/=. by eapply kvm_create_vm_fresh. }
  unfold vm_mem; simpl. apply (setup_memory_slots g v2 v3 Hf); [|done].
  apply memory_new_region in Eg as [-> _]. simpl. lia.
Qed.

Lemma vm_new_usable n vm : vm_new n = Ok vm → Forall cs_usable (vcpus vm).
Proof.
  unfold vm_new, mbind, res_bind. intros Hn.
  repeat match goal with H : match ?x with _ => _ end = Ok _ |- _ => destruct x eqn:?; try done end.
  unfold mret, res_ret in Hn. simplify_eq. simpl. by eapply create_vcpus_usable.
Qed.

Lemma new_machine_ram n vm x :
  vm_new n = Ok vm → is_Some (gm_byte (vm_mem vm) x) ↔ 0 ≤ x < MEMORY_SIZE.
Proof.
  intros (_ & _ & _ & _ & _ & Hg & _)%vm_new_inv. apply memory_new_region in Hg as [Hr _].
  rewrite gm_backed_iff. unfold vm_mem. rewrite Hr. change MEMORY_SIZE with 0x8000000. split.
  - intros ([|[|i]] & st & ln & Hi & Hx); simplify_eq/=; lia.
  - intros Hx. exists 0%nat, 0, 0x8000000. split; [done|lia].
Qed.

(** C13: a machine that [VirtualMachine::new] returns is stopped, has the vCPUs
    0..n-1 in order, no devices, the first free interrupt 5, and 128 MB of RAM
    from address 0, exactly that range being registered with KVM. *)
Theorem vm_new_machine n vm (Hnew : vm_new n = Ok vm) :
  running vm = false ∧ devices vm = [] ∧ kernel_loader vm = None ∧ next_irq vm = 5 ∧
  map vcpu_id (vcpus vm) = seqZ 0 n ∧
  (∀ x, is_Some (gm_byte (vm_mem vm) x) ↔ 0 ≤ x < MEMORY_SIZE) ∧
  (∀ x, (∃ r, r ∈ vm_slots (vm_fd vm) ∧ slot_covers r x) ↔ 0 ≤ x < MEMORY_SIZE).
Proof.
  destruct (vm_new_inv n vm Hnew) as (? & ? & ? & ? & ? & Hg & Hs). split_and!; try done.
  - intros x. by eapply new_machine_ram.
  - intros x. rewrite Hs, slots_cover_ram. by eapply new_machine_ram.
Qed.

(** C18: interrupts are handed out in the order of attachment, starting at 5, and
    the share gets none, so a device has the interrupt the kernel command line
    promises for its window iff it is the console attached first, the disk
    attached second or the network attached third: without a disk the network's
    interrupt is 6 while the guest is told 7. *)
Theorem attach_irq_vs_cmdline n vm env l s' k a d
    (Hnew : vm_new n = Ok vm) (Hlen : 5 + Z.of_nat (length l) < 2 ^ 32)
    (Hrun : attach_all l (vm, env) = (s', Ok tt))
    (Ha : l !! k = Some a) (Hd : devices s'.1 !! k = Some d) :
  base_addr d = att_base a ∧
  match a with
  | AttFs _ _ _ => device_irq (device d) = None
  | _ => device_irq (device d) = Some (5 + Z.of_nat k) ∧
         ((base_addr d, 5 + Z.of_nat k) ∈ cmdline_devices ↔
          Z.of_nat k = (att_base a - 0x1000) / 0x1000)
  end.
Proof.
  destruct (vm_new_inv n vm Hnew) as (Hirq & _ & Hdev & _).
  destruct (attach_all_ok l (vm, env) s') as (ds & D & L & _ & F); [simpl; rewrite Hirq; lia..|done|].
  simpl in *. rewrite Hdev in D. simpl in D. rewrite D in Hd.
  destruct (F k a d Ha Hd) as (b & -> & _ & Hb & _). rewrite Hirq in Hb. simpl. split; [done|].
  assert (Hmem : ∀ z, (z, 5 + Z.of_nat k) ∈ cmdline_devices ↔
    (z = 0x1000 ∧ k = 0%nat) ∨ (z = 0x2000 ∧ k = 1%nat) ∨ (z = 0x3000 ∧ k = 2%nat) ∨
    (z = 0x4000 ∧ k = 3%nat)).
  { intros z. unfold cmdline_devices. rewrite !elem_of_cons, elem_of_nil, !pair_equal_spec. lia. }
  destruct a; simpl; try done; (split; [done|]); rewrite Hmem;
    [change ((0x1000 - 0x1000) / 0x1000) with 0 | change ((0x2000 - 0x1000) / 0x1000) with 1 |
     change ((0x3000 - 0x1000) / 0x1000) with 2]; lia.
Qed.

(** C16: no MMIO exit ever reaches a device: on a machine from [new] with any
    devices attached, the guest's RAM covers all the devices' windows, so the
    address of every MMIO exit KVM reports lies in no window. *)
Theorem devices_unreachable n vm env l s' v m v' m' addr data
    (Hnew : vm_new n = Ok vm) (Hlen : 5 + Z.of_nat (length l) < 2 ^ 32)
    (Hrun : attach_all l (vm, env) = (s', Ok tt))
    (Hexit : vcpu_run v (vm_fd s'.1) m = (v', m', Ok (MmioRead addr data)) ∨
             vcpu_run v (vm_fd s'.1) m = (v', m', Ok (MmioWrite addr data))) :
  Forall (λ d, in_window addr d = false) (devices s'.1).
Proof.
  destruct (vm_new_inv n vm Hnew) as (Hirq & _ & Hdev & _ & _ & _ & Hslots).
  destruct (attach_all_ok l (vm, env) s') as (ds & D & L & C & F); [simpl; rewrite Hirq; lia..|done|].
  simpl in *. destruct C as (Hfd & _). simpl in Hfd. rewrite Hfd in Hexit.
  apply vcpu_run_mmio_uncovered in Hexit. rewrite Hdev in D. simpl in D. rewrite D.
  apply Forall_lookup. intros k d Hk.
  destruct (lookup_lt_is_Some_2 l k) as [a Ha]; [rewrite <- L; by eapply lookup_lt_Some|].
  destruct (F k a d Ha Hk) as (b & -> & _ & _).
  destruct (in_window addr _) eqn:Hin; [|done]. exfalso.
  unfold in_window in Hin. apply andb_prop in Hin as [H1%bool_decide_eq_true H2%bool_decide_eq_true].
  simpl in H1, H2.
  destruct (proj2 (slots_cover_ram (vm_mem vm) addr)) as (sl & Hsl & Hcov).
  { apply (new_machine_ram n vm addr Hnew). unfold MEMORY_SIZE. destruct a; simpl in *; lia. }
  rewrite <- Hslots in Hsl. rewrite Forall_lookup in Hexit. apply list_elem_of_lookup in Hsl as [i Hi].
  by apply (Hexit i sl Hi).
Qed.

(** ** Loading *)

(** [for vcpu in &self.vcpus { f(vcpu)?; }] to the end: [f] ran on each. *)
Lemma each_vcpu_ok f dn todo vs :
  each_vcpu f dn todo = (vs, Ok tt) →
  ∃ todo', vs = dn ++ todo' ∧
    Forall2 (λ v v', vcpu_id v' = vcpu_id v ∧ f (fd v) = (fd v', Ok tt)) todo todo'.
Proof.
  revert dn. induction todo as [|v todo IH]; intros dn Hf; simpl in Hf.
  { simplify_eq. exists []. by rewrite app_nil_r. }
  destruct (f (fd v)) as [fd' [[]| | |]] eqn:Hv; try done.
  apply IH in Hf as (todo' & -> & Hall). eexists (_ :: todo'). rewrite <- app_assoc. split; [done|].
  by constructor.
Qed.

(** [f] run on vCPUs with usable code segments. *)
Lemma for_vcpus_usable (P : VcpuFd → Prop) (f : rust VcpuFd unit) vs vs' :
  (∀ v v', f v = (v', Ok tt) → (∀ x, vcpu_get_sregs v = Ok x → usable (cs x)) → P v') →
  Forall2 (λ v v', vcpu_id v' = vcpu_id v ∧ f (fd v) = (fd v', Ok tt)) vs vs' →
  Forall cs_usable vs → Forall (λ v, P (fd v)) vs'.
Proof.
  intros Hf Hall Hu. induction Hall as [|v v' l l' [_ Hv] _ IH]; [constructor|].
  apply Forall_cons_1 in Hu as [Hu1 Hu2]. constructor; [by eapply Hf|by apply IH].
Qed.

(** When the VM's [load_kernel] succeeds, every vCPU (whose code segment was
    usable) starts at the kernel's entry point in flat 32-bit protected mode with
    RSI at the boot parameters, and the loader is kept. *)
Lemma vm_load_kernel_boots path s s' (Hrun : vm_load_kernel path s = (s', Ok tt)) :
  devices s'.1 = devices s.1 ∧ env_fs s'.2 = env_fs s.2 ∧
  ∃ k, kernel_loader s'.1 = Some k ∧ get_cmdline k = KERNEL_CMDLINE ∧
    map vcpu_id (vcpus s'.1) = map vcpu_id (vcpus s.1) ∧
    (Forall cs_usable (vcpus s.1) →
     Forall (λ v, ∃ regs sregs, vcpu_get_regs (fd v) = Ok regs ∧ rip regs = get_entry_point k ∧
                    rsi regs = 0x7000 ∧ vcpu_get_sregs (fd v) = Ok sregs ∧ protected_mode sregs ∧
                    usable (cs sregs))
            (vcpus s'.1)).
Proof.
  apply bind_ok_inv in Hrun as (s1 & k & Hk & Hrun).
  apply bind_ok_inv in Hrun as (s2 & [] & Hv & Hset). unfold set_loader in Hset. simplify_eq.
  unfold run_loader in Hk. destruct (KernelLoader.load_kernel _ _ _) as [[k' m'] [[]| | |]] eqn:Hl;
    simplify_eq. apply load_kernel_inv in Hl as (fl & buf & elf & m1 & m2 & m3 & Hl).
  unfold on_vcpus, zoom in Hv. destruct (for_vcpus _ _) as [vs r] eqn:Hf. simplify_eq. simpl in *.
  apply each_vcpu_ok in Hf as (vs' & -> & Hall). do 2 (split; [done|]). exists k. split_and!; [done| | |].
  - destruct Hl as (_ & _ & _ & _ & _ & _ & _ & _ & ->). done.
  - simpl in *. clear Hl. induction Hall as [|v v' l l' [Hid _] _ IH]; simpl; [done|]. by rewrite Hid, IH.
  - simpl in *. clear Hl. eapply (for_vcpus_usable (λ f, ∃ regs sregs, vcpu_get_regs f = Ok regs ∧
      rip regs = get_entry_point k ∧ rsi regs = 0x7000 ∧ vcpu_get_sregs f = Ok sregs ∧
      protected_mode sregs ∧ usable (cs sregs))); [|done].
    intros v v' Hi Hu.
    apply vcpu_init_inv in Hi as (r0 & s0 & s1 & f0 & f1 & n & _ & S0 & _ & R1 & L1 & _ & S1 & _).
    destruct (sregs_for_init_protected s0 s1 L1 (Hu _ S0)). by eexists _, _.
Qed.

(** When the VM's [load_bootloader] succeeds every vCPU (whose code segment was
    usable) starts in real mode at the boot sector. *)
Lemma vm_load_bootloader_boots path s s' (Hrun : vm_load_bootloader path s = (s', Ok tt)) :
  devices s'.1 = devices s.1 ∧ env_fs s'.2 = env_fs s.2 ∧ map vcpu_id (vcpus s'.1) = map vcpu_id (vcpus s.1) ∧
  (Forall cs_usable (vcpus s.1) →
   Forall (λ v, ∃ regs sregs, vcpu_get_regs (fd v) = Ok regs ∧ rip regs = boot_addr ∧
                  vcpu_get_sregs (fd v) = Ok sregs ∧ real_mode sregs) (vcpus s'.1)).
Proof.
  apply bind_ok_inv in Hrun as (s1 & [] & Hm & Hv).
  unfold on_memory, zoom in Hm. destruct (Bootloader.load_bootloader _ _) as [m r]. simplify_eq.
  unfold on_vcpus, zoom in Hv. destruct (for_vcpus _ _) as [vs r] eqn:Hf. simplify_eq. simpl in *.
  apply each_vcpu_ok in Hf as (vs' & -> & Hall). simpl in *. do 2 (split; [done|]). split.
  - induction Hall as [|v v' l l' [Hid _] _ IH]; simpl; [done|]. by rewrite Hid, IH.
  - eapply (for_vcpus_usable (λ f, ∃ regs sregs, vcpu_get_regs f = Ok regs ∧
      rip regs = boot_addr ∧ vcpu_get_sregs f = Ok sregs ∧ real_mode sregs)); [|done].
    intros v v' Hi Hu.
    apply init_vcpu_for_real_mode_inv in Hi as (r0 & s0 & s1 & _ & R1 & S0 & S1 & L & _).
    pose proof (sregs_for_real_mode_real s0 s1 L (Hu _ S0)). by eexists _, _.
Qed.

Lemma vm_load_bootloader_loader path s s' r :
  vm_load_bootloader path s = (s', r) → kernel_loader s'.1 = kernel_loader s.1.
Proof.
  unfold vm_load_bootloader, mbind, prog_bind, on_memory, on_vcpus, zoom.
  destruct (Bootloader.load_bootloader path _) as [m [[]| | |]]; [|intros; by simplify_eq..].
  destruct (for_vcpus _ _) as [vs r']. by intros; simplify_eq.
Qed.

(** [restore_state] always fails, with an I/O error, and leaves the machine as
    it was. *)
Lemma restore_state_err `{IOL : !SnapshotIoLaws} path s :
  ∃ msg, restore_state path s = (s, Err (io_other msg)).
Proof.
  destruct s as [vm env]. unfold restore_state. simpl.
  destruct (load_from_file_err (env_files env) path (vm_mem vm, vcpus vm)) as [e ->].
  exists (box_to_string e). unfold vm_with_vcpus, vm_with_mem, vm_mem. simpl. repeat f_equal.
  by destruct vm as [? ? ? [] ? ? ? ? ? ? ?].
Qed.

(** ** MMIO dispatch *)

Lemma dispatch_write_inert fuel addr data done todo w ds' w' r :
  Forall (λ d, inert (device d)) (done ++ todo) →
  dispatch_write fuel addr data done todo w = ((ds', w'), r) →
  Forall (λ d, inert (device d)) ds' ∧ w' = w.
Proof.
  revert done w. induction todo as [|d todo IH]; intros dn w Hi Hw; simpl in Hw.
  { simplify_eq. by rewrite app_nil_r in Hi. }
  apply Forall_app in Hi as [Hdn [Hd Htd]%Forall_cons_1]. destruct (in_window addr d).
  - destruct (pignore _ _) as [[d1 w1] r1] eqn:Hp.
    assert (inert (device d1) ∧ w1 = w) as [Hd1 ->].
    { unfold pignore in Hp. destruct (mmio_write _ _ _ _) as [[d2 w2] r2] eqn:Hm.
      apply inert_mmio_write in Hm as [? ?]; [|done]. simpl in *. subst. by destruct r2; simplify_eq. }
    destruct r1; [eapply IH in Hw; [done|]|..].
    1: rewrite <- app_assoc; simpl; apply Forall_app; split; [done|by constructor].
    all: simplify_eq; split; [|done]; apply Forall_app; split; [done|by constructor].
  - eapply IH in Hw; [done|]. rewrite <- app_assoc. simpl. apply Forall_app. split; [done|by constructor].
Qed.

(** A sequence of guest writes, each dispatched to the devices. *)
Fixpoint dispatch_writes (fuel : nat) (l : list (Z * list byte)) (ds : list Device) (w : World)
    : (list Device * World) * result unit :=
  match l with
  | [] => ((ds, w), Ok tt)
  | (addr, data) :: l' =>
      let '((ds1, w1), r) := dispatch_write fuel addr data [] ds w in
      match r with Ok _ => dispatch_writes fuel l' ds1 w1 | r => ((ds1, w1), r) end
  end.

(** C17: even if the guest could reach the devices, no sequence of writes to them
    would have an effect on guest memory or on the host's stdout: the transport
    has no register that makes a queue ready, and every device checks that. *)
Theorem guest_writes_have_no_effect n vm env l s' fuel writes w ds' w' r
    (Hnew : vm_new n = Ok vm) (Hlen : 5 + Z.of_nat (length l) < 2 ^ 32)
    (Hrun : attach_all l (vm, env) = (s', Ok tt))
    (Hw : dispatch_writes fuel writes (devices s'.1) w = ((ds', w'), r)) :
  w' = w.
Proof.
  destruct (vm_new_inv n vm Hnew) as (Hirq & _ & Hdev & _).
  destruct (attach_all_ok l (vm, env) s') as (ds & D & L & _ & F); [simpl; rewrite Hirq; lia..|done|].
  simpl in *. rewrite Hdev in D. simpl in D.
  assert (Hi : Forall (λ d, inert (device d)) (devices s'.1)).
  { rewrite D. apply Forall_lookup. intros k d Hk.
    destruct (lookup_lt_is_Some_2 l k) as [a Ha]; [rewrite <- L; by eapply lookup_lt_Some|].
    destruct (F k a d Ha Hk) as (b & -> & Hb & _). done. }
  clear - Hi Hw QL. revert Hi Hw. generalize (devices s'.1). revert w.
  induction writes as [|[addr data] writes IH]; intros w ds1 Hi Hw; simpl in Hw; [by simplify_eq|].
  destruct (dispatch_write _ _ _ _ _ _) as [[ds2 w2] r2] eqn:E.
  apply dispatch_write_inert in E as [Hi2 ->]; [|done].
  destruct r2; simplify_eq; [by eapply IH|done..].
Qed.

End vm_facts.
