(* ===== verification/RunLoop.v ===== *)
(** * RunLoop: the threads of [VirtualMachine::run] in vm.rs

    [run] starts one thread per vCPU and monitors them from the main thread.
    The threads share the [running] and [error_occurred] flags, the error
    channel, the devices and guest memory; their interleavings are a step
    relation ([step]) on [RunState], one step per access to something shared; the
    guest's run and the service of its exit are two steps.
    A vCPU whose guest does not exit is a thread that takes no step. *)

From stdpp Require Import relations.
From S2P Require Import Prelude Errors Platform Host VirtioMmio Chains Console Block Net Fs Kvm Memory Vcpu KernelLoader Bootloader Serde Snapshot Vm.

(** Where a vCPU thread is in its loop. *)
Inductive tpc : Type :=
| PStart                       (* about to load [running] *)
| PErrChk                      (* about to load [error_occurred] *)
| PRecv                        (* about to poll its channel *)
| PRun                         (* about to run the guest, or to serve its exit *)
| PSend (msg : string)         (* about to report its error *)
| PFlag                        (* about to set [error_occurred] *)
| PExit                        (* left the loop *)
| PFailed                      (* left the loop after an error *)
| PPanicked.

#[global] Instance tpc_eq_dec : EqDecision tpc.
Proof. solve_decision. Defined.

(** Where the main thread is. *)
Inductive mpc : Type :=
| MRecv                        (* about to poll the error channel *)
| MErr                         (* about to load [error_occurred] *)
| MRun                         (* about to load [running] *)
| MSleep                       (* sleeping 10 ms *)
| MStore                       (* about to clear [running] and break *)
| MJoin                        (* waiting for the scope's threads *)
| MReturned (r : result unit)
| MPanicked.                   (* the scope re-raised a thread's panic *)

(** [th_exit] is the exit of the guest that the thread has yet to serve. *)
Record Thread : Type := {
  th_pc : tpc;
  th_inbox : list VmMessage;
  th_exit : option VcpuExit;
}.

Definition at_pc (pc : tpc) (t : Thread) : Thread :=
  {| th_pc := pc; th_inbox := th_inbox t; th_exit := None |}.

(** A message is taken from the channel. *)
Definition received (pc : tpc) (q : list VmMessage) : Thread :=
  {| th_pc := pc; th_inbox := q; th_exit := None |}.

(** The guest exited. *)
Definition with_exit (e : VcpuExit) (t : Thread) : Thread :=
  {| th_pc := PRun; th_inbox := th_inbox t; th_exit := Some e |}.

Definition finished (t : Thread) : bool :=
  match th_pc t with PExit | PFailed | PPanicked => true | _ => false end.

Definition panicked (t : Thread) : bool :=
  match th_pc t with PPanicked => true | _ => false end.

Section run.
Context `{QA : QueueApi} `{EA : EventApi} `{KA : !KvmApi} `{KS : !KvmSystem}.
Context {BP : BuildProfile}.

(** [rs_running] is the shared [running]; [rs_poisoned] the devices' mutex after
    a panic while it was held; [rs_replies] the answers to snapshot requests. *)
Record RunState : Type := {
  rs_vm : VirtualMachine;
  rs_env : Env;
  rs_running : bool;
  rs_error : bool;
  rs_errq : list string;
  rs_threads : list Thread;
  rs_main : mpc;
  rs_poisoned : bool;
  rs_replies : list (nat * HypervisorError);
}.

(** ** One turn of a vCPU *)

(** What serving an exit works on: the vCPU, the devices, memory and stdout, and
    whether the devices' mutex is poisoned. *)
Definition served_state : Type := VcpuFd * list Device * World * bool.

(** The service of an exit: an MMIO access goes to the devices, under their
    lock. *)
Definition serve_exit (fuel : nat) (exit : VcpuExit) (x : served_state) : served_state * result unit :=
  let '(v, ds, w, poisoned) := x in
  match exit with
  | MmioRead addr data =>
      if poisoned then (x, Panic)
      else
        match dispatch_read addr ds data with
        | Ok data' => ((vcpu_set_data v data', ds, w, false), Ok tt)
        | Err e => (x, Err e)
        | Panic => ((v, ds, w, true), Panic)
        | OutOfFuel => (x, OutOfFuel)
        end
  | MmioWrite addr data =>
      if poisoned then (x, Panic)
      else
        let '((ds', w'), r) := dispatch_write fuel addr data [] ds w in
        ((v, ds', w', match r with Panic => true | _ => false end), r)
  | _ => (x, Ok tt)
  end.

Definition run_world (s : RunState) : World :=
  {| w_mem := vm_mem (rs_vm s); w_stdout := env_stdout (rs_env s) |}.

(** The machine after vCPU [i] ran or its exit was served. *)
Definition put_exec (s : RunState) (i : nat) (v : Vcpu) (x : served_state)
    (ts : list Thread) : RunState :=
  let '(fd', ds, w, p) := x in
  let vm1 := vm_with_mem (rs_vm s) (w_mem w) in
  let vm2 := vm_with_devices vm1 ds in
  {| rs_vm := vm_with_vcpus vm2 (<[i := {| fd := fd'; vcpu_id := vcpu_id v |}]> (vcpus vm2));
     rs_env := {| env_stdout := w_stdout w; env_fs := env_fs (rs_env s);
                  env_files := env_files (rs_env s) |};
     rs_running := rs_running s; rs_error := rs_error s; rs_errq := rs_errq s;
     rs_threads := ts; rs_main := rs_main s; rs_poisoned := p; rs_replies := rs_replies s |}.

(** State updates. *)
Definition put_threads (s : RunState) (ts : list Thread) : RunState :=
  {| rs_vm := rs_vm s; rs_env := rs_env s; rs_running := rs_running s; rs_error := rs_error s;
     rs_errq := rs_errq s; rs_threads := ts; rs_main := rs_main s; rs_poisoned := rs_poisoned s;
     rs_replies := rs_replies s |}.
Definition put_errors (s : RunState) (e : bool) (q : list string) (ts : list Thread) : RunState :=
  {| rs_vm := rs_vm s; rs_env := rs_env s; rs_running := rs_running s; rs_error := e;
     rs_errq := q; rs_threads := ts; rs_main := rs_main s; rs_poisoned := rs_poisoned s;
     rs_replies := rs_replies s |}.
Definition put_reply (s : RunState) (r : list (nat * HypervisorError)) (ts : list Thread) : RunState :=
  {| rs_vm := rs_vm s; rs_env := rs_env s; rs_running := rs_running s; rs_error := rs_error s;
     rs_errq := rs_errq s; rs_threads := ts; rs_main := rs_main s; rs_poisoned := rs_poisoned s;
     rs_replies := r |}.
Definition put_main (s : RunState) (running : bool) (q : list string) (m : mpc) : RunState :=
  {| rs_vm := rs_vm s; rs_env := rs_env s; rs_running := running; rs_error := rs_error s;
     rs_errq := q; rs_threads := rs_threads s; rs_main := m; rs_poisoned := rs_poisoned s;
     rs_replies := rs_replies s |}.

(** [SnapshotRequest]: only the thread with [i as u8 == 0] answers. *)
Definition snapshot_reply (i : nat) (tx : nat) (old : list (nat * HypervisorError))
    : list (nat * HypervisorError) :=
  if as_u8 (Z.of_nat i) =? 0 then old ++ [(tx, SnapshotError "Snapshot not implemented")] else old.

(** [self.stop().ok(); Ok(())] on the flag and the channels. *)
Definition after_scope (s : RunState) : RunState :=
  {| rs_vm := if rs_running s
              then vm_with_run (rs_vm s) false (map (λ q, q ++ [Stop]) (message_tx (rs_vm s)))
              else vm_with_run (rs_vm s) false (message_tx (rs_vm s));
     rs_env := rs_env s; rs_running := false; rs_error := rs_error s; rs_errq := rs_errq s;
     rs_threads := rs_threads s; rs_main := MReturned (Ok tt); rs_poisoned := rs_poisoned s;
     rs_replies := rs_replies s |}.

(** ** Steps *)

Inductive tstep (i : nat) (t : Thread) (s : RunState) : RunState → Prop :=
| ts_running :
    th_pc t = PStart → rs_running s = true →
    tstep i t s (put_threads s (<[i := at_pc PErrChk t]> (rs_threads s)))
| ts_stopped :
    th_pc t = PStart → rs_running s = false →
    tstep i t s (put_threads s (<[i := at_pc PExit t]> (rs_threads s)))
| ts_no_error :
    th_pc t = PErrChk → rs_error s = false →
    tstep i t s (put_threads s (<[i := at_pc PRecv t]> (rs_threads s)))
| ts_error_seen :
    th_pc t = PErrChk → rs_error s = true →
    tstep i t s (put_threads s (<[i := at_pc PExit t]> (rs_threads s)))
| ts_no_message :
    th_pc t = PRecv → th_inbox t = [] →
    tstep i t s (put_threads s (<[i := at_pc PRun t]> (rs_threads s)))
| ts_stop q :
    th_pc t = PRecv → th_inbox t = Stop :: q →
    tstep i t s (put_threads s (<[i := received PExit q]> (rs_threads s)))
| ts_snapshot tx path q :
    th_pc t = PRecv → th_inbox t = SnapshotRequest tx path :: q →
    tstep i t s (put_reply s (snapshot_reply i tx (rs_replies s))
                   (<[i := received PStart q]> (rs_threads s)))
| ts_guest_exit v fd' w exit :
    th_pc t = PRun → th_exit t = None → vcpus (rs_vm s) !! i = Some v →
    vcpu_run_once (vm_fd (rs_vm s)) (fd v, run_world s) = ((fd', w), Ok exit) →
    tstep i t s (put_exec s i v (fd', devices (rs_vm s), w, rs_poisoned s)
                   (<[i := with_exit exit t]> (rs_threads s)))
| ts_guest_err v fd' w e :
    th_pc t = PRun → th_exit t = None → vcpus (rs_vm s) !! i = Some v →
    vcpu_run_once (vm_fd (rs_vm s)) (fd v, run_world s) = ((fd', w), Err e) →
    tstep i t s (put_exec s i v (fd', devices (rs_vm s), w, rs_poisoned s)
                   (<[i := at_pc (PSend (to_string e)) t]> (rs_threads s)))
| ts_guest_panic v fd' w :
    th_pc t = PRun → th_exit t = None → vcpus (rs_vm s) !! i = Some v →
    vcpu_run_once (vm_fd (rs_vm s)) (fd v, run_world s) = ((fd', w), Panic) →
    tstep i t s (put_exec s i v (fd', devices (rs_vm s), w, rs_poisoned s)
                   (<[i := at_pc PPanicked t]> (rs_threads s)))
| ts_served fuel v exit x :
    th_pc t = PRun → th_exit t = Some exit → vcpus (rs_vm s) !! i = Some v →
    serve_exit fuel exit (fd v, devices (rs_vm s), run_world s, rs_poisoned s) = (x, Ok tt) →
    tstep i t s (put_exec s i v x (<[i := at_pc PStart t]> (rs_threads s)))
| ts_serve_panic fuel v exit x :
    th_pc t = PRun → th_exit t = Some exit → vcpus (rs_vm s) !! i = Some v →
    serve_exit fuel exit (fd v, devices (rs_vm s), run_world s, rs_poisoned s) = (x, Panic) →
    tstep i t s (put_exec s i v x (<[i := at_pc PPanicked t]> (rs_threads s)))
| ts_send msg :
    th_pc t = PSend msg →
    tstep i t s (put_errors s (rs_error s) (rs_errq s ++ [msg])
                   (<[i := at_pc PFlag t]> (rs_threads s)))
| ts_flag :
    th_pc t = PFlag →
    tstep i t s (put_errors s true (rs_errq s) (<[i := at_pc PFailed t]> (rs_threads s))).

Inductive mstep (s : RunState) : RunState → Prop :=
| ms_recv e q :
    rs_main s = MRecv → rs_errq s = e :: q → mstep s (put_main s (rs_running s) q MStore)
| ms_empty :
    rs_main s = MRecv → rs_errq s = [] → mstep s (put_main s (rs_running s) [] MErr)
| ms_error :
    rs_main s = MErr → rs_error s = true → mstep s (put_main s (rs_running s) (rs_errq s) MStore)
| ms_no_error :
    rs_main s = MErr → rs_error s = false → mstep s (put_main s (rs_running s) (rs_errq s) MRun)
| ms_stopped :
    rs_main s = MRun → rs_running s = false → mstep s (put_main s false (rs_errq s) MJoin)
| ms_running :
    rs_main s = MRun → rs_running s = true → mstep s (put_main s true (rs_errq s) MSleep)
| ms_wake : rs_main s = MSleep → mstep s (put_main s (rs_running s) (rs_errq s) MRecv)
| ms_store : rs_main s = MStore → mstep s (put_main s false (rs_errq s) MJoin)
| ms_join :
    rs_main s = MJoin → forallb finished (rs_threads s) = true →
    existsb panicked (rs_threads s) = false → mstep s (after_scope s)
| ms_join_panic :
    rs_main s = MJoin → forallb finished (rs_threads s) = true →
    existsb panicked (rs_threads s) = true → mstep s (put_main s (rs_running s) (rs_errq s) MPanicked).

(** One step of the program: some thread, or the main thread. *)
Inductive step (s : RunState) : RunState → Prop :=
| step_thread i t s' : rs_threads s !! i = Some t → tstep i t s s' → step s s'
| step_main s' : mstep s s' → step s s'.

(** The state [run] reaches the scope in: [running] set, fresh channels, one
    thread per vCPU.  A machine has [num_cpus] vCPUs, so [vcpu_rxs.remove(0)]
    finds a receiver. *)
Definition run_init (vm : VirtualMachine) (env : Env) : RunState :=
  {| rs_vm := vm_with_run vm true (replicate (Z.to_nat (num_cpus vm)) []); rs_env := env;
     rs_running := true; rs_error := false; rs_errq := [];
     rs_threads := replicate (length (vcpus vm)) (received PStart []);
     rs_main := MRecv; rs_poisoned := false; rs_replies := [] |}.

(** ** A scheduler *)

(** Whose turn it is: the main thread or a vCPU's. *)
Inductive agent : Type := AMain | ACpu (i : nat).

(** The step of vCPU [i], if it has one. *)
Definition cpu_step (fuel i : nat) (s : RunState) : option RunState :=
  t ← rs_threads s !! i;
  let go pc := put_threads s (<[i := at_pc pc t]> (rs_threads s)) in
  match th_pc t with
  | PStart => Some (go (if rs_running s then PErrChk else PExit))
  | PErrChk => Some (go (if rs_error s then PExit else PRecv))
  | PRecv =>
      match th_inbox t with
      | [] => Some (go PRun)
      | Stop :: q => Some (put_threads s (<[i := received PExit q]> (rs_threads s)))
      | SnapshotRequest tx _ :: q =>
          Some (put_reply s (snapshot_reply i tx (rs_replies s))
                  (<[i := received PStart q]> (rs_threads s)))
      end
  | PRun =>
      v ← vcpus (rs_vm s) !! i;
      match th_exit t with
      | None =>
          let '((fd', w), r) := vcpu_run_once (vm_fd (rs_vm s)) (fd v, run_world s) in
          let put t' := put_exec s i v (fd', devices (rs_vm s), w, rs_poisoned s)
                          (<[i := t']> (rs_threads s)) in
          match r with
          | Ok exit => Some (put (with_exit exit t))
          | Err e => Some (put (at_pc (PSend (to_string e)) t))
          | Panic => Some (put (at_pc PPanicked t))
          | OutOfFuel => None
          end
      | Some exit =>
          let '(x, r) := serve_exit fuel exit
                           (fd v, devices (rs_vm s), run_world s, rs_poisoned s) in
          match r with
          | Ok _ => Some (put_exec s i v x (<[i := at_pc PStart t]> (rs_threads s)))
          | Panic => Some (put_exec s i v x (<[i := at_pc PPanicked t]> (rs_threads s)))
          | _ => None
          end
      end
  | PSend msg =>
      Some (put_errors s (rs_error s) (rs_errq s ++ [msg]) (<[i := at_pc PFlag t]> (rs_threads s)))
  | PFlag => Some (put_errors s true (rs_errq s) (<[i := at_pc PFailed t]> (rs_threads s)))
  | PExit | PFailed | PPanicked => None
  end.

(** The step of the main thread. *)
Definition main_step (s : RunState) : option RunState :=
  match rs_main s with
  | MRecv => match rs_errq s with
             | _ :: q => Some (put_main s (rs_running s) q MStore)
             | [] => Some (put_main s (rs_running s) [] MErr)
             end
  | MErr => Some (put_main s (rs_running s) (rs_errq s) (if rs_error s then MStore else MRun))
  | MRun => Some (put_main s (rs_running s) (rs_errq s) (if rs_running s then MSleep else MJoin))
  | MSleep => Some (put_main s (rs_running s) (rs_errq s) MRecv)
  | MStore => Some (put_main s false (rs_errq s) MJoin)
  | MJoin =>
      if forallb finished (rs_threads s) then
        if existsb panicked (rs_threads s)
        then Some (put_main s (rs_running s) (rs_errq s) MPanicked) else Some (after_scope s)
      else None
  | MReturned _ | MPanicked => None
  end.

(** A schedule: agents without a step are skipped. *)
Fixpoint run_sched (fuel : nat) (l : list agent) (s : RunState) : RunState :=
  match l with
  | [] => s
  | a :: l' =>
      run_sched fuel l'
        (default s (match a with AMain => main_step s | ACpu i => cpu_step fuel i s end))
  end.

End run.

(** ** Lemmas *)

Section run_facts.
Context `{QA : QueueApi} `{EA : EventApi} `{KA : !KvmApi} `{KS : !KvmSystem} {BP : BuildProfile}.
Implicit Types (s : RunState) (t : Thread).

Definition reported (t : Thread) : bool :=
  match th_pc t with PFlag | PFailed => true | _ => false end.

(** Some vCPU reported an error. *)
Definition some_error s : Prop := existsb reported (rs_threads s) = true.

Definition main_done s : Prop :=
  match rs_main s with MStore | MJoin | MReturned _ | MPanicked => True | _ => False end.

(** Nothing but an error report stops the program. *)
Definition run_inv s : Prop :=
  (rs_running s = false → some_error s) ∧ (rs_error s = true → some_error s) ∧
  (rs_errq s ≠ [] → some_error s) ∧ (main_done s → some_error s) ∧
  (∀ r, rs_main s = MReturned r → r = Ok tt).

Lemma existsb_insert_true (f : Thread → bool) i t l :
  (i < length l)%nat → f t = true → existsb f (<[i := t]> l) = true.
Proof.
  intros Hi Hf. apply existsb_exists. exists t. split; [|done].
  apply list_elem_of_In, list_elem_of_lookup. exists i. by apply list_lookup_insert_eq.
Qed.

(** Changing a thread that has not reported keeps the others' reports. *)
Lemma some_error_insert i t t' l :
  l !! i = Some t → reported t = false →
  existsb reported l = true → existsb reported (<[i := t']> l) = true.
Proof.
  intros Hi Ht Hl. apply existsb_exists in Hl as (x & Hx & Hr).
  apply list_elem_of_In, list_elem_of_lookup in Hx as [j Hj].
  apply existsb_exists. exists x. split; [|done].
  apply list_elem_of_In, list_elem_of_lookup. exists j.
  rewrite list_lookup_insert_ne; [done|]. intros ->. congruence.
Qed.

(** A thread's step either is its report or keeps the flags and the reports. *)
Lemma tstep_cases i t s s' :
  rs_threads s !! i = Some t → tstep i t s s' →
  rs_main s' = rs_main s ∧ rs_running s' = rs_running s ∧
  ∃ t', rs_threads s' = <[i := t']> (rs_threads s) ∧
    ((reported t' = true ∧ (rs_error s' = true ∨ rs_error s' = rs_error s)) ∨
     (reported t = false ∧ rs_error s' = rs_error s ∧ rs_errq s' = rs_errq s)).
Proof.
  intros Hi Hs. destruct Hs; simpl; try (destruct x as [[[fd' ds] w] p]; simpl);
    (split_and!; [done..|]); eexists; (split; [done|]); unfold reported; simpl;
    repeat match goal with H : th_pc t = _ |- _ => rewrite H end; auto.
Qed.

Lemma run_inv_step s s' : run_inv s → step s s' → run_inv s'.
Proof.
  intros (I1 & I2 & I3 & I4 & I5) [i t s1 Hi Hs|s1 Hs].
  - destruct (tstep_cases i t s s1 Hi Hs) as (Hm & Hr & t' & Ht & Hcase).
    assert (Hgoal : some_error s → some_error s1).
    { unfold some_error. rewrite Ht. destruct Hcase as [[Hrep _]|(Hrep & _)].
      - intros _. apply existsb_insert_true; [by eapply lookup_lt_Some|done].
      - by eapply some_error_insert. }
    unfold run_inv, main_done. rewrite Hm, Hr.
    split_and!; [auto| | |intros; by apply Hgoal, I4|done].
    + destruct Hcase as [[Hrep _]|(_ & -> & _)]; [|auto].
      intros _. unfold some_error. rewrite Ht. apply existsb_insert_true; [by eapply lookup_lt_Some|done].
    + destruct Hcase as [[Hrep _]|(_ & _ & ->)]; [|auto].
      intros _. unfold some_error. rewrite Ht. apply existsb_insert_true; [by eapply lookup_lt_Some|done].
  - unfold run_inv, main_done, some_error in *.
    destruct Hs; simpl in *; repeat match goal with H : rs_main s = _ |- _ => rewrite H in * end;
      split_and!; intros; simplify_eq; try done; auto.
    all: apply I3; congruence.
Qed.

Lemma run_inv_init vm env : run_inv (run_init vm env).
Proof. unfold run_inv, main_done. by split_and!. Qed.

Lemma run_inv_reachable vm env s : rtc step (run_init vm env) s → run_inv s.
Proof.
  intros Hs. remember (run_init vm env) as s0 eqn:H0.
  assert (run_inv s0) as Hinv by (subst; apply run_inv_init). clear H0.
  induction Hs; [done|]. eauto using run_inv_step.
Qed.

Lemma some_error_thread s :
  some_error s → ∃ i t, rs_threads s !! i = Some t ∧ reported t = true.
Proof.
  intros Hs. apply existsb_exists in Hs as (t & Ht & Hr).
  apply list_elem_of_In, list_elem_of_lookup in Ht as [i Hi]. eauto.
Qed.

(** The scheduler only takes steps of the program. *)
Lemma cpu_step_sound fuel i s s' : cpu_step fuel i s = Some s' → step s s'.
Proof.
  unfold cpu_step. destruct (rs_threads s !! i) as [t|] eqn:Hi; cbn [mbind option_bind]; [|done].
  intros Hs. apply (step_thread s i t s' Hi). destruct (th_pc t) eqn:Hp; simplify_eq.
  - destruct (rs_running s) eqn:E; [by apply ts_running|by apply ts_stopped].
  - destruct (rs_error s) eqn:E; [by apply ts_error_seen|by apply ts_no_error].
  - destruct (th_inbox t) as [|[|tx p] q] eqn:E; simplify_eq;
      [by apply ts_no_message|by eapply ts_stop|by eapply ts_snapshot].
  - destruct (vcpus (rs_vm s) !! i) as [v|] eqn:Hv; cbn [mbind option_bind] in Hs; [|done].
    destruct (th_exit t) as [exit|] eqn:He.
    + destruct (serve_exit _ _ _) as [x r] eqn:E.
      destruct r as [[]| | |]; simplify_eq; [by eapply ts_served|by eapply ts_serve_panic].
    + destruct (vcpu_run_once _ _) as [[fd' w] r] eqn:E.
      destruct r; simplify_eq;
        [by eapply ts_guest_exit|by eapply ts_guest_err|by eapply ts_guest_panic].
  - by eapply ts_send.
  - by apply ts_flag.
Qed.

Lemma main_step_sound s s' : main_step s = Some s' → step s s'.
Proof.
  unfold main_step. intros Hs. apply step_main. destruct (rs_main s) eqn:Hm; simplify_eq.
  - destruct (rs_errq s) eqn:E; simplify_eq; [by apply ms_empty|by eapply ms_recv].
  - destruct (rs_error s) eqn:E; [by apply ms_error|by apply ms_no_error].
  - destruct (rs_running s) eqn:E; [by apply ms_running|by apply ms_stopped].
  - by apply ms_wake.
  - by apply ms_store.
  - destruct (forallb _ _) eqn:Hf; [|done].
    destruct (existsb _ _) eqn:He; simplify_eq; [by apply ms_join_panic|by apply ms_join].
Qed.

Lemma run_sched_reach fuel l s : rtc step s (run_sched fuel l s).
Proof.
  revert s. induction l as [|[|i] l IH]; intros s; simpl; [done|..].
  - destruct (main_step s) as [s1|] eqn:E; simpl; [|apply IH].
    eapply rtc_l; [by apply main_step_sound|apply IH].
  - destruct (cpu_step fuel i s) as [s1|] eqn:E; simpl; [|apply IH].
    eapply rtc_l; [by eapply cpu_step_sound|apply IH].
Qed.

(** Threads are neither created nor destroyed. *)
Lemma step_threads s s' : step s s' → length (rs_threads s') = length (rs_threads s).
Proof.
  intros [i t s1 Hi Hs|s1 Hs].
  - destruct (tstep_cases i t s s1 Hi Hs) as (_ & _ & t' & -> & _). by rewrite length_insert.
  - by destruct Hs.
Qed.

(** A panic of the main thread is a panic of a vCPU thread, re-raised. *)
Definition panic_inv s : Prop :=
  rs_main s = MPanicked →
  forallb finished (rs_threads s) = true ∧ existsb panicked (rs_threads s) = true.

Lemma finished_no_step i t s s' : finished t = true → ¬ tstep i t s s'.
Proof. intros Hf Hs. destruct Hs; unfold finished in Hf; by case_match. Qed.

Lemma panic_inv_reachable vm env s : rtc step (run_init vm env) s → panic_inv s.
Proof.
  intros Hs. remember (run_init vm env) as s0 eqn:H0.
  assert (panic_inv s0) as Hinv by by subst. clear H0.
  induction Hs as [|s s1 s2 H1 _ IH]; [done|]. apply IH. clear - Hinv H1.
  destruct H1 as [i t s1 Hi Hs|s1 Hs]; [|by destruct Hs].
  intros Hm. destruct (tstep_cases i t s s1 Hi Hs) as (Hm' & _). exfalso.
  destruct (Hinv ltac:(congruence)) as [Hf _]. eapply finished_no_step; [|exact Hs].
  rewrite forallb_forall in Hf. apply Hf, list_elem_of_In. by eapply list_elem_of_lookup_2.
Qed.

(** ** Theorems *)

(** C14: [run] returns only after some vCPU thread failed, and then it returns
    Ok all the same: an error of a vCPU is not reported to the caller, and
    nothing else (no signal handler, no stop request) ends a run. *)
Theorem run_returns_ok_after_error vm env s r
    (Hreach : rtc step (run_init vm env) s) (Hret : rs_main s = MReturned r) :
  r = Ok tt ∧ ∃ i t, rs_threads s !! i = Some t ∧ reported t = true.
Proof.
  apply run_inv_reachable in Hreach as (_ & _ & _ & I4 & I5). split; [by apply I5|].
  unfold main_done in I4. rewrite Hret in I4. by apply some_error_thread, I4.
Qed.

(** All threads gone and none of them reported. *)
Definition deserted s : Prop :=
  forallb finished (rs_threads s) = true ∧ existsb reported (rs_threads s) = false.

Lemma deserted_step s s' : deserted s → step s s' → deserted s'.
Proof.
  intros [Hf Hr] [i t s1 Hi Hs|s1 Hs].
  - exfalso. eapply finished_no_step; [|exact Hs]. rewrite forallb_forall in Hf.
    apply Hf, list_elem_of_In. by eapply list_elem_of_lookup_2.
  - by destruct Hs.
Qed.

(** A live main thread always has a step. *)
Lemma main_progress s : ¬ main_done s → ∃ s', mstep s s'.
Proof.
  unfold main_done. intros Hm. destruct (rs_main s) eqn:E; try done.
  - destruct (rs_errq s) eqn:Eq; eexists; [by apply ms_empty|by eapply ms_recv].
  - destruct (rs_error s) eqn:Ee; eexists; [by apply ms_error|by apply ms_no_error].
  - destruct (rs_running s) eqn:Er; eexists; [by apply ms_running|by apply ms_stopped].
  - eexists. by apply ms_wake.
Qed.

(** C15: a run whose vCPU threads are all gone without an error report goes on
    for ever: it never returns and never gets stuck.  That is the case from the
    start on a machine without vCPUs, and after the threads have panicked (a
    closed stdout makes them). *)
Theorem run_without_threads_hangs vm env s s'
    (Hreach : rtc step (run_init vm env) s) (Hgone : deserted s) (Hmore : rtc step s s') :
  (∀ r, rs_main s' ≠ MReturned r) ∧ rs_main s' ≠ MPanicked ∧ ∃ s'', step s' s''.
Proof.
  assert (Hd : deserted s') by (clear Hreach; induction Hmore; eauto using deserted_step).
  assert (Hi : run_inv s') by (eapply run_inv_reachable; by etrans).
  destruct Hd as [_ Hr]. destruct Hi as (_ & _ & _ & I4 & _).
  assert (Hm : ¬ main_done s') by (intros Hm; specialize (I4 Hm); unfold some_error in I4; congruence).
  destruct (main_progress s' Hm) as [s'' Hs]. unfold main_done in Hm.
  split_and!; [by intros r Hr'; rewrite Hr' in Hm|by intros Hr'; rewrite Hr' in Hm|].
  exists s''. by apply step_main.
Qed.

(** ** Shutdown *)

(** The flags tell the threads to stop. *)
Definition stopping s : Prop := rs_running s = false ∨ rs_error s = true.

(** Steps a thread has left once [stopping] holds. *)
Definition tmu (error : bool) (t : Thread) : nat :=
  match th_pc t with
  | PStart | PSend _ => 2
  | PErrChk => if error then 1 else 6
  | PRecv => 5
  | PRun => match th_exit t with None => 4 | Some _ => 3 end
  | PFlag => 1
  | PExit | PFailed | PPanicked => 0
  end.

(** Steps the main thread has left. *)
Definition mmu (running : bool) (m : mpc) : nat :=
  match m with
  | MRecv => 4
  | MErr => 3
  | MRun => if running then 6 else 2
  | MSleep => 5
  | MStore => 2
  | MJoin => 1
  | MReturned _ | MPanicked => 0
  end.

Definition mu s : nat :=
  mmu (rs_running s) (rs_main s) + sum_list_with (tmu (rs_error s)) (rs_threads s).

Lemma sum_insert (f g : Thread → nat) i t t' l :
  l !! i = Some t → (∀ x, g x ≤ f x)%nat → (g t' < f t)%nat →
  (sum_list_with g (<[i := t']> l) < sum_list_with f l)%nat.
Proof.
  revert i. induction l as [|x l IH]; intros [|i] Hi Hle Hlt; simplify_eq/=.
  - assert (sum_list_with g l ≤ sum_list_with f l)%nat; [|lia].
    clear - Hle. induction l as [|y l IH]; simpl; [done|]. specialize (Hle y). lia.
  - specialize (IH i Hi Hle Hlt). specialize (Hle x). lia.
Qed.

Lemma tmu_error_mono e x : (tmu true x ≤ tmu e x)%nat.
Proof. unfold tmu. destruct (th_pc x), e; try case_match; lia. Qed.

(** What a step of a thread does to its own measure. *)
Lemma tstep_decreases i t s s' :
  stopping s → rs_threads s !! i = Some t → tstep i t s s' →
  rs_main s' = rs_main s ∧ rs_running s' = rs_running s ∧
  (rs_error s' = rs_error s ∨ rs_error s' = true) ∧
  ∃ t', rs_threads s' = <[i := t']> (rs_threads s) ∧ (tmu (rs_error s') t' < tmu (rs_error s) t)%nat.
Proof.
  intros Hstop Hi Hs. unfold stopping in Hstop.
  destruct Hs; simpl; try (destruct x as [[[fd' ds] w] p]; simpl);
    (split_and!; [done|done|auto|]); eexists; (split; [done|]); unfold tmu; simpl;
    repeat match goal with H : th_pc t = _ |- _ => rewrite H end;
    repeat match goal with H : th_exit t = _ |- _ => rewrite H end;
    repeat match goal with H : rs_error s = _ |- _ => rewrite H end; try lia.
  destruct Hstop as [Hstop|Hstop]; [congruence|]. rewrite Hstop. lia.
Qed.

(** Once the threads are told to stop, every step is one step less. *)
Lemma stopping_step s s' : stopping s → step s s' → stopping s' ∧ (mu s' < mu s)%nat.
Proof.
  intros Hstop [i t s1 Hi Hs|s1 Hs].
  - destruct (tstep_decreases i t s s1 Hstop Hi Hs) as (Hm & Hr & He & t' & Ht & Hlt). split.
    + unfold stopping in *. rewrite Hr. destruct He as [-> | ->]; auto.
    + unfold mu. rewrite Hm, Hr, Ht.
      assert (sum_list_with (tmu (rs_error s1)) (<[i:=t']> (rs_threads s)) <
              sum_list_with (tmu (rs_error s)) (rs_threads s))%nat; [|lia].
      eapply sum_insert; [done| |done]. intros x.
      destruct He as [-> | ->]; [done|apply tmu_error_mono].
  - unfold stopping, mu in *.
    destruct Hs; simpl in *; repeat match goal with H : rs_main s = _ |- _ => rewrite H end;
      (split; [auto|]); simpl;
      repeat match goal with H : rs_running s = _ |- _ => rewrite H end; try lia.
    all: destruct Hstop as [Hstop|Hstop]; [try rewrite Hstop|]; try (by destruct (rs_running s); lia);
      try congruence; auto.
Qed.

(** A thread that is not running its guest or serving an exit can always take a
    step. *)
Lemma thread_progress i t s :
  rs_threads s !! i = Some t → finished t = false → th_pc t ≠ PRun → ∃ s', step s s'.
Proof.
  intros Hi Hf Hp. unfold finished in Hf.
  assert (∃ s', tstep i t s s') as [s' Hs]; [|eauto using step_thread].
  destruct (th_pc t) eqn:E; try done.
  - destruct (rs_running s) eqn:Er; eexists; [by apply ts_running|by apply ts_stopped].
  - destruct (rs_error s) eqn:Er; eexists; [by apply ts_error_seen|by apply ts_no_error].
  - destruct (th_inbox t) as [|[|tx path] q] eqn:Eq; eexists;
      [by apply ts_no_message|by eapply ts_stop|by eapply ts_snapshot].
  - eexists. by eapply ts_send.
  - eexists. by apply ts_flag.
Qed.

(** C3: once an error has been reported or [running] cleared, the run comes to an
    end: at most [mu s] steps are left, whatever the schedule, and when no step
    is left the main thread has returned (or re-raised a panic) unless a vCPU is
    still inside its guest or the service of its exit. *)
Theorem shutdown_terminates s n s' (Hstop : stopping s) (Hrun : nsteps step n s s') :
  (n ≤ mu s)%nat ∧
  ((∀ s'', ¬ step s' s'') →
   (∃ r, rs_main s' = MReturned r) ∨ rs_main s' = MPanicked ∨
   ∃ i t, rs_threads s' !! i = Some t ∧ th_pc t = PRun).
Proof.
  split.
  { induction Hrun as [|n s s1 s2 H1 _ IH]; [lia|].
    destruct (stopping_step s s1 Hstop H1) as [Hs Hlt]. specialize (IH Hs). lia. }
  intros Hstuck. destruct (forallb finished (rs_threads s')) eqn:Hf.
  - destruct (rs_main s') eqn:E; eauto; exfalso.
    1-4: destruct (main_progress s') as [s2 H2]; [unfold main_done; rewrite E; tauto|];
      by apply (Hstuck s2), step_main.
    + eapply Hstuck, step_main. by apply ms_store.
    + destruct (existsb panicked (rs_threads s')) eqn:Hp;
        eapply Hstuck, step_main; [by apply ms_join_panic|by apply ms_join].
  - right; right. apply not_true_iff_false in Hf. rewrite forallb_forall in Hf.
    destruct (decide (Exists (λ t, th_pc t = PRun) (rs_threads s'))) as [He|Hn].
    { apply Exists_exists in He as (t & Ht & Hp).
      apply list_elem_of_In, list_elem_of_lookup in Ht as [i Hi]. eauto. }
    exfalso. apply Hf. intros t Ht. destruct (finished t) eqn:Hft; [done|]. exfalso.
    apply list_elem_of_In, list_elem_of_lookup in Ht as [i Hi].
    destruct (thread_progress i t s' Hi Hft) as [s2 H2]; [|by apply (Hstuck s2)].
    intros Hp. apply Hn, Exists_exists. exists t. split; [|done].
    apply list_elem_of_In. by eapply list_elem_of_lookup_2.
Qed.

End run_facts.
