(* ===== verification/Main.v ===== *)
(** * Main: the command line of main.rs

    [main] creates the machine, attaches the devices the options ask for,
    restores, loads, runs and saves.  It stops early in two ways: [exit(1)] after
    logging, or by returning an error ([?]). *)

From stdpp Require Import relations.
From S2P Require Import Prelude Errors Platform Host VirtioMmio Chains Console Block Net Fs Kvm Memory Vcpu KernelLoader Bootloader Serde Snapshot Vm RunLoop.

(** Shared directories are given as the components of their paths. *)
Record Args : Type := {
  arg_kernel : string;
  arg_cpus : Z;
  arg_memory : Z;
  arg_disk : option string;
  arg_read_only : bool;
  arg_net : option string;
  arg_peer : option string;
  arg_share : list Path;
  arg_save_state : option string;
  arg_restore_state : option string;
  arg_bootloader : option string;
  arg_log_level : string;
}.

Inductive LevelFilter : Type := LError | LWarn | LInfo | LDebug | LTrace.

Definition level (log_level : string) : LevelFilter :=
  if String.eqb log_level "error" then LError
  else if String.eqb log_level "warn" then LWarn
  else if String.eqb log_level "debug" then LDebug
  else if String.eqb log_level "trace" then LTrace
  else LInfo.

(** [info!] is active at levels info, debug and trace. *)
Definition logs_info (l : LevelFilter) : bool :=
  match l with LError | LWarn => false | _ => true end.

(** [host_path.file_name().and_then(|n| n.to_str()).unwrap_or("shared")] *)
Definition share_tag (p : Path) : string :=
  match hd_error (rev p) with
  | Some n => if String.eqb n ".." then "shared" else n
  | None => "shared"
  end.

(** How [main] stops early. *)
Inductive main_stop : Type :=
| Exit1 (log : string)
| Propagate (e : HypervisorError).

(** How the process ends. *)
Inductive outcome : Type :=
| OExit (code : Z)
| OPanic.

Definition stop_code (e : main_stop) : outcome := OExit 1.

(** [m?] *)
Definition propagate {S A} (m : rust S A) : prog S main_stop A := pmap_err Propagate m.

(** [if let Err(e) = m { error!(..); exit(1) }] *)
Definition or_exit {S A} (what : string) (m : rust S A) : prog S main_stop A :=
  pmap_err (λ e, Exit1 (what +:+ to_string e)) m.

(** [if let Some(x) = opt { f(x) }] *)
Definition when_some {S E A} (o : option A) (f : A → prog S E unit) : prog S E unit :=
  match o with Some a => f a | None => mret tt end.

Section main.
Context `{QA : QueueApi} `{EA : EventApi} `{KA : !KvmApi} `{KS : !KvmSystem}.
Context {BP : BuildProfile} {HF : HostFiles} {EL : ElfApi} {HD : HostDevices}.
Context {IO : SnapshotIo} {PR : Pod kvm_regs} {PS : Pod kvm_sregs} {PF : Pod kvm_fpu}.

(** Step 4: the devices. *)
Definition attach_devices (args : Args) : prog machine main_stop unit :=
  propagate add_virtio_console;;
  when_some (arg_disk args) (λ disk, propagate (add_virtio_block disk (arg_read_only args)));;
  when_some (arg_net args) (λ net,
    match arg_peer args with
    | Some peer => propagate (add_virtio_net net peer)
    | None => perr (Exit1 "--peer is required when --net is specified")
    end);;
  for_each (arg_share args) (λ share, propagate (add_virtio_fs (share_tag share) share false)).

(** Steps 5 and 6: restore, kernel, bootloader. *)
Definition load_guest (args : Args) : prog machine main_stop unit :=
  let LL : LogLevel := logs_info (level (arg_log_level args)) in
  when_some (arg_restore_state args) (λ path, propagate (restore_state path));;
  or_exit "Failed to load kernel: " (vm_load_kernel (arg_kernel args));;
  when_some (arg_bootloader args) (λ path,
    or_exit "Failed to load bootloader: " (vm_load_bootloader path)).

Definition main_boot (args : Args) : prog machine main_stop unit :=
  attach_devices args;; load_guest args.

(** Step 8: save. *)
Definition main_save (args : Args) : prog machine main_stop unit :=
  when_some (arg_save_state args) (λ path, propagate (save_state path)).

(** Step 3. *)
Definition main_new (args : Args) : res main_stop VirtualMachine :=
  match vm_new (arg_cpus args) with
  | Ok vm => Ok vm
  | Err e => Err (Exit1 ("Failed to create VM: " +:+ to_string e))
  | Panic => Panic
  | OutOfFuel => OutOfFuel
  end.

Definition finish (r : res main_stop unit) : option outcome :=
  match r with
  | Ok _ => Some (OExit 0)
  | Err e => Some (stop_code e)
  | Panic => Some OPanic
  | OutOfFuel => None
  end.

(** The whole program: whether a run of [main] gets to the guest, and what it can
    end in.  An error of [run] is only logged. *)
Inductive main (args : Args) (env : Env) : bool → outcome → Prop :=
| main_no_vm e : main_new args = Err e → main args env false (stop_code e)
| main_new_panic : main_new args = Panic → main args env false OPanic
| main_no_boot vm s e :
    main_new args = Ok vm → main_boot args (vm, env) = (s, Err e) → main args env false (stop_code e)
| main_boot_panic vm s :
    main_new args = Ok vm → main_boot args (vm, env) = (s, Panic) → main args env false OPanic
| main_run_panic vm s rs :
    main_new args = Ok vm → main_boot args (vm, env) = (s, Ok tt) →
    rtc step (run_init s.1 s.2) rs → rs_main rs = MPanicked → main args env true OPanic
| main_ran vm s rs r s' r' o :
    main_new args = Ok vm → main_boot args (vm, env) = (s, Ok tt) →
    rtc step (run_init s.1 s.2) rs → rs_main rs = MReturned r →
    main_save args (rs_vm rs, rs_env rs) = (s', r') → finish r' = Some o → main args env true o.

(** ** The devices an invocation attaches *)

Definition attachments (args : Args) : list attachment :=
  AttConsole ::
  match arg_disk args with Some disk => [AttBlock disk (arg_read_only args)] | None => [] end ++
  match arg_net args, arg_peer args with Some net, Some peer => [AttNet net peer] | _, _ => [] end ++
  map (λ share, AttFs (share_tag share) share false) (arg_share args).

End main.

(** ** Theorems *)

Section main_facts.
Context `{QA : QueueApi} `{EA : EventApi} `{KA : !KvmApi} `{KS : !KvmSystem}.
Context {BP : BuildProfile} {HF : HostFiles} {EL : ElfApi} {HD : HostDevices}.
Context {IO : SnapshotIo} {PR : Pod kvm_regs} {PS : Pod kvm_sregs} {PF : Pod kvm_fpu}.
Context `{ML : !MemoryLaws} `{QL : !QueueLaws} `{KL : !KvmLaws} `{KSL : !KvmSystemLaws}.
Implicit Types (s : machine).

Lemma propagate_ok {S A} (m : rust S A) x x' a : propagate m x = (x', Ok a) → m x = (x', Ok a).
Proof. unfold propagate, pmap_err. destruct (m x) as [y [| | |]]; intros; by simplify_eq. Qed.

Lemma or_exit_ok {S A} what (m : rust S A) x x' a : or_exit what m x = (x', Ok a) → m x = (x', Ok a).
Proof. unfold or_exit, pmap_err. destruct (m x) as [y [| | |]]; intros; by simplify_eq. Qed.

Lemma for_each_app {S E A} (l1 l2 : list A) (f : A → prog S E unit) x :
  for_each (l1 ++ l2) f x = (for_each l1 f;; for_each l2 f) x.
Proof.
  revert x. induction l1 as [|a l1 IH]; intros x; simpl; [done|]. unfold mbind, prog_bind in *.
  destruct (f a x) as [y [[]| | |]]; [apply IH|done..].
Qed.

Lemma for_each_propagate {A} (l : list A) (f : A → rust machine unit) s s' :
  for_each l (λ a, propagate (f a)) s = (s', Ok tt) → for_each l f s = (s', Ok tt).
Proof.
  revert s. induction l as [|a l IH]; intros s; simpl.
  { unfold mret, prog_ret. by intros; simplify_eq. }
  intros Hrun.
  apply bind_ok_inv in Hrun as (s1 & [] & H1%propagate_ok & H2%IH).
  unfold mbind, prog_bind. by rewrite H1.
Qed.

Lemma for_each_map {S E A B} (g : A → B) (l : list A) (f : B → prog S E unit) x :
  for_each (map g l) f x = for_each l (λ a, f (g a)) x.
Proof.
  revert x. induction l as [|a l IH]; intros x; simpl; [done|]. unfold mbind, prog_bind.
  destruct (f (g a) x) as [y [[]| | |]]; [apply IH|done..].
Qed.

(** The options' devices are attached in order. *)
Lemma attach_devices_ok args s s' :
  attach_devices args s = (s', Ok tt) →
  attach_all (attachments args) s = (s', Ok tt) ∧ (is_Some (arg_net args) → is_Some (arg_peer args)).
Proof.
  intros Hrun. apply bind_ok_inv in Hrun as (s1 & [] & H1%propagate_ok & Hrun).
  apply bind_ok_inv in Hrun as (s2 & [] & H2 & Hrun).
  apply bind_ok_inv in Hrun as (s3 & [] & H3 & H4%for_each_propagate).
  assert (A2 : for_each (match arg_disk args with Some disk => [AttBlock disk (arg_read_only args)]
                         | None => [] end) attach s1 = (s2, Ok tt)).
  { destruct (arg_disk args); simpl in *; [|unfold mret, prog_ret in *; by simplify_eq].
    apply propagate_ok in H2. unfold mbind, prog_bind. by rewrite H2. }
  assert (A3 : for_each (match arg_net args, arg_peer args with Some net, Some peer => [AttNet net peer]
                         | _, _ => [] end) attach s2 = (s3, Ok tt)).
  { destruct (arg_net args); simpl in *; [|unfold mret, prog_ret in *; by simplify_eq].
    destruct (arg_peer args); [|done].
    apply propagate_ok in H3. simpl. unfold mbind, prog_bind. by rewrite H3. }
  split.
  - unfold attach_all, attachments. cbn [for_each attach]. unfold mbind, prog_bind. rewrite H1.
    rewrite for_each_app. unfold mbind, prog_bind. rewrite A2.
    rewrite for_each_app. unfold mbind, prog_bind. rewrite A3. rewrite for_each_map. exact H4.
  - intros [net Hnet]. rewrite Hnet in H3. simpl in H3. by destruct (arg_peer args).
Qed.

Lemma load_guest_inv args s s' :
  load_guest args s = (s', Ok tt) →
  let LL : LogLevel := logs_info (level (arg_log_level args)) in
  ∃ s1 s2, when_some (arg_restore_state args) (λ path, propagate (restore_state path)) s = (s1, Ok tt) ∧
    vm_load_kernel (arg_kernel args) s1 = (s2, Ok tt) ∧
    match arg_bootloader args with
    | Some path => vm_load_bootloader path s2 = (s', Ok tt)
    | None => s' = s2
    end.
Proof.
  intros Hrun. apply bind_ok_inv in Hrun as (s1 & [] & H1 & Hrun).
  apply bind_ok_inv in Hrun as (s2 & [] & H2%or_exit_ok & H3). exists s1, s2. split_and!; [done..|].
  destruct (arg_bootloader args); simpl in H3; [by apply or_exit_ok in H3|].
  unfold mret, prog_ret in H3. by simplify_eq.
Qed.

Section with_snapshots.
Context `{IOL : !SnapshotIoLaws}.

(** Restoring never succeeds, so a successful load starts from the attached
    machine. *)
Lemma load_guest_start args s s' :
  load_guest args s = (s', Ok tt) →
  let LL : LogLevel := logs_info (level (arg_log_level args)) in
  arg_restore_state args = None ∧
  ∃ s2, vm_load_kernel (arg_kernel args) s = (s2, Ok tt) ∧
    match arg_bootloader args with
    | Some path => vm_load_bootloader path s2 = (s', Ok tt)
    | None => s' = s2
    end.
Proof.
  intros Hl. apply load_guest_inv in Hl as (s1 & s2 & Hr & Hk & Hb). cbv zeta.
  destruct (arg_restore_state args) as [path|]; simpl in Hr.
  - apply propagate_ok in Hr. destruct (restore_state_err path s) as [msg Hm]. congruence.
  - unfold mret, prog_ret in Hr. simplify_eq. eauto.
Qed.

(** C22: asking for a restore means the program never runs the guest: restoring
    always fails, so every way for the program to end is before the guest is
    run, with exit code 1 or a panic. *)
Theorem restore_option_never_runs args env ran o path
    (Hopt : arg_restore_state args = Some path) (Hmain : main args env ran o) :
  ran = false ∧ (o = OExit 1 ∨ o = OPanic).
Proof.
  assert (Hno : ∀ x y, main_boot args x ≠ (y, Ok tt)).
  { intros x y Hb. apply bind_ok_inv in Hb as (x1 & [] & _ & Hl).
    apply load_guest_start in Hl as [Hr _]. congruence. }
  destruct Hmain; auto; by edestruct Hno.
Qed.

(** C19: a boot that succeeds had no restore request, and a peer if it had a
    network.  The devices are then the console, the disk, the network and the
    shares that were asked for, in this order, each at its class's window (all
    shares at the same one).  The disk is the image that was named, opened for
    writing unless --read-only and marked accordingly; the network has the local
    socket but, whatever --peer says, no peer; a share has its directory. *)
Theorem boot_devices args vm env s'
    (Hnew : vm_new (arg_cpus args) = Ok vm) (Hargs : 8 + Z.of_nat (length (arg_share args)) < 2 ^ 32)
    (Hboot : main_boot args (vm, env) = (s', Ok tt)) :
  arg_restore_state args = None ∧ (is_Some (arg_net args) → is_Some (arg_peer args)) ∧
  ∃ con disks nets shares,
    devices s'.1 = [con] ++ disks ++ nets ++ shares ∧
    (base_addr con = 0x1000 ∧ ∃ c, device con = DConsole c) ∧
    match arg_disk args, disks with
    | Some path, [d] => base_addr d = 0x2000 ∧ ∃ k, device d = DBlock k ∧
        disk_open path (negb (arg_read_only args)) = Ok (disk k) ∧ read_only k = arg_read_only args
    | None, [] => True
    | _, _ => False
    end ∧
    match arg_net args, nets with
    | Some addr, [d] => base_addr d = 0x3000 ∧ ∃ k, device d = DNet k ∧
        udp_bind addr = Ok (socket k) ∧ peer_addr k = None
    | None, [] => True
    | _, _ => False
    end ∧
    Forall2 (λ dir d, base_addr d = 0x4000 ∧ ∃ k, device d = DFs k ∧ root (fs_state k) = dir)
      (arg_share args) shares.
Proof.
  apply bind_ok_inv in Hboot as (s1 & [] & [Ha Hp]%attach_devices_ok & Hl).
  apply load_guest_start in Hl as (Hr & s3 & Hk & Hb). do 2 (split; [done|]).
  apply vm_load_kernel_boots in Hk as (D3 & _).
  assert (D4 : devices s'.1 = devices s3.1).
  { destruct (arg_bootloader args); [|by subst]. by apply vm_load_bootloader_boots in Hb as (-> & _). }
  destruct (vm_new_inv _ _ Hnew) as (Hirq & _ & Hdev & _).
  apply attach_all_ok in Ha as (ds & D & L & _ & F); simpl; rewrite ?Hirq; try lia.
  2: { unfold attachments. simpl. rewrite !length_app, length_map.
       destruct (arg_disk args), (arg_net args), (arg_peer args); simpl; lia. }
  assert (Hall : Forall2 attached_as (attachments args) ds).
  { apply Forall2_same_length_lookup. split; [done|]. intros k a d Hka Hkd.
    destruct (F k a d Hka Hkd) as (b & -> & _ & _ & Hd). by split. }
  rewrite D4, D3, D. simpl. rewrite Hdev. simpl.
  unfold attachments in Hall. apply Forall2_cons_inv_l in Hall as (con & ds1 & [B1 C1] & Hall & ->).
  apply Forall2_app_inv_l in Hall as (disks & ds2 & Hdisks & Hall & ->).
  apply Forall2_app_inv_l in Hall as (nets & shares & Hnets & Hsh & ->).
  exists con, disks, nets, shares. split_and!; [done..| | |].
  - destruct (arg_disk args); decompose_Forall_hyps; [|done].
    match goal with H : attached_as _ _ |- _ => by destruct H end.
  - destruct (arg_net args); [|by apply Forall2_nil_inv_l in Hnets as ->].
    destruct Hp as [peer Hpeer]; [done|]. rewrite Hpeer in Hnets. decompose_Forall_hyps.
    match goal with H : attached_as _ _ |- _ => by destruct H end.
  - clear - Hsh. revert shares Hsh. induction (arg_share args) as [|dir l IH]; intros shares Hsh;
      decompose_Forall_hyps; [constructor|]. constructor; [|by apply IH].
    match goal with H : attached_as _ _ |- _ => by destruct H end.
Qed.

(** C20: the mode the vCPUs start in: after a successful boot of a new machine
    the vCPUs are 0..n-1; with a bootloader all of them are in real mode at
    0x7c00, although the kernel was loaded too; without one they are in protected
    mode at the kernel's entry point. *)
Theorem boot_mode args vm env s'
    (Hnew : vm_new (arg_cpus args) = Ok vm) (Hboot : main_boot args (vm, env) = (s', Ok tt)) :
  map vcpu_id (vcpus s'.1) = seqZ 0 (arg_cpus args) ∧
  Forall (λ v, ∃ regs sregs, vcpu_get_regs (fd v) = Ok regs ∧ vcpu_get_sregs (fd v) = Ok sregs ∧
    match arg_bootloader args, kernel_loader s'.1 with
    | Some _, Some _ => real_mode sregs ∧ rip regs = 0x7c00
    | None, Some k => protected_mode sregs ∧ rip regs = get_entry_point k
    | _, None => False
    end) (vcpus s'.1).
Proof.
  apply bind_ok_inv in Hboot as (s1 & [] & [Ha _]%attach_devices_ok & Hl).
  apply load_guest_start in Hl as (_ & s3 & Hk & Hb).
  apply attach_all_vcpus in Ha. simpl in Ha.
  apply vm_load_kernel_boots in Hk as (_ & _ & k & Hk & _ & Hid & Hv). rewrite Ha in Hid, Hv.
  destruct (vm_new_inv _ _ Hnew) as (_ & _ & _ & _ & Hids & _).
  specialize (Hv (vm_new_usable _ _ Hnew)). rewrite Hids in Hid.
  destruct (arg_bootloader args) as [path|].
  - apply vm_load_bootloader_loader in Hb as Hkl. rewrite Hkl, Hk.
    apply vm_load_bootloader_boots in Hb as (_ & _ & Hid' & Hv'). split; [congruence|].
    eapply Forall_impl; [|apply Hv'].
    + intros v (regs & sregs & ? & ? & ? & ?). by exists regs, sregs.
    + eapply Forall_impl; [|exact Hv].
      intros v (regs & sregs & _ & _ & _ & Hs & _ & Hu) x Hx. congruence.
  - subst s'. rewrite Hk. split; [done|]. eapply Forall_impl; [|exact Hv].
    intros v (regs & sregs & ? & ? & _ & ? & ? & _). by exists regs, sregs.
Qed.

End with_snapshots.

(** C21: the exit code does not tell whether the guest failed: once the boot has
    succeeded and without a save request, every way for the program to end is
    from a finished run of the guest.  Either some vCPU reported an error, [run]
    returned Ok and the exit code is 0, or a vCPU thread panicked and so does
    the program; no vCPU error gives another exit code. *)
Theorem exit_code_hides_vcpu_errors args env vm s ran o
    (Hnosave : arg_save_state args = None)
    (Hnew : main_new args = Ok vm) (Hboot : main_boot args (vm, env) = (s, Ok tt))
    (Hmain : main args env ran o) :
  ran = true ∧ ∃ rs, rtc step (run_init s.1 s.2) rs ∧
    ((o = OExit 0 ∧ rs_main rs = MReturned (Ok tt) ∧
      ∃ i t, rs_threads rs !! i = Some t ∧ reported t = true) ∨
     (o = OPanic ∧ rs_main rs = MPanicked ∧
      ∃ i t, rs_threads rs !! i = Some t ∧ panicked t = true)).
Proof.
  destruct Hmain as [| | | |vm1 s1 rs Hn1 Hb1 Hrun Hend|vm1 s1 rs r s2 r2 o Hn1 Hb1 Hrun Hend Hsave Hfin];
    simplify_eq; try congruence; replace s1 with s in * by congruence; (split; [done|]); exists rs;
    (split; [done|]).
  - right. split_and!; [done..|]. apply panic_inv_reachable in Hrun as Hp.
    destruct (Hp Hend) as [_ Ht]. apply existsb_exists in Ht as (t & Ht & Hpt).
    apply list_elem_of_In, list_elem_of_lookup in Ht as [i Hi]. eauto.
  - left. apply run_inv_reachable in Hrun as (_ & _ & _ & I4 & I5).
    rewrite (I5 _ Hend) in Hend. unfold main_save in Hsave. rewrite Hnosave in Hsave. simpl in Hsave.
    unfold mret, prog_ret in Hsave. simplify_eq. simpl in Hfin. simplify_eq.
    split_and!; [done..|]. unfold main_done in I4. rewrite Hend in I4. by apply some_error_thread, I4.
Qed.

End main_facts.
