(* ===== verification/FlatKvm.v ===== *)
(** * FlatKvm: a concrete kernel and host

    Instances of the interfaces of Kvm.v, Serde.v, KernelLoader.v, Snapshot.v
    and Vm.v on which the models compute: vCPUs that play back a script of
    exits, the x86 layouts of the KVM structs, a parser for a toy executable
    format, and a host that answers every request.  They show that the laws can
    hold together and carry the witnesses of the theorems. *)

From S2P Require Import Prelude Errors Platform FlatPlatform Host Kvm KernelLoader Serde Snapshot Vm.

(** ** KVM *)

(** EFER is kept with the special registers; [fv_msrs] has the other MSRs. *)
Record FlatVcpu : Type := {
  fv_regs : kvm_regs; fv_sregs : kvm_sregs; fv_fpu : kvm_fpu; fv_msrs : gmap Z Z;
  fv_exits : list (res string VcpuExit);
}.

Definition covered (slots : list kvm_userspace_memory_region) (a : Z) : bool :=
  existsb (λ r, bool_decide (guest_phys_addr r ≤ a < guest_phys_addr r + memory_size r)) slots.

(** An access to RAM does not leave the guest. *)
Definition filter_exit (slots : list kvm_userspace_memory_region) (e : res string VcpuExit)
    : res string VcpuExit :=
  match e with
  | Ok (MmioRead a d) => if covered slots a then Ok Hlt else e
  | Ok (MmioWrite a d) => if covered slots a then Ok Hlt else e
  | e => e
  end.

Definition zero_regs : kvm_regs :=
  {| rax := 0; rbx := 0; rcx := 0; rdx := 0; rsi := 0; rdi := 0; rsp := 0; rbp := 0; r8 := 0; r9 := 0;
     r10 := 0; r11 := 0; r12 := 0; r13 := 0; r14 := 0; r15 := 0; rip := 0xfff0; rflags := 2 |}.
Definition zero_segment : kvm_segment :=
  {| sg_base := 0; sg_limit := 0; sg_selector := 0; sg_type := 0; sg_present := 0; sg_dpl := 0;
     sg_db := 0; sg_s := 0; sg_l := 0; sg_g := 0; sg_avl := 0; sg_rest := zeros 2 |}.
Definition zero_dtable : kvm_dtable := {| dt_base := 0; dt_limit := 0; dt_rest := zeros 6 |}.
Definition zero_sregs : kvm_sregs :=
  {| cs := zero_segment; ds := zero_segment; es := zero_segment; fs := zero_segment;
     gs := zero_segment; ss := zero_segment; tr := zero_segment; gdt := zero_dtable;
     idt := zero_dtable; cr0 := 0x60000010; cr3 := 0; cr4 := 0; efer := 0; sr_rest := zeros 80 |}.
Definition zero_fpu : kvm_fpu := {| fcw := 0; mxcsr := 0; fpu_rest := zeros 410 |}.

Definition fresh_vcpu (exits : list (res string VcpuExit)) : FlatVcpu :=
  {| fv_regs := zero_regs; fv_sregs := zero_sregs; fv_fpu := zero_fpu; fv_msrs := ∅;
     fv_exits := exits |}.

#[global] Instance flat_kvm : KvmApi := {|
  VmFd := list kvm_userspace_memory_region;
  VcpuFd := FlatVcpu;
  vm_slots := id;
  vm_set_user_memory_region := λ v r,
    if existsb (λ s, slot s =? slot r) v then (v, Some "File exists") else (v ++ [r], None);
  vm_create_vcpu := λ _ i, Ok (fresh_vcpu [Ok (IoOut 0x3f8 [Byte.x68]); Ok Hlt; Err "Bad address"]);
  vcpu_get_regs := λ v, Ok (fixed_rflags (fv_regs v));
  vcpu_set_regs := λ v r,
    ({| fv_regs := r; fv_sregs := fv_sregs v; fv_fpu := fv_fpu v; fv_msrs := fv_msrs v;
        fv_exits := fv_exits v |}, None);
  vcpu_get_sregs := λ v, Ok (fv_sregs v);
  vcpu_set_sregs := λ v r,
    if Z.testbit (cr0 r) 31 && negb (Z.testbit (cr0 r) 0) then (v, Some "Invalid argument")
    else ({| fv_regs := fv_regs v; fv_sregs := r; fv_fpu := fv_fpu v; fv_msrs := fv_msrs v;
             fv_exits := fv_exits v |}, None);
  vcpu_get_fpu := λ v, Ok (fv_fpu v);
  vcpu_set_fpu := λ v r,
    ({| fv_regs := fv_regs v; fv_sregs := fv_sregs v; fv_fpu := r; fv_msrs := fv_msrs v;
        fv_exits := fv_exits v |}, None);
  vcpu_msrs := λ v, <[MSR_EFER := efer (fv_sregs v)]> (fv_msrs v);
  vcpu_set_msrs := λ v es,
    ({| fv_regs := fv_regs v;
        fv_sregs := sregs_with_efer (fv_sregs v) (foldl efer_write (efer (fv_sregs v)) es);
        fv_fpu := fv_fpu v; fv_msrs := msr_store (fv_msrs v) es; fv_exits := fv_exits v |},
     Ok (length es));
  vcpu_run := λ v vm m,
    match fv_exits v with
    | [] => (v, m, Err "Interrupted system call")
    | e :: l =>
        ({| fv_regs := fv_regs v; fv_sregs := fv_sregs v; fv_fpu := fv_fpu v;
            fv_msrs := fv_msrs v; fv_exits := l |}, m, filter_exit vm e)
    end;
  vcpu_set_data := λ v _, v;
|}.

Lemma filter_exit_uncovered slots e a d :
  filter_exit slots e = Ok (MmioRead a d) ∨ filter_exit slots e = Ok (MmioWrite a d) →
  covered slots a = false.
Proof.
  unfold filter_exit. intros [Hf|Hf].
  all: destruct e as [[]| | |]; try done; destruct (covered _ _) eqn:Hc; by simplify_eq.
Qed.

Lemma fixed_rflags_idemp r : fixed_rflags (fixed_rflags r) = fixed_rflags r.
Proof. unfold fixed_rflags. simpl. by rewrite <- Z.lor_assoc. Qed.

Lemma sregs_loaded_refl s : sregs_loaded s s.
Proof.
  split; [|by split_and!]. unfold segments_of.
  repeat constructor; match goal with H : loadable _ |- _ => apply H end.
Qed.

#[global] Instance flat_kvm_laws : KvmLaws.
Proof.
  split; simpl.
  - intros v r v' Hs Hall. destruct (existsb _ v); by simplify_eq.
  - intros; by simplify_eq.
  - intros v r Hr. simplify_eq. apply fixed_rflags_idemp.
  - intros v s Hs. simplify_eq. by rewrite lookup_insert_eq.
  - intros v r v' Hs. by simplify_eq.
  - intros v s v' Hs. destruct (_ && _); simplify_eq. simpl. split_and!; [done..| |].
    + intros i Hi. rewrite !lookup_insert_ne; [done|..]; intros <-; apply Hi; left; set_solver.
    + exists s. split_and!; [done|apply sregs_loaded_refl|]. intros; by simplify_eq.
  - intros v0 s v v' H0 Hs. destruct (_ && _); simplify_eq. by eexists.
  - intros v f v' Hs. simplify_eq. simpl. split_and!; [done..|]. exists f. split_and!; [done..|].
    intros; by simplify_eq.
  - intros v0 f v v' H0 Hs. by simplify_eq.
  - intros v es v' n Hs Hall. simplify_eq. simpl. rewrite firstn_all. split_and!; [done..| |].
    + intros; by simplify_eq.
    + intros i Hi. rewrite lookup_insert_ne by done. apply msr_store_lookup.
      by rewrite lookup_insert_ne.
  - intros v vm m v' m' a data Hrun. destruct (fv_exits v) as [|e l]; [by destruct Hrun|].
    assert (Hc : covered vm a = false) by (eapply (filter_exit_uncovered vm e); destruct Hrun as [?|?]; simplify_eq; eauto).
    apply Forall_lookup. intros i s Hi Hcov. apply not_true_iff_false in Hc. apply Hc.
    apply existsb_exists. exists s. split; [apply list_elem_of_In; by eapply list_elem_of_lookup_2|].
    by apply bool_decide_eq_true.
  - intros v vm m v' m' r Hrun. destruct (fv_exits v); by simplify_eq.
Qed.

#[global] Instance flat_system : KvmSystem := {|
  KvmFd := unit;
  kvm_open := Ok tt;
  kvm_create_vm := λ _, Ok [];
  vm_create_irq_chip := λ v, (v, None);
  vm_create_pit2 := λ v _, (v, None);
  vm_copy_clock := λ _ v, v;
|}.

#[global] Instance flat_system_laws : KvmSystemLaws.
Proof. split; simpl; intros; by simplify_eq. Qed.

(** ** Struct layouts *)

(** A little-endian field at the front of a buffer. *)
Definition rd (n : nat) (bs : list byte) : Z * list byte := (from_le_bytes (take n bs), drop n bs).
Definition rd_raw (n : nat) (bs : list byte) : list byte * list byte := (take n bs, drop n bs).

Definition fits (n : nat) (z : Z) : Prop := 0 ≤ z < 2 ^ (Z.of_nat n * 8).

Lemma rd_app n z bs : fits n z → rd n (to_le_bytes n z ++ bs) = (z, bs).
Proof.
  intros Hz. unfold rd. rewrite take_app_length', drop_app_length' by (by rewrite length_to_le_bytes).
  by rewrite from_to_le_bytes.
Qed.

Lemma rd_raw_app n x bs : length x = n → rd_raw n (x ++ bs) = (x, bs).
Proof. intros Hx. unfold rd_raw. by rewrite take_app_length', drop_app_length'. Qed.

#[global] Opaque rd rd_raw.

Definition regs_fields (r : kvm_regs) : list Z :=
  [rax r; rbx r; rcx r; rdx r; rsi r; rdi r; rsp r; rbp r; r8 r; r9 r; r10 r; r11 r; r12 r; r13 r;
   r14 r; r15 r; rip r; rflags r].

Fixpoint put_fields (zs : list Z) : list byte :=
  match zs with [] => [] | z :: zs' => to_le_bytes 8 z ++ put_fields zs' end.

Fixpoint get_fields (n : nat) (bs : list byte) : list Z :=
  match n with O => [] | S k => let '(z, bs') := rd 8 bs in z :: get_fields k bs' end.

Definition regs_of_fields (zs : list Z) : kvm_regs :=
  let g i := nth i zs 0 in
  {| rax := g 0%nat; rbx := g 1%nat; rcx := g 2%nat; rdx := g 3%nat; rsi := g 4%nat; rdi := g 5%nat;
     rsp := g 6%nat; rbp := g 7%nat; r8 := g 8%nat; r9 := g 9%nat; r10 := g 10%nat; r11 := g 11%nat;
     r12 := g 12%nat; r13 := g 13%nat; r14 := g 14%nat; r15 := g 15%nat; rip := g 16%nat;
     rflags := g 17%nat |}.

Lemma get_put_fields zs bs :
  Forall (fits 8) zs → get_fields (length zs) (put_fields zs ++ bs) = zs.
Proof.
  induction 1 as [|z zs Hz _ IH]; [done|]. cbn [length put_fields get_fields].
  rewrite <- app_assoc, rd_app by done. by rewrite IH.
Qed.

Lemma length_put_fields zs : length (put_fields zs) = (8 * length zs)%nat.
Proof.
  induction zs as [|z zs IH]; [done|]. cbn [put_fields length].
  rewrite length_app, length_to_le_bytes, IH. lia.
Qed.

#[global] Instance regs_pod : Pod kvm_regs := {|
  size_of := 144;
  as_bytes := λ r, put_fields (regs_fields r);
  of_bytes := λ bs, regs_of_fields (get_fields 18 bs);
  pod_ok := λ r, Forall (fits 8) (regs_fields r);
|}.

#[global] Instance regs_pod_laws : PodLaws kvm_regs.
Proof.
  split; [intros r _; exact (length_put_fields (regs_fields r))|]. intros r Hr.
  change (regs_of_fields (get_fields (length (regs_fields r)) (put_fields (regs_fields r))) = r).
  rewrite <- (app_nil_r (put_fields _)), get_put_fields by done. by destruct r.
Qed.

Definition segment_image (s : kvm_segment) : list byte :=
  to_le_bytes 8 (sg_base s) ++ to_le_bytes 4 (sg_limit s) ++ to_le_bytes 2 (sg_selector s) ++
  to_le_bytes 1 (sg_type s) ++ to_le_bytes 1 (sg_present s) ++ to_le_bytes 1 (sg_dpl s) ++
  to_le_bytes 1 (sg_db s) ++ to_le_bytes 1 (sg_s s) ++ to_le_bytes 1 (sg_l s) ++
  to_le_bytes 1 (sg_g s) ++ to_le_bytes 1 (sg_avl s) ++ sg_rest s.

Definition segment_read (bs : list byte) : kvm_segment * list byte :=
  let '(base, bs) := rd 8 bs in let '(limit, bs) := rd 4 bs in let '(selector, bs) := rd 2 bs in
  let '(ty, bs) := rd 1 bs in let '(present, bs) := rd 1 bs in let '(dpl, bs) := rd 1 bs in
  let '(db, bs) := rd 1 bs in let '(s, bs) := rd 1 bs in let '(l, bs) := rd 1 bs in
  let '(g, bs) := rd 1 bs in let '(avl, bs) := rd 1 bs in let '(rest, bs) := rd_raw 2 bs in
  ({| sg_base := base; sg_limit := limit; sg_selector := selector; sg_type := ty;
      sg_present := present; sg_dpl := dpl; sg_db := db; sg_s := s; sg_l := l; sg_g := g;
      sg_avl := avl; sg_rest := rest |}, bs).

Definition segment_ok (s : kvm_segment) : Prop :=
  fits 8 (sg_base s) ∧ fits 4 (sg_limit s) ∧ fits 2 (sg_selector s) ∧
  Forall (fits 1) [sg_type s; sg_present s; sg_dpl s; sg_db s; sg_s s; sg_l s; sg_g s; sg_avl s] ∧
  length (sg_rest s) = 2%nat.

Lemma segment_read_image s bs : segment_ok s → segment_read (segment_image s ++ bs) = (s, bs).
Proof.
  intros (Hb & Hl & Hs & Hf & Hr). repeat (apply Forall_cons_1 in Hf as [? Hf]).
  unfold segment_read, segment_image. rewrite <- !app_assoc.
  repeat (rewrite rd_app by done). rewrite rd_raw_app by done. by destruct s.
Qed.

Lemma length_segment_image s : segment_ok s → length (segment_image s) = 24%nat.
Proof.
  intros (_ & _ & _ & _ & Hr). unfold segment_image. rewrite !length_app, !length_to_le_bytes, Hr. done.
Qed.

Definition dtable_image (d : kvm_dtable) : list byte :=
  to_le_bytes 8 (dt_base d) ++ to_le_bytes 2 (dt_limit d) ++ dt_rest d.
Definition dtable_read (bs : list byte) : kvm_dtable * list byte :=
  let '(base, bs) := rd 8 bs in let '(limit, bs) := rd 2 bs in let '(rest, bs) := rd_raw 6 bs in
  ({| dt_base := base; dt_limit := limit; dt_rest := rest |}, bs).
Definition dtable_ok (d : kvm_dtable) : Prop :=
  fits 8 (dt_base d) ∧ fits 2 (dt_limit d) ∧ length (dt_rest d) = 6%nat.

Lemma dtable_read_image d bs : dtable_ok d → dtable_read (dtable_image d ++ bs) = (d, bs).
Proof.
  intros (Hb & Hl & Hr). unfold dtable_read, dtable_image. rewrite <- !app_assoc.
  rewrite !rd_app, rd_raw_app by done. by destruct d.
Qed.

Lemma length_dtable_image d : dtable_ok d → length (dtable_image d) = 16%nat.
Proof. intros (_ & _ & Hr). unfold dtable_image. rewrite !length_app, !length_to_le_bytes, Hr. done. Qed.

(** The unnamed fields of [kvm_sregs] (ldt, cr2, cr8, apic_base, the interrupt
    bitmap) follow the named ones. *)
#[global] Instance sregs_pod : Pod kvm_sregs := {|
  size_of := 312;
  as_bytes := λ s,
    segment_image (cs s) ++ segment_image (ds s) ++ segment_image (es s) ++ segment_image (fs s) ++
    segment_image (gs s) ++ segment_image (ss s) ++ segment_image (tr s) ++
    dtable_image (gdt s) ++ dtable_image (idt s) ++
    to_le_bytes 8 (cr0 s) ++ to_le_bytes 8 (cr3 s) ++ to_le_bytes 8 (cr4 s) ++ to_le_bytes 8 (efer s) ++
    sr_rest s;
  of_bytes := λ bs,
    let '(cs, bs) := segment_read bs in let '(ds, bs) := segment_read bs in
    let '(es, bs) := segment_read bs in let '(fs, bs) := segment_read bs in
    let '(gs, bs) := segment_read bs in let '(ss, bs) := segment_read bs in
    let '(tr, bs) := segment_read bs in let '(gdt, bs) := dtable_read bs in
    let '(idt, bs) := dtable_read bs in let '(cr0, bs) := rd 8 bs in let '(cr3, bs) := rd 8 bs in
    let '(cr4, bs) := rd 8 bs in let '(efer, bs) := rd 8 bs in
    {| cs := cs; ds := ds; es := es; fs := fs; gs := gs; ss := ss; tr := tr; gdt := gdt; idt := idt;
       cr0 := cr0; cr3 := cr3; cr4 := cr4; efer := efer; sr_rest := bs |};
  pod_ok := λ s,
    segment_ok (cs s) ∧ segment_ok (ds s) ∧ segment_ok (es s) ∧ segment_ok (fs s) ∧
    segment_ok (gs s) ∧ segment_ok (ss s) ∧ segment_ok (tr s) ∧ dtable_ok (gdt s) ∧
    dtable_ok (idt s) ∧ fits 8 (cr0 s) ∧ fits 8 (cr3 s) ∧ fits 8 (cr4 s) ∧ fits 8 (efer s) ∧
    length (sr_rest s) = 80%nat;
|}.

#[global] Instance sregs_pod_laws : PodLaws kvm_sregs.
Proof.
  split; cbn [as_bytes of_bytes size_of pod_ok sregs_pod]; intros s (? & ? & ? & ? & ? & ? & ? & ? & ? & ? & ? & ? & ? & Hr).
  - rewrite !length_app, !length_segment_image, !length_dtable_image, !length_to_le_bytes, Hr by done.
    done.
  - repeat (rewrite segment_read_image by done). rewrite !dtable_read_image by done.
    rewrite !rd_app by done. by destruct s.
Qed.

#[global] Instance fpu_pod : Pod kvm_fpu := {|
  size_of := 416;
  as_bytes := λ f, to_le_bytes 2 (fcw f) ++ to_le_bytes 4 (mxcsr f) ++ fpu_rest f;
  of_bytes := λ bs, let '(c, bs) := rd 2 bs in let '(x, bs) := rd 4 bs in
                    {| fcw := c; mxcsr := x; fpu_rest := bs |};
  pod_ok := λ f, fits 2 (fcw f) ∧ fits 4 (mxcsr f) ∧ length (fpu_rest f) = 410%nat;
|}.

#[global] Instance fpu_pod_laws : PodLaws kvm_fpu.
Proof.
  split; cbn [as_bytes of_bytes size_of pod_ok fpu_pod]; intros f (? & ? & Hr).
  - rewrite !length_app, !length_to_le_bytes, Hr. done.
  - rewrite !rd_app by done. by destruct f.
Qed.

(** ** The host *)

#[global] Instance flat_build : BuildProfile := true.
#[global] Instance flat_log : LogLevel := true.

(** Two files: a kernel of one segment, and a boot sector. *)
Definition kernel_file : list byte := [Byte.x7f; Byte.x45; Byte.x4c; Byte.x46; Byte.xf4; Byte.xf4].
Definition boot_file : list byte := [Byte.xeb; Byte.xfe].

#[global] Instance flat_files : HostFiles := {|
  HFile := list byte;
  host_open := λ p,
    if String.eqb p "vmlinuz" then Ok kernel_file
    else if String.eqb p "boot.bin" then Ok boot_file
    else Err (IoErr NotFound "No such file or directory");
  host_read_to_end := λ f, Ok f;
|}.

(** The last two bytes of the kernel file are loaded at 1 MB. *)
Definition kernel_elf : Elf :=
  {| elf_entry := 0x100000;
     program_headers :=
       [{| p_type := 1; p_offset := 4; p_paddr := 0x100000; p_filesz := 2; p_memsz := 0x1000 |}] |}.

#[global] Instance flat_elf : ElfApi := λ bs,
  if byte.unsigned (hd Byte.x00 bs) =? 0x7f then Some kernel_elf else None.

#[global] Instance flat_elf_laws : ElfLaws.
Proof.
  split. intros bs e. unfold elf_parse, flat_elf. destruct (_ =? 0x7f); [|done].
  intros; simplify_eq. constructor; [|constructor]. unfold header_ok, u64. simpl. lia.
Qed.

(** serde's deserializers, on the values they are documented to take. *)
#[global] Instance flat_serde : SerdeApi := {|
  de_uint := λ w v,
    match v with
    | VNum z => if bool_decide (0 ≤ z < 2 ^ w) then Ok z else Err (InvalidValue z)
    | _ => invalid_type v "an unsigned integer"
    end;
  de_vec := λ A f v, match v with VSeq vs => de_list f vs | _ => invalid_type v "a sequence" end;
  de_pair := λ A B f g v,
    match v with
    | VSeq [x; y] => a ← f x; b ← g y; mret (a, b)
    | _ => invalid_type v "a tuple of size 2"
    end;
  de_string := λ v, match v with VStr s => Ok s | _ => invalid_type v "a string" end;
  de_borrowed_bytes := λ v,
    match v with VBorrowed bs => Ok bs | _ => invalid_type v "a borrowed byte array" end;
  de_byte_buf := λ v,
    match v with
    | VBytes bs | VBorrowed bs => Ok bs
    | VSeq vs =>
        de_list (λ x, match x with
                      | VNum z => Ok (byte.of_Z z)
                      | _ => invalid_type x "u8"
                      end) vs
    | _ => invalid_type v "byte array"
    end;
|}.

#[global] Instance flat_serde_laws : SerdeLaws.
Proof.
  split; simpl; try done.
  - intros w z _ Hz. by rewrite bool_decide_true.
  - intros bs. by eexists.
  - intros vs. by eexists.
  - intros bs. etrans; [apply (de_list_map _ (λ b, VNum (byte.unsigned b)) id)|by rewrite map_id].
    intros b _. by rewrite byte.of_Z_unsigned.
Qed.

(** A format that lends out byte strings when [lend] holds, and otherwise turns
    them into numbers. *)
Fixpoint flat_present (lend : bool) (v : value) : value :=
  match v with
  | VBytes bs => if lend then VBorrowed bs else ser_u8s bs
  | VSeq vs => VSeq (map (flat_present lend) vs)
  | VMap kvs => VMap (map (λ kv, (kv.1, flat_present lend kv.2)) kvs)
  | _ => v
  end.

#[global] Instance flat_present_describes lend : SelfDescribing (flat_present lend).
Proof. split; try done. intros bs. destruct lend; simpl; auto. Qed.

#[global] Instance flat_snapshot_io : SnapshotIo := {|
  serde_api := flat_serde;
  create_error := λ _, None;
  open_error := λ _, None;
  bincode_write := λ _, ([Byte.x00], None);
  bincode_read_struct := λ bs, match bs with [] => Err "unexpected end of file" | _ => Ok (VSeq []) end;
|}.

#[global] Instance flat_snapshot_io_laws : SnapshotIoLaws.
Proof.
  split; simpl.
  - intros [|b bs] v Hv; simplify_eq. by eexists.
  - by intros [].
Qed.

#[global] Instance flat_devices : HostDevices := {|
  disk_open := λ _ w,
    Ok {| f_data := ∅; f_len := 0x100000; f_pos := 0; f_writable := w; f_limit := 0x100000 |};
  disk_metadata := λ _, None;
  udp_bind := λ _, Ok {| us_in := []; us_sent := []; us_tries := 0; us_answer := λ _ _, None |};
  udp_nonblocking := λ _, None;
  parse_addr := λ a, Ok a;
  random_mac := Ok [Byte.x02; Byte.x00; Byte.x00; Byte.x00; Byte.x00; Byte.x01];
|}.
