(* ===== verification/Witnesses.v ===== *)
(** * Witnesses: the devices' theorems at concrete inputs

    Each lemma applies a theorem of the development on the platform of
    FlatPlatform.v, with every hypothesis discharged by evaluation. *)

From S2P Require Import Prelude Errors Platform FlatPlatform Host VirtioMmio Chains Console Block Net Fs Kvm Memory Vcpu KernelLoader Bootloader Serde Snapshot Vm FlatKvm.

(** ** A small machine *)

Definition ex_queue (chains : list FlatChain) : FlatQueue :=
  {| fq_max := 1024; fq_ready := true; fq_avail := chains; fq_avail_addr := 0x2000;
     fq_used_addr := 0x10000; fq_used := 0 |}.

Lemma ex_rings_apart chains : rings_apart (ex_queue chains : Queue).
Proof. left. simpl. lia. Defined.

Definition ex_config (chains : list FlatChain) : VirtioDeviceConfig :=
  {| guest_mem := 0x1000; irq := 5; queues := [ex_queue chains; ex_queue chains];
     interrupt_evt := Some (0 : EventFd) |}.

Definition ex_stdout : Stdout := {| so_bytes := []; so_broken := false |}.

Definition ex_world (m : FlatMem) : World := {| w_mem := (m : GMem); w_stdout := ex_stdout |}.

(** "hi" at 0x5000, and a chain that sends it, with room for the device's answer *)
Definition ex_hi_mem : FlatMem := fm_store flat128 0x5000 [Byte.x68; Byte.x69].
Definition ex_hi_chain : FlatChain :=
  {| fc_head := 7; fc_descs := [Desc 0x5000 2 false; Desc 0x5001 1 true] |}.

Definition ex_console : VirtioConsole :=
  {| con_config := ex_config [ex_hi_chain];
     con_config_space := {| cols := 80; rows := 24; max_nr_ports := 1; emerg_wr := 0 |} |}.

Lemma mmio_read_register_witness :
  ∃ data', mmio_read (mmio_new ex_console 0x1000) 0 (zeros 4) = (data', Ok tt) ∧
    length data' = 4%nat ∧ from_le_bytes (take 4 data') = 0x74726976 mod 2 ^ 32 ∧
    drop 4 data' = [].
Proof. apply (mmio_read_register (mmio_new ex_console 0x1000) 0 (zeros 4)). lia. Defined.

Lemma queue_select_num_max_witness :
  u32 1 ∧
  ∃ v', mmio_write 5 0x30 (to_le_bytes 4 1) (mmio_new ex_console 0x1000, ex_world flat128) =
      ((v', ex_world flat128), Ok tt) ∧
    device v' = ex_console ∧ base_addr v' = 0x1000 ∧ size v' = 0x1000 ∧
    register_value v' 0x34 = 1024.
Proof.
  assert (Hq : u32 1) by done. split; [done|].
  exact (queue_select_num_max 5 (mmio_new ex_console 0x1000) (ex_world flat128) 1 Hq).
Defined.

Lemma unhandled_register_write_witness :
  mmio_write 5 0x70 [Byte.x0f] (mmio_new ex_console 0x1000, ex_world flat128) =
    ((mmio_new ex_console 0x1000, ex_world flat128), Ok tt) ∧
  register_value (mmio_new ex_console 0x1000) 0x70 = 0.
Proof.
  apply (unhandled_register_write 5 (mmio_new ex_console 0x1000) (ex_world flat128) 0x70
           [Byte.x0f]); [lia|].
  rewrite !not_elem_of_cons. split_and!; [done..|apply not_elem_of_nil].
Defined.

Lemma mmio_write_never_errs_witness :
  (mmio_write 0 0x50 [Byte.x01] (mmio_new ex_console 0x1000, ex_world ex_hi_mem)).2
    ≠ Err UnsupportedArchitecture.
Proof.
  apply (mmio_write_never_errs 0 0x50 [Byte.x01]
           (mmio_new ex_console 0x1000, ex_world ex_hi_mem)). lia.
Defined.

Lemma console_tx_drains_witness :
  ∃ bufs q' m' e,
    drained (payload_of (λ d, negb (desc_write_only d))) (ex_queue [ex_hi_chain]) ex_hi_mem bufs q' m' e ∧
    let w' := {| w_mem := m';
                 w_stdout := {| so_bytes := concat bufs; so_broken := false |} |} in
    let cfg := config_with_queue (con_config ex_console) 1 q' in
    console_process_queue 2 1 (ex_console, ex_world ex_hi_mem) =
    match e, bufs with
    | Some e, _ => ((con_with_config ex_console cfg, w'),
                    Err (MemoryError ("Failed to iterate queue: " +:+ e)))
    | None, [] => ((con_with_config ex_console cfg, w'), Ok tt)
    | None, _ :: _ => ((con_with_config ex_console (signal_interrupt cfg).1, w'),
                       (signal_interrupt cfg).2)
    end.
Proof.
  apply (console_tx_drains 2 ex_console (ex_world ex_hi_mem) (ex_queue [ex_hi_chain]));
    [done|apply ex_rings_apart|done|simpl; lia].
Defined.

(** The console's output on that machine. *)
Example console_hi :
  so_bytes (w_stdout (console_process_queue 2 1 (ex_console, ex_world ex_hi_mem)).1.2) =
  [Byte.x68; Byte.x69].
Proof. vm_compute. reflexivity. Qed.

(** ** The block device *)

Lemma ram128_backed (m : FlatMem) a n :
  fm_regions m = ram128 → 0 ≤ a → a + n ≤ 0x8000000 → backed (H := flat_memory) m a n.
Proof.
  intros Hr Ha Hn x Hx. apply fm_byte_spec, in_ram_spec. rewrite Hr.
  exists 0%nat, 0, 0x8000000. split; [done|lia].
Defined.

(** A read request for sector 7 and a write request for sector 3 of 4 bytes. *)
Definition ex_read_mem : FlatMem :=
  fm_store flat128 0x6000 (to_le_bytes 4 0 ++ to_le_bytes 4 0 ++ to_le_bytes 8 7 ++ zeros 4).
Definition ex_write_mem : FlatMem :=
  fm_store flat128 0x6000
    (to_le_bytes 4 1 ++ to_le_bytes 4 0 ++ to_le_bytes 8 3 ++ [Byte.x41; Byte.x42; Byte.x43; Byte.x44]).
Definition ex_req : Descriptor := Desc 0x6000 20 false.
Definition ex_req_chain : FlatChain := {| fc_head := 3; fc_descs := [ex_req] |}.

Definition ex_disk (w : bool) : File :=
  {| f_data := put_bytes ∅ 0 [Byte.x01; Byte.x02; Byte.x03; Byte.x04]; f_len := 4096; f_pos := 0;
     f_writable := w; f_limit := 4096 |}.
Definition ex_block (ro : bool) : VirtioBlock :=
  {| blk_config := ex_config [ex_req_chain]; disk := ex_disk true; disk_size := 4096;
     block_size := 512; read_only := ro |}.

Lemma ex_request_at (m : FlatMem) ty :
  fm_regions m = ram128 → view_le (fm_byte m) 4 0x6000 = Some ty →
  view_le (fm_byte m) 4 0x6004 = Some 0 → request_at (H := flat_memory) m ex_req ty.
Proof.
  intros Hr H1 H2. unfold request_at. split_and!; [simpl; lia| |done|done].
  apply ram128_backed; [done|simpl; lia..].
Defined.

Lemma block_request_terminates_witness :
  (inline_request (ex_block false) ex_req_chain (ex_disk true, ex_read_mem : GMem)).2 ≠ OutOfFuel.
Proof. apply (block_request_terminates (ex_block false) ex_req_chain). Defined.

Lemma inline_matches_process_request_witness :
  let io := (ex_disk true, ex_read_mem : GMem) in
  inline_request (ex_block false) ex_req_chain io =
  ((process_request (ex_block false) ex_req_chain io).1, Ok 0).
Proof.
  cbv zeta. apply (inline_matches_process_request (ex_block false) ex_req_chain).
  vm_compute. reflexivity.
Defined.

Lemma readonly_disk_unchanged_witness :
  let r := block_process_queue 5 0 (ex_block true, ex_world ex_write_mem) in
  same_contents (disk r.1.1) (disk (ex_block true)) ∧ read_only r.1.1 = true.
Proof.
  cbv zeta. apply (readonly_disk_unchanged 5 0 (ex_block true) (ex_world ex_write_mem) _
    (block_process_queue 5 0 (ex_block true, ex_world ex_write_mem)).1.2
    (block_process_queue 5 0 (ex_block true, ex_world ex_write_mem)).2 eq_refl).
  by rewrite <- !surjective_pairing.
Defined.

Definition ex_turn (ro : bool) (m : FlatMem) : ReqState * result ctl :=
  request_turn (inline_read 512) (inline_write 512) inline_flush ro
    {| rq_chain := ex_req_chain : @DescChain _ flat_queue; rq_io := (ex_disk true, m : GMem);
       rq_status := 0 |}.

Definition ex_rest : @DescChain _ flat_queue := {| fc_head := 3; fc_descs := [] |}.

Lemma read_request_serves_sector_zero_witness :
  ∃ f' m', ex_turn false ex_read_mem =
      ({| rq_chain := ex_rest; rq_io := (f', m'); rq_status := 0 |}, Ok Continue) ∧
    same_contents f' (ex_disk true) ∧
    (∀ x, gm_byte m' x =
       overlay (fm_byte ex_read_mem) 0x6010 [Byte.x01; Byte.x02; Byte.x03; Byte.x04] x) ∧
    (20 = 16 → ∀ x, gm_byte m' x = fm_byte ex_read_mem x).
Proof.
  apply (read_request_serves_sector_zero false (ex_disk true) (ex_read_mem : @GMem flat_memory)
           (ex_req_chain : @DescChain _ flat_queue) ex_rest ex_req 0); [done| |done].
  by apply ex_request_at.
Defined.

Lemma write_request_lands_on_sector_one_witness :
  ∃ f' buf, ex_turn false ex_write_mem =
      ({| rq_chain := ex_rest; rq_io := (f', ex_write_mem : GMem); rq_status := 0 |}, Ok Continue) ∧
    view_bytes (fm_byte ex_write_mem) 0x6010 4 = Some buf ∧ f_len f' = 4096 ∧
    ∀ x, f_data f' !! x =
      if decide (512 ≤ x < 516) then buf !! Z.to_nat (x - 512) else f_data (ex_disk true) !! x.
Proof.
  apply (write_request_lands_on_sector_one (ex_disk true) (ex_write_mem : @GMem flat_memory)
           (ex_req_chain : @DescChain _ flat_queue) ex_rest ex_req 0); [done| |done|done].
  by apply ex_request_at.
Defined.

(** ** The network device *)

(** A host that refuses the first datagram. *)
Definition ex_answer (n : nat) (buf : list byte) : option io_error :=
  if (n =? 0)%nat then Some (IoErr Other "Message too long") else None.

Definition ex_net (inbox : list recv_event) : VirtioNet :=
  {| net_config := ex_config [ex_hi_chain];
     socket := {| us_in := inbox; us_sent := []; us_tries := 0; us_answer := ex_answer |};
     local_mac := zeros 6; peer_addr := Some "127.0.0.1:5001" |}.

Definition ex_net2 : VirtioNet :=
  net_with (ex_net []) (ex_config [ex_hi_chain; ex_hi_chain]) (socket (ex_net [])).

Lemma net_tx_drains_witness :
  ∃ bufs q' m' e,
    drained (payload_of (λ _, true)) (ex_queue [ex_hi_chain; ex_hi_chain]) ex_hi_mem bufs q' m' e ∧
    net_process_queue 3 1 (ex_net2, ex_world ex_hi_mem) =
    ((net_with ex_net2 (config_with_queue (net_config ex_net2) 1 q')
        {| us_in := []; us_sent := (λ b, (b, "127.0.0.1:5001")) <$> accepted ex_answer 0 bufs;
           us_tries := length bufs; us_answer := ex_answer |},
      with_mem (ex_world ex_hi_mem) m'), drain_result e).
Proof.
  apply (net_tx_drains 3 ex_net2 (ex_world ex_hi_mem) (ex_queue [ex_hi_chain; ex_hi_chain]));
    [done|apply ex_rings_apart|simpl; lia].
Defined.

(** Two packets are sent and the second leaves. *)
Example net_hi :
  us_sent (socket (net_process_queue 3 1 (ex_net2, ex_world ex_hi_mem)).1.1) =
  [([Byte.x68; Byte.x69; Byte.x69], "127.0.0.1:5001")].
Proof. vm_compute. reflexivity. Qed.

Lemma rx_ignores_packet_contents_witness :
  let d := ex_net [Datagram [Byte.x01]] in
  let k := socket (ex_net [Datagram [Byte.x02; Byte.x03]]) in
  let r := net_process_queue 3 0 (d, ex_world ex_hi_mem) in
  ∃ d2, net_process_queue 3 0 (net_with d (net_config d) k, ex_world ex_hi_mem) = ((d2, r.1.2), r.2) ∧
    net_config d2 = net_config r.1.1.
Proof.
  cbv zeta.
  apply (rx_ignores_packet_contents 3 (ex_net [Datagram [Byte.x01]]) (ex_world ex_hi_mem)
           (socket (ex_net [Datagram [Byte.x02; Byte.x03]])) eq_refl).
  by rewrite <- !surjective_pairing.
Defined.

(** ** The filesystem device *)

Definition ex_acl : Acl :=
  {| owner := 1000; group := 100; entries := [{| e_uid := 1000; e_gid := 100; e_permissions := 3 |}] |}.

Lemma check_permission_grants_witness :
  check_permission ex_acl 1000 100 WRITE = true ∧
  ∃ e, e ∈ entries ex_acl ∧ applies ex_acl 1000 100 e ∧ contains (e_permissions e) 3 = true.
Proof.
  apply (check_permission_grants ex_acl 1000 100 3 WRITE); [|reflexivity..].
  right. eexists. split; [apply list_elem_of_singleton; reflexivity|reflexivity].
Defined.

Lemma permissions_roundtrip_witness :
  perm_deserialize (perm_serialize 16) = Err "invalid AclPermissions value".
Proof. apply (permissions_roundtrip 16). unfold u32. lia. Defined.

Definition ex_fs_state : FsState :=
  {| root := ["srv"]; acls := ∅; mmio_region := Some (0x4000, 16); mmio_data := zeros 16 |}.

Lemma fs_mmio_write_read_witness :
  ∃ s', fs_mmio_write 4 [Byte.x01; Byte.x02] ex_fs_state = (s', Ok tt) ∧
    acls s' = ∅ ∧ root s' = ["srv"] ∧ length (mmio_data s') = 16%nat ∧
    (∀ buf, length buf = 2%nat → fs_mmio_read s' 4 buf = ([Byte.x01; Byte.x02], Ok tt)) ∧
    (∀ o buf, u64 o → Z.of_nat (length buf) < 2 ^ 63 →
      o + Z.of_nat (length buf) ≤ 4 ∨ 4 + 2 ≤ o →
      fs_mmio_read s' o buf = fs_mmio_read ex_fs_state o buf).
Proof.
  apply (fs_mmio_write_read ex_fs_state 4 [Byte.x01; Byte.x02]);
    [unfold u64; lia|simpl; lia|simpl; lia].
Defined.

Definition ex_fs : VirtioFs :=
  {| fs_state := ex_fs_state; vrings := [None; None]; queue_evts := [0 : EventFd; 0];
     irq_trigger := (0 : EventFd); fs_features := 0; acked_features := 0 |}.

Lemma fs_handle_event_serves_witness :
  ∃ rings' m' o,
    (∃ q', served (ex_queue [ex_hi_chain]) ex_hi_mem q' m' o ∧ rings' = [q']) ∧
    handle_event 2 0 EPOLLIN (ex_fs, [ex_queue [ex_hi_chain]], ex_hi_mem : GMem) =
    match o, evt_write (irq_trigger ex_fs) 1 with
    | EvEmpty, (evt, None) => ((fs_with_irq ex_fs evt, rings', m'), Ok tt)
    | EvEmpty, (evt, Some msg) =>
        ((fs_with_irq ex_fs evt, rings', m'), Err (IoErr Other ("Failed to signal irq: " +:+ msg)))
    | EvFail e, _ => ((ex_fs, rings', m'), Err (IoErr Other ("Queue iter error: " +:+ e)))
    | EvPanic, _ => ((ex_fs, rings', m'), Panic)
    end.
Proof.
  apply (fs_handle_event_serves 2 0 EPOLLIN ex_fs [ex_queue [ex_hi_chain]]
           (ex_hi_mem : @GMem flat_memory)); [|done|done].
  intros q Hq. injection Hq as <-. split; [apply ex_rings_apart|simpl; lia].
Defined.

(** A message of 2 bytes is completed and the interrupt signalled; one of 4 bytes
    panics. *)
Example fs_hi :
  (handle_event 2 0 EPOLLIN (ex_fs, [ex_queue [ex_hi_chain]], ex_hi_mem : GMem)).2 = Ok tt ∧
  (handle_event 2 0 EPOLLIN
     (ex_fs, [ex_queue [{| fc_head := 1; fc_descs := [Desc 0x5000 4 false] |}]], ex_hi_mem : GMem)).2
    = Panic.
Proof. vm_compute. done. Qed.
