(* ===== verification/MachineWitnesses.v ===== *)
(** * MachineWitnesses: the machine's theorems at concrete inputs

    Each lemma applies a theorem of the development on the platform of
    FlatPlatform.v and FlatKvm.v, with every hypothesis discharged there. *)

From stdpp Require Import relations.
From S2P Require Import Prelude Errors Platform FlatPlatform Host VirtioMmio Chains Console Block Net Fs Kvm Memory Vcpu KernelLoader Bootloader Serde Snapshot Vm RunLoop Main FlatKvm Witnesses.

Lemma run_ok {S A} (x : S * result A) a : x.2 = Ok a → x = (x.1, Ok a).
Proof. destruct x; simpl. by intros ->. Qed.

Definition m128 : @GMem flat_memory := flat128.
Definition no_slots : @VmFd _ flat_kvm := ([] : list kvm_userspace_memory_region).

Definition kernel_handle : @HFile flat_files := kernel_file.
Definition boot_handle : @HFile flat_files := boot_file.

(** ** Memory and vCPUs *)

Lemma memory_layout_witness :
  let rs := ranges_for 0x140000000 in
  foldr (λ r n, r.2 + n) 0 rs = 0x140000000 ∧
  (∀ x, 0 ≤ x < 0x140000000 → x < KVM_32BIT_GAP_START → ∃ st ln, (st, ln) ∈ rs ∧ st ≤ x < st + ln) ∧
  (∀ st ln x, (st, ln) ∈ rs → st ≤ x < st + ln →
    0 ≤ x ∧ ¬ (KVM_32BIT_GAP_START ≤ x < KVM_32BIT_GAP_START + KVM_32BIT_GAP_SIZE)).
Proof. apply (memory_layout 0x140000000). lia. Defined.

Definition ex_regions : GuestMemoryRegions := {| memory := m128; low_mem_size := 0x8000000 |}.

Lemma setup_memory_covers_ram_witness :
  let v' := (setup_memory_region ex_regions no_slots).1 in
  (∀ x, is_Some (gm_byte m128 x) ↔ ∃ s, s ∈ vm_slots v' ∧ slot_covers s x) ∧
  (∀ s, s ∈ vm_slots v' → ∃ i st ln, gm_regions m128 !! i = Some (st, ln) ∧
    guest_phys_addr s = st ∧ memory_size s = ln ∧ userspace_addr s = gm_host_addr m128 i).
Proof.
  apply (setup_memory_covers_ram ex_regions no_slots); [done|simpl; lia|]. by apply run_ok.
Defined.

Definition ex_vcpu : @VcpuFd _ flat_kvm := fresh_vcpu [Ok (IoOut COM1 [Byte.x68]); Ok Hlt].


(** A write of "h" to COM1 and a read of two bytes from port 0x60. *)
Definition ex_in : @VcpuFd _ flat_kvm := fresh_vcpu [Ok (IoIn 0x60 [Byte.x07; Byte.x08])].

Lemma vcpu_run_port_io_witness :
  ((vcpu_run_once no_slots (ex_vcpu, ex_world flat128)).2 = Ok (IoOut COM1 [Byte.x68]) ∧
   so_bytes (w_stdout (vcpu_run_once no_slots (ex_vcpu, ex_world flat128)).1.2) = [Byte.x68]) ∧
  (vcpu_run_once no_slots (ex_in, ex_world flat128)).2 = Ok (IoIn 0x60 [Byte.x00; Byte.x08]).
Proof.
  split.
  - destruct (vcpu_run_port_io no_slots ex_vcpu (ex_world flat128) (fresh_vcpu [Ok Hlt]) m128
      (IoOut COM1 [Byte.x68]) COM1 [Byte.x68] eq_refl) as [_ Hout].
    rewrite (Hout eq_refl). rewrite decide_False by (intros [_ ?]; done).
    rewrite decide_True by done. done.
  - destruct (vcpu_run_port_io no_slots ex_in (ex_world flat128) (fresh_vcpu []) m128
      (IoIn 0x60 [Byte.x07; Byte.x08]) 0x60 [] eq_refl) as [Hin _].
    rewrite (Hin Byte.x07 [Byte.x08] eq_refl). done.
Defined.

Lemma real_mode_vcpu_witness :
  let v' := (init_vcpu_for_real_mode ex_vcpu).1 in
  ∃ r0 r1 s0 s1,
    (vcpu_get_regs ex_vcpu = Ok r0 ∧ vcpu_get_regs v' = Ok r1 ∧
     rip r1 = 0x7c00 ∧ rsp r1 = 0x7c00 ∧ rbp r1 = 0 ∧ rflags r1 = 2 ∧
     Forall (λ reg, reg r1 = reg r0)
       [rax; rbx; rcx; rdx; rsi; rdi; r8; r9; r10; r11; r12; r13; r14; r15]) ∧
    (vcpu_get_sregs ex_vcpu = Ok s0 ∧ vcpu_get_sregs v' = Ok s1 ∧
     (usable (cs s0) → real_mode s1 ∧ segment_fields (cs s1) = real_code ∧
        Forall (λ sg, segment_fields sg = real_data) [ds s1; es s1; fs s1; gs s1; ss s1]) ∧
     loaded (tr s0) (tr s1) ∧ dt_base (gdt s1) = 0 ∧ dt_limit (gdt s1) = 0xFFFF ∧
     cr0 s1 = 0x10 ∧ cr3 s1 = 0 ∧ cr4 s1 = 0 ∧ sr_rest s1 = sr_rest s0) ∧
    vcpu_get_fpu v' = vcpu_get_fpu ex_vcpu ∧
    vcpu_msrs v' !! MSR_EFER = Some 0 ∧
    (∀ i, ¬ sregs_msr i → vcpu_msrs v' !! i = vcpu_msrs ex_vcpu !! i).
Proof. apply (real_mode_vcpu ex_vcpu). by apply run_ok. Defined.

(** The code and task segments of a fresh vCPU are usable, as the theorems ask. *)
Example ex_vcpu_usable :
  match vcpu_get_sregs ex_vcpu with Ok s => usable (cs s) ∧ usable (tr s) | _ => False end.
Proof. split; reflexivity. Qed.

(** ** Loading *)

Lemma flat_segments_fit (m : FlatMem) :
  fm_regions m = ram128 →
  Forall (λ ph, p_type ph = PT_LOAD → segment_fits (H := flat_memory) kernel_file m ph)
    (program_headers kernel_elf).
Proof.
  intros Hr. constructor; [|constructor]. intros _. unfold segment_fits. simpl.
  split_and!; [lia..| |apply ram128_backed; [done|simpl; lia|simpl; lia]].
  apply (ram128_backed m 0x100000 1 Hr); lia.
Defined.

(** Loading the example kernel on 128 MB. *)
Lemma flat_load_kernel {LL : LogLevel} (m : FlatMem) k cl :
  fm_regions m = ram128 → Z.of_nat (length (String.list_byte_of_string cl)) < 0x10000 →
  ∃ m' : @GMem flat_memory, gm_regions m' = ram128 ∧
    KernelLoader.load_kernel "vmlinuz" cl (k, m : GMem) =
    (({| entry_point := 0x100000; cmdline := cl |}, m'), Ok tt).
Proof.
  intros Hr Hcl.
  destruct (load_kernel_stores "vmlinuz" cl k (m : @GMem flat_memory) kernel_handle kernel_file kernel_elf)
    as (m' & Hreg & Hrun); [done|done|done|by apply flat_segments_fit|apply ram128_backed; [done|lia|lia]|].
  destruct (read_first_bytes_cases 0x100000 m' (m : @GMem flat_memory) Hreg) as [Hok _].
  exists m'. split; [by rewrite Hreg|]. rewrite Hrun. unfold on_mem, zoom. cbn [fst snd elf_entry kernel_elf].
  rewrite Hok; [done|]. apply ram128_backed; [done|simpl; lia|simpl; lia].
Qed.

Lemma kernel_identity_map_witness :
  ∃ k' m', KernelLoader.load_kernel "vmlinuz" "quiet" (kernel_loader_new, m128) = ((k', m'), Ok tt) ∧
    walk (gm_byte m') 0x9000 0xfee00123 = Some 0xfee00123.
Proof.
  destruct (flat_load_kernel flat128 kernel_loader_new "quiet" eq_refl eq_refl) as (m' & _ & Hrun).
  eexists _, m'. split; [exact Hrun|].
  apply (kernel_identity_map "vmlinuz" "quiet" _ _ m' 0xfee00123 Hrun). lia.
Defined.

Lemma kernel_boot_protocol_witness :
  ∃ k' m', KernelLoader.load_kernel "vmlinuz" "quiet" (kernel_loader_new, m128) = ((k', m'), Ok tt) ∧
    view_le (gm_byte m') 4 (0x7000 + 0x228) = Some 0x10000 ∧
    view_bytes (gm_byte m') 0x10000 6 = Some (String.list_byte_of_string "quiet" ++ [Byte.x00]).
Proof.
  destruct (flat_load_kernel flat128 kernel_loader_new "quiet" eq_refl eq_refl) as (m' & _ & Hrun).
  eexists _, m'. split; [exact Hrun|].
  destruct (kernel_boot_protocol "vmlinuz" "quiet" _ _ m' Hrun) as (_ & H1 & H2 & _). by split.
Defined.

Lemma kernel_segments_witness :
  ∃ k' m', KernelLoader.load_kernel "vmlinuz" "quiet" (kernel_loader_new, m128) = ((k', m'), Ok tt) ∧
    get_entry_point k' = 0x100000 ∧
    ∀ x, ¬ boot_area "quiet" x →
      gm_byte m' x = segments_image kernel_file (segments kernel_elf) (gm_byte m128) x.
Proof.
  destruct (flat_load_kernel flat128 kernel_loader_new "quiet" eq_refl eq_refl) as (m' & _ & Hrun).
  eexists _, m'. split; [exact Hrun|].
  destruct (kernel_segments "vmlinuz" "quiet" _ _ _ m' Hrun) as (f & b & e & Hf & Hb & He & Hen & _ & Hx).
  injection Hf as <-. injection Hb as <-. injection He as <-. by split.
Defined.

Lemma load_kernel_outcome_witness :
  (KernelLoader.load_kernel "vmlinuz" "quiet" (kernel_loader_new, m128)).2 = Ok tt.
Proof.
  apply (load_kernel_outcome "vmlinuz" "quiet" kernel_loader_new m128 kernel_handle kernel_file kernel_elf);
    [done|done|done|by apply flat_segments_fit|apply ram128_backed; [done|simpl; lia|simpl; lia]|apply ram128_backed; [done|simpl; lia|simpl; lia]].
Defined.

Lemma bootloader_bios_witness :
  ∃ m', Bootloader.load_bootloader "boot.bin" m128 = (m', Ok tt) ∧
    view_bytes (gm_byte m') 0x7c00 2 = Some boot_file ∧
    (∀ dx al, int (gm_byte m') 0x10 dx al = Some [(COM1, al)] ∧
      int (gm_byte m') 0x13 dx al = Some [] ∧ int (gm_byte m') 0x15 dx al = Some [] ∧
      int (gm_byte m') 0x16 dx al = Some []) ∧
    (∀ x, ¬ bios_area x → ¬ (0x7c00 ≤ x < 0x7c02) → gm_byte m' x = gm_byte m128 x).
Proof.
  apply (bootloader_bios "boot.bin" m128 boot_handle boot_file); [done|done|apply ram128_backed; [done|simpl; lia|simpl; lia]].
Defined.

(** ** Snapshots *)

Definition ex_state : VmState :=
  {| memory_regions := [{| guest_addr := 0x1000; mr_size := 4096; mr_data := [Byte.x01; Byte.xff] |}];
     vcpu_states := [{| vs_id := 0; vs_regs := zero_regs; vs_sregs := zero_sregs; vs_fpu := zero_fpu;
                        vs_msrs := [{| msr_index := 0xc0000080; msr_reserved := 7; msr_data := 1 |}] |}];
     device_states := [{| ds_device_type := "console"; ds_state := [Byte.x05] |}] |}.

(** Field ranges of a concrete struct. *)
Ltac range_ok :=
  unfold segment_ok, dtable_ok, fits, u32, u64;
  repeat match goal with
  | |- context [_ ∧ _] => split
  | |- Forall _ _ => constructor
  | |- length _ = _ => reflexivity
  | |- _ => progress simpl
  | |- _ => lia
  end.

Lemma zero_sregs_ok : pod_ok zero_sregs.
Proof. cbn [pod_ok sregs_pod zero_sregs cs ds es fs gs ss tr gdt idt cr0 cr3 cr4 efer sr_rest]. range_ok. Qed.

Lemma zero_regs_ok : pod_ok zero_regs.
Proof. cbn [pod_ok regs_pod]. range_ok. Qed.

Lemma zero_fpu_ok : pod_ok zero_fpu.
Proof. cbn [pod_ok fpu_pod]. range_ok. Qed.

Lemma ex_state_ok :
  Forall region_ok (memory_regions ex_state) ∧ Forall vcpu_state_ok (vcpu_states ex_state).
Proof.
  split.
  - constructor; [|constructor]. unfold region_ok, u64. simpl. lia.
  - constructor; [|constructor]. unfold vcpu_state_ok. cbn [vs_id vs_regs vs_sregs vs_fpu vs_msrs].
    split_and!; [unfold u32; lia|apply zero_regs_ok|apply zero_sregs_ok|apply zero_fpu_ok|].
    constructor; [|constructor]. unfold msr_ok, u32, u64. simpl. lia.
Qed.

(** The state above has a device state: a format that lends out byte strings reads
    it back, one that does not refuses it. *)
Lemma vm_state_roundtrip_witness :
  de_vm_state (flat_present true (ser_vm_state ex_state)) = Ok (clear_reserved ex_state) ∧
  clear_reserved ex_state ≠ ex_state ∧
  ∃ e, de_vm_state (flat_present false (ser_vm_state ex_state)) = Err e.
Proof.
  split_and!; [|done|].
  - apply (vm_state_roundtrip (present := flat_present true) ex_state
             (proj1 ex_state_ok) (proj2 ex_state_ok)).
    constructor; [reflexivity|constructor].
  - apply (vm_state_roundtrip (present := flat_present false) ex_state
             (proj1 ex_state_ok) (proj2 ex_state_ok)).
    constructor. discriminate.
Defined.

Definition ex_map : list (string * value) :=
  [("version", VNum 2); ("memory_regions", VSeq []); ("vcpu_states", VSeq [])].

Lemma vm_state_strict_witness :
  key_count "memory_regions" ex_map = 1%nat ∧ (key_count "vcpu_states" ex_map ≤ 1)%nat ∧
  (key_count "device_states" ex_map ≤ 1)%nat.
Proof.
  apply (vm_state_strict ex_map
           {| memory_regions := []; vcpu_states := []; device_states := [] |}).
  reflexivity.
Defined.

(** A page of RAM, small enough to save by evaluation. *)
Definition page_mem (bs : list byte) : @GMem flat_memory :=
  fm_store {| fm_regions := [(0x1000, 8)]; fm_ok := eq_refl; fm_data := ∅ |} 0x1002 bs.

Definition ex_cpu (v : FlatVcpu) : @Vcpu _ flat_kvm := {| fd := (v : @VcpuFd _ flat_kvm); vcpu_id := 0 |}.
Definition ex_cpu_a : Vcpu := ex_cpu (vcpu_init 0x100000 0x7000 ex_vcpu).1.
Definition ex_cpu_b : Vcpu := ex_cpu (fresh_vcpu []).

Lemma snapshot_roundtrip_witness :
  ∃ st m' targets' o,
    create_snapshot (page_mem [Byte.x05; Byte.x06]) [ex_cpu_a] = Ok st ∧
    restore_snapshot st (page_mem [], [ex_cpu_b]) = ((m', targets'), o) ∧
    (∀ x, gm_byte m' x = gm_byte (page_mem [Byte.x05; Byte.x06]) x) ∧
    (o = Ok tt ∧
     (∀ i v, [ex_cpu_a] !! i = Some v → ∃ w v', [ex_cpu_b] !! i = Some w ∧ targets' !! i = Some v' ∧
        restored_from (fd v) (fd w) (fd v')) ∨
     ∃ i v e, [ex_cpu_a] !! i = Some v ∧ refused (fd v) e ∧ o = Err (BoxIo (IoErr Other e))).
Proof.
  destruct (create_snapshot (page_mem [Byte.x05; Byte.x06]) [ex_cpu_a]) as [st| | |] eqn:Hst;
    [|vm_compute in Hst; discriminate Hst..].
  destruct (snapshot_roundtrip (page_mem [Byte.x05; Byte.x06]) (page_mem []) [ex_cpu_a] [ex_cpu_b] st
    Hst eq_refl) as (m' & t' & o & H1 & H2 & H3).
  - constructor; [simpl; lia|constructor].
  - simpl. lia.
  - exists st, m', t', o. split_and!; [reflexivity|exact H1|exact H2|exact H3].
Defined.

(** On this kernel the restore is accepted. *)
Example snapshot_restores :
  match create_snapshot (page_mem [Byte.x05; Byte.x06]) [ex_cpu_a] with
  | Ok st => (restore_snapshot st (page_mem [], [ex_cpu_b])).2 = Ok tt
  | _ => False
  end.
Proof. vm_compute. reflexivity. Qed.

Lemma restore_region_rejects_witness :
  ∃ msg, restore_region {| guest_addr := 0x1004; mr_size := 8; mr_data := [] |} (page_mem []) =
         (page_mem [], Err (BoxHv (MemoryError msg))).
Proof.
  apply (restore_region_rejects (page_mem []) {| guest_addr := 0x1004; mr_size := 8; mr_data := [] |});
    [simpl; lia|].
  intros [|[|i]] st ln Hi; simpl in Hi; try done. injection Hi as <- <-. simpl. lia.
Defined.

(** A file bincode can read is refused all the same. *)
Lemma load_from_file_fails_witness :
  ∃ e, load_from_file {["vm.snap" := [Byte.x00]]} "vm.snap" (page_mem [], [ex_cpu_a]) =
       ((page_mem [], [ex_cpu_a]), Err e) ∧
       e = BoxBincode "invalid type: sequence, expected struct VmState".
Proof.
  destruct (load_from_file_fails {["vm.snap" := [Byte.x00]]} "vm.snap" (page_mem [], [ex_cpu_a]))
    as (e & He & Hmsg).
  exists e. split; [exact He|].
  apply (Hmsg [Byte.x00] (VSeq [])); [reflexivity|apply lookup_singleton_eq|reflexivity].
Defined.

(** ** The machine *)

Definition ex_slot : kvm_userspace_memory_region :=
  {| slot := 0; slot_flags := 0; guest_phys_addr := 0; memory_size := 0x8000000;
     userspace_addr := 0x7f0000000000 |}.

(** What [new] returns for one vCPU. *)
Definition ex_vm : @VirtualMachine _ flat_queue flat_event flat_kvm flat_system :=
  {| kvm := tt : @KvmFd _ _ flat_system; vm_fd := ([ex_slot] : @VmFd _ flat_kvm);
     vcpus := [ex_cpu (fresh_vcpu [Ok (IoOut 0x3f8 [Byte.x68]); Ok Hlt; Err "Bad address"])];
     vm_memory := {| memory := m128; low_mem_size := 0x8000000 |};
     kernel_loader := None; devices := []; snapshot_fd := ([] : list kvm_userspace_memory_region);
     num_cpus := 1; next_irq := 5; running := false; message_tx := [] |}.

Definition ex_env : Env :=
  {| env_stdout := ex_stdout; env_fs := {| hf_files := ∅; hf_uid := 0; hf_gid := 0 |};
     env_files := ∅ |}.

Lemma ex_vm_new : vm_new 1 = Ok ex_vm.
Proof. reflexivity. Qed.

Lemma vm_new_machine_witness :
  running ex_vm = false ∧ devices ex_vm = [] ∧ kernel_loader ex_vm = None ∧ next_irq ex_vm = 5 ∧
  map vcpu_id (vcpus ex_vm) = seqZ 0 1 ∧
  (∀ x, is_Some (gm_byte (vm_mem ex_vm) x) ↔ 0 ≤ x < MEMORY_SIZE) ∧
  (∀ x, (∃ r, r ∈ vm_slots (vm_fd ex_vm) ∧ slot_covers r x) ↔ 0 ≤ x < MEMORY_SIZE).
Proof. apply (vm_new_machine 1 ex_vm). apply ex_vm_new. Defined.

(** A console and a network device, but no disk. *)
Definition ex_attachments : list attachment :=
  [AttConsole; AttNet "127.0.0.1:5000" "127.0.0.1:5001"].

Definition ex_attached : machine := (attach_all ex_attachments (ex_vm, ex_env)).1.

Lemma ex_attach : attach_all ex_attachments (ex_vm, ex_env) = (ex_attached, Ok tt).
Proof. by apply run_ok. Qed.

Lemma attach_irq_vs_cmdline_witness :
  ∃ d, devices ex_attached.1 !! 1%nat = Some d ∧ base_addr d = 0x3000 ∧
    device_irq (device d) = Some 6 ∧ ((base_addr d, 6) ∈ cmdline_devices ↔ 1 = 2).
Proof.
  eexists; split; [reflexivity|].
  exact (attach_irq_vs_cmdline 1 ex_vm ex_env ex_attachments ex_attached 1 _ _ ex_vm_new
           ltac:(simpl; lia) ex_attach eq_refl eq_refl).
Defined.

Lemma devices_unreachable_witness :
  Forall (λ d, in_window 0xfee00000 d = false) (devices ex_attached.1).
Proof.
  apply (devices_unreachable 1 ex_vm ex_env ex_attachments ex_attached
           (fresh_vcpu [Ok (MmioRead 0xfee00000 (zeros 4))] : @VcpuFd _ flat_kvm) m128
           (fresh_vcpu [] : @VcpuFd _ flat_kvm) m128 0xfee00000 (zeros 4) ex_vm_new);
    [simpl; lia|apply ex_attach|]. left. reflexivity.
Defined.

Lemma guest_writes_have_no_effect_witness :
  (dispatch_writes 3 [(0x1030, [Byte.x01]); (0x1050, [Byte.x01]); (0x3050, [Byte.x00])]
     (devices ex_attached.1) (ex_world ex_hi_mem)).1.2 = ex_world ex_hi_mem.
Proof.
  eapply (guest_writes_have_no_effect 1 ex_vm ex_env ex_attachments ex_attached 3
            [(0x1030, [Byte.x01]); (0x1050, [Byte.x01]); (0x3050, [Byte.x00])] (ex_world ex_hi_mem)
            _ _ _ ex_vm_new); [simpl; lia|apply ex_attach|].
  rewrite <- !surjective_pairing. reflexivity.
Defined.

(** ** Runs *)

(** The vCPU plays its script (an output, a halt, an error), then the main
    thread notices. *)
Definition ex_schedule : list agent :=
  concat (replicate 3 [ACpu 0; ACpu 0; ACpu 0; ACpu 0; ACpu 0]) ++ [ACpu 0; ACpu 0] ++
  [AMain; AMain; AMain].

Definition ex_run : RunState := run_sched 1 ex_schedule (run_init ex_vm ex_env).

Lemma run_returns_ok_after_error_witness :
  ∃ r, rs_main ex_run = MReturned r ∧ r = Ok tt ∧
    ∃ i t, rs_threads ex_run !! i = Some t ∧ reported t = true.
Proof.
  exists (Ok tt). split; [reflexivity|].
  apply (run_returns_ok_after_error ex_vm ex_env ex_run); [apply run_sched_reach|reflexivity].
Defined.

(** A machine without vCPUs. *)
Definition idle_vm : VirtualMachine := vm_with_vcpus ex_vm [].

Lemma run_without_threads_hangs_witness :
  let s := run_init idle_vm ex_env in
  let s' := run_sched 1 [AMain; AMain; AMain; AMain; AMain] s in
  (∀ r, rs_main s' ≠ MReturned r) ∧ rs_main s' ≠ MPanicked ∧ ∃ s'', step s' s''.
Proof.
  cbv zeta.
  apply (run_without_threads_hangs idle_vm ex_env (run_init idle_vm ex_env)
           (run_sched 1 [AMain; AMain; AMain; AMain; AMain] (run_init idle_vm ex_env)));
    [apply rtc_refl|by split|apply run_sched_reach].
Defined.

(** The run above just after the vCPU set the error flag. *)
Definition ex_stopping : RunState :=
  run_sched 1 (concat (replicate 3 [ACpu 0; ACpu 0; ACpu 0; ACpu 0; ACpu 0]) ++ [ACpu 0; ACpu 0])
    (run_init ex_vm ex_env).

Lemma shutdown_terminates_witness :
  ∃ s', nsteps step 1 ex_stopping s' ∧ mu ex_stopping = 4%nat ∧ (1 ≤ mu ex_stopping)%nat.
Proof.
  assert (Hstep : ∃ s', step ex_stopping s').
  { destruct (rs_errq ex_stopping) as [|e q] eqn:E; [vm_compute in E; discriminate E|].
    eexists. eapply step_main, ms_recv; [|exact E]. vm_compute. reflexivity. }
  destruct Hstep as [s' Hstep]. pose proof (nsteps_once _ _ Hstep) as Hn.
  exists s'. split_and!; [exact Hn|reflexivity|].
  apply (shutdown_terminates ex_stopping 1 s'); [right; reflexivity|exact Hn].
Defined.

(** ** The program *)

Definition ex_args (restore bootloader : option string) : Args :=
  {| arg_kernel := "vmlinuz"; arg_cpus := 1; arg_memory := 512; arg_disk := None;
     arg_read_only := false; arg_net := Some "127.0.0.1:5000"; arg_peer := Some "127.0.0.1:5001";
     arg_share := []; arg_save_state := None; arg_restore_state := restore;
     arg_bootloader := bootloader; arg_log_level := "info" |}.

Lemma restore_option_never_runs_witness :
  main (ex_args (Some "vm.snap") None) ex_env false (OExit 1) ∧
  false = false ∧ (OExit 1 = OExit 1 ∨ OExit 1 = OPanic).
Proof.
  assert (Hm : main (ex_args (Some "vm.snap") None) ex_env false (OExit 1)).
  { eapply (main_no_boot _ _ ex_vm); [reflexivity|]. reflexivity. }
  split; [exact Hm|].
  exact (restore_option_never_runs (ex_args (Some "vm.snap") None) ex_env false (OExit 1) "vm.snap"
           eq_refl Hm).
Defined.

(** The machine after the kernel has been loaded into memory [m]. *)
Definition ex_booted (m : FlatMem) : machine :=
  let vm1 := vm_with_mem ex_attached.1 (m : @GMem flat_memory) in
  (vm_with_loader (vm_with_vcpus vm1 (for_vcpus (vcpu_init 0x100000 0x7000) (vcpus vm1)).1)
     {| entry_point := 0x100000; cmdline := KERNEL_CMDLINE |}, ex_attached.2).

(** The machine after the boot sector has been loaded as well. *)
Definition ex_booted_real (m m2 : FlatMem) : machine :=
  let vm1 := vm_with_mem (ex_booted m).1 (m2 : @GMem flat_memory) in
  (vm_with_vcpus vm1 (for_vcpus init_vcpu_for_real_mode (vcpus vm1)).1, ex_attached.2).

Lemma ex_attach_devices b :
  attach_devices (ex_args None b) (ex_vm, ex_env) = (ex_attached, Ok tt).
Proof. done. Qed.

Lemma ex_load_kernel :
  let LL : LogLevel := true in
  ∃ m : @GMem flat_memory, gm_regions m = ram128 ∧
    vm_load_kernel "vmlinuz" ex_attached = (ex_booted m, Ok tt).
Proof.
  destruct (flat_load_kernel (LL := true) flat128 kernel_loader_new KERNEL_CMDLINE eq_refl eq_refl)
    as (m & Hreg & Hrun). exists m. split; [done|].
  unfold vm_load_kernel, run_loader, mbind, prog_bind.
  change (vm_mem ex_attached.1) with (flat128 : @GMem flat_memory).
  unfold LogLevel in *. rewrite Hrun. reflexivity.
Qed.

Lemma ex_boot : ∃ m, main_boot (ex_args None None) (ex_vm, ex_env) = (ex_booted m, Ok tt).
Proof.
  destruct ex_load_kernel as (m & _ & Hk). exists m.
  unfold main_boot, mbind, prog_bind. rewrite ex_attach_devices.
  unfold load_guest, or_exit, pmap_err, when_some, mbind, prog_bind.
  cbn [arg_restore_state ex_args arg_log_level arg_kernel arg_bootloader].
  unfold mret at 1, prog_ret at 1. change (logs_info (level "info")) with true.
  unfold LogLevel in *. rewrite Hk. reflexivity.
Qed.

Lemma ex_boot_real :
  ∃ m m2, main_boot (ex_args None (Some "boot.bin")) (ex_vm, ex_env) = (ex_booted_real m m2, Ok tt).
Proof.
  destruct ex_load_kernel as (m & Hreg & Hk). exists m.
  destruct (load_bootloader_runs "boot.bin" m boot_handle boot_file) as (m1 & m2 & Hb & _);
    [done|done|apply ram128_backed; [done|simpl; lia|simpl; lia]|]. exists m2.
  unfold main_boot, mbind, prog_bind. rewrite ex_attach_devices.
  unfold load_guest, or_exit, pmap_err, when_some, mbind, prog_bind.
  cbn [arg_restore_state ex_args arg_log_level arg_kernel arg_bootloader].
  unfold mret at 1, prog_ret at 1. change (logs_info (level "info")) with true.
  unfold LogLevel in *. rewrite Hk. unfold vm_load_bootloader, mbind, prog_bind, on_memory, zoom.
  change (vm_mem (ex_booted m).1) with m. rewrite Hb. reflexivity.
Qed.

Lemma boot_devices_witness :
  ∃ s', main_boot (ex_args None None) (ex_vm, ex_env) = (s', Ok tt) ∧
    (None : option string) = None ∧ (is_Some (Some "127.0.0.1:5000") → is_Some (Some "127.0.0.1:5001")) ∧
    ∃ con disks nets shares,
      devices s'.1 = [con] ++ disks ++ nets ++ shares ∧
      (base_addr con = 0x1000 ∧ ∃ c, device con = DConsole c) ∧
      match disks with [] => True | _ => False end ∧
      match nets with
      | [d] => base_addr d = 0x3000 ∧ ∃ k, device d = DNet k ∧
          udp_bind "127.0.0.1:5000" = Ok (socket k) ∧ peer_addr k = None
      | _ => False
      end ∧
      Forall2 (λ dir d, base_addr d = 0x4000 ∧ ∃ k, device d = DFs k ∧ root (fs_state k) = dir)
        [] shares.
Proof.
  destruct ex_boot as [m Hm]. exists (ex_booted m). split; [exact Hm|].
  apply (boot_devices (ex_args None None) ex_vm ex_env (ex_booted m));
    [apply ex_vm_new|simpl; lia|exact Hm].
Defined.

Lemma boot_mode_witness :
  (∃ s', main_boot (ex_args None None) (ex_vm, ex_env) = (s', Ok tt) ∧
    map vcpu_id (vcpus s'.1) = [0] ∧
    Forall (λ v, ∃ regs sregs, vcpu_get_regs (fd v) = Ok regs ∧ vcpu_get_sregs (fd v) = Ok sregs ∧
      protected_mode sregs ∧ rip regs = 0x100000) (vcpus s'.1)) ∧
  (∃ s', main_boot (ex_args None (Some "boot.bin")) (ex_vm, ex_env) = (s', Ok tt) ∧
    map vcpu_id (vcpus s'.1) = [0] ∧
    Forall (λ v, ∃ regs sregs, vcpu_get_regs (fd v) = Ok regs ∧ vcpu_get_sregs (fd v) = Ok sregs ∧
      real_mode sregs ∧ rip regs = 0x7c00) (vcpus s'.1)).
Proof.
  split.
  - destruct ex_boot as [m Hm]. exists (ex_booted m). split; [exact Hm|].
    exact (boot_mode (ex_args None None) ex_vm ex_env (ex_booted m) ex_vm_new Hm).
  - destruct ex_boot_real as (m & m2 & Hm). exists (ex_booted_real m m2). split; [exact Hm|].
    exact (boot_mode (ex_args None (Some "boot.bin")) ex_vm ex_env (ex_booted_real m m2) ex_vm_new Hm).
Defined.

Lemma exit_code_hides_vcpu_errors_witness :
  ∃ s, main_boot (ex_args None None) (ex_vm, ex_env) = (s, Ok tt) ∧
  main (ex_args None None) ex_env true (OExit 0) ∧ true = true ∧
  ∃ rs, rtc step (run_init s.1 s.2) rs ∧
    ((OExit 0 = OExit 0 ∧ rs_main rs = MReturned (Ok tt) ∧
      ∃ i t, rs_threads rs !! i = Some t ∧ reported t = true) ∨
     (OExit 0 = OPanic ∧ rs_main rs = MPanicked ∧
      ∃ i t, rs_threads rs !! i = Some t ∧ panicked t = true)).
Proof.
  destruct ex_boot as [m Hm]. exists (ex_booted m). split; [exact Hm|].
  assert (Hmain : main (ex_args None None) ex_env true (OExit 0)).
  { eapply (main_ran _ _ ex_vm (ex_booted m)
              (run_sched 1 ex_schedule (run_init (ex_booted m).1 (ex_booted m).2)) (Ok tt));
      [reflexivity|exact Hm|apply run_sched_reach|reflexivity|reflexivity|reflexivity]. }
  split; [exact Hmain|].
  exact (exit_code_hides_vcpu_errors (ex_args None None) ex_env ex_vm (ex_booted m) true (OExit 0)
           eq_refl eq_refl Hm Hmain).
Defined.
